(* ===== verification/_CoqProject ===== *)
-Q . S2P
Prelude.v
PyText.v
PyStr.v
Json.v
JsonFacts.v
JsonScan.v
JsonPrefix.v
Hashes.v
IsoTime.v
Canonicalizer.v
Models.v
CryptoBackend.v
OpenSslDer.v
OpenSslBackend.v
OpenSslFacts.v
EventChain.v
KeyRegistry.v
Verifier.v
Collector.v
StateStore.v
EvidenceStore.v
LockFile.v
RecordFacts.v
Signer.v
SigningRun.v
Integration.v
Modbus.v
Sockets.v
ArchiveEvidence.v
ArchiveEvidenceFacts.v
ArchiveStream.v
ArchiveStreamFacts.v
Archive.v
ArchiveFacts.v
ArchiveTheorems.v
ArchiveExamples.v
Cli.v
CliFacts.v
CliExamples.v
Csv.v
Statistics.v
Benchmark.v
BenchmarkFacts.v
BenchmarkReports.v
Release.v
ArgTypes.v
ArgParse.v
ArgParseFacts.v
CliParser.v
CliParserFacts.v
ModbusServer.v
FakePlc.v
Dnp3Sensor.v
Capture.v
ControllerConfig.v
ControllerCli.v
Supervisor.v
Controller.v
Programs.v
ProgramsFacts.v
Deployment.v
ControllerApp.v
