(* ===== verification/Prelude.v ===== *)
(** * Verification of the ICS Deception Framework (Python package [ics_deception])

    The framework runs decoys of industrial control systems and records what happens to
    them.  Under [src/src/ics_deception/] it has three layers:

    - _evidence_ ([pqc_evidence/]): every event may be sealed in a signed envelope with
      post-quantum signatures, hash-chained to the one before, written transactionally to an
      append-only log, verified against a registry of trusted public keys, and archived
      under encryption;
    - _decoys_ ([honeypots/], [iot_nodes/], [datasets/]): a Modbus server, a sensor for
      DNP3-like traffic, a fake PLC that polls the Modbus server, and replay of captures;
    - _controller_ ([controller/]): a configuration, a supervisor of child processes and an
      HTTP API over them.

    The reference interpreter is CPython 3.11 on Linux.

    ** Conventions (this file)

    A [str] is the list of its code points and a [bytes] a list of integers ([Bytes] is the
    range invariant); Python integers are [Z], unbounded as Python's are, the widths of
    protocol fields appearing where the code enforces them.  A dict is the list of its items
    in insertion order, or a [gmap] where order is not observable.  [res A] is a value or the
    exception that escapes ([exn], one constructor per class, messages without their
    interpolated parts); [SE S A] is a computation on a state [S] which survives the
    exception, so what a failing operation has already done stays visible.  The clock,
    randomness, the operating system's answers and third-party code are arguments, never
    assumptions: an operation on files takes the outcomes of its writes - done, refused after
    some bytes, process dead after some bytes - and its theorems hold for all of them.

    ** Files, in dependency order

    Standard library behaviour the code relies on:
    - [PyText], [PyStr]: UTF-8, [strip], [split], [splitlines], [lower], [isdigit], decimal
      integers with the 4300-digit limit, the textual part of [pathlib], sorting;
    - [Json], [JsonFacts], [JsonScan], [JsonPrefix]: [json.dumps] in every layout used and the
      scanner of [json.loads] with the hooks of [models.py]; printing then scanning gives the
      value back, scanning is total, a torn object never reads back;
    - [Hashes]: SHA3-256, SHA-256, HMAC and base64, executable, with published vectors;
    - [IsoTime]: [datetime.fromisoformat] byte by byte, and [strftime];
    - [ArgParse], [ArgParseFacts]: [argparse] as the programs use it - options, abbreviations,
      subcommands, help, the exits - and a relational reading of a command line which it meets;
    - [Csv]: the [csv] writer and a reader after RFC 4180; [Statistics]: binary64 arithmetic,
      [fmean], [median], [stdev] and [round].

    Evidence layer:
    - [Canonicalizer] (canonicalizer.py): canonical JSON and timestamps;
    - [Models] (models.py): the signed envelope, its validation, its text;
    - [CryptoBackend] (crypto_backend.py): the interface of the backends, the test and the
      portable backend, selection by capability;
    - [OpenSslDer], [OpenSslBackend] (openssl_backend.py): the DER form of raw keys, and every
      operation through the [openssl] program and its work directory; [OpenSslFacts] proves;
    - [EventChain] (event_chain.py): hashes, chain positions, trackers;
    - [KeyRegistry] (key_registry.py): registration, rotation, revocation, import, files;
    - [Verifier] (verifier.py) and [Collector] (collector.py): one record, and streams of
      interleaved nodes;
    - [StateStore] (state_store.py): the locked, atomically replaced chain position;
    - [EvidenceStore] (evidence_store.py): write-ahead journal, log and state as one
      transaction, recovery after crashes; [RecordFacts] bounds what it writes; [LockFile]: its
      lock file, inodes and descriptors, with processes that interleave;
    - [Signer] (signer.py): building, signing and appending events, and that whatever was
      signed is safe; [SigningRun]: that signing makes progress;
    - [Integration] (common/events.py, common/publisher.py, integration.py): telemetry and the
      evidence sink attached to it;
    - [ArchiveEvidence], [ArchiveStream], [Archive] (archive.py): the trust report, the
      streams (HKDF, AES-GCM, gzip) and the container; [ArchiveEvidenceFacts],
      [ArchiveStreamFacts], [ArchiveFacts], [ArchiveTheorems] prove, [ArchiveExamples]
      instantiates;
    - [Cli] (cli.py): the commands, from their parsed arguments to their exit status, with
      [load_public_key_file] and [KeyRegistry.save]; [CliFacts] proves, [CliExamples]
      instantiates; [CliParser] (cli.py): the argument table and [main]; [CliParserFacts];
    - [Benchmark] (benchmark.py, [cmd_benchmark]): the suite over the signer, the collector and
      the archive, its report and its files; [BenchmarkFacts], [BenchmarkReports] prove.

    Around it: [Release] (scripts/make_release.py), [ArgTypes] (common/argtypes.py).

    Decoys: [Modbus] (common/modbus.py), [Sockets] (the connections the handlers run over),
    [ModbusServer] (honeypots/modbus_server.py), [FakePlc] (iot_nodes/fake_plc.py),
    [Dnp3Sensor] (honeypots/dnp3_sensor.py), [Capture] (datasets/pcap_utils.py and
    pcap_loader.py).

    Controller: [ControllerConfig] (controller/config.py and log paths), [ControllerCli]
    (controller/cli.py, common/paths.py, the printed command and the written default of
    config.py), [Supervisor] (controller/process.py), [Controller] (controller/app.py: the
    replay manager and the endpoints), [ControllerApp] (controller/app.py: [create_app], the
    start-up and the shutdown, health and status).

    The programs: [Programs] (the argument tables and the [main] of the decoys, of pcap_loader.py
    and of the controller), [ProgramsFacts]; [Deployment]: the programs as the controller runs
    them.

    ** What is shown

    - _The evidence holds together end to end._  Whatever crashes and failed writes interrupt
      the signer, the log it leaves recovers and verifies ([Signer.signed_log_verifies], over
      [EvidenceStore.crash_recovery] and [StateStore.sessions_consecutive]); a stream is
      reported valid exactly when its records are sound and chained
      ([Collector.verify_stream_sound], [verify_stream_complete], [Verifier.verify_event_iff]),
      and the last hash binds all content before it up to a SHA3-256 collision
      ([EventChain.chain_head_binds], [Canonicalizer.canonical_bytes_injective]).  The store's
      lock excludes, on a plain file of the user's ([LockFile.lock_excludes]).
    - _Signing makes progress._  With a backend that signs and a clock within the key's
      validity, every event of a source is signed, in order, and counted
      ([SigningRun.sign_log_signs_everything]).
    - _Keys._  Registration, rotation and revocation keep the registry's invariants, and a
      saved registry loads back ([KeyRegistry]); selection never falls back to the test
      backend ([CryptoBackend.select_backend_safe]).
    - _Archives._  What is created opens, byte for byte; nothing unauthenticated, oversized or
      of another digest is released; a full verification means what it says; creation is all
      or nothing ([ArchiveTheorems]).
    - _OpenSSL._  Keys never reach an argument list or outlive their work directory, whatever the
      program does; the key formats agree; verification is the program's answer and nothing
      else ([OpenSslFacts], [OpenSslDer.spki_roundtrip]).
    - _At the command line._  What is written for a command is what the program reads
      ([CliParserFacts.command_line_reads]).  However often [sign-event] is stopped by a
      fault, [status] and then [verify-log] exit with 0 ([CliFacts.signed_then_verified]); a
      revoked key never verifies again ([CliFacts.revocation_effective]); the registry commands
      are transactions; what [generate-key] writes is what the other commands read.
    - _The benchmark_ measures what its schedule names, as often as asked, on complete
      operations; its CSV file reads back as the table of the measurements; its exit status
      says which files hold what ([BenchmarkFacts], [BenchmarkReports]).
    - _Releases_ hold nothing that is forbidden, and depend on the files alone ([Release]).
    - _Telemetry is never lost to signing_ and its counters account for every event
      ([Integration]).
    - _Decoys._  The Modbus server reassembles its requests from any segmentation, ends, and
      serves registers linearly; the PLC reads what the server holds; the sensor's sessions
      and samples are bounded; captures stay within the approved directory; whatever the
      command line, a decoy serves within its bounds or not at all
      ([ProgramsFacts.decoys_serve_safely]).
    - _Controller._  Accepted configurations are well-formed; from the start-up on every running
      process is one enabled component's or the replay job's, [GET /status] shows exactly
      those, and none survives the shutdown ([ControllerApp]); a replay job stays within the
      budget and the directory it was given ([Deployment.replay_job_confined]); the shipped
      components agree with each other and with their programs ([Deployment.shipped_fleet]);
      the state the API serves is one the PLC wrote; the command an operator is shown reads
      back, in a shell, as the command that is run.

    ** Bounds and fuel

    [lim] is the interpreter's recursion limit as the JSON scanner meets it; round trips ask
    for 33 levels, the canonicaliser allowing 32.  Fuel is always shown to suffice: the
    scanner's is the length of its text; a connection's the bytes still to come; a chunked
    reader's the length read; a decompression round's [max / CHUNK_BYTES + 3], since every
    round but the last yields a full chunk and the limit stops them.  No theorem assumes that
    fuel suffices.

    ** Interfaces instead of code that is not here

    Backends' algorithms ([dilithium-py], [kyber-py], the [openssl] program), AES-GCM, gzip, the
    ZIP container, Scapy's packets, Pydantic's coercion, [Path.resolve], the process table,
    binding and serving a socket, and what a machine reports of itself are parameters.  Where a
    theorem needs a property of one it is a named class or hypothesis stating documented
    behaviour, and a concrete instance shows it can hold.

    ** Not modelled

    The human-readable printing of the programs and their help texts; FastAPI's routing,
    parameter validation and rendering; the native C and C++ honeypots, which are not Python;
    log file handles and signals to process groups; file modes other than those of keys and
    of the lock file; syncing of directories; the wall clock in reports and in the names of
    files copied aside; the Windows branches. *)
From stdpp Require Export base tactics list numbers gmap sets strings option sorting.
From Stdlib Require Export ZArith Lia.
From Stdlib Require Ascii String.
#[global] Open Scope Z_scope.
#[global] Set Default Goal Selector "!".

(** ** Python text and bytes

    A [str] is its list of code points (surrogates included, as in CPython);
    a [bytes] is a list of integers, [is_byte] being the range invariant. *)
Abbreviation str := (list Z).
Abbreviation bytes := (list Z).

Definition lit (s : string) : str :=
  map (fun a => Z.of_N (Ascii.N_of_ascii a)) (String.list_ascii_of_string s).

Definition is_byte (b : Z) : bool := (0 <=? b) && (b <=? 255).
Notation Bytes := (Forall (fun b => is_byte b = true)).

Definition str_eqb (a b : str) : bool := bool_decide (a = b).

Definition zlen {A} (l : list A) : Z := Z.of_nat (length l).

(** ** Exceptions

    One constructor per exception class the modelled code raises or catches.
    Evidence-layer errors carry the static part of their message, so that two
    different checks stay distinguishable; interpolated values are dropped. *)
Inductive exn :=
| OverflowError
| ValueError (m : string)
| TypeError (m : string)
| IndexError
| KeyError
| OSError (m : string)
| RecursionError
| JSONDecodeError
| UnicodeError
| AssertionError
| AttributeError
| CanonicalizationError (m : string)
| EvidenceValidationError (reason : string) (m : string)
| VerifierError (m : string)
| CollectorError (m : string)
| KeyRegistryError (m : string)
| StateStoreError (m : string)
| StateCorruptionError (m : string)
| StateLockError (m : string)
| EvidenceStoreError (m : string)
| TransactionAborted (m : string)
| EvidenceStateDivergence (m : string)
| SignerError (m : string)
| BackendError (code : string) (m : string)
| BackendUnavailableError (m : string)
| ArchiveError (code : string) (m : string)
| BenchmarkError (m : string)
| BadZipFile (m : string)
| RuntimeError (m : string)
| ArgumentTypeError (m : string)
| SystemExit (status : Z)
| Crash (stage : string)
| OutOfFuel.

#[export] Instance exn_eq_dec : EqDecision exn.
Proof. solve_decision. Defined.

(** ** The error monad: a value or the exception that escapes. *)
Inductive res (A : Type) :=
| Ok (a : A)
| Err (e : exn).
Arguments Ok {A} a.
Arguments Err {A} e.

#[export] Instance res_ret : MRet res := fun A a => Ok a.
#[export] Instance res_bind : MBind res := fun A B f m =>
  match m with Ok a => f a | Err e => Err e end.
#[export] Instance res_fmap : FMap res := fun A B f m =>
  match m with Ok a => Ok (f a) | Err e => Err e end.

Definition is_ok {A} (m : res A) : bool := match m with Ok _ => true | Err _ => false end.

(** [require c e]: raise [e] unless [c] holds. *)
Definition require (c : bool) (e : exn) : res unit := if c then Ok tt else Err e.

(** [try_with m h]: [try: m except ...], [h] giving the handler's outcome. *)
Definition try_with {A} (m : res A) (h : exn -> res A) : res A :=
  match m with Ok a => Ok a | Err e => h e end.

(** [for x in l: f x] over a fallible body with no result. *)
Fixpoint iter_res {A} (f : A -> res unit) (l : list A) : res unit :=
  match l with
  | [] => Ok tt
  | x :: l => f x ;; iter_res f l
  end.

Fixpoint map_res {A B} (f : A -> res B) (l : list A) : res (list B) :=
  match l with
  | [] => Ok []
  | x :: l => y ← f x; ys ← map_res f l; Ok (y :: ys)
  end.

Fixpoint fold_res {A S} (f : S -> A -> res S) (s : S) (l : list A) : res S :=
  match l with
  | [] => Ok s
  | x :: l => s' ← f s x; fold_res f s' l
  end.

Lemma bind_ok {A B} (m : res A) (f : A -> res B) b :
  (m ≫= f) = Ok b <-> exists a, m = Ok a /\ f a = Ok b.
Proof.
  destruct m as [a|e]; simpl; split; [eauto | | done |].
  - intros (? & [= ->] & ?); congruence.
  - intros (? & ? & _); congruence.
Qed.

Lemma bind_err {A B} (m : res A) (f : A -> res B) e :
  (m ≫= f) = Err e <-> m = Err e \/ exists a, m = Ok a /\ f a = Err e.
Proof.
  destruct m as [a|e0]; simpl; split.
  - intros; right; eauto.
  - intros [Hm | (? & [= ->] & ?)]; [discriminate Hm | done].
  - intros [= ->]; by left.
  - intros [[= ->] | (? & Hm & _)]; [done | discriminate Hm].
Qed.

Lemma require_ok c e u : require c e = Ok u <-> c = true.
Proof. by destruct c, u. Qed.

Lemma require_err c e e' : require c e = Err e' <-> c = false /\ e = e'.
Proof.
  destruct c; simpl; split.
  - done.
  - by intros [? _].
  - by intros [= ->].
  - by intros [_ ->].
Qed.

Lemma iter_res_ok {A} (f : A -> res unit) l :
  iter_res f l = Ok tt <-> Forall (fun x => f x = Ok tt) l.
Proof.
  induction l as [|x l IH]; simpl; [naive_solver|].
  rewrite bind_ok, Forall_cons, <- IH. split.
  - intros ([] & ? & ?); auto.
  - intros [? ?]; exists tt; auto.
Qed.

Lemma iter_res_err {A} (f : A -> res unit) l e :
  iter_res f l = Err e -> exists x, x ∈ l /\ f x = Err e.
Proof.
  induction l as [|x l IH]; simpl; [done|].
  rewrite bind_err. intros [H | (? & _ & H)].
  - exists x; split; [left | done].
  - destruct (IH H) as (y & ? & ?). exists y; split; [by right | done].
Qed.

Lemma fold_res_app {A S} (f : S -> A -> res S) l k : forall s, fold_res f s (l ++ k) = (s ← fold_res f s l; fold_res f s k).
Proof. induction l as [|x l IH]; intros s; simpl; [done|]. destruct (f s x); simpl; [apply IH | done]. Qed.

(** ** State and errors together: the state survives the exception. *)
Definition SE (S A : Type) : Type := S -> S * res A.

#[export] Instance se_ret S : MRet (SE S) := fun A a s => (s, Ok a).
#[export] Instance se_bind S : MBind (SE S) := fun A B f m s =>
  match m s with (s', Ok a) => f a s' | (s', Err e) => (s', Err e) end.

Definition lift {S A} (m : res A) : SE S A := fun s => (s, m).
Definition raise {S A} (e : exn) : SE S A := fun s => (s, Err e).
Definition gets {S A} (f : S -> A) : SE S A := fun s => (s, Ok (f s)).
Definition modify {S} (f : S -> S) : SE S unit := fun s => (f s, Ok tt).
(** [try: m except ...]: the handler sees the state [m] left. *)
Definition se_try {S A} (m : SE S A) (h : exn -> SE S A) : SE S A := fun s =>
  match m s with (s', Ok a) => (s', Ok a) | (s', Err e) => h e s' end.

Lemma se_bind_eq {S A B} (m : SE S A) (f : A -> SE S B) s s' a :
  m s = (s', Ok a) -> (m ≫= f) s = f a s'.
Proof. intros H. unfold mbind, se_bind. by rewrite H. Qed.

Lemma se_bind_err {S A B} (m : SE S A) (f : A -> SE S B) s s' e :
  m s = (s', Err e) -> (m ≫= f) s = (s', Err e).
Proof. intros H. unfold mbind, se_bind. by rewrite H. Qed.

Lemma se_bind_ok {S A B} (m : SE S A) (f : A -> SE S B) s s' b :
  (m ≫= f) s = (s', Ok b) <-> exists s1 a, m s = (s1, Ok a) /\ f a s1 = (s', Ok b).
Proof.
  unfold mbind, se_bind. destruct (m s) as [s1 [a|e]]; split.
  - eauto.
  - by intros (? & ? & [= <- <-] & ?).
  - done.
  - by intros (? & ? & [=] & _).
Qed.

Lemma lift_bind {S A B} (m : res A) (f : A -> SE S B) s :
  (lift m ≫= f) s = match m with Ok a => f a s | Err e => (s, Err e) end.
Proof. by destruct m. Qed.

(** A fallible step that leaves the state alone: either it stops the rest, or the rest runs. *)
Lemma lift_bind_cases {S A B} (m : res A) (f : A -> SE S B) s s' r : (lift m ≫= f) s = (s', r) ->
  (exists e, m = Err e /\ s' = s /\ r = Err e) \/ (exists a, m = Ok a /\ f a s = (s', r)).
Proof. rewrite lift_bind. destruct m as [a|e]; [intros; right; eauto | intros [= <- <-]; left; eauto]. Qed.

(** ** Tactics *)

(** Invert one monadic step in a hypothesis, repeatedly. *)
Ltac inv_res :=
  repeat match goal with
  | H : (_ ≫= _) = Ok _ |- _ => apply bind_ok in H as (? & ? & ?)
  | H : require _ _ = Ok _ |- _ => apply require_ok in H
  | H : require _ _ = Err _ |- _ => apply require_err in H as [? <-]
  | H : Ok _ = Ok _ |- _ => injection H; clear H; intros
  | H : Err _ = Err _ |- _ => injection H; clear H; intros
  | H : Ok _ = Err _ |- _ => discriminate H
  | H : Err _ = Ok _ |- _ => discriminate H
  | H : (_, _) = (_, _) |- _ => injection H; clear H; intros
  | H : unit |- _ => destruct H
  | H : prod _ _ |- _ => destruct H
  end; subst.

(** Split boolean conjunctions and reflect integer comparisons. *)
Ltac bool_prop :=
  repeat match goal with
  | H : andb _ _ = true |- _ => apply andb_true_iff in H as [? ?]
  | H : andb _ _ = false |- _ => apply andb_false_iff in H
  | H : orb _ _ = false |- _ => apply orb_false_iff in H as [? ?]
  | H : orb _ _ = true |- _ => apply orb_true_iff in H
  | H : negb _ = true |- _ => apply negb_true_iff in H
  | H : negb _ = false |- _ => apply negb_false_iff in H
  | H : (_ <=? _) = true |- _ => apply Z.leb_le in H
  | H : (_ <=? _) = false |- _ => apply Z.leb_gt in H
  | H : (_ <? _) = true |- _ => apply Z.ltb_lt in H
  | H : (_ <? _) = false |- _ => apply Z.ltb_ge in H
  | H : (_ =? _) = true |- _ => apply Z.eqb_eq in H
  | H : (_ =? _) = false |- _ => apply Z.eqb_neq in H
  | H : bool_decide _ = true |- _ => apply bool_decide_eq_true in H
  | H : bool_decide _ = false |- _ => apply bool_decide_eq_false in H
  end.

Lemma str_eqb_eq a b : str_eqb a b = true <-> a = b.
Proof. unfold str_eqb. apply bool_decide_eq_true. Qed.
Lemma str_eqb_neq a b : str_eqb a b = false <-> a <> b.
Proof. unfold str_eqb. apply bool_decide_eq_false. Qed.
Lemma str_eqb_refl a : str_eqb a a = true.
Proof. by apply str_eqb_eq. Qed.

(** ** Lists *)
Lemma zlen_app {A} (l k : list A) : zlen (l ++ k) = zlen l + zlen k.
Proof. unfold zlen. rewrite length_app. lia. Qed.
Lemma zlen_cons {A} (x : A) l : zlen (x :: l) = 1 + zlen l.
Proof. unfold zlen. simpl. lia. Qed.
Lemma zlen_nil {A} : zlen (@nil A) = 0.
Proof. done. Qed.
Lemma zlen_nonneg {A} (l : list A) : 0 <= zlen l.
Proof. unfold zlen. lia. Qed.
Lemma zlen_map {A B} (f : A -> B) l : zlen (map f l) = zlen l.
Proof. unfold zlen. by rewrite length_map. Qed.

Create HintDb zlen.
#[export] Hint Rewrite @zlen_app @zlen_cons @zlen_nil @zlen_map : zlen.
Ltac zlen := autorewrite with zlen in *.

(** Python slices with non-negative bounds: [l[a:b]] clips to the ends. *)
Definition slice {A} (l : list A) (a b : Z) : list A :=
  take (Z.to_nat (b - a)) (drop (Z.to_nat a) l).

Lemma zlen_slice {A} (l : list A) a b :
  0 <= a -> a <= b -> b <= zlen l -> zlen (slice l a b) = b - a.
Proof. unfold slice, zlen. intros. rewrite length_take, length_drop. lia. Qed.

Lemma Bytes_slice b i j : Bytes b -> Bytes (slice b i j).
Proof. intros. by apply Forall_take, Forall_drop. Qed.

(** [int.from_bytes(b, "big")]. *)
Definition from_be (b : bytes) : Z := fold_left (fun acc x => acc * 256 + x) b 0.

(** [n.to_bytes(2, "big")]: raises OverflowError out of range. *)
Definition to_be16 (n : Z) : res bytes :=
  if (0 <=? n) && (n <? 65536) then Ok [n / 256; n mod 256] else Err OverflowError.

Lemma to_be16_ok n : 0 <= n < 65536 -> to_be16 n = Ok [n / 256; n mod 256].
Proof.
  intros. unfold to_be16.
  replace (0 <=? n) with true by (symmetry; lia).
  by replace (n <? 65536) with true by (symmetry; lia).
Qed.

Lemma to_be16_inv n b : to_be16 n = Ok b -> 0 <= n < 65536 /\ b = [n / 256; n mod 256].
Proof. unfold to_be16. case_match; intros; inv_res. bool_prop. split; [lia | done]. Qed.

Lemma from_be16 n : 0 <= n < 65536 -> from_be [n / 256; n mod 256] = n.
Proof. intros. unfold from_be. simpl. pose proof (Z.div_mod n 256). lia. Qed.

Lemma from_be16_range a b :
  is_byte a = true -> is_byte b = true -> 0 <= from_be [a; b] < 65536.
Proof. unfold is_byte, from_be; simpl. intros; bool_prop; lia. Qed.

Lemma is_byte_mod n : is_byte (n mod 256) = true.
Proof.
  unfold is_byte. pose proof (Z.mod_pos_bound n 256). apply andb_true_iff.
  rewrite !Z.leb_le. lia.
Qed.

Lemma is_byte_div16 n : 0 <= n < 65536 -> is_byte (n / 256) = true.
Proof.
  intros. unfold is_byte. apply andb_true_iff. rewrite !Z.leb_le.
  split; [apply Z.div_pos; lia | apply Z.lt_succ_r, Z.div_lt_upper_bound; lia].
Qed.

Create HintDb pybytes.
#[export] Hint Resolve is_byte_mod is_byte_div16 : pybytes.
