(* ===== verification/PyText.v ===== *)
(** Python text primitives used by the modelled code: UTF-8 (strict and
    [errors="replace"] decoding), [strip], decimal integers.  CPython 3.11 is the
    reference interpreter. *)
From S2P Require Import Prelude.

(** ** UTF-8 *)
Definition is_surrogate (c : Z) : bool := (0xD800 <=? c) && (c <=? 0xDFFF).
Definition is_scalar (c : Z) : bool := (0 <=? c) && (c <=? 0x10FFFF) && negb (is_surrogate c).

Definition utf8_encode1 (c : Z) : bytes :=
  if c <? 0x80 then [c]
  else if c <? 0x800 then [0xC0 + c / 64; 0x80 + c mod 64]
  else if c <? 0x10000 then [0xE0 + c / 4096; 0x80 + (c / 64) mod 64; 0x80 + c mod 64]
  else [0xF0 + c / 262144; 0x80 + (c / 4096) mod 64; 0x80 + (c / 64) mod 64; 0x80 + c mod 64].

(** [s.encode("utf-8")]: a lone surrogate has no encoding. *)
Definition utf8_encode (s : str) : res bytes :=
  if existsb is_surrogate s then Err UnicodeError
  else Ok (concat (map utf8_encode1 s)).

Definition cont (b : Z) : bool := (0x80 <=? b) && (b <=? 0xBF).

(** Legal second bytes: no overlong forms, no surrogates, nothing above U+10FFFF. *)
Definition second_ok (b0 b1 : Z) : bool :=
  cont b1 &&
  (if b0 =? 0xE0 then 0xA0 <=? b1
   else if b0 =? 0xED then b1 <=? 0x9F
   else if b0 =? 0xF0 then 0x90 <=? b1
   else if b0 =? 0xF4 then b1 <=? 0x8F
   else true).

(** Decoded units; [None] is one maximal ill-formed subsequence. *)
Fixpoint utf8_units (b : bytes) : list (option Z) :=
  match b with
  | [] => []
  | b0 :: r =>
    if b0 <? 0x80 then Some b0 :: utf8_units r
    else if (b0 <? 0xC2) || (0xF5 <=? b0) then None :: utf8_units r
    else match r with
    | [] => [None]
    | b1 :: r1 =>
      if b0 <? 0xE0 then
        if cont b1 then Some ((b0 - 0xC0) * 64 + (b1 - 0x80)) :: utf8_units r1
        else None :: utf8_units r
      else if negb (second_ok b0 b1) then None :: utf8_units r
      else match r1 with
      | [] => [None]
      | b2 :: r2 =>
        if negb (cont b2) then None :: utf8_units r1
        else if b0 <? 0xF0 then
          Some ((b0 - 0xE0) * 4096 + (b1 - 0x80) * 64 + (b2 - 0x80)) :: utf8_units r2
        else match r2 with
        | [] => [None]
        | b3 :: r3 =>
          if cont b3 then
            Some ((b0 - 0xF0) * 262144 + (b1 - 0x80) * 4096 + (b2 - 0x80) * 64 + (b3 - 0x80))
              :: utf8_units r3
          else None :: utf8_units r2
        end
      end
    end
  end.

(** [b.decode("utf-8")]. *)
Definition utf8_decode (b : bytes) : res str :=
  match mapM id (utf8_units b) with
  | Some s => Ok s
  | None => Err UnicodeError
  end.

(** [b.decode("utf-8", errors="replace")]. *)
Definition utf8_decode_replace (b : bytes) : str := map (default 0xFFFD) (utf8_units b).

(** ** Whitespace *)
(** [str.isspace] code points. *)
Definition is_space (c : Z) : bool :=
  ((0x9 <=? c) && (c <=? 0xD)) || ((0x1C <=? c) && (c <=? 0x20)) || (c =? 0x85) || (c =? 0xA0)
  || (c =? 0x1680) || ((0x2000 <=? c) && (c <=? 0x200A)) || (c =? 0x2028) || (c =? 0x2029)
  || (c =? 0x202F) || (c =? 0x205F) || (c =? 0x3000).

(** [bytes] whitespace: ASCII only, without the separators 0x1C..0x1F. *)
Definition is_bspace (c : Z) : bool := ((0x9 <=? c) && (c <=? 0xD)) || (c =? 0x20).

Fixpoint drop_while (p : Z -> bool) (l : list Z) : list Z :=
  match l with
  | [] => []
  | x :: r => if p x then drop_while p r else l
  end.

Definition strip_with (p : Z -> bool) (l : list Z) : list Z :=
  rev (drop_while p (rev (drop_while p l))).

Definition strip (s : str) : str := strip_with is_space s.
Definition bstrip (b : bytes) : bytes := strip_with is_bspace b.

Definition starts_with (p s : str) : bool := str_eqb (take (length p) s) p.
Definition ends_with (p s : str) : bool :=
  (length p <=? length s)%nat && str_eqb (drop (length s - length p) s) p.

(** [open(..., encoding="utf-8", errors="replace")] iterated: universal newlines,
    so CR, LF and CR LF all end a line.  Terminators are dropped here; every
    modelled reader strips its lines anyway. *)
Fixpoint split_lines_aux (s : str) (cur : str) : list str :=
  match s with
  | [] => if bool_decide (cur = []) then [] else [rev cur]
  | 0xA :: r => rev cur :: split_lines_aux r []
  | 0xD :: (0xA :: r) => rev cur :: split_lines_aux r []
  | 0xD :: r => rev cur :: split_lines_aux r []
  | c :: r => split_lines_aux r (c :: cur)
  end.
Definition text_lines (s : str) : list str := split_lines_aux s [].

(** ** Decimal integers *)
Definition is_digit (c : Z) : bool := (48 <=? c) && (c <=? 57).

(** Most significant first; [n] bounds the number of digits. *)
Fixpoint digs (n : nat) (z : Z) (acc : str) : str :=
  match n with
  | O => acc
  | S n => let acc := (48 + z mod 10) :: acc in
           if z <? 10 then acc else digs n (z / 10) acc
  end.

(** Decimal digits of a non-negative integer. *)
Definition dec_digits (z : Z) : str := digs (S (Z.to_nat (Z.log2 z))) z [].

(** CPython's integer/string conversion limit (PYTHONINTMAXSTRDIGITS default). *)
Definition INT_MAX_STR_DIGITS := 4300.
Definition INT_LIMIT := 10 ^ INT_MAX_STR_DIGITS.
#[global] Opaque INT_LIMIT.

(** [str(z)]: ValueError beyond the digit limit. *)
Definition int_str (z : Z) : res str :=
  if INT_LIMIT <=? Z.abs z then Err (ValueError "int string conversion limit")
  else Ok (if z <? 0 then 45 :: dec_digits (- z) else dec_digits z).

Definition from_digits (s : str) : Z := fold_left (fun acc c => acc * 10 + (c - 48)) s 0.

(** ** Facts *)
Ltac zdec :=
  repeat match goal with
  | |- context [?a <? ?b] =>
      first [ replace (a <? b) with true by (symmetry; apply Z.ltb_lt; lia)
            | replace (a <? b) with false by (symmetry; apply Z.ltb_ge; lia) ]
  | |- context [?a <=? ?b] =>
      first [ replace (a <=? b) with true by (symmetry; apply Z.leb_le; lia)
            | replace (a <=? b) with false by (symmetry; apply Z.leb_gt; lia) ]
  | |- context [?a =? ?b] =>
      first [ replace (a =? b) with true by (symmetry; apply Z.eqb_eq; lia)
            | replace (a =? b) with false by (symmetry; apply Z.eqb_neq; lia) ]
  end; cbn [andb orb negb].

Lemma cont_ok m : 0 <= m < 64 -> cont (0x80 + m) = true.
Proof. intros. unfold cont. by zdec. Qed.

Lemma utf8_units2 q m r : 2 <= q < 32 -> 0 <= m < 64 ->
  utf8_units (0xC0 + q :: 0x80 + m :: r) = Some (q * 64 + m) :: utf8_units r.
Proof.
  intros. cbn [utf8_units]. rewrite cont_ok by lia. zdec. do 2 f_equal. lia.
Qed.

Lemma second_ok3 q m : 0 <= q < 16 -> 0 <= m < 64 -> (q = 0 -> 32 <= m) -> (q = 13 -> m < 32) ->
  second_ok (0xE0 + q) (0x80 + m) = true.
Proof.
  intros. unfold second_ok. rewrite cont_ok by lia.
  destruct (Z.eq_dec q 0) as [->|]; [by zdec|].
  destruct (Z.eq_dec q 13) as [->|]; by zdec.
Qed.

Lemma utf8_units3 q m k r : 0 <= q < 16 -> 0 <= m < 64 -> 0 <= k < 64 ->
  (q = 0 -> 32 <= m) -> (q = 13 -> m < 32) ->
  utf8_units (0xE0 + q :: 0x80 + m :: 0x80 + k :: r) =
    Some (q * 4096 + m * 64 + k) :: utf8_units r.
Proof.
  intros. cbn [utf8_units]. rewrite second_ok3, cont_ok by lia. zdec. do 2 f_equal. lia.
Qed.

Lemma second_ok4 q m : 0 <= q <= 4 -> 0 <= m < 64 -> (q = 0 -> 16 <= m) -> (q = 4 -> m < 16) ->
  second_ok (0xF0 + q) (0x80 + m) = true.
Proof.
  intros. unfold second_ok. rewrite cont_ok by lia.
  destruct (Z.eq_dec q 0) as [->|]; [by zdec|].
  destruct (Z.eq_dec q 4) as [->|]; by zdec.
Qed.

Lemma utf8_units4 q m k j r : 0 <= q <= 4 -> 0 <= m < 64 -> 0 <= k < 64 -> 0 <= j < 64 ->
  (q = 0 -> 16 <= m) -> (q = 4 -> m < 16) ->
  utf8_units (0xF0 + q :: 0x80 + m :: 0x80 + k :: 0x80 + j :: r) =
    Some (q * 262144 + m * 4096 + k * 64 + j) :: utf8_units r.
Proof.
  intros. cbn [utf8_units]. rewrite second_ok4, !cont_ok by lia. zdec. do 2 f_equal. lia.
Qed.

Lemma is_scalar_spec c :
  is_scalar c = true <-> 0 <= c <= 0x10FFFF /\ (c < 0xD800 \/ 0xDFFF < c).
Proof.
  unfold is_scalar, is_surrogate.
  rewrite !andb_true_iff, negb_true_iff, andb_false_iff, !Z.leb_le, !Z.leb_gt. lia.
Qed.

Lemma div_mod64 c : c = 64 * (c / 64) + c mod 64 /\ 0 <= c mod 64 < 64.
Proof. split; [apply Z.div_mod; lia | apply Z.mod_pos_bound; lia]. Qed.

Lemma utf8_units_app1 c r :
  is_scalar c = true -> utf8_units (utf8_encode1 c ++ r) = Some c :: utf8_units r.
Proof.
  rewrite is_scalar_spec. intros [Hc Hs]. unfold utf8_encode1.
  pose proof (div_mod64 c). pose proof (div_mod64 (c / 64)). pose proof (div_mod64 (c / 64 / 64)).
  replace (c / 262144) with (c / 64 / 64 / 64) by (rewrite !Z.div_div; done).
  replace (c / 4096) with (c / 64 / 64) by (rewrite Z.div_div; done).
  destruct (Z.ltb_spec c 0x80); [|destruct (Z.ltb_spec c 0x800);
    [|destruct (Z.ltb_spec c 0x10000)]].
  - simpl. by zdec.
  - cbn [app]. rewrite utf8_units2 by lia. do 2 f_equal. lia.
  - cbn [app]. rewrite utf8_units3 by lia. do 2 f_equal. lia.
  - cbn [app]. rewrite utf8_units4 by lia. do 2 f_equal. lia.
Qed.

Lemma utf8_encode_ok s b :
  utf8_encode s = Ok b <-> existsb is_surrogate s = false /\ b = concat (map utf8_encode1 s).
Proof. unfold utf8_encode. destruct existsb; split; intros; destruct_and?; inv_res; done. Qed.

(** Decoding undoes encoding on every string that can be encoded. *)
Lemma utf8_decode_encode s b :
  Forall (fun c => 0 <= c <= 0x10FFFF) s -> utf8_encode s = Ok b -> utf8_decode b = Ok s.
Proof.
  rewrite utf8_encode_ok. intros Hr [Hs ->]. unfold utf8_decode.
  enough (utf8_units (concat (map utf8_encode1 s)) = map Some s) as ->.
  { clear. assert (mapM id (map Some s) = Some s) as ->; [|done].
    induction s as [|c s IH]; [done|]. simpl. by rewrite IH. }
  induction s as [|c s IH]; [done|]. inv Hr.
  simpl in Hs. bool_prop. simpl. rewrite utf8_units_app1; [by rewrite IH|].
  unfold is_scalar. rename select (is_surrogate c = false) into Hc. rewrite Hc.
  apply andb_true_iff; split; [|done]. apply andb_true_iff. rewrite !Z.leb_le. lia.
Qed.

Lemma utf8_encode_inj s t b :
  Forall (fun c => 0 <= c <= 0x10FFFF) s -> Forall (fun c => 0 <= c <= 0x10FFFF) t ->
  utf8_encode s = Ok b -> utf8_encode t = Ok b -> s = t.
Proof.
  intros Hs Ht Es Et. pose proof (utf8_decode_encode _ _ Hs Es) as D.
  rewrite (utf8_decode_encode _ _ Ht Et) in D. by inv_res.
Qed.

Lemma from_digits_app a b : from_digits (a ++ b) = from_digits a * 10 ^ zlen b + from_digits b.
Proof.
  unfold from_digits. rewrite fold_left_app. generalize (fold_left (fun acc c => acc * 10 + (c - 48)) a 0).
  induction b as [|x b IH] using rev_ind; intros z.
  - simpl. rewrite zlen_nil. lia.
  - rewrite !fold_left_app, IH. zlen. simpl. rewrite Z.add_comm, Z.pow_add_r by (pose proof (zlen_nonneg b); lia).
    lia.
Qed.

Lemma digs_spec n : forall z acc, (n > 0)%nat -> 0 <= z < 2 ^ Z.of_nat n ->
  exists d ds, digs n z acc = (d :: ds) ++ acc /\ Forall (fun c => is_digit c = true) (d :: ds)
    /\ from_digits (d :: ds) = z /\ (d = 48 -> z = 0 /\ ds = []).
Proof.
  induction n as [|n IH]; intros z acc Hn Hz; [lia|]. clear Hn. simpl.
  assert (is_digit (48 + z mod 10) = true) as Hd.
  { unfold is_digit. pose proof (Z.mod_pos_bound z 10). apply andb_true_iff. rewrite !Z.leb_le. lia. }
  destruct (Z.ltb_spec z 10).
  - exists (48 + z mod 10), []. rewrite Z.mod_small in * by lia.
    split; [done|]. split; [by constructor|]. unfold from_digits. simpl. split; [lia|].
    intros. split; [lia | done].
  - rewrite Nat2Z.inj_succ, Z.pow_succ_r in Hz by lia.
    assert (n > 0)%nat by (destruct n; [simpl in Hz; lia | lia]).
    edestruct (IH (z / 10) ((48 + z mod 10) :: acc)) as (d & ds & E & F & V & Z0); [done| |].
    { pose proof (Z.div_mod z 10). pose proof (Z.mod_pos_bound z 10). nia. }
    exists d, (ds ++ [48 + z mod 10]). rewrite E. split; [by rewrite <- !app_assoc|].
    split; [inv F; constructor; [done|]; by apply Forall_app_2, Forall_singleton|].
    split.
    + change (d :: ds ++ [48 + z mod 10]) with ((d :: ds) ++ [48 + z mod 10]).
      rewrite from_digits_app, V. unfold from_digits. simpl. unfold zlen. simpl.
      pose proof (Z.div_mod z 10). lia.
    + intros Hd0. destruct (Z0 Hd0). pose proof (Z.div_mod z 10). pose proof (Z.mod_pos_bound z 10). lia.
Qed.

Lemma dec_digits_spec z : 0 <= z ->
  exists d ds, dec_digits z = d :: ds /\ Forall (fun c => is_digit c = true) (d :: ds)
    /\ from_digits (d :: ds) = z /\ (d = 48 -> z = 0 /\ ds = []).
Proof.
  intros Hz. unfold dec_digits.
  destruct (digs_spec (S (Z.to_nat (Z.log2 z))) z []) as (d & ds & E & ?); [lia| |].
  - split; [done|]. rewrite Nat2Z.inj_succ, Z2Nat.id by apply Z.log2_nonneg.
    destruct (Z.eq_dec z 0) as [->|]; [done|]. apply Z.log2_spec. lia.
  - exists d, ds. rewrite app_nil_r in E. by rewrite E.
Qed.

(** Decoded characters are code points. *)
Lemma utf8_units_range n : forall b, (length b <= n)%nat -> Bytes b ->
  Forall (fun u => match u with Some c => 0 <= c <= 0x10FFFF | None => True end) (utf8_units b).
Proof.
  assert (forall x, is_byte x = true -> 0 <= x <= 255) as R.
  { intros x Hx. unfold is_byte in Hx. bool_prop. lia. }
  induction n as [|n IH]; intros b Hn F; (destruct b as [|b0 r]; [constructor|]); [simpl in Hn; lia|].
  apply Forall_cons in F as [HB0%R F]. simpl in Hn. cbn [utf8_units].
  destruct (Z.ltb_spec b0 0x80); [constructor; [lia | apply IH; [lia | done]]|].
  destruct ((b0 <? 0xC2) || (0xF5 <=? b0)) eqn:E0; [constructor; [done | apply IH; [lia | done]]|].
  bool_prop. destruct r as [|b1 r1]; [repeat constructor|].
  pose proof F as F1. apply Forall_cons in F1 as [HB1%R F1]. simpl in Hn.
  destruct (Z.ltb_spec b0 0xE0).
  { unfold cont. destruct (_ && _) eqn:E1; bool_prop; constructor; try done; try lia; apply IH; simpl; done || lia. }
  destruct (negb (second_ok b0 b1)) eqn:E1; [constructor; [done | apply IH; [simpl; lia | done]]|].
  apply negb_false_iff in E1. unfold second_ok in E1. apply andb_true_iff in E1 as [C1 E1].
  unfold cont in C1. apply andb_true_iff in C1 as [C1 C1']. apply Z.leb_le in C1, C1'.
  destruct r1 as [|b2 r2]; [repeat constructor|].
  pose proof F1 as F2. apply Forall_cons in F2 as [HB2%R F2]. simpl in Hn.
  destruct (negb (cont b2)) eqn:E2; [constructor; [done | apply IH; [simpl; lia | done]]|].
  unfold cont in E2. bool_prop.
  destruct (Z.ltb_spec b0 0xF0); [constructor; [lia | apply IH; [lia | done]]|].
  destruct r2 as [|b3 r3]; [repeat constructor|].
  pose proof F2 as F3. apply Forall_cons in F3 as [HB3%R F3]. simpl in Hn.
  destruct (cont b3) eqn:E3; [|constructor; [done | apply IH; [simpl; lia | done]]].
  unfold cont in E3. bool_prop. constructor; [|apply IH; [lia | done]].
  destruct (Z.eqb_spec b0 0xF4) as [->|]; [simpl in E1; bool_prop; lia | lia].
Qed.

Lemma utf8_decode_range b s : Bytes b -> utf8_decode b = Ok s -> Forall (fun c => 0 <= c <= 0x10FFFF) s.
Proof.
  intros Hb. unfold utf8_decode. destruct (mapM id (utf8_units b)) as [t|] eqn:E; [|done]. intros [= ->].
  pose proof (utf8_units_range (length b) b (le_n _) Hb) as F. revert s E F.
  induction (utf8_units b) as [|[c|] l IH]; intros s E F; simpl in E; [by injection E as <- | |done].
  apply Forall_cons in F as [Hc F]. destruct (mapM id l) as [t|]; [|done]. injection E as <-.
  constructor; [done | by apply IH].
Qed.
