(* ===== verification/PyStr.v ===== *)
(** More of [str], [int] and [pathlib] as the code uses them: splitting, the components and
    suffix of a path, lower case, and the digits of a number's text. *)
From S2P Require Import Prelude PyText.

(** ** Paths *)

(** Path components; [split_on] is [str.split] with a one-character separator. *)
Abbreviation path := (list str).

Fixpoint split_on (c : Z) (s cur : str) : list str :=
  match s with
  | [] => [cur]
  | x :: s => if x =? c then cur :: split_on c s [] else split_on c s (cur ++ [x])
  end.

Definition parts (s : str) : path :=
  List.filter (fun p => negb (str_eqb p []) && negb (str_eqb p [46])) (split_on 47 s []).
Definition is_absolute (s : str) : bool := match s with 47 :: _ => true | _ => false end.

(** [Path(s).suffix]: from the last dot of the name, unless it starts or ends it. *)
Fixpoint last_dot (s : str) (i : nat) (found : option nat) : option nat :=
  match s with
  | [] => found
  | x :: s => last_dot s (S i) (if x =? 46 then Some i else found)
  end.

Definition suffix (s : str) : str :=
  match last (parts s) with
  | None => []
  | Some name =>
    match last_dot name 0 None with
    | Some (S i) => if (S (S i) <? length name)%nat then drop (S i) name else []
    | _ => []
    end
  end.

(** [lower], as far as a comparison with an ASCII text can see: beyond ASCII, one letter - the
    Kelvin sign - has an ASCII letter for its lower case. *)
Definition lower1 (c : Z) : Z := if (65 <=? c) && (c <=? 90) then c + 32 else if c =? 0x212A then 107 else c.
Definition lower (s : str) : str := map lower1 s.
(** ** Parts of a text *)

(** [text.partition(c)] when [c] occurs. *)
Fixpoint partition (c : Z) (s : str) : option (str * str) :=
  match s with
  | [] => None
  | x :: s => if x =? c then Some ([], s) else '(a, b) ← partition c s; Some (x :: a, b)
  end.

Definition count_char (c : Z) (s : str) : nat := length (List.filter (fun x => x =? c) s).

(** [text.startswith(c)] *)
Definition starts (c : Z) (s : str) : bool := match s with x :: _ => x =? c | [] => false end.

(** [text.split()] *)
Fixpoint split_ws (s cur : str) : list str :=
  match s with
  | [] => if str_eqb cur [] then [] else [cur]
  | c :: s =>
    if is_space c then (if str_eqb cur [] then split_ws s [] else cur :: split_ws s [])
    else split_ws s (cur ++ [c])
  end.

(** [text.splitlines()] *)
Definition is_linebreak (c : Z) : bool :=
  ((10 <=? c) && (c <=? 13)) || ((28 <=? c) && (c <=? 30)) || (c =? 0x85) || (c =? 0x2028) || (c =? 0x2029).

Fixpoint splitlines (s cur : str) : list str :=
  match s with
  | [] => if str_eqb cur [] then [] else [cur]
  | 13 :: 10 :: r => cur :: splitlines r []
  | c :: r => if is_linebreak c then cur :: splitlines r [] else splitlines r (cur ++ [c])
  end.

(** ** Sorting *)

(** Insertion sort: stable, [lt b a] decides that [b] goes before [a]. *)
Fixpoint insert_by {A} (lt : A -> A -> bool) (x : A) (l : list A) : list A :=
  match l with
  | [] => [x]
  | y :: r => if lt y x then y :: insert_by lt x r else x :: l
  end.
Fixpoint sort_by {A} (lt : A -> A -> bool) (l : list A) : list A :=
  match l with [] => [] | x :: r => insert_by lt x (sort_by lt r) end.

Lemma insert_by_perm {A} (lt : A -> A -> bool) x l : insert_by lt x l ≡ₚ x :: l.
Proof. induction l as [|y l IH]; simpl; [done|]. case_match; [|done]. rewrite IH. constructor. Qed.

Lemma sort_by_perm {A} (lt : A -> A -> bool) l : sort_by lt l ≡ₚ l.
Proof. induction l as [|x l IH]; simpl; [done|]. by rewrite insert_by_perm, IH. Qed.

(** ** Digits *)

(** The digits of Unicode beyond ASCII: decimal ones with their value, and those that
    [str.isdigit] accepts and [int] does not. *)
Record UnicodeDigits := {
  decimal : Z -> option Z;
  other_digit : Z -> bool;
}.

Section Digits.
Context (U : UnicodeDigits).

Definition digit_value (c : Z) : option Z :=
  if is_digit c then Some (c - 48) else if c <? 128 then None else decimal U c.
Definition isdigit1 (c : Z) : bool :=
  match digit_value c with Some _ => true | None => (128 <=? c) && other_digit U c end.
Definition isdigit (s : str) : bool := negb (str_eqb s []) && forallb isdigit1 s.

Fixpoint decimal_value (s : str) (acc : Z) : option Z :=
  match s with
  | [] => Some acc
  | c :: s => d ← digit_value c; decimal_value s (acc * 10 + d)
  end.

(** [int(text)] for a text of digits. *)
Definition int_of (s : str) : res Z :=
  match decimal_value s 0 with
  | Some n => require (zlen s <=? INT_MAX_STR_DIGITS) (ValueError "Exceeds the limit for integer string conversion") ;; Ok n
  | None => Err (ValueError "invalid literal for int()")
  end.

End Digits.

(** Only the ASCII digits. *)
Definition no_digits : UnicodeDigits := {| decimal := fun _ => None; other_digit := fun _ => false |}.

(** ** Facts *)
Lemma ascii_digits U s : forall acc, Forall (fun c => is_digit c = true) s ->
  decimal_value U s acc = Some (fold_left (fun acc c => acc * 10 + (c - 48)) s acc).
Proof.
  induction s as [|c s IH]; intros acc F; [done|]. apply Forall_cons in F as [Hc F].
  simpl. unfold digit_value. rewrite Hc. simpl. by apply IH.
Qed.

Lemma partition_first c a b : Forall (fun x => x <> c) a -> partition c (a ++ c :: b) = Some (a, b).
Proof.
  induction 1 as [|x a Hx _ IH]; simpl; [by rewrite Z.eqb_refl|].
  rewrite (proj2 (Z.eqb_neq _ _)) by done. by rewrite IH.
Qed.

Lemma count_char_none c a : Forall (fun x => x <> c) a -> count_char c a = 0%nat.
Proof.
  unfold count_char. induction 1 as [|x a Hx _ IH]; [done|]. simpl. by rewrite (proj2 (Z.eqb_neq _ _)).
Qed.

Lemma count_char_app c a b : count_char c (a ++ b) = (count_char c a + count_char c b)%nat.
Proof. unfold count_char. by rewrite List.filter_app, length_app. Qed.

