(* ===== verification/Json.v ===== *)
(** Python values as the evidence code meets them, and the parts of the standard
    [json] module it uses: [dumps] (canonical, indented and default layouts) and
    [loads] with the hooks of [pqc_evidence/models.py].  The scanner follows
    CPython 3.11's [_json.c]. *)
From S2P Require Import Prelude PyText.
From Stdlib Require Export SpecFloat.

(** ** Values *)
Inductive key :=
| KStr (s : str)
| KOther (ty : string).

Inductive value :=
| VNone
| VBool (b : bool)
| VInt (z : Z)
| VFloat (f : spec_float)
| VStr (s : str)
| VBytes (b : bytes)
| VList (l : list value)
| VTuple (l : list value)
| VDict (d : list (key * value))
| VOther (ty : string).

Definition kstr (k : key) : str := match k with KStr s => s | KOther _ => [] end.

(** ** Ordering of object keys: by code point *)
Fixpoint str_ltb (a b : str) : bool :=
  match a, b with
  | _, [] => false
  | [], _ :: _ => true
  | x :: a, y :: b => (x <? y) || ((x =? y) && str_ltb a b)
  end.

Fixpoint insert_kv {A} (x : str * A) (l : list (str * A)) : list (str * A) :=
  match l with
  | [] => [x]
  | y :: r => if str_ltb y.1 x.1 then y :: insert_kv x r else x :: l
  end.

(** [sorted(d.items())]: stable, and keys are unique in a dict. *)
Fixpoint sort_kv {A} (l : list (str * A)) : list (str * A) :=
  match l with
  | [] => []
  | x :: r => insert_kv x (sort_kv r)
  end.

(** ** [json.dumps] *)
Record cfg := {
  c_ascii : bool;              (* ensure_ascii *)
  c_sort : bool;               (* sort_keys *)
  c_isep : str;                (* item separator *)
  c_ksep : str;                (* key separator *)
  c_indent : option nat;       (* indent *)
  c_float : spec_float -> str; (* float.__repr__ *)
}.

Definition hexdig (n : Z) : Z := if n <? 10 then 48 + n else 87 + n.
Definition u_esc (c : Z) : str :=
  [92; 117; hexdig (c / 4096); hexdig ((c / 256) mod 16); hexdig ((c / 16) mod 16); hexdig (c mod 16)].

Definition esc1 (ascii : bool) (c : Z) : str :=
  if c =? 34 then [92; 34]
  else if c =? 92 then [92; 92]
  else if c =? 10 then [92; 110]
  else if c =? 13 then [92; 114]
  else if c =? 9 then [92; 116]
  else if c =? 12 then [92; 102]
  else if c =? 8 then [92; 98]
  else if c <? 32 then u_esc c
  else if negb ascii || (c <? 127) then [c]
  else if c <? 0x10000 then u_esc c
  else u_esc (0xD800 + (c - 0x10000) / 1024) ++ u_esc (0xDC00 + (c - 0x10000) mod 1024).

Definition quote (ascii : bool) (s : str) : str := 34 :: concat (map (esc1 ascii) s) ++ [34].

Fixpoint join (sep : str) (l : list str) : str :=
  match l with
  | [] => []
  | [x] => x
  | x :: r => x ++ sep ++ join sep r
  end.

(** The newline and indentation before an item at nesting [lvl]. *)
Definition nl (c : cfg) (lvl : nat) : str :=
  match c_indent c with None => [] | Some k => 10 :: repeat 32 (k * lvl) end.

Definition wrap (c : cfg) (lvl : nat) (op cl : Z) (items : list str) : str :=
  match items with
  | [] => [op; cl]
  | _ => op :: nl c (S lvl) ++ join (c_isep c ++ nl c (S lvl)) items ++ nl c lvl ++ [cl]
  end.

Definition int_text (z : Z) : str := if z <? 0 then 45 :: dec_digits (- z) else dec_digits z.

Definition member (c : cfg) (kv : str * str) : str := quote (c_ascii c) kv.1 ++ c_ksep c ++ kv.2.

Fixpoint dump (c : cfg) (lvl : nat) (v : value) {struct v} : str :=
  match v with
  | VNone => lit "null"
  | VBool true => lit "true"
  | VBool false => lit "false"
  | VInt z => int_text z
  | VFloat f => c_float c f
  | VStr s => quote (c_ascii c) s
  | VList l | VTuple l => wrap c lvl 91 93 (map (dump c (S lvl)) l)
  | VDict d =>
      let items := map (fun kv => (kstr kv.1, dump c (S lvl) kv.2)) d in
      wrap c lvl 123 125 (map (member c) (if c_sort c then sort_kv items else items))
  | VBytes _ | VOther _ => []
  end.

(** What makes [dumps] raise: unsupported types, and integers beyond the
    conversion limit.  Non-string keys are not needed by any modelled caller and
    count as unsupported. *)
Fixpoint dump_check (v : value) : res unit :=
  match v with
  | VInt z => int_str z ;; Ok tt
  | VList l | VTuple l => iter_res dump_check l
  | VDict d => iter_res (fun kv => match kv.1 with
                           | KStr _ => dump_check kv.2
                           | KOther _ => Err (TypeError "keys must be str")
                           end) d
  | VBytes _ | VOther _ => Err (TypeError "not JSON serializable")
  | _ => Ok tt
  end.

Definition dumps (c : cfg) (v : value) : res str := dump_check v ;; Ok (dump c 0 v).

(** ** [json.loads] *)
Definition hexval (c : Z) : option Z :=
  if is_digit c then Some (c - 48)
  else if (97 <=? c) && (c <=? 102) then Some (c - 87)
  else if (65 <=? c) && (c <=? 70) then Some (c - 55)
  else None.

Definition hex4 (a b c d : Z) : option Z :=
  a ← hexval a; b ← hexval b; c ← hexval c; d ← hexval d;
  Some (a * 4096 + b * 256 + c * 16 + d).

Definition is_high (u : Z) : bool := (0xD800 <=? u) && (u <=? 0xDBFF).
Definition is_low (u : Z) : bool := (0xDC00 <=? u) && (u <=? 0xDFFF).

Definition push (c : Z) (m : res (str * str)) : res (str * str) :=
  '(s, r) ← m; Ok (c :: s, r).

Definition unescape (e : Z) : option Z :=
  if e =? 34 then Some 34 else if e =? 92 then Some 92 else if e =? 47 then Some 47
  else if e =? 98 then Some 8 else if e =? 102 then Some 12 else if e =? 110 then Some 10
  else if e =? 114 then Some 13 else if e =? 116 then Some 9 else None.

(** [scanstring] after the opening quote: the string and the text behind it. *)
Fixpoint scan_string (s : str) : res (str * str) :=
  match s with
  | [] => Err JSONDecodeError
  | c :: r =>
    if c =? 34 then Ok ([], r)
    else if c <=? 31 then Err JSONDecodeError
    else if negb (c =? 92) then push c (scan_string r)
    else match r with
    | [] => Err JSONDecodeError
    | e :: r1 =>
      if e =? 117 then
        match r1 with
        | h1 :: h2 :: h3 :: h4 :: r2 =>
          match hex4 h1 h2 h3 h4 with
          | None => Err JSONDecodeError
          | Some u =>
            if is_high u then
              match r2 with
              | b :: w :: g1 :: g2 :: g3 :: g4 :: r3 =>
                if (b =? 92) && (w =? 117) then
                  match hex4 g1 g2 g3 g4 with
                  | None => Err JSONDecodeError
                  | Some u2 =>
                    if is_low u2
                    then push (0x10000 + (u - 0xD800) * 1024 + (u2 - 0xDC00)) (scan_string r3)
                    else push u (scan_string r2)
                  end
                else push u (scan_string r2)
              | _ => push u (scan_string r2)
              end
            else push u (scan_string r2)
          end
        | _ => Err JSONDecodeError
        end
      else match unescape e with
        | Some x => push x (scan_string r1)
        | None => Err JSONDecodeError
        end
    end
  end.

Definition is_ws (c : Z) : bool := (c =? 32) || (c =? 9) || (c =? 10) || (c =? 13).
Definition skip_ws (s : str) : str := drop_while is_ws s.

(** Consume one expected character. *)
Definition eat (x : Z) (s : str) : option str :=
  match s with c :: r => if c =? x then Some r else None | [] => None end.

Fixpoint span_digits (s : str) : str * str :=
  match s with
  | c :: r => if is_digit c then let '(d, r') := span_digits r in (c :: d, r') else ([], s)
  | [] => ([], [])
  end.

(** Correctly rounded binary64 of [(-1)^neg * m * 10^e]. *)
Definition float_of_decimal (neg : bool) (m e : Z) : spec_float :=
  match m with
  | Zpos p =>
    if 0 <=? e then binary_normalize 53 1024 ((if neg then -1 else 1) * (m * 10 ^ e)) 0 neg
    else match 10 ^ (- e) with
         | Zpos q => SFdiv 53 1024 (S754_finite neg p 0) (S754_finite false q 0)
         | _ => S754_nan
         end
  | _ => S754_zero neg
  end.

(** The fraction and exponent behind an integer literal, if any. *)
Definition scan_frac (s : str) : option (str * str) :=
  match s with
  | 46 :: r => let '(d, r') := span_digits r in
               match d with [] => None | _ => Some (d, r') end
  | _ => None
  end.

Definition scan_exp (s : str) : option (Z * str) :=
  match s with
  | c :: r =>
    if (c =? 101) || (c =? 69) then
      let '(neg, r1) := match r with
                        | 45 :: r' => (true, r')
                        | 43 :: r' => (false, r')
                        | _ => (false, r)
                        end in
      let '(d, r2) := span_digits r1 in
      match d with
      | [] => None
      | _ => Some ((if neg : bool then -1 else 1) * from_digits d, r2)
      end
    else None
  | [] => None
  end.

Definition int_literal (neg : bool) (ds : str) : res value :=
  if INT_MAX_STR_DIGITS <? zlen ds then Err (ValueError "int string conversion limit")
  else Ok (VInt (if neg then - from_digits ds else from_digits ds)).

Definition scan_number (s : str) : res (value * str) :=
  let '(neg, s1) := match s with 45 :: r => (true, r) | _ => (false, s) end in
  match (match s1 with
         | 48 :: r => Some ([48], r)
         | c :: _ => if is_digit c then Some (span_digits s1) else None
         | [] => None
         end) with
  | None => Err JSONDecodeError
  | Some (ds, r) =>
    match scan_frac r, scan_exp (match scan_frac r with Some (_, r') => r' | None => r end) with
    | None, None => v ← int_literal neg ds; Ok (v, r)
    | Some (fr, r'), None =>
        Ok (VFloat (float_of_decimal neg (from_digits (ds ++ fr)) (- zlen fr)), r')
    | None, Some (e, r') => Ok (VFloat (float_of_decimal neg (from_digits ds) e), r')
    | Some (fr, _), Some (e, r') =>
        Ok (VFloat (float_of_decimal neg (from_digits (ds ++ fr)) (e - zlen fr)), r')
    end
  end.

(** Hooks: [object_pairs_hook] and [parse_constant]. *)
Record hooks := {
  h_pairs : list (str * value) -> res value;
  h_const : string -> res value;
}.

(** [dict(pairs)]: the last value of a repeated key wins, at its first position. *)
Fixpoint dict_set (d : list (key * value)) (k : str) (v : value) : list (key * value) :=
  match d with
  | [] => [(KStr k, v)]
  | (KStr k', v') :: r => if str_eqb k k' then (KStr k', v) :: r else (KStr k', v') :: dict_set r k v
  | kv :: r => kv :: dict_set r k v
  end.
Definition dict_of_pairs (l : list (str * value)) : value :=
  VDict (fold_left (fun d kv => dict_set d kv.1 kv.2) l []).

Definition default_hooks : hooks := {|
  h_pairs l := Ok (dict_of_pairs l);
  h_const c := Ok (VFloat (if String.eqb c "NaN" then S754_nan
                           else S754_infinity (String.eqb c "-Infinity")));
|}.

Section Scanner.
Context (h : hooks).

(** [lim] nested containers may still be entered before RecursionError; [n] is
    structural fuel (see [loads_no_fuel]). *)
Fixpoint scan (n lim : nat) (s : str) {struct n} : res (value * str) :=
  match n with
  | O => Err OutOfFuel
  | S n =>
    match s with
    | [] => Err JSONDecodeError
    | c :: r =>
      if c =? 34 then '(t, r') ← scan_string r; Ok (VStr t, r')
      else if c =? 123 then
        match lim with
        | O => Err RecursionError
        | S lim =>
          match eat 125 (skip_ws r) with
          | Some r' => v ← h_pairs h []; Ok (v, r')
          | None => '(ps, r') ← scan_members n lim (skip_ws r); v ← h_pairs h ps; Ok (v, r')
          end
        end
      else if c =? 91 then
        match lim with
        | O => Err RecursionError
        | S lim =>
          match eat 93 (skip_ws r) with
          | Some r' => Ok (VList [], r')
          | None => '(vs, r') ← scan_elems n lim (skip_ws r); Ok (VList vs, r')
          end
        end
      else if starts_with (lit "null") s then Ok (VNone, drop 4 s)
      else if starts_with (lit "true") s then Ok (VBool true, drop 4 s)
      else if starts_with (lit "false") s then Ok (VBool false, drop 5 s)
      else if starts_with (lit "NaN") s then v ← h_const h "NaN"; Ok (v, drop 3 s)
      else if starts_with (lit "Infinity") s then v ← h_const h "Infinity"; Ok (v, drop 8 s)
      else if starts_with (lit "-Infinity") s then v ← h_const h "-Infinity"; Ok (v, drop 9 s)
      else scan_number s
    end
  end
with scan_elems (n lim : nat) (s : str) {struct n} : res (list value * str) :=
  match n with
  | O => Err OutOfFuel
  | S n =>
    '(v, r) ← scan n lim s;
    match skip_ws r with
    | c :: r' =>
      if c =? 93 then Ok ([v], r')
      else if c =? 44 then '(vs, r'') ← scan_elems n lim (skip_ws r'); Ok (v :: vs, r'')
      else Err JSONDecodeError
    | [] => Err JSONDecodeError
    end
  end
with scan_members (n lim : nat) (s : str) {struct n} : res (list (str * value) * str) :=
  match n with
  | O => Err OutOfFuel
  | S n =>
    match s with
    | q :: s1 =>
      if q =? 34 then
        '(k, r0) ← scan_string s1;
        match skip_ws r0 with
        | col :: r1 =>
          if col =? 58 then
            '(v, r) ← scan n lim (skip_ws r1);
            match skip_ws r with
            | c :: r' =>
              if c =? 125 then Ok ([(k, v)], r')
              else if c =? 44 then '(ps, r'') ← scan_members n lim (skip_ws r'); Ok ((k, v) :: ps, r'')
              else Err JSONDecodeError
            | [] => Err JSONDecodeError
            end
          else Err JSONDecodeError
        | [] => Err JSONDecodeError
        end
      else Err JSONDecodeError
    | [] => Err JSONDecodeError
    end
  end.

(** [json.loads(s, object_pairs_hook=..., parse_constant=...)]; [lim] is the
    nesting the interpreter's recursion limit still allows. *)
Definition loads (lim : nat) (s : str) : res value :=
  if starts_with [0xFEFF] s then Err JSONDecodeError
  else
    let s0 := skip_ws s in
    '(v, r) ← scan (2 * length s0 + 2) lim s0;
    match skip_ws r with
    | [] => Ok v
    | _ => Err JSONDecodeError
    end.
End Scanner.

(** ** Dict access *)
Fixpoint dict_get (d : list (key * value)) (k : str) : option value :=
  match d with
  | [] => None
  | (KStr k', v) :: r => if str_eqb k k' then Some v else dict_get r k
  | _ :: r => dict_get r k
  end.

(** ** Normal form: what a value is after a trip through JSON text *)
Fixpoint normal (sorted : bool) (v : value) : value :=
  match v with
  | VList l | VTuple l => VList (map (normal sorted) l)
  | VDict d =>
      let items := map (fun kv => (kstr kv.1, normal sorted kv.2)) d in
      VDict (map (fun kv => (KStr kv.1, kv.2)) (if sorted then sort_kv items else items))
  | v => v
  end.

(** JSON text written with single quotes for double ones. *)
Definition jlit (s : string) : str := map (fun c => if c =? 39 then 34 else c) (lit s).

Example loads_ex :
  loads default_hooks 10 (jlit " {'a': [1, -20, true, null, 'x\u00e9\n'], 'b': {}} ") =
  Ok (VDict [(KStr (lit "a"), VList [VInt 1; VInt (-20); VBool true; VNone; VStr [120; 0xe9; 10]]);
             (KStr (lit "b"), VDict [])]).
Proof. vm_compute. reflexivity. Qed.
Example loads_float_ex : loads default_hooks 10 (lit "1.5e1") = Ok (VFloat (S754_finite false 8444249301319680 (-49))).
Proof. vm_compute. reflexivity. Qed.
