(* ===== verification/JsonFacts.v ===== *)
(** Facts about the JSON printer and scanner of [Json]: the scanner reads back
    every printed value, in every layout the code uses, and never runs out of its
    structural fuel. *)
From S2P Require Import Prelude PyText Json.

(** ** Induction over nested values *)
Section ValueInd.
  Context (P : value -> Prop).
  Context (Hnone : P VNone) (Hbool : forall b, P (VBool b)) (Hint : forall z, P (VInt z))
          (Hfloat : forall f, P (VFloat f)) (Hstr : forall s, P (VStr s))
          (Hbytes : forall b, P (VBytes b)) (Hother : forall t, P (VOther t))
          (Hlist : forall l, Forall P l -> P (VList l))
          (Htuple : forall l, Forall P l -> P (VTuple l))
          (Hdict : forall d, Forall (fun kv => P kv.2) d -> P (VDict d)).

Fixpoint value_nested_ind (v : value) : P v :=
    let fix go (l : list value) : Forall P l :=
      match l with
      | [] => Forall_nil_2 P
      | x :: r => Forall_cons_2 P x r (value_nested_ind x) (go r)
      end in
    let fix god (d : list (key * value)) : Forall (fun kv => P kv.2) d :=
      match d with
      | [] => Forall_nil_2 _
      | kv :: r => Forall_cons_2 _ kv r (value_nested_ind kv.2) (god r)
      end in
    match v with
    | VNone => Hnone
    | VBool b => Hbool b
    | VInt z => Hint z
    | VFloat f => Hfloat f
    | VStr s => Hstr s
    | VBytes b => Hbytes b
    | VOther t => Hother t
    | VList l => Hlist l (go l)
    | VTuple l => Htuple l (go l)
    | VDict d => Hdict d (god d)
    end.
End ValueInd.

(** ** Well-formed, serialisable values *)
Definition str_ok (s : str) : bool := forallb is_scalar s.

Definition key_ok (k : key) : bool := match k with KStr s => str_ok s | KOther _ => false end.
Definition keys (d : list (key * value)) : list str := map (fun kv => kstr kv.1) d.

Fixpoint wf (v : value) : bool :=
  match v with
  | VNone | VBool _ => true
  | VInt z => Z.abs z <? INT_LIMIT
  | VStr s => str_ok s
  | VList l | VTuple l => forallb wf l
  | VDict d => forallb (fun kv => key_ok kv.1 && wf kv.2) d && bool_decide (NoDup (keys d))
  | VFloat _ | VBytes _ | VOther _ => false
  end.

Lemma forallb_Forall {A} (f : A -> bool) l : forallb f l = true <-> Forall (fun x => f x = true) l.
Proof. by rewrite forallb_forall, List.Forall_forall. Qed.

Lemma wf_dict d :
  wf (VDict d) = true <->
  Forall (fun kv => key_ok kv.1 = true /\ wf kv.2 = true) d /\ NoDup (keys d).
Proof.
  simpl. rewrite andb_true_iff, bool_decide_eq_true, forallb_Forall.
  by setoid_rewrite andb_true_iff.
Qed.

(** Containers entered on the way to the deepest leaf. *)
Fixpoint nesting (v : value) : nat :=
  match v with
  | VList l | VTuple l => S (list_max (map nesting l))
  | VDict d => S (list_max (map (fun kv => nesting kv.2) d))
  | _ => 0
  end.

Lemma list_max_le_map {A} (f : A -> nat) l x : x ∈ l -> (f x <= list_max (map f l))%nat.
Proof.
  induction 1 as [|y z l _ IH]; simpl; lia.
Qed.

(** ** Sorting *)
Lemma insert_kv_perm {A} (x : str * A) l : insert_kv x l ≡ₚ x :: l.
Proof.
  induction l as [|y l IH]; simpl; [done|]. case_match; [|done].
  rewrite IH. constructor.
Qed.

Lemma sort_kv_perm {A} (l : list (str * A)) : sort_kv l ≡ₚ l.
Proof. induction l as [|x l IH]; simpl; [done|]. by rewrite insert_kv_perm, IH. Qed.

Lemma insert_kv_map {A B} (f : A -> B) (x : str * A) l :
  map (fun kv => (kv.1, f kv.2)) (insert_kv x l) =
  insert_kv (x.1, f x.2) (map (fun kv => (kv.1, f kv.2)) l).
Proof. induction l as [|y l IH]; simpl; [done|]. case_match; simpl; by rewrite ?IH. Qed.

(** Sorting by key commutes with any map over the payloads. *)
Lemma sort_kv_map {A B} (f : A -> B) (l : list (str * A)) :
  map (fun kv => (kv.1, f kv.2)) (sort_kv l) = sort_kv (map (fun kv => (kv.1, f kv.2)) l).
Proof. induction l as [|x l IH]; simpl; [done|]. by rewrite insert_kv_map, IH. Qed.

(** ** Strings *)
Lemma hexval_hexdig n : 0 <= n < 16 -> hexval (hexdig n) = Some n.
Proof.
  intros. unfold hexdig, hexval, is_digit. destruct (Z.ltb_spec n 10); zdec; f_equal; lia.
Qed.

Lemma hex4_u_esc c r :
  0 <= c < 65536 ->
  exists h1 h2 h3 h4, u_esc c ++ r = 92 :: 117 :: h1 :: h2 :: h3 :: h4 :: r
    /\ hex4 h1 h2 h3 h4 = Some c.
Proof.
  intros. do 4 eexists. split; [done|]. unfold hex4.
  assert (0 <= c / 4096 < 16) by (Z.to_euclidean_division_equations; lia).
  pose proof (Z.mod_pos_bound (c / 256) 16). pose proof (Z.mod_pos_bound (c / 16) 16).
  pose proof (Z.mod_pos_bound c 16).
  rewrite !hexval_hexdig by lia. simpl. f_equal.
  Z.to_euclidean_division_equations; lia.
Qed.

Lemma scan_u_esc c r :
  0 <= c < 65536 -> is_high c = false -> scan_string (u_esc c ++ r) = push c (scan_string r).
Proof.
  intros Hc Hh. destruct (hex4_u_esc c r Hc) as (h1 & h2 & h3 & h4 & -> & E).
  simpl. by rewrite E, Hh.
Qed.

Lemma scan_u_pair c r :
  0x10000 <= c <= 0x10FFFF ->
  scan_string (u_esc (0xD800 + (c - 0x10000) / 1024) ++ u_esc (0xDC00 + (c - 0x10000) mod 1024) ++ r)
  = push c (scan_string r).
Proof.
  intros Hc. pose proof (Z.mod_pos_bound (c - 0x10000) 1024).
  pose proof (Z.div_mod (c - 0x10000) 1024).
  assert (0 <= (c - 0x10000) / 1024 < 1024) by (Z.to_euclidean_division_equations; lia).
  destruct (hex4_u_esc (0xDC00 + (c - 0x10000) mod 1024) r) as (g1 & g2 & g3 & g4 & -> & E2); [lia|].
  destruct (hex4_u_esc (0xD800 + (c - 0x10000) / 1024)
              (92 :: 117 :: g1 :: g2 :: g3 :: g4 :: r)) as (h1 & h2 & h3 & h4 & -> & E1); [lia|].
  simpl. rewrite E1. simpl. unfold is_high, is_low. zdec. rewrite E2. zdec. f_equal. lia.
Qed.

Lemma scan_esc1 a c r :
  is_scalar c = true -> scan_string (esc1 a c ++ r) = push c (scan_string r).
Proof.
  rewrite is_scalar_spec. intros [Hc Hs]. unfold esc1.
  repeat (case_match; [bool_prop; subst; done|]).
  case_match; [bool_prop; apply scan_u_esc; [lia | unfold is_high; zdec; done]|].
  bool_prop. case_match.
  { simpl. zdec. done. }
  case_match; bool_prop.
  - apply scan_u_esc; [lia|]. unfold is_high. destruct Hs; by zdec.
  - rewrite <- app_assoc. apply scan_u_pair. lia.
Qed.

Lemma scan_string_quote a s r :
  str_ok s = true -> scan_string (concat (map (esc1 a) s) ++ 34 :: r) = Ok (s, r).
Proof.
  induction s as [|c s IH]; simpl; [done|]. intros. bool_prop.
  rewrite <- app_assoc, scan_esc1, IH by done. done.
Qed.

(** ** Numbers *)
Definition delim (s : str) : Prop :=
  match s with
  | [] => True
  | c :: _ => is_digit c = false /\ c <> 46 /\ c <> 101 /\ c <> 69
  end.

Lemma delim_span s : delim s -> span_digits s = ([], s).
Proof. destruct s; simpl; [done|]. by intros (-> & _). Qed.

Lemma span_digits_app ds s :
  Forall (fun c => is_digit c = true) ds -> delim s -> span_digits (ds ++ s) = (ds, s).
Proof.
  intros Hd Hs. induction Hd as [|d ds E _ IH]; simpl; [by apply delim_span|]. by rewrite E, IH.
Qed.

Lemma delim_frac s : delim s -> scan_frac s = None.
Proof.
  destruct s as [|c s]; [done|]. intros (_ & H & _). unfold scan_frac.
  destruct c as [|p|]; try done. do 6 (destruct p as [p|p|]; try done).
Qed.

Lemma delim_exp s : delim s -> scan_exp s = None.
Proof.
  destruct s as [|c s]; [done|]. intros (_ & _ & H1 & H2). unfold scan_exp. by zdec.
Qed.

(** A canonical digit string: no leading zero unless it is just [0]. *)
Lemma digits_cases d : is_digit d = true -> d = 48 \/ 49 <= d <= 57.
Proof. unfold is_digit. intros. bool_prop. lia. Qed.

Lemma from_digits_ge l : forall a, Forall (fun c => is_digit c = true) l -> 0 <= a ->
  a * 10 ^ zlen l <= fold_left (fun acc c => acc * 10 + (c - 48)) l a.
Proof.
  induction l as [|x l IH]; intros a F Ha; simpl; [zlen; lia|].
  apply Forall_cons in F as [Fx F]. apply digits_cases in Fx. zlen.
  rewrite Z.pow_add_r by (pose proof (zlen_nonneg l); lia).
  etrans; [|apply IH; [done | lia]].
  pose proof (Z.pow_pos_nonneg 10 (zlen l) eq_refl (zlen_nonneg l)). nia.
Qed.

Lemma from_digits_cons d ds :
  from_digits (d :: ds) = fold_left (fun acc c => acc * 10 + (c - 48)) ds (d - 48).
Proof. unfold from_digits. simpl. by f_equal. Qed.

Lemma dec_digits_len_pow z L : 1 <= L -> 0 <= z < 10 ^ L -> zlen (dec_digits z) <= L.
Proof.
  intros HL [H0 H]. destruct (dec_digits_spec z H0) as (d & ds & -> & F & V & Z0).
  apply Forall_cons in F as [Fd F]. pose proof (from_digits_ge ds (d - 48) F) as G.
  rewrite <- from_digits_cons, V in G. zlen.
  apply digits_cases in Fd as [->|Fd].
  - destruct (Z0 eq_refl) as [_ ->]. zlen. lia.
  - specialize (G ltac:(lia)). assert (10 ^ zlen ds < 10 ^ L) as Lt.
    { pose proof (Z.pow_pos_nonneg 10 (zlen ds) eq_refl (zlen_nonneg ds)). nia. }
    apply Z.pow_lt_mono_r_iff in Lt; lia.
Qed.

Lemma INT_LIMIT_eq : INT_LIMIT = 10 ^ INT_MAX_STR_DIGITS.
Proof. with_strategy transparent [INT_LIMIT] (unfold INT_LIMIT). done. Qed.

Lemma limit_large : 2 ^ 64 * 86001 < INT_LIMIT.
Proof.
  rewrite INT_LIMIT_eq. apply (Z.lt_le_trans _ (10 ^ 30)); [reflexivity|]. apply Z.pow_le_mono_r; [reflexivity|]. by apply Z.leb_le.
Qed.

Lemma dec_digits_len z : 0 <= z < INT_LIMIT -> zlen (dec_digits z) <= INT_MAX_STR_DIGITS.
Proof. rewrite INT_LIMIT_eq. by apply dec_digits_len_pow. Qed.

Lemma scan_number_digits neg z rest :
  0 <= z < INT_LIMIT -> delim rest ->
  scan_number ((if neg : bool then [45] else []) ++ dec_digits z ++ rest)
  = Ok (VInt (if neg then - z else z), rest).
Proof.
  intros Hz Hr. pose proof (dec_digits_len z Hz) as HL.
  destruct (dec_digits_spec z) as (d & ds & E & F & V & Z0); [lia|]. rewrite E in *.
  assert (span_digits ((d :: ds) ++ rest) = (d :: ds, rest)) as Hsp by by apply span_digits_app.
  assert (int_literal neg (d :: ds) = Ok (VInt (if neg then - z else z))) as Hi.
  { unfold int_literal. rewrite V. by replace (_ <? _) with false by (symmetry; lia). }
  unfold scan_number.
  assert ((match (if neg then [45] else []) ++ (d :: ds) ++ rest with
           | 45 :: r => (true, r) | _ => (false, (if neg then [45] else []) ++ (d :: ds) ++ rest) end)
          = (neg, (d :: ds) ++ rest)) as ->.
  { destruct neg; [done|]. apply Forall_cons in F as [Fd _]. unfold is_digit in Fd. bool_prop.
    simpl. destruct d as [|p|]; try lia. do 6 (destruct p as [p|p|]; try done; try lia). }
  assert (match (d :: ds) ++ rest with
          | 48 :: r => Some ([48], r)
          | c :: _ => if is_digit c then Some (span_digits ((d :: ds) ++ rest)) else None
          | [] => None end = Some (d :: ds, rest)) as ->.
  { rewrite Hsp. apply Forall_cons in F as [Fd F].
    destruct (digits_cases d Fd) as [->|Hd]; [destruct (Z0 eq_refl); by subst|].
    simpl. rewrite Fd. destruct d as [|p|]; try lia.
    do 6 (destruct p as [p|p|]; try done; try lia). }
  rewrite (delim_frac rest Hr), (delim_exp rest Hr), Hi. done.
Qed.

(** ** Reading a printed value back *)
Lemma skip_ws_app w s : Forall (fun c => is_ws c = true) w -> skip_ws (w ++ s) = skip_ws s.
Proof. unfold skip_ws. induction 1 as [|c w Hc _ IH]; simpl; [done|]. by rewrite Hc. Qed.

Lemma skip_ws_cons c s : is_ws c = false -> skip_ws (c :: s) = c :: s.
Proof. unfold skip_ws. simpl. by intros ->. Qed.

Lemma nl_ws c lvl : Forall (fun x => is_ws x = true) (nl c lvl).
Proof.
  unfold nl. destruct (c_indent c); [|done]. constructor; [done|].
  generalize (n * lvl)%nat. intros k. induction k; simpl; by constructor.
Qed.

Lemma nl_delim c lvl s : delim s -> delim (nl c lvl ++ s).
Proof. unfold nl. by destruct (c_indent c). Qed.

(** The layouts the code uses: a separator is its punctuation plus blanks. *)
Class Layout (c : cfg) := {
  lay_isep : exists w, c_isep c = 44 :: w /\ Forall (fun x => is_ws x = true) w;
  lay_ksep : exists w, c_ksep c = 58 :: w /\ Forall (fun x => is_ws x = true) w;
}.

(** Hooks that build the dict when its keys are distinct. *)
Class PairHooks (h : hooks) :=
  pair_hooks ps : NoDup (map fst ps) ->
    h_pairs h ps = Ok (VDict (map (fun kv => (KStr kv.1, kv.2)) ps)).

Lemma dict_set_new d k v :
  ~ k ∈ keys d -> dict_set d k v = d ++ [(KStr k, v)].
Proof.
  induction d as [|[[k'|t] v'] d IH]; intros Hn; simpl in *; [done| |].
  - rewrite not_elem_of_cons in Hn. destruct Hn as [Hk Hn].
    replace (str_eqb k k') with false by (symmetry; by apply str_eqb_neq). by rewrite IH.
  - rewrite not_elem_of_cons in Hn. destruct Hn as [Hk Hn]. by rewrite IH.
Qed.

Lemma keys_pairs (ps : list (str * value)) :
  keys (map (fun kv => (KStr kv.1, kv.2)) ps) = map fst ps.
Proof. unfold keys. rewrite map_map. done. Qed.

Lemma dict_of_pairs_nodup ps :
  NoDup (map fst ps) -> dict_of_pairs ps = VDict (map (fun kv => (KStr kv.1, kv.2)) ps).
Proof.
  intros Hn. unfold dict_of_pairs. f_equal.
  enough (forall d, NoDup (keys d ++ map fst ps) ->
    fold_left (fun d kv => dict_set d kv.1 kv.2) ps d = d ++ map (fun kv => (KStr kv.1, kv.2)) ps)
    as G by by apply (G []).
  clear Hn. induction ps as [|[k v] ps IH]; intros d Hn; simpl; [by rewrite app_nil_r|].
  simpl in Hn. apply NoDup_app in Hn as (Hd & Hx & Hp).
  apply NoDup_cons in Hp as [Hk Hp].
  rewrite dict_set_new by (intros ?; apply (Hx k); [done | left]).
  rewrite IH; [by rewrite <- app_assoc|].
  unfold keys. rewrite map_app. simpl. apply NoDup_app. split_and!; [| |done].
  - apply NoDup_app. split_and!; [done | | by apply NoDup_singleton].
    intros y Hy ->%list_elem_of_singleton. apply (Hx k); [done | left].
  - intros y [Hy | ->%list_elem_of_singleton]%elem_of_app; [|done].
    intros ?. apply (Hx y); [done | by right].
Qed.

#[export] Instance default_pair_hooks : PairHooks default_hooks.
Proof. intros ps Hn. simpl. by rewrite dict_of_pairs_nodup. Qed.

Lemma starts_with_ne p c s : hd 0 p <> c -> p <> [] -> starts_with p (c :: s) = false.
Proof.
  destruct p as [|d p]; [done|]. simpl. intros. unfold starts_with. simpl.
  apply str_eqb_neq. congruence.
Qed.

Lemma wrap_shape c lvl op cl items :
  wrap c lvl op cl items = op ::
    (match items with [] => [cl]
     | _ => nl c (S lvl) ++ join (c_isep c ++ nl c (S lvl)) items ++ nl c lvl ++ [cl] end).
Proof. destruct items; done. Qed.

(** No printed value starts with a blank. *)
Lemma dump_head c lvl v : wf v = true ->
  exists x t, dump c lvl v = x :: t /\ is_ws x = false /\ x <> 125 /\ x <> 93.
Proof.
  destruct v as [|[]|z|f|s|b|l|l|d|t]; simpl; intros Hw; try done; try by do 2 eexists.
  - unfold int_text. case_match; [by do 2 eexists|]. bool_prop.
    destruct (dec_digits_spec z) as (x & t & -> & F & _); [lia|]. do 2 eexists. split; [done|].
    apply Forall_cons in F as [Fx _]. apply digits_cases in Fx. unfold is_ws. zdec. split; [done|lia].
  - rewrite wrap_shape. by do 2 eexists.
  - rewrite wrap_shape. by do 2 eexists.
  - rewrite wrap_shape. by do 2 eexists.
Qed.

Section Roundtrip.
Context (c : cfg) `{!Layout c} (h : hooks) `{!PairHooks h}.

Definition reads_back (v : value) : Prop := forall lvl n lim rest,
  (2 * length (dump c lvl v ++ rest) + 1 <= n)%nat -> (nesting v <= lim)%nat -> delim rest ->
  scan h n lim (dump c lvl v ++ rest) = Ok (normal (c_sort c) v, rest).

Lemma scan_elems_back lvl l : forall n lim rest,
  l <> [] -> Forall (fun v => wf v = true) l -> Forall reads_back l ->
  Forall (fun v => (nesting v <= lim)%nat) l ->
  let t := join (c_isep c ++ nl c (S lvl)) (map (dump c (S lvl)) l) ++ nl c lvl ++ 93 :: rest in
  (2 * length t + 2 <= n)%nat ->
  scan_elems h n lim t = Ok (map (normal (c_sort c)) l, rest).
Proof.
  induction l as [|v l IH]; intros n lim rest Hne Hw Hb Hd t Hn; [done|].
  apply Forall_cons in Hw as [Hwv Hw], Hb as [Hbv Hb], Hd as [Hdv Hd].
  destruct n as [|n]; [lia|]. destruct l as [|v' l].
  - subst t. cbn [map join] in *. cbn [scan_elems].
    rewrite Hbv; [|lia|done|by apply nl_delim].
    cbn [mbind res_bind]. rewrite skip_ws_app by apply nl_ws. by rewrite skip_ws_cons.
  - destruct lay_isep as (w & Ew & Fw). subst t.
    change (map (dump c (S lvl)) (v :: v' :: l)) with (dump c (S lvl) v :: map (dump c (S lvl)) (v' :: l)) in *.
    change (join ?s (?x :: map ?f (v' :: l))) with (x ++ s ++ join s (map f (v' :: l))) in *.
    rewrite <- !app_assoc in *. rewrite Ew in *. cbn [app] in *.
    set (t' := join (44 :: w ++ nl c (S lvl)) (map (dump c (S lvl)) (v' :: l)) ++ nl c lvl ++ 93 :: rest) in *.
    cbn [scan_elems]. rewrite Hbv; [|lia|done|done].
    cbn [mbind res_bind]. rewrite skip_ws_cons by done. cbn [Z.eqb Pos.eqb].
    rewrite length_app in Hn. cbn [length] in Hn. rewrite !length_app in Hn.
    assert (skip_ws (w ++ nl c (S lvl) ++ t') = t') as ->.
    { rewrite skip_ws_app by done. rewrite skip_ws_app by apply nl_ws.
      inversion Hw as [|? ? Hwv' _]; subst.
      destruct (dump_head c (S lvl) v' Hwv') as (x & tl & E & Wx & _).
      subst t'. destruct l; simpl; rewrite E; simpl; by rewrite skip_ws_cons. }
    specialize (IH n lim rest ltac:(done) Hw Hb Hd). cbn [app] in IH.
    fold t' in IH. rewrite IH by lia. done.
Qed.

Lemma member_text lvl k v s :
  exists w, c_ksep c = 58 :: w /\ Forall (fun x => is_ws x = true) w /\
  member c (k, dump c lvl v) ++ s =
    34 :: concat (map (esc1 (c_ascii c)) k) ++ 34 :: 58 :: w ++ dump c lvl v ++ s.
Proof.
  destruct lay_ksep as (w & Ew & Fw). exists w. split; [done|]. split; [done|].
  unfold member, quote. simpl. rewrite Ew. by rewrite <- !app_assoc.
Qed.

Lemma scan_member_head lvl k v s n lim :
  str_ok k = true -> wf v = true -> reads_back v -> (nesting v <= lim)%nat -> delim s ->
  (2 * length (dump c (S lvl) v ++ s) + 1 <= n)%nat ->
  scan_members h (S n) lim (member c (k, dump c (S lvl) v) ++ s) =
  match skip_ws s with
  | ch :: r' =>
    if ch =? 125 then Ok ([(k, normal (c_sort c) v)], r')
    else if ch =? 44 then
      '(ps, r'') ← scan_members h n lim (skip_ws r'); Ok ((k, normal (c_sort c) v) :: ps, r'')
    else Err JSONDecodeError
  | [] => Err JSONDecodeError
  end.
Proof.
  intros Hk Hw Hb Hd Hs Hn. destruct (member_text (S lvl) k v s) as (w & Ew & Fw & ->).
  cbn [scan_members Z.eqb Pos.eqb]. rewrite scan_string_quote by done. cbn [mbind res_bind].
  rewrite skip_ws_cons by done. cbn [Z.eqb Pos.eqb]. rewrite skip_ws_app by done.
  destruct (dump_head c (S lvl) v Hw) as (x & tl & E & Wx & _).
  assert (skip_ws (dump c (S lvl) v ++ s) = dump c (S lvl) v ++ s) as ->
    by (rewrite E; by apply skip_ws_cons).
  rewrite Hb by done. done.
Qed.

Lemma scan_members_back lvl (ps : list (str * value)) : forall n lim rest,
  ps <> [] -> Forall (fun kv => str_ok kv.1 = true /\ wf kv.2 = true) ps ->
  Forall (fun kv => reads_back kv.2) ps ->
  Forall (fun kv => (nesting kv.2 <= lim)%nat) ps ->
  let t := join (c_isep c ++ nl c (S lvl))
             (map (member c) (map (fun kv => (kv.1, dump c (S lvl) kv.2)) ps))
           ++ nl c lvl ++ 125 :: rest in
  (2 * length t + 2 <= n)%nat ->
  scan_members h n lim t = Ok (map (fun kv => (kv.1, normal (c_sort c) kv.2)) ps, rest).
Proof.
  induction ps as [|[k v] ps IH]; intros n lim rest Hne Hw Hb Hd t Hn; [done|].
  apply Forall_cons in Hw as [[Hk Hwv] Hw], Hb as [Hbv Hb], Hd as [Hdv Hd]. simpl in Hk, Hwv, Hbv, Hdv.
  destruct n as [|n]; [lia|]. destruct ps as [|[k' v'] ps].
  - subst t. cbn [map join fst snd] in *.
    destruct (member_text (S lvl) k v (nl c lvl ++ 125 :: rest)) as (w & Ew & _ & Em).
    rewrite scan_member_head; [|done|done|done|done|by apply nl_delim|].
    + rewrite skip_ws_app by apply nl_ws. by rewrite skip_ws_cons.
    + rewrite Em in Hn. cbn [length] in Hn. rewrite length_app in Hn. cbn [length] in Hn.
      rewrite !length_app in *. lia.
  - destruct lay_isep as (w & Ew & Fw). subst t.
    set (f := fun kv : str * value => (kv.1, dump c (S lvl) kv.2)) in *.
    change (map (member c) (map f ((k, v) :: (k', v') :: ps))) with
      (member c (k, dump c (S lvl) v) :: map (member c) (map f ((k', v') :: ps))) in *.
    change (join ?s (?x :: map ?g (map f ((k', v') :: ps)))) with
      (x ++ s ++ join s (map g (map f ((k', v') :: ps)))) in *.
    rewrite <- !app_assoc in *. rewrite Ew in *. cbn [app] in *.
    set (t' := join (44 :: w ++ nl c (S lvl)) (map (member c) (map f ((k', v') :: ps)))
               ++ nl c lvl ++ 125 :: rest) in *.
    destruct (member_text (S lvl) k v (44 :: w ++ nl c (S lvl) ++ t')) as (w' & _ & _ & Em).
    assert (2 * length (dump c (S lvl) v ++ 44%Z :: w ++ nl c (S lvl) ++ t') + 1 <= n)%nat as Hn1.
    { rewrite Em in Hn. cbn [length] in Hn. rewrite length_app in Hn. cbn [length] in Hn.
      rewrite length_app in Hn. lia. }
    rewrite scan_member_head by done. rewrite skip_ws_cons by done. cbn [Z.eqb Pos.eqb].
    assert (skip_ws (w ++ nl c (S lvl) ++ t') = t') as ->.
    { rewrite skip_ws_app by done. rewrite skip_ws_app by apply nl_ws.
      subst t'. subst f. destruct ps; simpl; unfold member, quote; simpl; by rewrite skip_ws_cons. }
    specialize (IH n lim rest ltac:(done) Hw Hb Hd). cbn [app] in IH.
    fold t' in IH. rewrite IH; [done|].
    rewrite length_app in Hn1. cbn [length] in Hn1. rewrite !length_app in Hn1. lia.
Qed.

Lemma scan_list lvl n lim op (l : list value) rest :
  op = VList \/ op = VTuple ->
  Forall (fun v => wf v = true) l -> Forall reads_back l ->
  (nesting (VList l) <= lim)%nat ->
  (2 * length (dump c lvl (VList l) ++ rest) + 1 <= n)%nat ->
  scan h n lim (dump c lvl (op l) ++ rest) = Ok (normal (c_sort c) (op l), rest).
Proof.
  intros Hop Hw Hb Hd Hn.
  assert (dump c lvl (op l) = dump c lvl (VList l)) as -> by by destruct Hop as [-> | ->].
  assert (normal (c_sort c) (op l) = normal (c_sort c) (VList l)) as ->
    by by destruct Hop as [-> | ->].
  clear Hop. cbn [dump normal nesting] in *. rewrite wrap_shape in *.
  destruct n as [|n]; [lia|]. destruct lim as [|lim]; [lia|].
  destruct l as [|v l]; [done|].
  set (L := v :: l) in *. assert (L <> []) as HL by done.
  assert (Forall (fun v => (nesting v <= lim)%nat) L) as HdL.
  { apply Forall_forall. intros x Hx. pose proof (list_max_le_map nesting L x Hx). lia. }
  change (map (dump c (S lvl)) L) with (dump c (S lvl) v :: map (dump c (S lvl)) l) in *.
  cbn iota in *. change (dump c (S lvl) v :: map (dump c (S lvl)) l) with (map (dump c (S lvl)) L) in *.
  cbn [app] in *. rewrite <- !app_assoc in *.
  change ([93] ++ rest) with (93 :: rest) in *.
  set (t := join (c_isep c ++ nl c (S lvl)) (map (dump c (S lvl)) L) ++ nl c lvl ++ 93 :: rest) in *.
  cbn [scan Z.eqb Pos.eqb]. rewrite skip_ws_app by apply nl_ws.
  assert (exists x tl, t = x :: tl /\ is_ws x = false /\ x <> 93) as (x & tl & Et & Wx & Hx).
  { inversion Hw as [|? ? Hwv _]; subst.
    destruct (dump_head c (S lvl) v Hwv) as (x & tl & E & Wx & _ & Nx).
    subst t L. destruct l; simpl; rewrite E; simpl; eauto. }
  rewrite Et, skip_ws_cons by done. unfold eat. replace (x =? 93) with false by (symmetry; lia).
  rewrite <- Et. subst t. rewrite (scan_elems_back lvl L n lim rest); try done.
  cbn [length] in Hn. rewrite length_app in Hn. lia.
Qed.

Lemma scan_dict lvl n lim d rest :
  wf (VDict d) = true -> Forall (fun kv => wf kv.2 = true -> reads_back kv.2) d ->
  (nesting (VDict d) <= lim)%nat ->
  (2 * length (dump c lvl (VDict d) ++ rest) + 1 <= n)%nat ->
  scan h n lim (dump c lvl (VDict d) ++ rest) = Ok (normal (c_sort c) (VDict d), rest).
Proof.
  rewrite wf_dict. intros [Hw Hk] Hb Hd Hn.
  set (ps0 := map (fun kv => (kstr kv.1, kv.2)) d : list (str * value)).
  set (ps := if c_sort c then sort_kv ps0 else ps0).
  assert (ps ≡ₚ ps0) as Hperm by (subst ps; destruct (c_sort c); [apply sort_kv_perm | done]).
  assert (forall {B} (f : value -> B),
    (if c_sort c then sort_kv (map (fun kv => (kstr kv.1, f kv.2)) d)
     else map (fun kv => (kstr kv.1, f kv.2)) d) = map (fun kv => (kv.1, f kv.2)) ps) as Hmap.
  { intros B f. subst ps ps0. destruct (c_sort c); [rewrite sort_kv_map|]; by rewrite map_map. }
  assert (Forall (fun kv => str_ok kv.1 = true /\ wf kv.2 = true) ps) as HwP.
  { rewrite Hperm. subst ps0. apply Forall_map. eapply Forall_impl; [exact Hw|].
    intros [[s|t] v] [H1 H2]; simpl in *; [done | discriminate]. }
  assert (Forall (fun kv => reads_back kv.2) ps) as HbP.
  { rewrite Hperm. subst ps0. apply Forall_map. eapply Forall_impl; [exact (proj2 (Forall_and _ _) (conj Hw Hb))|].
    intros kv [[_ H1] H2]. by apply H2. }
  assert (NoDup (map fst ps)) as HnP.
  { rewrite Hperm. subst ps0. by rewrite map_map. }
  cbn [dump normal nesting] in *. rewrite !Hmap in *. rewrite wrap_shape in *.
  destruct n as [|n]; [lia|]. destruct lim as [|lim]; [lia|].
  assert (Forall (fun kv => (nesting kv.2 <= lim)%nat) ps) as HdP.
  { rewrite Hperm. subst ps0. apply Forall_map, Forall_forall. intros kv Hkv.
    pose proof (list_max_le_map (fun kv => nesting kv.2) d kv Hkv). simpl. lia. }
  clearbody ps. clear Hperm Hmap ps0 Hw Hb Hk Hd d.
  assert (h_pairs h (map (fun kv => (kv.1, normal (c_sort c) kv.2)) ps) =
    Ok (VDict (map (fun kv => (KStr kv.1, kv.2)) (map (fun kv => (kv.1, normal (c_sort c) kv.2)) ps))))
    as Hh by (apply PairHooks0; by rewrite map_map).
  destruct ps as [|[k v] ps].
  { cbn [scan Z.eqb Pos.eqb app]. simpl in Hh. simpl. by rewrite Hh. }
  set (L := (k, v) :: ps) in *. assert (L <> []) as HL by done.
  set (g := fun kv : str * value => (kv.1, dump c (S lvl) kv.2)) in *.
  change (map (member c) (map g L)) with (member c (g (k, v)) :: map (member c) (map g ps)) in *.
  cbn iota in *. change (member c (g (k, v)) :: map (member c) (map g ps)) with (map (member c) (map g L)) in *.
  cbn [app] in *. rewrite <- !app_assoc in *.
  change ([125] ++ rest) with (125 :: rest) in *.
  set (t := join (c_isep c ++ nl c (S lvl)) (map (member c) (map g L)) ++ nl c lvl ++ 125 :: rest) in *.
  cbn [scan Z.eqb Pos.eqb]. rewrite skip_ws_app by apply nl_ws.
  assert (exists tl, t = 34 :: tl) as (tl & Et).
  { subst t L g. destruct ps; simpl; unfold member, quote; simpl; eauto. }
  rewrite Et, skip_ws_cons by done. cbn [eat Z.eqb Pos.eqb].
  rewrite <- Et. subst t g. rewrite (scan_members_back lvl L n lim rest); try done.
  - cbn [mbind res_bind]. by rewrite Hh.
  - cbn [length] in Hn. rewrite length_app in Hn. lia.
Qed.

Lemma wf_reads_back v : wf v = true -> reads_back v.
Proof.
  induction v as [| b | z | f | s | b | t | l IH | l IH | d IH] using value_nested_ind;
    intros Hw; try done; intros lvl n lim rest Hn Hd Hr.
  - destruct n; [lia|]. done.
  - destruct n; [lia|]. by destruct b.
  - cbn [dump normal] in *. simpl in Hw. bool_prop.
    pose proof (scan_number_digits (z <? 0) (Z.abs z) rest ltac:(lia) Hr) as E.
    assert (int_text z = (if z <? 0 then [45] else []) ++ dec_digits (Z.abs z)) as Et.
    { unfold int_text. destruct (Z.ltb_spec z 0); simpl; do 2 f_equal; lia. }
    rewrite Et in *. rewrite <- app_assoc in *.
    assert ((if z <? 0 then - Z.abs z else Z.abs z) = z) as Ez by (destruct (Z.ltb_spec z 0); lia).
    rewrite Ez in E. rewrite <- E. destruct n as [|n]; [lia|]. clear Hn E Et Ez.
    destruct (dec_digits_spec (Z.abs z)) as (x & ds & -> & F & _); [lia|].
    apply Forall_cons in F as [Fx _]. apply digits_cases in Fx.
    destruct (z <? 0); cbn [app scan]; zdec.
    + assert (starts_with (lit "-Infinity") (45 :: x :: ds ++ rest) = false) as ->
        by (unfold starts_with; apply str_eqb_neq; simpl; intros [=]; lia).
      rewrite !starts_with_ne by done. done.
    + rewrite !starts_with_ne by (done || (simpl; lia)). done.
  - destruct n; [lia|]. cbn [dump normal] in *. unfold quote. simpl. rewrite <- app_assoc.
    simpl in *. by rewrite scan_string_quote.
  - simpl in Hw. apply forallb_Forall in Hw. apply scan_list; [by left | done | | done | done].
    apply Forall_forall. intros x Hx. rewrite Forall_forall in IH, Hw. auto.
  - simpl in Hw. apply forallb_Forall in Hw. apply scan_list; [by right | done | | done | done].
    apply Forall_forall. intros x Hx. rewrite Forall_forall in IH, Hw. auto.
  - by apply scan_dict.
Qed.

(** The printed text does not start with a byte-order mark. *)
Lemma dump_no_bom lvl v rest : wf v = true -> starts_with [0xFEFF] (dump c lvl v ++ rest) = false.
Proof.
  intros Hw. destruct (dump_head c lvl v Hw) as (x & t & E & Wx & _).
  rewrite E. apply starts_with_ne; [|done]. simpl. intros <-.
  destruct v as [|[]|z|f|s|b|l|l|d|?]; simpl in E; rewrite ?wrap_shape in E; try done.
  unfold int_text in E. destruct (z <? 0); [done|]. simpl in Hw. bool_prop.
  destruct (Z.lt_ge_cases z 0) as [?|?].
  - unfold dec_digits in E. cbn [digs] in E.
    destruct (z <? 10) eqn:Ez; bool_prop; [|lia]. injection E as E _.
    pose proof (Z.mod_pos_bound z 10). lia.
  - destruct (dec_digits_spec z) as (x & ds & E' & F & _); [lia|].
    rewrite E' in E. injection E as -> ->. apply Forall_cons in F as [Fx _].
    apply digits_cases in Fx. lia.
Qed.

(** Reading the printed text of a well-formed value gives its normal form, also with blanks
    behind it. *)
Lemma loads_dump_ws lim lvl v w :
  wf v = true -> (nesting v <= lim)%nat -> Forall (fun c => is_ws c = true) w ->
  loads h lim (dump c lvl v ++ w) = Ok (normal (c_sort c) v).
Proof.
  intros Hw Hd Hb. unfold loads. rewrite dump_no_bom by done.
  destruct (dump_head c lvl v Hw) as (x & t & E & Wx & _).
  assert (skip_ws (dump c lvl v ++ w) = dump c lvl v ++ w) as -> by (rewrite E; by apply skip_ws_cons).
  assert (delim w) as Hdl.
  { destruct Hb as [|x' w' Hx _]; [done|]. unfold is_ws, delim, is_digit in *.
    destruct (Z.eqb_spec x' 32), (Z.eqb_spec x' 9), (Z.eqb_spec x' 10), (Z.eqb_spec x' 13); subst; done. }
  rewrite (wf_reads_back v Hw lvl _ lim w) by (done || lia). cbn [mbind res_bind].
  assert (skip_ws w = []) as ->; [|done]. pose proof (skip_ws_app w [] Hb) as S.
  by rewrite app_nil_r in S.
Qed.

Lemma loads_dump lim lvl v :
  wf v = true -> (nesting v <= lim)%nat ->
  loads h lim (dump c lvl v) = Ok (normal (c_sort c) v).
Proof. intros Hw Hd. rewrite <- (app_nil_r (dump c lvl v)). by apply loads_dump_ws. Qed.
End Roundtrip.

(** ** Order independence of sorted output *)
Definition kv_le {A} (x y : str * A) : Prop := str_ltb y.1 x.1 = false.

Lemma str_ltb_irrefl a : str_ltb a a = false.
Proof. induction a as [|x a IH]; simpl; [done|]. rewrite Z.ltb_irrefl, Z.eqb_refl. done. Qed.

Lemma str_ltb_trans a : forall b c, str_ltb a b = true -> str_ltb b c = true -> str_ltb a c = true.
Proof.
  induction a as [|x a IH]; intros [|y b] [|z c]; simpl; try done.
  rewrite !orb_true_iff, !andb_true_iff, !Z.ltb_lt, !Z.eqb_eq.
  intros [?|[-> ?]] [?|[-> ?]]; [left; lia | left; lia | left; lia | right; eauto].
Qed.

Lemma str_ltb_total a : forall b, str_ltb a b = false -> str_ltb b a = false -> a = b.
Proof.
  induction a as [|x a IH]; intros [|y b]; simpl; try done.
  rewrite !orb_false_iff, !andb_false_iff, !Z.ltb_ge, !Z.eqb_neq. intros [? H1] [? H2].
  assert (x = y) as -> by lia. f_equal. apply IH; [destruct H1; [lia | done] | destruct H2; [lia | done]].
Qed.

Lemma str_le_trans a b c : str_ltb b a = false -> str_ltb c b = false -> str_ltb c a = false.
Proof.
  intros H1 H2. destruct (str_ltb c a) eqn:E; [|done].
  destruct (str_ltb a b) eqn:E1.
  - by rewrite (str_ltb_trans _ _ _ E E1) in H2.
  - assert (a = b) as -> by (by apply str_ltb_total). congruence.
Qed.

#[export] Instance kv_le_trans {A} : Transitive (@kv_le A).
Proof. intros x y z. unfold kv_le. intros. by apply (str_le_trans x.1 y.1 z.1). Qed.

Lemma insert_kv_sorted {A} (x : str * A) l : Sorted kv_le l -> Sorted kv_le (insert_kv x l).
Proof.
  induction 1 as [|y l Hl IH Hy]; simpl; [by repeat constructor|].
  destruct (str_ltb y.1 x.1) eqn:E.
  - constructor; [done|].
    assert (kv_le y x) as Hyx.
    { unfold kv_le. destruct (str_ltb x.1 y.1) eqn:E2; [|done].
      pose proof (str_ltb_trans _ _ _ E E2) as H. by rewrite str_ltb_irrefl in H. }
    destruct l as [|z l]; simpl; [by constructor|]. inv Hy. case_match; by constructor.
  - constructor; [by constructor|]. by constructor.
Qed.

Lemma sort_kv_sorted {A} (l : list (str * A)) : Sorted kv_le (sort_kv l).
Proof. induction l; simpl; [constructor|]. by apply insert_kv_sorted. Qed.

Lemma sort_kv_id {A} (l : list (str * A)) : Sorted kv_le l -> sort_kv l = l.
Proof.
  induction 1 as [|x l Hl IH Hx]; simpl; [done|]. rewrite IH.
  destruct l as [|y l]; [done|]. simpl. inv Hx. unfold kv_le in *. by case_match; [congruence|].
Qed.

Lemma sort_kv_idem {A} (l : list (str * A)) : sort_kv (sort_kv l) = sort_kv l.
Proof. apply sort_kv_id, sort_kv_sorted. Qed.

Lemma NoDup_fst_eq {A B} (l : list (A * B)) x y :
  NoDup (map fst l) -> x ∈ l -> y ∈ l -> x.1 = y.1 -> x = y.
Proof.
  induction l as [|z l IH]; simpl; intros Hn Hx Hy E; [by apply not_elem_of_nil in Hx|].
  apply NoDup_cons in Hn as [Hz Hn].
  apply elem_of_cons in Hx as [->|Hx]; apply elem_of_cons in Hy as [->|Hy]; auto.
  - destruct Hz. rewrite E. by apply (list_elem_of_fmap_2 fst).
  - destruct Hz. rewrite <- E. by apply (list_elem_of_fmap_2 fst).
Qed.

(** With unique keys, sorting forgets the order of insertion. *)
Lemma sort_kv_permute {A} (l l' : list (str * A)) :
  NoDup (map fst l) -> l ≡ₚ l' -> sort_kv l = sort_kv l'.
Proof.
  intros Hn Hp. apply (Sorted_unique_strong kv_le).
  - intros x y Hx Hy H1 H2. rewrite sort_kv_perm in Hx. rewrite sort_kv_perm, <- Hp in Hy.
    apply (NoDup_fst_eq l); auto. by apply str_ltb_total.
  - apply sort_kv_sorted.
  - apply sort_kv_sorted.
  - by rewrite !sort_kv_perm.
Qed.

Lemma map_ext_Forall {A B} (f g : A -> B) l : Forall (fun x => f x = g x) l -> map f l = map g l.
Proof. induction 1; simpl; congruence. Qed.

(** A sorted layout prints a value and its normal form alike. *)
Lemma dump_normal c v : c_sort c = true -> forall lvl, dump c lvl (normal true v) = dump c lvl v.
Proof.
  intros Hs. induction v as [| b | z | f | s | b | t | l IH | l IH | d IH] using value_nested_ind;
    intros lvl; try done.
  - simpl. rewrite map_map. f_equal. apply map_ext_Forall. eapply Forall_impl; [exact IH | auto].
  - simpl. rewrite map_map. f_equal. apply map_ext_Forall. eapply Forall_impl; [exact IH | auto].
  - cbn [normal dump]. rewrite Hs. rewrite map_map. cbn [kstr fst snd].
    rewrite sort_kv_map, sort_kv_idem, map_map. f_equal. f_equal. cbn [fst snd]. f_equal.
    apply map_ext_Forall. eapply Forall_impl; [exact IH|]. intros kv H. cbv beta. by rewrite H.
Qed.

(** ** The normal form of a dict *)
Lemma normal_dict d : exists d', normal true (VDict d) = VDict d' /\
  d' ≡ₚ map (fun kv => (KStr (kstr kv.1), normal true kv.2)) d.
Proof.
  eexists. split; [reflexivity|]. etransitivity; [apply Permutation_map, sort_kv_perm|]. by rewrite map_map.
Qed.

Lemma keys_normal d : keys (map (fun kv => (KStr (kstr kv.1), normal true kv.2)) d) = keys d.
Proof. unfold keys. rewrite map_map. done. Qed.

Lemma list_max_perm l k : l ≡ₚ k -> list_max l = list_max k.
Proof. induction 1; simpl; lia. Qed.

Lemma wf_normal v : wf v = true -> wf (normal true v) = true.
Proof.
  induction v as [| b | z | f | s | b | t | l IH | l IH | d IH] using value_nested_ind; intros Hw; try done.
  - simpl in *. apply forallb_Forall in Hw. apply forallb_Forall, Forall_map. rewrite Forall_forall in *. auto.
  - simpl in *. apply forallb_Forall in Hw. apply forallb_Forall, Forall_map. rewrite Forall_forall in *. auto.
  - apply wf_dict in Hw as [Hw Hn]. destruct (normal_dict d) as (d' & -> & P). apply wf_dict.
    unfold keys. rewrite P. split; [|by fold (keys (map (fun kv => (KStr (kstr kv.1), normal true kv.2)) d)); rewrite keys_normal].
    apply Forall_map. rewrite Forall_forall in *. intros [[k|t] v] Hv; destruct (Hw _ Hv) as [Hk Hv2]; [|done].
    split; [done|]. by apply (IH _ Hv).
Qed.

(** Lookup does not depend on the order of entries with distinct keys. *)
Lemma dict_get_None d k : dict_get d k = None <-> ~ (exists v, (KStr k, v) ∈ d).
Proof.
  induction d as [|[[k'|t] v'] d IH]; simpl.
  - split; [intros _ [v H]; by apply elem_of_nil in H | done].
  - destruct (str_eqb k k') eqn:E.
    + apply str_eqb_eq in E as ->. split; [done|]. intros N. destruct N. exists v'. left.
    + rewrite IH. apply str_eqb_neq in E. split; intros N [v H]; apply N; exists v.
      * apply elem_of_cons in H as [[= -> _]|H]; [done | done].
      * by right.
  - rewrite IH. split; intros N [v H]; apply N; exists v.
    + apply elem_of_cons in H as [[= ]|H]; done.
    + by right.
Qed.

Lemma dict_get_Some d k v : NoDup (keys d) -> (KStr k, v) ∈ d -> dict_get d k = Some v.
Proof.
  induction d as [|[[k'|t] v'] d IH]; simpl; intros Hn Hin; [by apply elem_of_nil in Hin| |].
  - unfold keys in Hn. simpl in Hn. apply NoDup_cons in Hn as [Hk Hn].
    apply elem_of_cons in Hin as [[= <- <-]|Hin]; [by rewrite str_eqb_refl|].
    destruct (str_eqb k k') eqn:E; [|by apply IH]. apply str_eqb_eq in E as ->. destruct Hk.
    by apply (list_elem_of_fmap_2 (fun kv : key * value => kstr kv.1) d (KStr k', v)).
  - unfold keys in Hn. simpl in Hn. apply NoDup_cons in Hn as [Hk Hn].
    apply elem_of_cons in Hin as [[=]|Hin]. by apply IH.
Qed.

Lemma dict_get_elem d k v : dict_get d k = Some v -> (KStr k, v) ∈ d.
Proof.
  induction d as [|[[k'|t] v'] d IH]; simpl; [done| |].
  - destruct (str_eqb k k') eqn:E; [apply str_eqb_eq in E as ->; intros [= ->]; left | right; auto].
  - right; auto.
Qed.

Lemma dict_get_perm d d' k : NoDup (keys d) -> d ≡ₚ d' -> dict_get d k = dict_get d' k.
Proof.
  intros Hn Hp. assert (NoDup (keys d')) as Hn' by (unfold keys in *; by rewrite <- Hp).
  destruct (dict_get d' k) as [v|] eqn:E.
  - apply dict_get_Some; [done|]. rewrite Hp. by apply dict_get_elem.
  - apply dict_get_None in E. apply dict_get_None. intros [v Hv]. apply E. exists v. by rewrite <- Hp.
Qed.
