(* ===== verification/JsonScan.v ===== *)
(** What [Json.loads] yields: well-formed values only, one of the documented errors
    otherwise, and never exhausted fuel - so reading a text always terminates. *)
From S2P Require Import Prelude PyText Json JsonFacts.

(** A decoded JSON document: code points in range, integers below the conversion
    limit, string keys without repetition, no Python-only types. *)
Definition cps (s : str) : bool := forallb (fun c => (0 <=? c) && (c <=? 0x10FFFF)) s.

Definition key_cps (k : key) : bool := match k with KStr s => cps s | KOther _ => false end.

Fixpoint decoded (v : value) : bool :=
  match v with
  | VNone | VBool _ | VFloat _ => true
  | VInt z => Z.abs z <? INT_LIMIT
  | VStr s => cps s
  | VList l => forallb decoded l
  | VDict d => forallb (fun kv => key_cps kv.1 && decoded kv.2) d
               && bool_decide (NoDup (keys d))
  | VTuple _ | VBytes _ | VOther _ => false
  end.

Lemma decoded_dict d : decoded (VDict d) = true <->
  Forall (fun kv => key_cps kv.1 = true /\ decoded kv.2 = true) d /\ NoDup (keys d).
Proof.
  simpl. rewrite andb_true_iff, bool_decide_eq_true, forallb_Forall.
  by setoid_rewrite andb_true_iff.
Qed.

Lemma cps_cons c s : cps (c :: s) = true <-> 0 <= c <= 0x10FFFF /\ cps s = true.
Proof. unfold cps. simpl. rewrite !andb_true_iff, !Z.leb_le. tauto. Qed.
Lemma cps_drop_while p s : cps s = true -> cps (drop_while p s) = true.
Proof. induction s as [|c s IH]; [done|]. intros H. simpl. case_match; [|done]. apply cps_cons in H as [_ H]. auto. Qed.
Lemma drop_while_len p s : (length (drop_while p s) <= length s)%nat.
Proof. induction s as [|c s IH]; [done|]. simpl. case_match; simpl; lia. Qed.
Lemma cps_drop n s : cps s = true -> cps (drop n s) = true.
Proof. unfold cps. rewrite !forallb_Forall. apply Forall_drop. Qed.

Lemma hexval_range c x : hexval c = Some x -> 0 <= x < 16.
Proof.
  unfold hexval, is_digit. repeat case_match; intros [= <-] || done; bool_prop; lia.
Qed.
Lemma hex4_range a b c d u : hex4 a b c d = Some u -> 0 <= u < 65536.
Proof.
  unfold hex4. intros H. apply bind_Some in H as (x1 & ?%hexval_range & H).
  apply bind_Some in H as (x2 & ?%hexval_range & H). apply bind_Some in H as (x3 & ?%hexval_range & H).
  apply bind_Some in H as (x4 & ?%hexval_range & H). injection H as <-. lia.
Qed.
Lemma unescape_range e x : unescape e = Some x -> 0 <= x <= 0x10FFFF.
Proof. unfold unescape. repeat case_match; intros [= <-] || done; lia. Qed.

(** A scanned string: its characters and the rest, which is shorter. *)
Definition string_res (s : str) (m : res (str * str)) : Prop :=
  match m with
  | Ok (t, r) => cps t = true /\ cps r = true /\ (length r < length s)%nat
  | Err e => e = JSONDecodeError
  end.

Lemma push_res c s s' m : 0 <= c <= 0x10FFFF -> (length s' <= length s)%nat ->
  string_res s' m -> string_res s (push c m).
Proof.
  intros Hc Hl. destruct m as [[t r]|e]; simpl; [|done]. intros (H1 & H2 & H3).
  split_and!; [by apply cps_cons | done | lia].
Qed.

Lemma scan_string_res n : forall s, (length s <= n)%nat -> cps s = true -> string_res s (scan_string s).
Proof.
  induction n as [|n IH]; intros s Hn Hs; (destruct s as [|c r]; [done|]); [simpl in Hn; lia|].
  simpl in Hn. apply cps_cons in Hs as [Hc Hr]. cbn [scan_string].
  destruct (c =? 34); [simpl; split_and!; [done..|lia]|].
  destruct (c <=? 31); [done|].
  destruct (negb (c =? 92)).
  { apply (push_res c _ r); [done | simpl; lia|]. apply IH; [lia | done]. }
  destruct r as [|e r1]; [done|]. apply cps_cons in Hr as [He Hr]. simpl in Hn.
  destruct (e =? 117).
  2: { destruct (unescape e) as [x|] eqn:U; [|done].
       apply (push_res x _ r1); [by eapply unescape_range | simpl; lia|]. apply IH; [lia | done]. }
  destruct r1 as [|h1 [|h2 [|h3 [|h4 r2]]]]; try done.
  do 4 (apply cps_cons in Hr as [_ Hr]). simpl in Hn.
  destruct (hex4 h1 h2 h3 h4) as [u|] eqn:E; [|done]. apply hex4_range in E.
  assert (string_res (c :: e :: h1 :: h2 :: h3 :: h4 :: r2) (push u (scan_string r2))) as D.
  { apply (push_res u _ r2); [lia | simpl; lia|]. apply IH; [lia | done]. }
  destruct (is_high u) eqn:Hh; [|exact D].
  destruct r2 as [|b [|w [|g1 [|g2 [|g3 [|g4 r3]]]]]]; try exact D.
  destruct ((b =? 92) && (w =? 117)); [|exact D].
  destruct (hex4 g1 g2 g3 g4) as [u2|] eqn:E2; [|done].
  destruct (is_low u2) eqn:Hl; [|exact D].
  unfold is_high, is_low in *. bool_prop. do 6 (apply cps_cons in Hr as [_ Hr]). simpl in Hn.
  apply (push_res _ _ r3); [lia | simpl; lia|]. apply IH; [lia | done].
Qed.

Lemma span_digits_spec s : let '(d, r) := span_digits s in
  s = d ++ r /\ Forall (fun c => is_digit c = true) d.
Proof.
  induction s as [|c s IH]; [done|]. simpl. destruct (is_digit c) eqn:E; [|done].
  destruct (span_digits s) as [d r]. destruct IH as [-> F]. split; [done | by constructor].
Qed.

Lemma from_digits_lt ds : Forall (fun c => is_digit c = true) ds -> 0 <= from_digits ds < 10 ^ zlen ds.
Proof.
  induction ds as [|x ds IH] using rev_ind; intros F; [done|].
  apply Forall_app in F as [F Fx]. apply Forall_cons in Fx as [Fx _]. specialize (IH F).
  rewrite from_digits_app, zlen_app, Z.pow_add_r by apply zlen_nonneg.
  assert (from_digits [x] = x - 48) as -> by done.
  change (10 ^ zlen [x]) with 10. unfold is_digit in Fx. bool_prop. lia.
Qed.

Lemma int_literal_res neg ds : Forall (fun c => is_digit c = true) ds ->
  match int_literal neg ds with Ok v => decoded v = true | Err e => exists m, e = ValueError m end.
Proof.
  intros F. unfold int_literal. destruct (Z.ltb_spec INT_MAX_STR_DIGITS (zlen ds)); [eauto|].
  pose proof (from_digits_lt ds F) as B.
  assert (10 ^ zlen ds <= INT_LIMIT) by (rewrite INT_LIMIT_eq; apply Z.pow_le_mono_r; lia).
  simpl. destruct neg; apply Z.ltb_lt; lia.
Qed.

(** Errors of the scanner itself, or of a hook. *)
Section ScanResults.
Context (h : hooks) (hook_err : exn -> Prop).
Context (Hpairs : forall ps, Forall (fun kv => cps kv.1 = true /\ decoded kv.2 = true) ps ->
           match h_pairs h ps with Ok v => decoded v = true | Err e => hook_err e end).
Context (Hconst : forall c, match h_const h c with Ok v => decoded v = true | Err e => hook_err e end).

Definition scan_err (e : exn) : Prop :=
  e = JSONDecodeError \/ e = RecursionError \/ (exists m, e = ValueError m) \/ hook_err e.

Definition scan_res {A} (P : A -> Prop) (s : str) (m : res (A * str)) : Prop :=
  match m with
  | Ok (v, r) => P v /\ cps r = true /\ (length r < length s)%nat
  | Err e => scan_err e
  end.

Lemma decode_err : scan_err JSONDecodeError.
Proof. by left. Qed.

(** [sub s r]: [r] is no longer than [s], with code points in range. *)
Definition sub (s r : str) : Prop := cps r = true /\ (length r <= length s)%nat.

Lemma sub_refl s : cps s = true -> sub s s.
Proof. by split. Qed.
Lemma sub_tail c s : cps (c :: s) = true -> sub (c :: s) s.
Proof. intros [_ H]%cps_cons. split; [done | simpl; lia]. Qed.
Lemma sub_trans s r t : sub s r -> sub r t -> sub s t.
Proof. intros [H1 H2] [H3 H4]. split; [done | lia]. Qed.

Lemma sub_digits s : cps s = true -> sub s (snd (span_digits s)) /\
  Forall (fun c => is_digit c = true) (fst (span_digits s)) /\
  (length (fst (span_digits s)) + length (snd (span_digits s)) = length s)%nat.
Proof.
  intros H. pose proof (span_digits_spec s) as P. destruct (span_digits s) as [d r]. destruct P as [-> F].
  unfold cps in H. rewrite forallb_app in H. apply andb_true_iff in H as [_ H]. simpl.
  rewrite length_app. split; [split; [done | rewrite length_app; lia] | done].
Qed.

Lemma match_dot {A} (c : Z) (x y : A) : match c with 46 => x | _ => y end = if c =? 46 then x else y.
Proof. destruct c as [|p|p]; try done. by do 6 (destruct p as [p|p|]; try done). Qed.

Lemma frac_sub s fr r : cps s = true -> scan_frac s = Some (fr, r) -> sub s r.
Proof.
  intros Hs. unfold scan_frac. destruct s as [|c s]; [done|]. rewrite match_dot. case_match; [|done].
  pose proof (sub_tail c s Hs) as T.
  destruct (sub_digits s (proj1 T)) as [D _]. destruct (span_digits s) as [d r'].
  destruct d; [done|]. intros [= <- <-]. by eapply sub_trans.
Qed.

Lemma exp_sub s e r : cps s = true -> scan_exp s = Some (e, r) -> sub s r.
Proof.
  intros Hs. unfold scan_exp. destruct s as [|c s]; [done|]. case_match; [|done].
  pose proof (sub_tail c s Hs) as T.
  set (sg := match s with 45 :: r' => (true, r') | 43 :: r' => (false, r') | _ => (false, s) end).
  assert (sub s (snd sg)) as Hsg.
  { subst sg. destruct s as [|x s]; [by apply sub_refl, T|].
    pose proof (sub_refl _ (proj1 T)). pose proof (sub_tail x s (proj1 T)).
    destruct x as [|p|p]; try done. do 6 (destruct p as [p|p|]; try done). }
  destruct sg as [neg s1]. simpl in Hsg. destruct (sub_digits s1 (proj1 Hsg)) as [D _].
  destruct (span_digits s1) as [d r']. destruct d; [done|]. intros [= <- <-].
  eapply sub_trans; [exact T|]. by eapply sub_trans.
Qed.

(** The value behind a non-empty integer part. *)
Definition finish (neg : bool) (ds r : str) : res (value * str) :=
  match scan_frac r, scan_exp (match scan_frac r with Some (_, r') => r' | None => r end) with
  | None, None => v ← int_literal neg ds; Ok (v, r)
  | Some (fr, r'), None =>
      Ok (VFloat (float_of_decimal neg (from_digits (ds ++ fr)) (- zlen fr)), r')
  | None, Some (e, r') => Ok (VFloat (float_of_decimal neg (from_digits ds) e), r')
  | Some (fr, _), Some (e, r') =>
      Ok (VFloat (float_of_decimal neg (from_digits (ds ++ fr)) (e - zlen fr)), r')
  end.

Lemma finish_res neg ds r s : cps r = true -> (length r < length s)%nat ->
  Forall (fun c => is_digit c = true) ds ->
  scan_res (fun v => decoded v = true) s (finish neg ds r).
Proof.
  intros Hr Hl F. unfold finish.
  destruct (scan_frac r) as [[fr r']|] eqn:Ef.
  - pose proof (frac_sub _ _ _ Hr Ef) as S. destruct (scan_exp r') as [[e r'']|] eqn:Ee.
    + pose proof (exp_sub _ _ _ (proj1 S) Ee) as S'. destruct S, S'. simpl. split_and!; [done..|lia].
    + destruct S. simpl. split_and!; [done..|lia].
  - destruct (scan_exp r) as [[e r'']|] eqn:Ee.
    + pose proof (exp_sub _ _ _ Hr Ee) as S'. destruct S'. simpl. split_and!; [done..|lia].
    + pose proof (int_literal_res neg ds F) as I. destruct (int_literal neg ds); simpl.
      * by split_and!.
      * right; right; left. exact I.
Qed.

Lemma number_res s : cps s = true -> scan_res (fun v => decoded v = true) s (scan_number s).
Proof.
  intros Hs. unfold scan_number.
  set (sg := match s with 45 :: r => (true, r) | _ => (false, s) end).
  assert (sub s (snd sg)) as Hsg.
  { subst sg. destruct s as [|c s]; [done|]. pose proof (sub_refl _ Hs). pose proof (sub_tail _ _ Hs).
    destruct c as [|p|p]; try done. do 6 (destruct p as [p|p|]; try done). }
  destruct sg as [neg s1]. simpl in Hsg. destruct Hsg as [Hc Hl].
  set (ip := match s1 with
         | 48 :: r => Some ([48], r)
         | c :: _ => if is_digit c then Some (span_digits s1) else None
         | [] => None
         end).
  assert (match ip with None => True | Some (ds, r) =>
    cps r = true /\ (length r < length s1)%nat /\ Forall (fun c => is_digit c = true) ds end) as Hip.
  { subst ip. destruct s1 as [|c s1]; [done|]. pose proof (sub_tail _ _ Hc) as [Ht _].
    assert (is_digit c = true -> match Some (span_digits (c :: s1)) with None => True | Some (ds, r) =>
      cps r = true /\ (length r < length (c :: s1))%nat /\ Forall (fun c => is_digit c = true) ds end) as D.
    { intros E. destruct (sub_digits (c :: s1) Hc) as ([D1 _] & D2 & D3). revert D1 D2 D3.
      simpl. rewrite E. destruct (span_digits s1) as [d r]. simpl. intros. split_and!; [done | lia | done]. }
    assert (match (if is_digit c then Some (span_digits (c :: s1)) else None) with None => True | Some (ds, r) =>
      cps r = true /\ (length r < length (c :: s1))%nat /\ Forall (fun c => is_digit c = true) ds end) as D'.
    { destruct (is_digit c); [by apply D | done]. }
    destruct c as [|p|p]; try exact D'. do 6 (destruct p as [p|p|]; try exact D').
    split_and!; [done | simpl; lia | by repeat constructor]. }
  destruct ip as [[ds r]|]; [|apply decode_err]. destruct Hip as (H1 & H2 & H3).
  apply (finish_res neg ds r s); [done | lia | done].
Qed.
Lemma bind_scan {A B} (P : A -> Prop) (Q : B -> Prop) s (m : res (A * str)) (f : A * str -> res (B * str)) :
  scan_res P s m ->
  (forall v r, P v -> cps r = true -> (length r < length s)%nat -> scan_res Q s (f (v, r))) ->
  scan_res Q s (m ≫= f).
Proof. destruct m as [[v r]|e]; simpl; [|done]. intros (H1 & H2 & H3) H. by apply H. Qed.

Lemma scan_res_weaken {A} (P : A -> Prop) s s' m :
  (length s' <= length s)%nat -> scan_res P s' m -> scan_res P s m.
Proof. destruct m as [[v r]|e]; simpl; [|done]. intros ? (? & ? & ?). split_and!; [done..|lia]. Qed.

Lemma string_scan s : cps s = true -> scan_res (fun t => cps t = true) s (scan_string s).
Proof.
  intros H. pose proof (scan_string_res (length s) s (le_n _) H) as S.
  destruct (scan_string s) as [[t r]|e]; [done|]. simpl in *. rewrite S. apply decode_err.
Qed.

Lemma skip_ws_sub s : cps s = true -> sub s (skip_ws s).
Proof. intros. split; [by apply cps_drop_while | apply drop_while_len]. Qed.

Lemma eat_sub x s r : cps s = true -> eat x s = Some r -> cps r = true /\ (length r < length s)%nat.
Proof.
  intros Hs. unfold eat. destruct s as [|c s]; [done|]. case_match; [|done]. intros [= <-].
  apply cps_cons in Hs as [_ Hs]. split; [done | simpl; lia].
Qed.

Lemma drop_lt n (s : str) : s <> [] -> n <> O -> (length (drop n s) < length s)%nat.
Proof. intros. rewrite length_drop. destruct s; [done|]. simpl. destruct n; [done|]. lia. Qed.

Definition pairs_ok (ps : list (str * value)) : Prop :=
  Forall (fun kv => cps kv.1 = true /\ decoded kv.2 = true) ps.

Lemma pairs_scan s ps r : pairs_ok ps -> cps r = true -> (length r < length s)%nat ->
  scan_res (fun v => decoded v = true) s (v ← h_pairs h ps; Ok (v, r)).
Proof.
  intros Hp Hr Hl. specialize (Hpairs ps Hp). destruct (h_pairs h ps); simpl; [done|].
  by right; right; right.
Qed.

Lemma const_scan s c r : cps r = true -> (length r < length s)%nat ->
  scan_res (fun v => decoded v = true) s (v ← h_const h c; Ok (v, r)).
Proof.
  intros Hr Hl. specialize (Hconst c). destruct (h_const h c); simpl; [done|].
  by right; right; right.
Qed.

(** The three mutually recursive scanners, with enough fuel. *)
Lemma scan_all_res n :
  (forall lim s, cps s = true -> (2 * length s + 1 <= n)%nat ->
     scan_res (fun v => decoded v = true) s (scan h n lim s)) /\
  (forall lim s, cps s = true -> (2 * length s + 2 <= n)%nat ->
     scan_res (Forall (fun v => decoded v = true)) s (scan_elems h n lim s)) /\
  (forall lim s, cps s = true -> (2 * length s + 2 <= n)%nat ->
     scan_res pairs_ok s (scan_members h n lim s)).
Proof.
  induction n as [|n (IHv & IHe & IHm)]; [split_and!; intros; lia|]. split_and!; intros lim s Hs Hn.
  - cbn [scan]. destruct s as [|c r]; [apply decode_err|]. pose proof (sub_tail c r Hs) as [Hr Hlr].
    simpl in Hn. pose proof (skip_ws_sub r Hr) as [Hw Hlw].
    destruct (c =? 34).
    { eapply bind_scan; [eapply scan_res_weaken; [|by apply string_scan]; simpl; lia|].
      intros t r' Ht Hr' Hl. done. }
    destruct (c =? 123).
    { destruct lim as [|lim]; [by right; left|]. destruct (eat 125 (skip_ws r)) as [r'|] eqn:E.
      - apply eat_sub in E as [? ?]; [|done]. apply pairs_scan; [by constructor | done | simpl; lia].
      - eapply bind_scan; [eapply scan_res_weaken; [|apply IHm; [done|lia]]; simpl; lia|].
        intros ps r' Hp Hr' Hl. by apply pairs_scan. }
    destruct (c =? 91).
    { destruct lim as [|lim]; [by right; left|]. destruct (eat 93 (skip_ws r)) as [r'|] eqn:E.
      - apply eat_sub in E as [? ?]; [|done]. simpl. split_and!; [done | done | lia].
      - eapply bind_scan; [eapply scan_res_weaken; [|apply IHe; [done|lia]]; simpl; lia|].
        intros vs r' Hp Hr' Hl. simpl. split_and!; [by apply forallb_Forall | done | done]. }
    assert (forall k, k <> O -> cps (drop k (c :: r)) = true /\ (length (drop k (c :: r)) < length (c :: r))%nat) as D.
    { intros k Hk. split; [by apply cps_drop | by apply drop_lt]. }
    repeat (case_match; [first [apply const_scan | split; [done|]]; by apply D|]).
    by apply number_res.
  - cbn [scan_elems]. eapply bind_scan; [apply IHv; [done | lia]|]. intros v r Hv Hr Hl.
    pose proof (skip_ws_sub r Hr) as [Hw Hlw]. destruct (skip_ws r) as [|c r']; [apply decode_err|].
    pose proof (sub_tail c r' Hw) as [Hr' _]. simpl in Hlw.
    destruct (c =? 93); [simpl; split_and!; [by constructor | done | lia]|].
    destruct (c =? 44); [|apply decode_err]. pose proof (skip_ws_sub r' Hr') as [Hw2 Hlw2].
    eapply bind_scan; [eapply scan_res_weaken; [|apply IHe; [done|lia]]; lia|].
    intros vs r'' Hvs Hr'' Hl''. simpl. split_and!; [by constructor | done | lia].
  - cbn [scan_members]. destruct s as [|q s1]; [apply decode_err|].
    pose proof (sub_tail q s1 Hs) as [Hs1 _]. simpl in Hn.
    destruct (q =? 34); [|apply decode_err].
    eapply bind_scan; [eapply scan_res_weaken; [|by apply string_scan]; simpl; lia|].
    intros k r0 Hk Hr0 Hl0. simpl in Hl0.
    pose proof (skip_ws_sub r0 Hr0) as [Hw Hlw]. destruct (skip_ws r0) as [|col r1]; [apply decode_err|].
    pose proof (sub_tail col r1 Hw) as [Hr1 _]. simpl in Hlw. destruct (col =? 58); [|apply decode_err].
    pose proof (skip_ws_sub r1 Hr1) as [Hw1 Hlw1].
    eapply bind_scan; [eapply scan_res_weaken; [|apply IHv; [done|lia]]; simpl; lia|].
    intros v r Hv Hr Hl. simpl in Hl.
    pose proof (skip_ws_sub r Hr) as [Hw2 Hlw2]. destruct (skip_ws r) as [|c r']; [apply decode_err|].
    pose proof (sub_tail c r' Hw2) as [Hr' _]. simpl in Hlw2.
    destruct (c =? 125); [simpl; split_and!; [by repeat constructor | done | lia]|].
    destruct (c =? 44); [|apply decode_err]. pose proof (skip_ws_sub r' Hr') as [Hw3 Hlw3].
    eapply bind_scan; [eapply scan_res_weaken; [|apply IHm; [done|lia]]; simpl; lia|].
    intros ps r'' Hps Hr'' Hl''. simpl in *. split_and!; [by constructor | done | lia].
Qed.

(** Reading a text gives a decoded document or an error of the scanner or a hook; it
    always terminates. *)
Lemma loads_res lim s : cps s = true ->
  match loads h lim s with Ok v => decoded v = true | Err e => scan_err e end.
Proof.
  intros Hs. unfold loads. destruct (starts_with [0xFEFF] s); [apply decode_err|].
  pose proof (skip_ws_sub s Hs) as [Hw _].
  pose proof (proj1 (scan_all_res (2 * length (skip_ws s) + 2)) lim (skip_ws s) Hw ltac:(lia)) as R.
  destruct (scan h (2 * length (skip_ws s) + 2) lim (skip_ws s)) as [[v r]|e]; simpl in *; [|done].
  destruct R as (Hv & _). destruct (skip_ws r); [done | apply decode_err].
Qed.
End ScanResults.

(** ** The standard dict hook *)
Lemma dict_set_keys d k v : NoDup (keys d) ->
  Forall (fun kv => key_cps kv.1 = true /\ decoded kv.2 = true) d -> cps k = true -> decoded v = true ->
  NoDup (keys (dict_set d k v)) /\ (forall x, x ∈ keys (dict_set d k v) <-> x = k \/ x ∈ keys d) /\
  Forall (fun kv => key_cps kv.1 = true /\ decoded kv.2 = true) (dict_set d k v).
Proof.
  intros Hn F Hk Hv. induction d as [|[[k'|t] v'] d IH].
  - simpl. split_and!; [repeat constructor; apply not_elem_of_nil | | by repeat constructor].
    intros x. rewrite elem_of_cons, !elem_of_nil. tauto.
  - unfold keys in *. simpl in *. apply NoDup_cons in Hn as [Hx Hn]. apply Forall_cons in F as [F1 F].
    destruct (str_eqb k k') eqn:E.
    + apply str_eqb_eq in E as ->. simpl. split_and!; [by constructor | | by constructor].
      intros x. rewrite elem_of_cons. tauto.
    + destruct (IH Hn F) as (H1 & H2 & H3). apply str_eqb_neq in E. simpl.
      split_and!; [constructor; [|done] | | by constructor].
      * rewrite H2. intros [->|?]; done.
      * intros x. rewrite !elem_of_cons, H2. tauto.
  - apply Forall_cons in F as [[F1 _] _]. done.
Qed.

Lemma dict_of_pairs_decoded ps :
  Forall (fun kv => cps kv.1 = true /\ decoded kv.2 = true) ps -> decoded (dict_of_pairs ps) = true.
Proof.
  intros F. unfold dict_of_pairs. apply decoded_dict.
  enough (forall d, NoDup (keys d) -> Forall (fun kv => key_cps kv.1 = true /\ decoded kv.2 = true) d ->
    Forall (fun kv => key_cps kv.1 = true /\ decoded kv.2 = true) (fold_left (fun d kv => dict_set d kv.1 kv.2) ps d) /\
    NoDup (keys (fold_left (fun d kv => dict_set d kv.1 kv.2) ps d))) as G.
  { apply G; constructor. }
  induction F as [|[k v] ps [Hk Hv] F IH]; intros d Hn Hd; [done|]. simpl in *.
  destruct (dict_set_keys d k v Hn Hd Hk Hv) as (H1 & _ & H3). by apply IH.
Qed.

Lemma default_loads_res lim s : cps s = true ->
  match loads default_hooks lim s with
  | Ok v => decoded v = true
  | Err e => e = JSONDecodeError \/ e = RecursionError \/ exists m, e = ValueError m
  end.
Proof.
  intros Hs. pose proof (loads_res default_hooks (fun _ => False)
    (fun ps F => dict_of_pairs_decoded ps F) (fun c => eq_refl) lim s Hs) as R.
  destruct (loads default_hooks lim s); [done|]. unfold scan_err in R. naive_solver.
Qed.
