(* ===== verification/JsonPrefix.v ===== *)
(** A torn write of a flat JSON object never reads back: every strict prefix of its text is
    refused with [JSONDecodeError].  Crash recovery relies on it: a journal cut short by a
    crash cannot be mistaken for a whole one. *)
From S2P Require Import Prelude PyText Json JsonFacts JsonScan.

(** ** Strings *)
Definition ok_app {A} (m m' : res (A * str)) (q : str) : Prop :=
  forall a r, m = Ok (a, r) -> m' = Ok (a, r ++ q).

Lemma push_app c m m' q : ok_app m m' q -> ok_app (push c m) (push c m') q.
Proof.
  intros H a r. unfold push. destruct m as [[x y]|]; [|done]. simpl. intros [= <- <-].
  by rewrite (H x y eq_refl).
Qed.

Lemma scan_string_app n : forall p q, (length p <= n)%nat -> ok_app (scan_string p) (scan_string (p ++ q)) q.
Proof.
  induction n as [|n IH]; intros p q Hn; (destruct p as [|c r]; [done|]); [simpl in Hn; lia|]. simpl in Hn.
  cbn [app scan_string]. destruct (c =? 34); [by intros a r0 [= <- <-]|].
  destruct (c <=? 31); [done|]. destruct (negb (c =? 92)); [apply push_app, IH; lia|].
  destruct r as [|e r1]; [done|]. simpl in Hn. cbn [app]. destruct (e =? 117).
  2: { destruct (unescape e); [apply push_app, IH; lia | done]. }
  do 4 (destruct r1 as [|? r1]; [done|]). cbn [app]. simpl in Hn.
  destruct (hex4 _ _ _ _) as [u|]; [|done].
  destruct (is_high u); [|apply push_app, IH; lia].
  assert (ok_app (push u (scan_string r1)) (push u (scan_string (r1 ++ q))) q) as P by (apply push_app, IH; lia).
  destruct r1 as [|b [|w r2]]; [done | |].
  { destruct (Z.eqb_spec b 92) as [->|Nb]; [done|]. cbn [app].
    destruct q as [|w q]; [exact P|]. destruct q as [|g1 [|g2 [|g3 [|g4 q]]]]; try exact P.
    destruct (b =? 92) eqn:E; [apply Z.eqb_eq in E; lia|]. exact P. }
  cbn [app]. destruct (Z.eqb_spec b 92) as [->|Nb].
  - destruct (Z.eqb_spec w 117) as [->|Nw].
    + destruct r2 as [|g1 [|g2 [|g3 [|g4 r3]]]]; try done. cbn [app andb].
      destruct (hex4 g1 g2 g3 g4); [|done]. destruct (is_low _); [|exact P]. apply push_app, IH. simpl in Hn. lia.
    + cbn [andb]. destruct r2 as [|? [|? [|? [|? r2]]]]; cbn [app]; try exact P;
        destruct q as [|? [|? [|? [|? q]]]]; exact P.
  - cbn [andb]. destruct r2 as [|? [|? [|? [|? r2]]]]; cbn [app]; try exact P;
      destruct q as [|? [|? [|? [|? q]]]]; exact P.
Qed.

(** A string literal cut short. *)
Lemma scan_string_cut a s p q : str_ok s = true -> cps p = true ->
  concat (map (esc1 a) s) ++ [34] = p ++ q -> q <> [] -> scan_string p = Err JSONDecodeError.
Proof.
  intros Hs Hp E Hq. destruct (scan_string p) as [[x r]|e] eqn:S.
  - pose proof (scan_string_app (length p) p q (Nat.le_refl _) _ _ S) as K. rewrite <- E in K.
    rewrite (scan_string_quote a s [] Hs) in K. injection K as _ K. by symmetry in K; apply app_nil in K as [_ ?].
  - pose proof (scan_string_res (length p) p (Nat.le_refl _) Hp) as R. rewrite S in R. simpl in R. by subst.
Qed.

(** ** Integers *)

(** A decimal literal cut short, the cut possibly after its last digit. *)
Lemma scan_digits_cut z p q : 0 <= z < INT_LIMIT -> dec_digits z = p ++ q -> p <> [] ->
  exists v, scan_number p = Ok (v, []).
Proof.
  intros Hz E Hp. pose proof (dec_digits_len z Hz) as HL.
  destruct (dec_digits_spec z) as (d & ds & Ed & F & _ & Z0); [lia|]. rewrite Ed in *.
  destruct p as [|c p]; [done|]. injection E as <- E. subst ds.
  assert (Forall (fun c => is_digit c = true) (d :: p)) as Fp.
  { apply Forall_cons in F as [Fd F]. apply Forall_app in F as [F _]. by constructor. }
  assert (int_literal false (d :: p) = Ok (VInt (from_digits (d :: p)))) as Hi.
  { unfold int_literal. replace (_ <? _) with false; [done|]. symmetry. apply Z.ltb_ge.
    rewrite zlen_cons, zlen_app in HL. rewrite zlen_cons. pose proof (zlen_nonneg q). lia. }
  assert (span_digits (d :: p) = (d :: p, [])) as Hsp.
  { rewrite <- (app_nil_r (d :: p)) at 1. by apply span_digits_app. }
  exists (VInt (from_digits (d :: p))). apply Forall_cons in Fp as [Fd _].
  destruct (digits_cases d Fd) as [->|Hd].
  - destruct (Z0 eq_refl) as [_ N]. apply app_nil in N as [-> _]. unfold scan_number. cbn [scan_frac scan_exp]. by rewrite Hi.
  - unfold scan_number.
    assert ((match d :: p with 45 :: r => (true, r) | _ => (false, d :: p) end) = (false, d :: p)) as ->.
    { destruct d as [|x|]; try lia. do 6 (destruct x as [x|x|]; try done; try lia). }
    assert (match d :: p with 48 :: r => Some ([48], r) | c :: _ => if is_digit c then Some (span_digits (d :: p)) else None | [] => None end = Some (d :: p, [])) as ->.
    { rewrite Hsp, Fd. destruct d as [|x|]; try lia. do 6 (destruct x as [x|x|]; try done; try lia). }
    cbn [scan_frac scan_exp]. by rewrite Hi.
Qed.

(** ** Flat objects *)
Definition flat (v : value) : bool :=
  match v with VStr s => str_ok s | VInt z => (0 <=? z) && (z <? INT_LIMIT) | _ => false end.

(** The scanner gave up, on the text or on its fuel. *)
Definition cut {A} (m : res A) : Prop := m = Err JSONDecodeError \/ m = Err OutOfFuel.

Lemma cut_bind {A B} (m : res A) (f : A -> res B) : cut m -> cut (m ≫= f).
Proof. intros [-> | ->]; [by left | by right]. Qed.

Lemma app_cut {A} (p q a b : list A) : p ++ q = a ++ b ->
  (exists p', p = a ++ p' /\ p' ++ q = b) \/ (exists a', a = p ++ a' /\ a' <> [] /\ q = a' ++ b).
Proof.
  intros H. apply app_eq_inv in H as [(k & -> & ->)|(k & -> & ->)].
  - left. by exists k.
  - destruct k as [|x k]; [left; exists []; by rewrite !app_nil_r | right; by exists (x :: k)].
Qed.

Lemma delim_prefix p q : delim (p ++ q) -> delim p.
Proof. by destruct p. Qed.

Lemma cps_app_r p q : cps (p ++ q) = true -> cps q = true.
Proof. unfold cps. rewrite forallb_app. by intros [_ ?]%andb_true_iff. Qed.

Lemma skip_ws_cut w p q s : Forall (fun x => is_ws x = true) w -> p ++ q = w ++ s -> match s with c :: _ => is_ws c = false | [] => True end ->
  (skip_ws p = []) \/ exists p', skip_ws p = p' /\ p' ++ q = s /\ p = w ++ p'.
Proof.
  intros Hw E Hs. apply app_cut in E as [(p' & -> & E)|(w' & -> & Hn & ->)].
  - rewrite skip_ws_app by done. destruct p' as [|c p']; [by left|]. right. exists (c :: p').
    destruct s as [|c' s]; [done|]. injection E as -> E. rewrite skip_ws_cons by done. by rewrite <- E.
  - left. apply Forall_app in Hw as [Hw _]. rewrite <- (app_nil_r p), skip_ws_app by done. done.
Qed.

Section Cut.
Context (h : hooks) (c : cfg) `{Hl : Layout c} (Hsort : c_sort c = false) (Hnl : c_indent c = None).

(** A scanned value whose text was cut, or whose text is whole. *)
Lemma scan_value_cut v p q Y n lim : flat v = true -> cps p = true ->
  p ++ q = dump c 1 v ++ Y -> delim Y ->
  cut (scan h n lim p) \/ (exists x, scan h n lim p = Ok (x, [])) \/
  (exists x p', scan h n lim p = Ok (x, p') /\ p' ++ q = Y /\ cps p' = true).
Proof.
  intros Hv Hp E HY. destruct n as [|n]; [left; by right|]. cbn [scan].
  destruct p as [|ch p]; [left; by left|]. destruct v as [| |z| |s| | | | |]; try done.
  - simpl in Hv. bool_prop. cbn [dump] in E. unfold int_text in E.
    replace (z <? 0) with false in E by (symmetry; apply Z.ltb_ge; lia).
    destruct (dec_digits_spec z) as (d & ds & Ed & F & _); [lia|].
    assert (ch = d /\ (48 <= d <= 57)) as [-> Hd].
    { rewrite Ed in E. injection E as -> _. split; [done|]. apply Forall_cons in F as [Fd _].
      apply digits_cases in Fd. lia. }
    assert (scan h (S n) lim (d :: p) = scan_number (d :: p)) as Sn.
    { cbn [scan]. destruct (Z.eqb_spec d 34), (Z.eqb_spec d 123), (Z.eqb_spec d 91); try lia.
      rewrite !starts_with_ne by (done || (vm_compute hd; lia)). done. }
    change (scan h (S n) lim (d :: p)) with (scan h (S n) lim (d :: p)) in Sn. cbn [scan] in Sn. rewrite Sn.
    apply app_cut in E as [(p' & Ep & E)|(a' & Ea & _ & _)].
    + rewrite Ep. right; right. exists (VInt z), p'.
      pose proof (scan_number_digits false z p' ltac:(lia)) as K. cbn [app] in K. rewrite K; [|apply (delim_prefix p' q); by rewrite E].
      split; [done|]. split; [done|]. rewrite Ep in Hp. by apply cps_app_r in Hp.
    + right; left. by apply (scan_digits_cut z (d :: p) a').
  - simpl in Hv. cbn [dump] in E. unfold quote in E. cbn [app] in E. injection E as -> E.
    change (34 =? 34) with true. cbv iota. apply cps_cons in Hp as [_ Hp].
    apply app_cut in E as [(p' & -> & E)|(a' & Ea & Na & _)].
    + right; right. exists (VStr s), p'. rewrite <- app_assoc. cbn [app]. rewrite scan_string_quote by done.
      split; [done|]. split; [done|]. by apply cps_app_r in Hp.
    + left. left. by rewrite (scan_string_cut (c_ascii c) s p a').
Qed.

Definition texts (l : list (str * value)) : list str := map (fun kv => member c (kv.1, dump c 1 kv.2)) l.

(** What may follow a member: the next one, or the closing brace. *)
Definition after (l : list (str * value)) : str :=
  match l with [] => [125] | _ => c_isep c ++ join (c_isep c) (texts l) ++ [125] end.

Lemma after_delim l : delim (after l).
Proof. destruct l; simpl; [done|]. destruct (lay_isep (c := c)) as (w & -> & _). done. Qed.

Lemma join_after kv l : join (c_isep c) (texts (kv :: l)) ++ [125] = member c (kv.1, dump c 1 kv.2) ++ after l.
Proof. destruct l as [|kv' l]; [done|]. simpl. by rewrite <- !app_assoc. Qed.

(** One member of an object whose text may be cut: the scan fails, or gets behind it. *)
Lemma member_cut kv p q Y n lim : str_ok kv.1 = true -> flat kv.2 = true -> cps p = true ->
  p ++ q = member c (kv.1, dump c 1 kv.2) ++ Y -> delim Y ->
  cut (scan_members h n lim p) \/
  exists m x p', n = S m /\ p' ++ q = Y /\ cps p' = true /\
    scan_members h n lim p =
      match skip_ws p' with
      | ch :: r' =>
        if ch =? 125 then Ok ([(kv.1, x)], r')
        else if ch =? 44 then '(ps, r'') ← scan_members h m lim (skip_ws r'); Ok ((kv.1, x) :: ps, r'')
        else Err JSONDecodeError
      | [] => Err JSONDecodeError
      end.
Proof.
  intros Fk Fv Hp E HY. destruct n as [|n]; [left; by right|]. cbn [scan_members].
  destruct p as [|ch p]; [left; by left|].
  destruct (member_text c 1 kv.1 kv.2 Y) as (w & Ew & Hw & _).
  unfold member, quote in E. rewrite Ew in E. cbn [fst snd app] in E. injection E as -> E.
  change (34 =? 34) with true. cbv iota. apply cps_cons in Hp as [_ Hp]. rewrite <- !app_assoc in E.
  rewrite app_assoc in E. apply app_cut in E as [(p1 & -> & E)|(a' & Ea & Na & _)].
  2: { left. apply cut_bind. left. by apply (scan_string_cut (c_ascii c) kv.1 p a'). }
  apply cps_app_r in Hp. rewrite <- app_assoc. cbn [app]. rewrite scan_string_quote by done. cbn [mbind res_bind].
  destruct (skip_ws_cut [] p1 q _ (Forall_nil_2 _) E eq_refl) as [-> | (p2 & -> & E2 & ->)]; [left; by left|].
  cbn [app] in E, Hp. clear E. destruct p2 as [|col p3]; [left; by left|]. injection E2 as -> E.
  change (58 =? 58) with true. cbv iota. apply cps_cons in Hp as [_ Hp].
  assert (wf kv.2 = true) as Wv.
  { destruct kv as [k [| |z| |s| | | | |]]; simpl in *; try done. bool_prop. apply Z.ltb_lt. lia. }
  destruct (dump_head c 1 kv.2 Wv) as (x & t & Ed & Wx & _).
  assert (skip_ws p3 = [] \/ exists p', skip_ws p3 = p' /\ p' ++ q = dump c 1 kv.2 ++ Y /\ p3 = w ++ p') as S.
  { apply skip_ws_cut; [done | by rewrite E, <- app_assoc | by rewrite Ed]. }
  destruct S as [-> | (p4 & -> & E4 & ->)].
  { left. apply cut_bind. destruct n as [|n]; [by right | by left]. }
  apply cps_app_r in Hp.
  destruct (scan_value_cut kv.2 p4 q Y n lim Fv Hp E4 HY) as [C|[(y & ->)|(y & p5 & -> & E5 & Hp5)]].
  - left. by apply cut_bind.
  - left. by left.
  - right. exists n, y, p5. done.
Qed.

Lemma members_cut l : forall kv p q n lim,
  Forall (fun kv => str_ok kv.1 = true /\ flat kv.2 = true) (kv :: l) -> cps p = true ->
  p ++ q = join (c_isep c) (texts (kv :: l)) ++ [125] -> q <> [] -> cut (scan_members h n lim p).
Proof.
  induction l as [|kv' l IH]; intros kv p q n lim F Hp E Hq; rewrite join_after in E;
    apply Forall_cons in F as [[Fk Fv] F];
    destruct (member_cut kv p q _ n lim Fk Fv Hp E (after_delim _)) as [C|(m & x & p' & -> & E' & Hp' & ->)]; try done;
    (destruct p' as [|ch p']; [by left|]).
  - injection E' as -> E'. by apply app_nil in E' as [_ ?].
  - unfold after in E'. destruct (lay_isep (c := c)) as (w & Ew & Hw). rewrite Ew in E' at 1. injection E' as -> E'.
    rewrite skip_ws_cons by done. change (44 =? 125) with false. change (44 =? 44) with true. cbv iota.
    apply cut_bind. apply cps_cons in Hp' as [_ Hp'].
    assert (skip_ws p' = [] \/ exists p2, skip_ws p' = p2 /\ p2 ++ q = join (c_isep c) (texts (kv' :: l)) ++ [125] /\ p' = w ++ p2) as [-> | (p2 & -> & E2 & ->)].
    { apply skip_ws_cut; [done | done | by rewrite join_after]. }
    + destruct m as [|m]; [by right | by left].
    + apply (IH kv' p2 q m lim F); [by apply cps_app_r in Hp' | done..].
Qed.

(** A flat object's text, cut anywhere, is not JSON. *)
Lemma flat_cut l p q lim : l <> [] -> Forall (fun kv => str_ok kv.1 = true /\ flat kv.2 = true) l ->
  cps p = true -> dump c 0 (VDict (map (fun kv => (KStr kv.1, kv.2)) l)) = p ++ q -> q <> [] -> (1 <= lim)%nat ->
  loads h lim p = Err JSONDecodeError \/ loads h lim p = Err OutOfFuel.
Proof.
  intros Hne F Hp E Hq Hlim. destruct l as [|kv l]; [done|].
  assert (dump c 0 (VDict (map (fun kv => (KStr kv.1, kv.2)) (kv :: l))) = 123 :: join (c_isep c) (texts (kv :: l)) ++ [125]) as D.
  { cbn [dump]. rewrite Hsort, wrap_shape. unfold nl. rewrite Hnl. cbn [app map].
    unfold texts. rewrite app_nil_r. repeat f_equal. by rewrite !map_map. }
  rewrite D in E. clear D. unfold loads. destruct p as [|ch p]; [by left|]. injection E as <- E.
  rewrite starts_with_ne by done. rewrite skip_ws_cons by done.
  enough (cut (scan h (2 * length (123 :: p) + 2) lim (123 :: p))) as [-> | ->]; [by left | by right |].
  destruct lim as [|lim]; [lia|]. cbn [length]. replace (2 * S (length p) + 2)%nat with (S (2 * length p + 3)) by lia.
  cbn [scan]. change (123 =? 34) with false. change (123 =? 123) with true. cbv iota.
  apply cps_cons in Hp as [_ Hp]. symmetry in E.
  assert (skip_ws p = [] \/ exists p2, skip_ws p = p2 /\ p2 ++ q = join (c_isep c) (texts (kv :: l)) ++ [125] /\ p = [] ++ p2) as S.
  { apply skip_ws_cut; [constructor | done | by rewrite join_after]. }
  destruct S as [-> | (p2 & -> & E2 & ->)]; cbn [eat].
  - apply cut_bind. destruct (2 * length p + 3)%nat; [by right | by left].
  - assert (eat 125 p2 = None) as ->.
    { destruct p2 as [|x p2]; [done|]. rewrite join_after in E2. injection E2 as -> _. done. }
    apply cut_bind. by apply (members_cut l kv p2 q).
Qed.
End Cut.
