(* ===== verification/Hashes.v ===== *)
(** The [hashlib], [hmac] and [base64] functions the evidence layer calls:
    SHA3-256, SHA-256, HMAC and base64, executable over lists of bytes.  The
    examples are the published test vectors. *)
From S2P Require Import Prelude PyText.

(** ** SHA3-256 (FIPS 202) *)
Definition mask64 := 0xFFFFFFFFFFFFFFFF.
Definition rotl64 (v n : Z) : Z :=
  Z.land (Z.lor (Z.shiftl v n) (Z.shiftr v (64 - n))) mask64.

Definition keccak_rc : list Z :=
  [0x1; 0x8082; 0x800000000000808a; 0x8000000080008000; 0x808b; 0x80000001;
   0x8000000080008081; 0x8000000000008009; 0x8a; 0x88; 0x80008009; 0x8000000a; 0x8000808b;
   0x800000000000008b; 0x8000000000008089; 0x8000000000008003; 0x8000000000008002;
   0x8000000000000080; 0x800a; 0x800000008000000a; 0x8000000080008081; 0x8000000000008080;
   0x80000001; 0x8000000080008008].

(** Lane [i] of the state after rho and pi comes from lane [keccak_src i],
    rotated by [keccak_rot i]. *)
Definition keccak_src : list nat :=
  [0; 6; 12; 18; 24; 3; 9; 10; 16; 22; 1; 7; 13; 19; 20; 4; 5; 11; 17; 23; 2; 8; 14; 15; 21]%nat.
Definition keccak_rot : list Z :=
  [0; 44; 43; 21; 14; 28; 20; 3; 45; 61; 1; 6; 25; 8; 18; 27; 36; 10; 15; 56; 62; 55; 39;
   41; 2].

Definition lane (s : list Z) (i : nat) : Z := nth i s 0.

Definition keccak_round (s : list Z) (rc : Z) : list Z :=
  let c := map (fun x => Z.lxor (lane s x) (Z.lxor (lane s (x + 5)) (Z.lxor (lane s (x + 10))
                   (Z.lxor (lane s (x + 15)) (lane s (x + 20)))))) (seq 0 5) in
  let d := map (fun x => Z.lxor (lane c ((x + 4) mod 5)) (rotl64 (lane c ((x + 1) mod 5)) 1)) (seq 0 5) in
  let a := map (fun i => Z.lxor (lane s i) (lane d (i mod 5))) (seq 0 25) in
  let b := map (fun p => rotl64 (lane a p.1) p.2) (combine keccak_src keccak_rot) in
  let e := map (fun i => let y := (5 * (i / 5))%nat in
             Z.lxor (lane b i)
               (Z.land (Z.lxor (lane b (y + (i + 1) mod 5)) mask64) (lane b (y + (i + 2) mod 5))))
             (seq 0 25) in
  match e with x :: r => Z.lxor x rc :: r | [] => [] end.

Definition keccak_f (s : list Z) : list Z := fold_left keccak_round keccak_rc s.

Definition le64 (b : bytes) : Z := fold_right (fun x acc => x + 256 * acc) 0 b.
Fixpoint to_le (n : nat) (z : Z) : bytes :=
  match n with O => [] | S n => z mod 256 :: to_le n (z / 256) end.

Definition SHA3_RATE := 136%nat.

Definition xor_block (s : list Z) (blk : bytes) : list Z :=
  map (fun i => Z.lxor (lane s i)
         (if (i <? 17)%nat then le64 (take 8 (drop (8 * i) blk)) else 0)) (seq 0 25).

Fixpoint sha3_absorb (n : nat) (s : list Z) (m : bytes) : list Z :=
  match n with
  | O => s
  | S n => sha3_absorb n (keccak_f (xor_block s (take SHA3_RATE m))) (drop SHA3_RATE m)
  end.

Definition sha3_pad (m : bytes) : bytes :=
  let k := (SHA3_RATE - length m mod SHA3_RATE)%nat in
  m ++ (if (k =? 1)%nat then [0x86] else 0x06 :: repeat 0 (k - 2) ++ [0x80]).

(** [hashlib.sha3_256(m).digest()]. *)
Definition sha3_256 (m : bytes) : bytes :=
  let p := sha3_pad m in
  let s := sha3_absorb (length p / SHA3_RATE) (repeat 0 25) p in
  concat (map (fun i => to_le 8 (lane s i)) (seq 0 4)).

(** ** SHA-256 (FIPS 180-4) *)
Definition mask32 := 0xFFFFFFFF.
Definition rotr32 (v n : Z) : Z := Z.land (Z.lor (Z.shiftr v n) (Z.shiftl v (32 - n))) mask32.
Definition add32 (a b : Z) : Z := (a + b) mod 0x100000000.

(** The [n] 32-bit words of a number, most significant first. *)
Definition words32 (n : nat) (z : Z) : list Z :=
  map (fun i => Z.shiftr z (32 * Z.of_nat (n - S i)) mod 2 ^ 32) (seq 0 n).

Definition sha256_k : list Z := Eval vm_compute in words32 64
  0x428a2f9871374491b5c0fbcfe9b5dba53956c25b59f111f1923f82a4ab1c5ed5d807aa9812835b01243185be550c7dc372be5d7480deb1fe9bdc06a7c19bf174e49b69c1efbe47860fc19dc6240ca1cc2de92c6f4a7484aa5cb0a9dc76f988da983e5152a831c66db00327c8bf597fc7c6e00bf3d5a7914706ca63511429296727b70a852e1b21384d2c6dfc53380d13650a7354766a0abb81c2c92e92722c85a2bfe8a1a81a664bc24b8b70c76c51a3d192e819d6990624f40e3585106aa07019a4c1161e376c082748774c34b0bcb5391c0cb34ed8aa4a5b9cca4f682e6ff3748f82ee78a5636f84c878148cc7020890befffaa4506cebbef9a3f7c67178f2.
Definition sha256_h0 : list Z := Eval vm_compute in words32 8
  0x6a09e667bb67ae853c6ef372a54ff53a510e527f9b05688c1f83d9ab5be0cd19.

(** The message schedule, most recent word first. *)
Fixpoint sha256_schedule (n : nat) (w : list Z) : list Z :=
  match n with
  | O => w
  | S n =>
    let s0 := let x := nth 14 w 0 in Z.lxor (rotr32 x 7) (Z.lxor (rotr32 x 18) (Z.shiftr x 3)) in
    let s1 := let x := nth 1 w 0 in Z.lxor (rotr32 x 17) (Z.lxor (rotr32 x 19) (Z.shiftr x 10)) in
    sha256_schedule n (add32 (add32 (nth 15 w 0) s0) (add32 (nth 6 w 0) s1) :: w)
  end.

Definition sha256_step (st : list Z) (kw : Z * Z) : list Z :=
  match st with
  | [a; b; c; d; e; f; g; h] =>
    let s1 := Z.lxor (rotr32 e 6) (Z.lxor (rotr32 e 11) (rotr32 e 25)) in
    let ch := Z.lxor (Z.land e f) (Z.land (Z.lxor e mask32) g) in
    let t1 := add32 (add32 h s1) (add32 ch (add32 kw.1 kw.2)) in
    let s0 := Z.lxor (rotr32 a 2) (Z.lxor (rotr32 a 13) (rotr32 a 22)) in
    let maj := Z.lxor (Z.land a b) (Z.lxor (Z.land a c) (Z.land b c)) in
    [add32 t1 (add32 s0 maj); a; b; c; add32 d t1; e; f; g]
  | _ => st
  end.

Definition sha256_block (st : list Z) (blk : bytes) : list Z :=
  let w0 := rev (map (fun i => from_be (take 4 (drop (4 * i) blk))) (seq 0 16)) in
  let w := rev (sha256_schedule 48 w0) in
  map (fun p => add32 p.1 p.2) (combine st (fold_left sha256_step (combine sha256_k w) st)).

Fixpoint sha256_blocks (n : nat) (st : list Z) (m : bytes) : list Z :=
  match n with
  | O => st
  | S n => sha256_blocks n (sha256_block st (take 64 m)) (drop 64 m)
  end.

Definition sha256_pad (m : bytes) : bytes :=
  let k := (64 - (length m + 9) mod 64)%nat in
  m ++ 0x80 :: repeat 0 (k mod 64)%nat ++ rev (to_le 8 (8 * zlen m)).

(** [hashlib.sha256(m).digest()]. *)
Definition sha256 (m : bytes) : bytes :=
  let p := sha256_pad m in
  concat (map (fun w => rev (to_le 4 w)) (sha256_blocks (length p / 64) sha256_h0 p)).

(** ** HMAC (RFC 2104) over a hash with [blk]-byte blocks *)
Definition hmac (hash : bytes -> bytes) (blk : nat) (k m : bytes) : bytes :=
  let k0 := if (blk <? length k)%nat then hash k else k in
  let kp := k0 ++ repeat 0 (blk - length k0) in
  hash (map (Z.lxor 0x5C) kp ++ hash (map (Z.lxor 0x36) kp ++ m)).
Definition hmac_sha256 := hmac sha256 64.
Definition hmac_sha3_256 := hmac sha3_256 136.

(** [.hexdigest()]: lower-case hexadecimal text. *)
Definition hexchar (n : Z) : Z := if n <? 10 then 48 + n else 87 + n.
Definition hex (b : bytes) : str := concat (map (fun x => [hexchar (x / 16); hexchar (x mod 16)]) b).

(** ** base64 *)
Definition b64_char (n : Z) : Z :=
  if n <? 26 then 65 + n else if n <? 52 then 71 + n else if n <? 62 then n - 4
  else if n =? 62 then 43 else 47.

Definition b64_val (c : Z) : option Z :=
  if (65 <=? c) && (c <=? 90) then Some (c - 65)
  else if (97 <=? c) && (c <=? 122) then Some (c - 71)
  else if (48 <=? c) && (c <=? 57) then Some (c + 4)
  else if c =? 43 then Some 62 else if c =? 47 then Some 63 else None.

(** [base64.b64encode]. *)
Fixpoint b64encode (b : bytes) : str :=
  match b with
  | [] => []
  | [x] => [b64_char (x / 4); b64_char (x mod 4 * 16); 61; 61]
  | [x; y] => [b64_char (x / 4); b64_char (x mod 4 * 16 + y / 16); b64_char (y mod 16 * 4); 61]
  | x :: y :: z :: r =>
      b64_char (x / 4) :: b64_char (x mod 4 * 16 + y / 16) :: b64_char (y mod 16 * 4 + z / 64)
      :: b64_char (z mod 64) :: b64encode r
  end.

(** [binascii.a2b_base64(s, strict_mode=True)] (CPython 3.11): [q] of the four
    positions of the current quantum are filled, [l] holds the bits carried over.
    Trailing bits of a padded quantum are dropped unchecked, and padding behind a
    complete quantum is ignored. *)
Fixpoint a2b (q l : Z) (s : str) : option bytes :=
  match s with
  | [] => if q =? 0 then Some [] else None
  | c :: r =>
    if c =? 61 then
      if q =? 0 then if forallb (Z.eqb 61) r then Some [] else None
      else if q =? 2 then match r with [d] => if d =? 61 then Some [] else None | _ => None end
      else if q =? 3 then match r with [] => Some [] | _ => None end
      else None
    else
      v ← b64_val c;
      if q =? 0 then a2b 1 v r
      else if q =? 1 then cons (l * 4 + v / 16) <$> a2b 2 (v mod 16) r
      else if q =? 2 then cons (l * 16 + v / 4) <$> a2b 3 (v mod 4) r
      else cons (l * 64 + v) <$> a2b 0 0 r
  end.

(** [base64.b64decode(s, validate=True)]; [binascii.Error] is a ValueError. *)
Definition b64decode (s : str) : res bytes :=
  match s with
  | 61 :: _ => Err (ValueError "base64")
  | _ => match a2b 0 0 s with Some b => Ok b | None => Err (ValueError "base64") end
  end.

(** ** Facts *)
Lemma to_le_spec n : forall z, length (to_le n z) = n /\ Bytes (to_le n z).
Proof.
  induction n as [|n IH]; intros z; simpl; [done|]. destruct (IH (z / 256)) as [-> ?].
  split; [done|]. constructor; auto with pybytes.
Qed.

Lemma sha3_256_spec m : length (sha3_256 m) = 32%nat /\ Bytes (sha3_256 m).
Proof.
  unfold sha3_256. cbv zeta. generalize (sha3_absorb (length (sha3_pad m) / SHA3_RATE) (repeat 0 25) (sha3_pad m)).
  intros s. cbn [seq map concat]. rewrite !length_app. simpl length at 5.
  rewrite !(proj1 (to_le_spec _ _)). split; [done|].
  repeat apply Forall_app_2; try apply to_le_spec. constructor.
Qed.

Lemma hexchar_ok n : 0 <= n < 16 ->
  (is_digit (hexchar n) || ((97 <=? hexchar n) && (hexchar n <=? 102))) = true.
Proof. intros. unfold hexchar, is_digit. destruct (Z.ltb_spec n 10); by zdec. Qed.

Lemma is_byte_spec b : is_byte b = true <-> 0 <= b <= 255.
Proof. unfold is_byte. rewrite andb_true_iff, !Z.leb_le. lia. Qed.

Lemma byte_nibbles b : is_byte b = true -> 0 <= b / 16 < 16 /\ 0 <= b mod 16 < 16.
Proof.
  rewrite is_byte_spec. intros. pose proof (Z.mod_pos_bound b 16).
  split; [|lia]. split; [apply Z.div_pos; lia | apply Z.div_lt_upper_bound; lia].
Qed.

Definition is_hex (c : Z) : bool := is_digit c || ((97 <=? c) && (c <=? 102)).

Lemma hex_spec b : Bytes b -> length (hex b) = (2 * length b)%nat /\ forallb is_hex (hex b) = true.
Proof.
  induction 1 as [|x b Hx _ [IHl IHf]]; [done|]. unfold hex in *. cbn [map concat app length forallb].
  rewrite IHl, IHf. apply byte_nibbles in Hx as [? ?]. unfold is_hex.
  rewrite !hexchar_ok by lia. split; [lia | done].
Qed.

Lemma hexchar_inj a b : 0 <= a < 16 -> 0 <= b < 16 -> hexchar a = hexchar b -> a = b.
Proof. unfold hexchar. intros ? ?. destruct (Z.ltb_spec a 10), (Z.ltb_spec b 10); lia. Qed.

Lemma hex_inj a : forall b, Bytes a -> Bytes b -> hex a = hex b -> a = b.
Proof.
  induction a as [|x a IH]; intros [|y b] Ha Hb E; try done.
  apply Forall_cons in Ha as [Hx%byte_nibbles Ha]. apply Forall_cons in Hb as [Hy%byte_nibbles Hb].
  unfold hex in E. cbn [map concat app] in E. injection E as E1 E2 E3.
  apply hexchar_inj in E1; [|lia..]. apply hexchar_inj in E2; [|lia..].
  f_equal; [|by apply IH]. rewrite (Z.div_mod x 16), (Z.div_mod y 16) by lia. congruence.
Qed.

(** *** base64 *)
Lemma b64_val_char n : 0 <= n < 64 -> b64_val (b64_char n) = Some n.
Proof.
  intros. unfold b64_char. destruct (Z.ltb_spec n 26); [|destruct (Z.ltb_spec n 52);
    [|destruct (Z.ltb_spec n 62); [|destruct (Z.eqb_spec n 62)]]];
  unfold b64_val; zdec; try (f_equal; lia).
Qed.

Lemma b64_char_pad n : 0 <= n < 64 -> (b64_char n =? 61) = false.
Proof.
  intros. unfold b64_char. destruct (Z.ltb_spec n 26); [|destruct (Z.ltb_spec n 52);
    [|destruct (Z.ltb_spec n 62); [|destruct (Z.eqb_spec n 62)]]]; by zdec.
Qed.

(** One data character of a quantum. *)
Lemma a2b_char q l n r : 0 <= n < 64 ->
  a2b q l (b64_char n :: r) =
    if q =? 0 then a2b 1 n r
    else if q =? 1 then cons (l * 4 + n / 16) <$> a2b 2 (n mod 16) r
    else if q =? 2 then cons (l * 16 + n / 4) <$> a2b 3 (n mod 4) r
    else cons (l * 64 + n) <$> a2b 0 0 r.
Proof. intros. cbn [a2b]. by rewrite b64_char_pad, b64_val_char. Qed.

Lemma divmod k x : 0 < k -> x = k * (x / k) + x mod k /\ 0 <= x mod k < k.
Proof. intros. split; [apply Z.div_mod; lia | apply Z.mod_pos_bound; lia]. Qed.

Lemma div_unique k q r x : 0 <= r < k -> x = k * q + r -> x / k = q /\ x mod k = r.
Proof.
  intros. split; [symmetry; eapply Z.div_unique_pos; eauto | symmetry; eapply Z.mod_unique_pos; eauto].
Qed.

Lemma a2b_b64encode b : Bytes b -> a2b 0 0 (b64encode b) = Some b.
Proof.
  revert b. fix IH 1. intros [|x [|y [|z r]]] Hb; [done|..].
  all: repeat match goal with H : Forall _ (_ :: _) |- _ => apply Forall_cons in H as [?%is_byte_spec H] end.
  - destruct (divmod 4 x) as [Ex ?]; [lia|]. cbn [b64encode]. rewrite !a2b_char by lia. simpl.
    do 2 f_equal. destruct (div_unique 16 (x mod 4) 0 (x mod 4 * 16)); lia.
  - destruct (divmod 4 x), (divmod 16 y); try lia. cbn [b64encode]. rewrite !a2b_char by lia. simpl.
    destruct (div_unique 16 (x mod 4) (y / 16) (x mod 4 * 16 + y / 16)) as [-> ->]; [lia..|].
    destruct (div_unique 4 (y mod 16) 0 (y mod 16 * 4)) as [-> _]; [lia..|].
    do 2 f_equal; [lia|]. f_equal. lia.
  - destruct (divmod 4 x), (divmod 16 y), (divmod 64 z); try lia. cbn [b64encode].
    rewrite !a2b_char by lia. cbn [Z.eqb Pos.eqb]. rewrite (IH r) by done. simpl.
    destruct (div_unique 16 (x mod 4) (y / 16) (x mod 4 * 16 + y / 16)) as [-> ->]; [lia..|].
    destruct (div_unique 4 (y mod 16) (z / 64) (y mod 16 * 4 + z / 64)) as [-> ->]; [lia..|].
    do 2 f_equal; [lia|]. f_equal; [lia|]. f_equal. lia.
Qed.

(** Encoded bytes decode to themselves. *)
Lemma b64decode_encode b : Bytes b -> b64decode (b64encode b) = Ok b.
Proof.
  intros Hb. unfold b64decode. rewrite (a2b_b64encode b Hb).
  destruct (b64encode b) as [|c r] eqn:E; [done|].
  assert ((c =? 61) = false) as Hc.
  { destruct b as [|x [|y [|z b]]]; cbn [b64encode] in E; [done|..]; injection E as <- _;
      apply Forall_cons in Hb as [?%is_byte_spec _]; apply b64_char_pad;
      (split; [apply Z.div_pos | apply Z.div_lt_upper_bound]; lia). }
  destruct c as [|p|p]; try done. do 6 (destruct p as [p|p|]; try done).
Qed.

Example sha3_ex : hex (sha3_256 (lit "abc")) =
  lit "3a985da74fe225b2045c172d6bd390bd855f086e3e9d525b46bfe24511431532".
Proof. vm_compute. reflexivity. Qed.
Example sha256_ex : hex (sha256 (lit "abc")) =
  lit "ba7816bf8f01cfea414140de5dae2223b00361a396177a9cb410ff61f20015ad".
Proof. vm_compute. reflexivity. Qed.
Example b64_ex : b64decode (lit "QR==") = Ok (lit "A") /\ b64decode (lit "QUJD===") = Ok (lit "ABC")
  /\ b64encode (lit "ABCD") = lit "QUJDRA==".
Proof. vm_compute. done. Qed.
