(* ===== verification/IsoTime.v ===== *)
(** The part of the standard [datetime] module the evidence layer uses:
    [datetime.fromisoformat], [astimezone(timezone.utc)] and [strftime], following
    CPython 3.11's [_datetimemodule.c] byte by byte (that parser is more liberal than
    ISO 8601, and the evidence layer relies on it to reject bad timestamps). *)
From S2P Require Import Prelude PyText.

(** ** Proleptic Gregorian calendar *)
Definition is_leap (y : Z) : bool :=
  (y mod 4 =? 0) && (negb (y mod 100 =? 0) || (y mod 400 =? 0)).
Definition days_before_year (y : Z) : Z :=
  (y - 1) * 365 + (y - 1) / 4 - (y - 1) / 100 + (y - 1) / 400.
Definition month_days (y m : Z) : Z :=
  if m =? 2 then (if is_leap y then 29 else 28)
  else if (m =? 4) || (m =? 6) || (m =? 9) || (m =? 11) then 30 else 31.
Definition days_before_month (y m : Z) : Z :=
  nth (Z.to_nat m) [0; 0; 31; 59; 90; 120; 151; 181; 212; 243; 273; 304; 334] 0
  + (if (2 <? m) && is_leap y then 1 else 0).
Definition ymd2ord (y m d : Z) : Z := days_before_year y + days_before_month y m + d.

Definition DI400Y := 146097.
Definition DI100Y := 36524.
Definition DI4Y := 1461.

(** Year and day of year (from 0) of day [n] of a 400-year cycle. *)
Definition cycle_year (n : Z) : Z * Z :=
  let n100 := n / DI100Y in let n := n mod DI100Y in
  let n4 := n / DI4Y in let n := n mod DI4Y in
  let n1 := n / 365 in let n := n mod 365 in
  if (n1 =? 4) || (n100 =? 4) then (n100 * 100 + n4 * 4 + n1 - 1, 365)
  else (n100 * 100 + n4 * 4 + n1, n).

(** Month and day of day [n] (from 0) of year [y]. *)
Definition year_md (y n : Z) : Z * Z :=
  let m := (n + 50) / 32 in
  if n <? days_before_month y m
  then (m - 1, n - (days_before_month y m - month_days y (m - 1)) + 1)
  else (m, n - days_before_month y m + 1).

Definition ord2ymd (ord : Z) : Z * Z * Z :=
  let '(y0, n) := cycle_year ((ord - 1) mod DI400Y) in
  let y := (ord - 1) / DI400Y * 400 + 1 + y0 in
  let '(m, d) := year_md y n in (y, m, d).

(** ** Datetimes *)
Record datetime := {
  dt_year : Z; dt_month : Z; dt_day : Z;
  dt_hour : Z; dt_min : Z; dt_sec : Z; dt_us : Z;
  dt_off : option Z;      (* UTC offset in microseconds; [None] is naive *)
}.

Definition MAXYEAR := 9999.
Definition DAY_US := 86400000000.

Definition fields_ok (y m d hh mm ss us : Z) : bool :=
  (1 <=? y) && (y <=? MAXYEAR) && (1 <=? m) && (m <=? 12) && (1 <=? d) && (d <=? month_days y m)
  && (0 <=? hh) && (hh <=? 23) && (0 <=? mm) && (mm <=? 59) && (0 <=? ss) && (ss <=? 59)
  && (0 <=? us) && (us <=? 999999).

(** Microseconds since 0000-12-31T00:00:00 local time. *)
Definition local_us (t : datetime) : Z :=
  (((ymd2ord (dt_year t) (dt_month t) (dt_day t) * 24 + dt_hour t) * 60 + dt_min t) * 60
   + dt_sec t) * 1000000 + dt_us t.

(** ** [datetime.fromisoformat] *)
Definition peek (p : bytes) : Z := hd 0 p.

(** [parse_digits]: exactly [n] ASCII digits. *)
Fixpoint parse_digits (n : nat) (acc : Z) (p : bytes) : option (Z * bytes) :=
  match n with
  | O => Some (acc, p)
  | S n => match p with
           | c :: p => if is_digit c then parse_digits n (acc * 10 + (c - 48)) p else None
           | [] => None
           end
  end.

Fixpoint digit_run (p : bytes) : nat :=
  match p with c :: p => if is_digit c then S (digit_run p) else O | [] => O end.

(** [_find_isoformat_datetime_separator] *)
Definition separator_location (b : bytes) : option nat :=
  let len := length b in
  let at_ i := nth i b 0 in
  if (len =? 7)%nat then Some 7%nat
  else if at_ 4%nat =? 45 then
    if at_ 5%nat =? 87 then
      if (len <? 8)%nat then None
      else if (8 <? len)%nat && (at_ 8%nat =? 45) then
        if (len =? 9)%nat then None
        else if (10 <? len)%nat && is_digit (at_ 10%nat) then Some 8%nat else Some 10%nat
      else Some 8%nat
    else Some 10%nat
  else if at_ 4%nat =? 87 then
    let pos := (7 + digit_run (drop 7 b))%nat in
    if (pos <? 9)%nat then Some pos else if Nat.even pos then Some 7%nat else Some 8%nat
  else Some 8%nat.

Definition weekday (y m d : Z) : Z := (ymd2ord y m d + 6) mod 7.

(** [iso_to_ymd]; an ISO year below 1 always ends in ValueError. *)
Definition iso_to_ymd (y w d : Z) : option (Z * Z * Z) :=
  let fw := weekday y 1 1 in
  let weeks := if (fw =? 3) || ((fw =? 2) && is_leap y) then 53 else 52 in
  if negb ((1 <=? y) && (1 <=? w) && (w <=? weeks) && (1 <=? d) && (d <=? 7)) then None
  else
    let first := ymd2ord y 1 1 in
    let monday := first - fw in
    let day1 := if 3 <? fw then monday + 7 else monday in
    Some (ord2ymd (day1 + (w - 1) * 7 + (d - 1))).

(** [parse_isoformat_date] over the first [len] bytes. *)
Definition parse_date (b : bytes) (len : nat) : option (Z * Z * Z) :=
  '(y, p) ← parse_digits 4 0 b;
  let sep := peek p =? 45 in
  let p := if sep then tail p else p in
  if peek p =? 87 then
    '(w, p) ← parse_digits 2 0 (tail p);
    if (length b - length p <? len)%nat then
      p ← (if sep then if peek p =? 45 then Some (tail p) else None else Some p);
      '(d, _) ← parse_digits 1 0 p;
      iso_to_ymd y w d
    else iso_to_ymd y w 1
  else
    '(m, p) ← parse_digits 2 0 p;
    p ← (if sep then if peek p =? 45 then Some (tail p) else None else Some p);
    '(d, p) ← parse_digits 2 0 p;
    if (length b - length p =? len)%nat then Some (y, m, d) else None.

(** [parse_hh_mm_ss_ff]: [rest] bytes of the text lie behind [p_end], so [p >= p_end]
    is [length p <= rest].  [Some (vals, us, more)]: [more] when text follows. *)
Fixpoint parse_hms (i : nat) (has_sep : bool) (vals : list Z) (rest : Z) (p : bytes)
  : option (list Z * (bool + bytes)) :=
  match i with
  | O => Some (vals, inr p)
  | S i' =>
    '(v, p) ← parse_digits 2 0 p;
    let c := peek p in
    let has_sep := if (i =? 3)%nat then c =? 58 else has_sep in
    let vals := vals ++ [v] in
    if zlen p - 1 <=? rest then Some (vals, inl (negb (c =? 0)))
    else if has_sep && (c =? 58) then parse_hms i' has_sep vals rest (tail p)
    else if (c =? 46) || (c =? 44) then Some (vals, inr (tail p))
    else if negb has_sep then parse_hms i' has_sep vals rest p
    else None
  end.

Definition parse_time_part (p : bytes) (rest : Z) : option (list Z * Z * bool) :=
  '(vals, r) ← parse_hms 3 true [] rest p;
  let vals := vals ++ repeat 0 (3 - length vals) in
  match r with
  | inl more => Some (vals, 0, more)
  | inr p =>
    let remains := Z.to_nat (zlen p - rest) in
    let n := Nat.min remains 6 in
    '(us, p) ← parse_digits n 0 p;
    let us := us * 10 ^ (6 - Z.of_nat n) in
    Some (vals, us, negb (peek (drop (digit_run p) p) =? 0))
  end.

(** Position of the first of [+ - Z], or the length. *)
Fixpoint tz_pos (p : bytes) : nat :=
  match p with
  | [] => O
  | c :: p => if (c =? 43) || (c =? 45) || (c =? 90) then O else S (tz_pos p)
  end.

Definition hms_seconds (v : list Z) : Z :=
  nth 0 v 0 * 3600 + nth 1 v 0 * 60 + nth 2 v 0.

(** [parse_isoformat_time]: fields, microseconds, and the offset if present as
    seconds and microseconds. *)
Definition parse_time (p : bytes) : option (list Z * Z * option (Z * Z)) :=
  let tz := drop (tz_pos p) p in
  '(vals, us, more) ← parse_time_part p (zlen tz);
  match tz with
  | [] => if more : bool then None else Some (vals, us, None)
  | 90 :: r => if peek r =? 0 then Some (vals, us, Some (0, 0)) else None
  | s :: r =>
    let sign := if s =? 45 then -1 else 1 in
    '(tv, tus, more) ← parse_time_part r 0;
    if more : bool then None else Some (vals, us, Some (sign * hms_seconds tv, sign * tus))
  end.

(** Length of the separator character behind the date. *)
Definition sep_len (c : Z) : nat :=
  if c <? 0x80 then 1 else if (0xE0 <=? c) && (c <=? 0xEF) then 3
  else if 0xF0 <=? c then 4 else 2.

(** [_sanitize_isoformat_str]: a surrogate separator counts as [T]. *)
Definition sanitize (s : str) : str :=
  match filter (fun i => is_surrogate (nth i s 0) = true) [7; 8; 10]%nat with
  | i :: _ => <[i := 84]> s
  | [] => s
  end.

(** [new_timezone]: a zero number of seconds is UTC, whatever the fraction. *)
Definition tz_offset (o : Z * Z) : option Z :=
  if o.1 =? 0 then Some 0
  else let us := o.1 * 1000000 + o.2 in
       if Z.abs us <? DAY_US then Some us else None.

Definition iso_parse (s : str) : option datetime :=
  if (length s <? 7)%nat then None else
  b ← (match utf8_encode (sanitize s) with Ok b => Some b | Err _ => None end);
  loc ← separator_location b;
  '(y, m, d) ← parse_date b loc;
  '(v, us, tz) ← (if (0 <? length b - loc)%nat
                  then parse_time (drop (loc + sep_len (nth loc b 0)) b)
                  else Some ([0; 0; 0], 0, None));
  off ← (match tz with None => Some None | Some o => Some <$> tz_offset o end);
  let hh := nth 0 v 0 in let mm := nth 1 v 0 in let ss := nth 2 v 0 in
  if fields_ok y m d hh mm ss us then
    Some {| dt_year := y; dt_month := m; dt_day := d; dt_hour := hh; dt_min := mm;
            dt_sec := ss; dt_us := us; dt_off := off |}
  else None.

Definition fromisoformat (s : str) : res datetime :=
  match iso_parse s with Some t => Ok t | None => Err (ValueError "Invalid isoformat string") end.

(** ** [astimezone(timezone.utc)] *)
Definition MIN_US := DAY_US.
Definition MAX_US := 3652060 * DAY_US.

(** The UTC datetime of an instant. *)
Definition of_us (u : Z) : datetime :=
  let '(y, m, d) := ord2ymd (u / DAY_US) in
  let r := u mod DAY_US in
  {| dt_year := y; dt_month := m; dt_day := d;
     dt_hour := r / 3600000000; dt_min := r / 60000000 mod 60;
     dt_sec := r / 1000000 mod 60; dt_us := r mod 1000000; dt_off := Some 0 |}.

(** A datetime whose zone already is UTC is returned as it is; otherwise the offset
    is subtracted, and leaving years 1..9999 raises OverflowError. *)
Definition astimezone_utc (t : datetime) (off : Z) : res datetime :=
  if off =? 0 then Ok t
  else
    let u := local_us t - off in
    if (MIN_US <=? u) && (u <? MAX_US) then Ok (of_us u) else Err OverflowError.

(** ** [strftime("%Y-%m-%dT%H:%M:%S.%f") + "Z"]: glibc does not pad [%Y]. *)
Fixpoint pad (n : nat) (z : Z) : str :=
  match n with O => [] | S n => pad n (z / 10) ++ [48 + z mod 10] end.

Definition strftime_z (t : datetime) : str :=
  dec_digits (dt_year t) ++ [45] ++ pad 2 (dt_month t) ++ [45] ++ pad 2 (dt_day t) ++ [84]
  ++ pad 2 (dt_hour t) ++ [58] ++ pad 2 (dt_min t) ++ [58] ++ pad 2 (dt_sec t) ++ [46]
  ++ pad 6 (dt_us t) ++ [90].

(** ** Facts *)

(** [p] holds at the [n] integers from [z] on. *)
Fixpoint all_from (n : nat) (z : Z) (p : Z -> bool) : bool :=
  match n with O => true | S n => p z && all_from n (z + 1) p end.

Lemma all_from_spec n p : forall a z, all_from n a p = true -> a <= z < a + Z.of_nat n -> p z = true.
Proof.
  induction n as [|n IH]; intros a z Hp Hz; [lia|]. apply andb_true_iff in Hp as [H1 H2].
  destruct (Z.eq_dec z a) as [->|]; [done|]. apply (IH (a + 1)); [done | lia].
Qed.

Definition md_ok (y m d : Z) : bool :=
  (1 <=? m) && (m <=? 12) && (1 <=? d) && (d <=? month_days y m).

Lemma div_mod_unique k q r x : 0 <= r < k -> x = k * q + r -> x / k = q /\ x mod k = r.
Proof.
  intros. split; [symmetry; eapply Z.div_unique_pos; eauto | symmetry; eapply Z.mod_unique_pos; eauto].
Qed.

Definition year_days (y : Z) : Z := if is_leap y then 366 else 365.

Lemma is_leap_shift q y : is_leap (q * 400 + y) = is_leap y.
Proof.
  unfold is_leap.
  replace ((q * 400 + y) mod 4) with (y mod 4)
    by (replace (q * 400 + y) with (y + q * 100 * 4) by lia; by rewrite Z.mod_add).
  replace ((q * 400 + y) mod 100) with (y mod 100)
    by (replace (q * 400 + y) with (y + q * 4 * 100) by lia; by rewrite Z.mod_add).
  replace ((q * 400 + y) mod 400) with (y mod 400)
    by (replace (q * 400 + y) with (y + q * 400) by lia; by rewrite Z.mod_add).
  done.
Qed.

Lemma year_md_shift q y n : year_md (q * 400 + y) n = year_md y n.
Proof. unfold year_md, days_before_month, month_days. by rewrite !is_leap_shift. Qed.


(** The 400 years of a cycle as centuries, quadrennia and years. *)
Lemma cycle_layout a b c : 0 <= a <= 3 -> 0 <= b <= 24 -> 0 <= c <= 3 ->
  days_before_year (1 + (a * 100 + b * 4 + c)) = a * DI100Y + b * DI4Y + c * 365 /\
  is_leap (1 + (a * 100 + b * 4 + c)) = (c =? 3) && (negb (b =? 24) || (a =? 3)).
Proof.
  intros Ha Hb Hc.
  set (p := fun a b c =>
    (days_before_year (1 + (a * 100 + b * 4 + c)) =? a * DI100Y + b * DI4Y + c * 365) &&
    Bool.eqb (is_leap (1 + (a * 100 + b * 4 + c))) ((c =? 3) && (negb (b =? 24) || (a =? 3)))).
  assert (all_from 4 0 (fun a => all_from 25 0 (fun b => all_from 4 0 (p a b))) = true) as P
    by (vm_compute; reflexivity).
  apply (all_from_spec _ _ _ a) in P; [|lia]. apply (all_from_spec _ _ _ b) in P; [|lia].
  apply (all_from_spec _ _ _ c) in P; [|lia]. unfold p in P. bool_prop.
  split; [done | by apply Bool.eqb_prop].
Qed.

Lemma cycle_year_spec n : 0 <= n < DI400Y ->
  let '(y0, k) := cycle_year n in
  0 <= y0 <= 399 /\ 0 <= k < year_days (1 + y0) /\ n = days_before_year (1 + y0) + k.
Proof.
  intros Hn. unfold cycle_year. cbv zeta.
  pose proof (Z.div_mod n DI100Y). pose proof (Z.mod_pos_bound n DI100Y).
  set (a := n / DI100Y) in *. set (r := n mod DI100Y) in *.
  pose proof (Z.div_mod r DI4Y). pose proof (Z.mod_pos_bound r DI4Y).
  set (b := r / DI4Y) in *. set (s := r mod DI4Y) in *.
  pose proof (Z.div_mod s 365). pose proof (Z.mod_pos_bound s 365).
  set (c := s / 365) in *. set (t := s mod 365) in *.
  unfold DI400Y, DI100Y, DI4Y in *.
  destruct (Z.eqb_spec a 4) as [Ea|]; [rewrite orb_true_r | rewrite orb_false_r].
  - assert (r = 0) by lia. assert (b = 0) by lia. assert (c = 0) by lia.
    replace (a * 100 + b * 4 + c - 1) with (3 * 100 + 24 * 4 + 3) by lia.
    split; [lia|]. change (year_days (1 + (3 * 100 + 24 * 4 + 3))) with 366.
    change (days_before_year (1 + (3 * 100 + 24 * 4 + 3))) with 145731. lia.
  - destruct (Z.eqb_spec c 4) as [Ec|].
    + replace (a * 100 + b * 4 + c - 1) with (a * 100 + b * 4 + 3) by lia.
      destruct (cycle_layout a b 3) as [E L]; [lia..|]. unfold year_days. rewrite E, L.
      replace (b =? 24) with false by (symmetry; apply Z.eqb_neq; lia). unfold DI100Y, DI4Y. simpl. lia.
    + destruct (cycle_layout a b c) as [E L]; [lia..|]. unfold year_days. rewrite E.
      unfold DI100Y, DI4Y. destruct (is_leap _); lia.
Qed.

Lemma cycle_year_inv y0 k : 0 <= y0 <= 399 -> 0 <= k < year_days (1 + y0) ->
  cycle_year (days_before_year (1 + y0) + k) = (y0, k).
Proof.
  intros Hy Hk.
  assert (exists a b c, y0 = a * 100 + b * 4 + c /\ 0 <= a <= 3 /\ 0 <= b <= 24 /\ 0 <= c <= 3)
    as (a & b & c & -> & Ha & Hb & Hc).
  { exists (y0 / 100), (y0 mod 100 / 4), (y0 mod 100 mod 4).
    pose proof (Z.div_mod y0 100). pose proof (Z.mod_pos_bound y0 100).
    pose proof (Z.div_mod (y0 mod 100) 4). pose proof (Z.mod_pos_bound (y0 mod 100) 4). lia. }
  destruct (cycle_layout a b c) as [E L]; [done..|]. unfold year_days in Hk. rewrite L in Hk.
  rewrite E. unfold cycle_year. cbv zeta.
  assert (0 <= k < 365 \/ k = 365 /\ c = 3 /\ (b <> 24 \/ a = 3 /\ b = 24)) as [Hk'|(-> & -> & Hb')].
  { destruct (Z.eqb_spec c 3), (Z.eqb_spec b 24), (Z.eqb_spec a 3); simpl in Hk; lia. }
  - destruct (div_mod_unique DI100Y a (b * DI4Y + c * 365 + k) (a * DI100Y + b * DI4Y + c * 365 + k))
      as [-> ->]; [unfold DI100Y, DI4Y; lia..|].
    destruct (div_mod_unique DI4Y b (c * 365 + k) (b * DI4Y + c * 365 + k)) as [-> ->]; [unfold DI4Y; lia..|].
    destruct (div_mod_unique 365 c k (c * 365 + k)) as [-> ->]; [lia..|].
    by zdec.
  - destruct Hb' as [Hb'|[-> ->]]; [|by vm_compute].
    destruct (div_mod_unique DI100Y a (b * DI4Y + 1460) (a * DI100Y + b * DI4Y + 3 * 365 + 365))
      as [-> ->]; [unfold DI100Y, DI4Y; lia..|].
    destruct (div_mod_unique DI4Y b 1460 (b * DI4Y + 1460)) as [-> ->]; [unfold DI4Y; lia..|].
    change (1460 / 365) with 4. cbn [orb Z.eqb Pos.eqb]. f_equal. lia.
Qed.

(** The months of one year; only its leap status matters. *)
Definition rep_year (y : Z) : Z := if is_leap y then 4 else 1.

Lemma rep_year_eq y : is_leap (rep_year y) = is_leap y.
Proof. unfold rep_year. by destruct (is_leap y) eqn:E. Qed.

Lemma year_md_rep y n : year_md y n = year_md (rep_year y) n.
Proof. unfold year_md, days_before_month, month_days. by rewrite !rep_year_eq. Qed.

Lemma year_md_ok y k : 0 <= k < year_days y ->
  let '(m, d) := year_md y k in md_ok y m d = true.
Proof.
  intros Hk. rewrite year_md_rep.
  enough (let '(m, d) := year_md (rep_year y) k in md_ok (rep_year y) m d = true) as H.
  { destruct (year_md (rep_year y) k) as [m d]. revert H. unfold md_ok, month_days. by rewrite rep_year_eq. }
  set (p := fun y k => let '(m, d) := year_md y k in md_ok y m d).
  assert (p (rep_year y) k = true) as P; [|unfold p in P; by destruct (year_md (rep_year y) k)].
  revert Hk. unfold rep_year, year_days. destruct (is_leap y); intros Hk.
  - apply (all_from_spec 366 (p 4) 0); [vm_compute; reflexivity | lia].
  - apply (all_from_spec 365 (p 1) 0); [vm_compute; reflexivity | lia].
Qed.

Lemma year_md_inv y m d : md_ok y m d = true ->
  year_md y (days_before_month y m + d - 1) = (m, d) /\ 0 <= days_before_month y m + d - 1 < year_days y.
Proof.
  intros Hm. rewrite year_md_rep.
  assert (days_before_month y m = days_before_month (rep_year y) m) as ->
    by (unfold days_before_month; by rewrite rep_year_eq).
  assert (year_days y = year_days (rep_year y)) as -> by (unfold year_days; by rewrite rep_year_eq).
  assert (md_ok (rep_year y) m d = true) as Hm' by (revert Hm; unfold md_ok, month_days; by rewrite rep_year_eq).
  unfold md_ok in Hm'. bool_prop.
  set (p := fun y m d => let k := days_before_month y m + d - 1 in
    bool_decide (year_md y k = (m, d)) && (0 <=? k) && (k <? year_days y)).
  assert (forall y, y = 1 \/ y = 4 ->
    all_from 12 1 (fun m => all_from (Z.to_nat (month_days y m)) 1 (p y m)) = true) as A.
  { intros ? [-> | ->]; vm_compute; reflexivity. }
  assert (rep_year y = 1 \/ rep_year y = 4) as Hr by (unfold rep_year; destruct (is_leap y); auto).
  pose proof (A _ Hr) as P0.
  assert (p (rep_year y) m d = true) as P.
  { apply (all_from_spec _ _ _ m) in P0; [|lia]. apply (all_from_spec _ _ _ d) in P0; [done | lia]. }
  unfold p in P. cbv zeta in P. bool_prop. by split_and!.
Qed.

Lemma ord2ymd_ok ord : 1 <= ord <= 3652059 ->
  let '(y, m, d) := ord2ymd ord in
  1 <= y <= MAXYEAR /\ md_ok y m d = true.
Proof.
  intros Ho. unfold ord2ymd.
  pose proof (Z.mod_pos_bound (ord - 1) DI400Y eq_refl) as Hm.
  pose proof (Z.div_mod (ord - 1) DI400Y) as Hdm. unfold DI400Y in Hdm at 1.
  pose proof (cycle_year_spec _ Hm) as C. destruct (cycle_year ((ord - 1) mod DI400Y)) as [y0 k].
  destruct C as (H0 & H1 & C).
  set (q := (ord - 1) / DI400Y) in *.
  replace (q * 400 + 1 + y0) with (q * 400 + (1 + y0)) by lia. rewrite year_md_shift.
  pose proof (year_md_ok (1 + y0) k H1) as M. destruct (year_md (1 + y0) k) as [m d].
  assert (0 <= q) by (apply Z.div_pos; [lia | done]).
  split.
  - unfold MAXYEAR, DI400Y in *. destruct (Z.eq_dec y0 399) as [->|].
    + change (days_before_year (1 + 399)) with 145731 in C. lia.
    + lia.
  - unfold md_ok, month_days in *. by rewrite is_leap_shift.
Qed.

Definition dt_ok (t : datetime) : bool :=
  fields_ok (dt_year t) (dt_month t) (dt_day t) (dt_hour t) (dt_min t) (dt_sec t) (dt_us t).

Lemma of_us_ok u : MIN_US <= u < MAX_US -> dt_ok (of_us u) = true.
Proof.
  intros Hu. unfold of_us, dt_ok.
  assert (1 <= u / DAY_US <= 3652059) as Ho.
  { unfold MIN_US, MAX_US, DAY_US in *. split.
    - apply Z.div_le_lower_bound; lia.
    - apply Z.lt_succ_r, Z.div_lt_upper_bound; lia. }
  pose proof (ord2ymd_ok _ Ho) as H. destruct (ord2ymd (u / DAY_US)) as [[y m] d].
  destruct H as [Hy Hm]. unfold md_ok in Hm. bool_prop. simpl.
  pose proof (Z.mod_pos_bound u DAY_US eq_refl) as Hr.
  set (r := u mod DAY_US) in *. unfold DAY_US in *.
  assert (0 <= r / 3600000000 <= 23) by (split; [apply Z.div_pos; lia |
    apply Z.lt_succ_r, Z.div_lt_upper_bound; lia]).
  pose proof (Z.mod_pos_bound (r / 60000000) 60). pose proof (Z.mod_pos_bound (r / 1000000) 60).
  pose proof (Z.mod_pos_bound r 1000000).
  unfold fields_ok. by zdec.
Qed.

Lemma iso_parse_ok s t : iso_parse s = Some t -> dt_ok t = true.
Proof.
  unfold iso_parse. destruct (length s <? 7)%nat; [done|].
  intros (b & _ & H)%bind_Some. apply bind_Some in H as (loc & _ & H).
  apply bind_Some in H as ([[y m] d] & _ & H). apply bind_Some in H as ([[v us] tz] & _ & H).
  apply bind_Some in H as (off & _ & H).
  match type of H with (if ?c then _ else _) = _ => destruct c eqn:E end; [|done].
  by injection H as <-.
Qed.

(** *** Reading back the normal spelling *)
Lemma parse_digits_add n m : forall acc p,
  parse_digits (n + m) acc p = '(a, p) ← parse_digits n acc p; parse_digits m a p.
Proof.
  induction n as [|n IH]; intros acc p; [done|]. simpl. destruct p as [|c p]; [done|].
  case_match; [apply IH | done].
Qed.

Lemma parse_digits_pad n : forall acc z r, 0 <= z < 10 ^ Z.of_nat n ->
  parse_digits n acc (pad n z ++ r) = Some (acc * 10 ^ Z.of_nat n + z, r).
Proof.
  induction n as [|n IH]; intros acc z r Hz; [simpl in *; do 2 f_equal; lia|].
  rewrite Nat2Z.inj_succ, Z.pow_succ_r in * by lia. cbn [pad].
  rewrite <- Nat.add_1_r, parse_digits_add, <- app_assoc.
  pose proof (Z.div_mod z 10). pose proof (Z.mod_pos_bound z 10).
  rewrite IH by lia. simpl. unfold is_digit. zdec. do 2 f_equal. lia.
Qed.

Lemma pad_digits n : forall z, length (pad n z) = n /\ Forall (fun c => is_digit c = true) (pad n z).
Proof.
  induction n as [|n IH]; intros z; [done|]. cbn [pad]. destruct (IH (z / 10)) as [E F].
  rewrite length_app, E. split; [simpl; lia|]. apply Forall_app_2; [done|].
  pose proof (Z.mod_pos_bound z 10). constructor; [|constructor]. unfold is_digit. by zdec.
Qed.

(** From year 1000 on the year is printed with four digits. *)
Lemma dec_digits_year y : 1000 <= y <= MAXYEAR -> dec_digits y = pad 4 y.
Proof.
  intros Hy. unfold MAXYEAR in Hy. unfold dec_digits.
  assert (9 <= Z.log2 y) by (change 9 with (Z.log2 512); apply Z.log2_le_mono; lia).
  replace (S (Z.to_nat (Z.log2 y))) with (4 + (Z.to_nat (Z.log2 y) - 3))%nat by lia.
  pose proof (Z.div_mod y 10). pose proof (Z.mod_pos_bound y 10).
  pose proof (Z.div_mod (y / 10) 10). pose proof (Z.mod_pos_bound (y / 10) 10).
  pose proof (Z.div_mod (y / 10 / 10) 10). pose proof (Z.mod_pos_bound (y / 10 / 10) 10).
  cbn [Nat.add digs]. zdec. rewrite (Z.mod_small (y / 10 / 10 / 10)) by lia. cbn [pad app].
  by rewrite (Z.mod_small (y / 10 / 10 / 10)) by lia.
Qed.

Definition is_ascii (c : Z) : bool := (0 <=? c) && (c <? 128).

Lemma is_digit_ascii c : is_digit c = true -> is_ascii c = true /\ is_space c = false.
Proof. unfold is_digit, is_ascii, is_space. intros. bool_prop. by zdec. Qed.

Lemma utf8_encode_ascii s : forallb is_ascii s = true -> utf8_encode s = Ok s.
Proof.
  intros H. apply utf8_encode_ok. induction s as [|c s IH]; [done|].
  simpl in *. apply andb_true_iff in H as [Hc H]. destruct (IH H) as [Hs IHe]. rewrite Hs.
  unfold is_ascii in Hc. bool_prop. unfold is_surrogate, utf8_encode1. zdec. split; [done|].
  cbn [app]. by rewrite IHe at 1.
Qed.

Definition clock_text (t : datetime) : str :=
  pad 2 (dt_hour t) ++ 58 :: pad 2 (dt_min t) ++ 58 :: pad 2 (dt_sec t) ++ 46 :: pad 6 (dt_us t).
Definition date_text (t : datetime) : str :=
  pad 4 (dt_year t) ++ 45 :: pad 2 (dt_month t) ++ 45 :: pad 2 (dt_day t).

Lemma strftime_text t : 1000 <= dt_year t <= MAXYEAR ->
  strftime_z t = (date_text t ++ 84 :: clock_text t) ++ [90].
Proof.
  intros Hy. unfold strftime_z, date_text, clock_text. rewrite dec_digits_year by done.
  rewrite <- !app_assoc. cbn [app]. rewrite <- !app_assoc. cbn [app]. rewrite <- !app_assoc. cbn [app].
  by rewrite <- !app_assoc.
Qed.

Lemma tz_pos_app l r :
  Forall (fun c => is_digit c || (c =? 58) || (c =? 46) = true) l -> tz_pos (l ++ r) = (length l + tz_pos r)%nat.
Proof.
  induction 1 as [|c l Hc _ IH]; [done|]. simpl.
  assert ((c =? 43) || (c =? 45) || (c =? 90) = false) as ->; [|by rewrite IH].
  unfold is_digit in Hc.
  destruct (Z.eqb_spec c 43), (Z.eqb_spec c 45), (Z.eqb_spec c 90); try done; subst; by vm_compute in Hc.
Qed.

Lemma clock_plain t : length (clock_text t) = 15%nat /\
  Forall (fun c => is_digit c || (c =? 58) || (c =? 46) = true) (clock_text t).
Proof.
  unfold clock_text. split.
  - rewrite !length_app. cbn [length]. rewrite !length_app. cbn [length]. rewrite !length_app. cbn [length].
    by rewrite !(proj1 (pad_digits _ _)).
  - repeat match goal with
    | |- Forall _ (_ ++ _) => apply Forall_app_2
    | |- Forall _ (_ :: _) => constructor; [done|]
    end;
    (eapply Forall_impl; [apply pad_digits|]); intros c Hc; cbv beta; by rewrite Hc.
Qed.

Lemma parse_hms_colon i hs vals rest v r :
  0 <= v < 100 -> rest < zlen r -> S i = 3%nat \/ hs = true ->
  parse_hms (S i) hs vals rest (pad 2 v ++ 58 :: r) = parse_hms i true (vals ++ [v]) rest r.
Proof.
  intros Hv Hr Hs. cbn [parse_hms]. rewrite parse_digits_pad by (simpl; lia).
  cbn [mbind option_bind peek hd tail]. rewrite zlen_cons. zdec.
  destruct Hs as [[= ->]| ->]; [done|]. by destruct (S i =? 3)%nat.
Qed.

Lemma parse_hms_dot i vals rest v r :
  0 <= v < 100 -> rest < zlen r -> i <> 2%nat ->
  parse_hms (S i) true vals rest (pad 2 v ++ 46 :: r) = Some (vals ++ [v], inr r).
Proof.
  intros Hv Hr Hi. cbn [parse_hms]. rewrite parse_digits_pad by (simpl; lia).
  cbn [mbind option_bind peek hd tail]. rewrite zlen_cons. zdec.
  by destruct (S i =? 3)%nat eqn:E; [apply Nat.eqb_eq in E; lia|].
Qed.

Lemma zlen_pad n z : zlen (pad n z) = Z.of_nat n.
Proof. unfold zlen. by rewrite (proj1 (pad_digits n z)). Qed.
#[local] Hint Rewrite zlen_pad : zlen.

Lemma parse_clock t rest : dt_ok t = true ->
  exists more, parse_time_part (clock_text t ++ rest) (zlen rest) =
    Some ([dt_hour t; dt_min t; dt_sec t], dt_us t, more).
Proof.
  intros Ht. unfold dt_ok, fields_ok in Ht. bool_prop. pose proof (zlen_nonneg rest).
  unfold parse_time_part, clock_text. rewrite <- !app_assoc. cbn [app].
  rewrite parse_hms_colon by (try (zlen; cbn [Z.of_nat]); auto; lia).
  rewrite <- !app_assoc. cbn [app].
  rewrite parse_hms_colon by (try (zlen; cbn [Z.of_nat]); auto; lia).
  rewrite <- !app_assoc. cbn [app].
  rewrite parse_hms_dot by (try (zlen; cbn [Z.of_nat]); auto; lia).
  cbn [mbind option_bind app]. rewrite zlen_app, zlen_pad.
  replace (Z.to_nat (Z.of_nat 6 + zlen rest - zlen rest)) with 6%nat by lia.
  change (Nat.min 6 6) with 6%nat. rewrite parse_digits_pad by (simpl; lia).
  cbn [mbind option_bind]. eexists. do 2 f_equal. f_equal. simpl. lia.
Qed.

Lemma parse_date_text t r : dt_ok t = true -> 1000 <= dt_year t ->
  parse_date (date_text t ++ r) 10 = Some (dt_year t, dt_month t, dt_day t).
Proof.
  intros Ht Hy. unfold dt_ok, fields_ok, MAXYEAR in Ht. bool_prop.
  assert (dt_day t < 100).
  { assert (month_days (dt_year t) (dt_month t) <= 31); [|lia].
    unfold month_days. repeat case_match; lia. }
  unfold parse_date, date_text. rewrite <- !app_assoc. cbn [app].
  rewrite parse_digits_pad by (simpl; lia). cbn [mbind option_bind peek hd tail Z.eqb Pos.eqb].
  rewrite <- !app_assoc. cbn [app].
  assert (forall k, (peek (pad 2 (dt_month t) ++ k) =? 87) = false) as Hw.
  { intros k. cbn [pad app peek hd]. pose proof (Z.mod_pos_bound (dt_month t / 10) 10). by zdec. }
  rewrite Hw, parse_digits_pad by (simpl; lia). cbn [mbind option_bind peek hd tail Z.eqb Pos.eqb].
  rewrite parse_digits_pad by (simpl; lia). cbn [mbind option_bind].
  match goal with |- (if ?c then _ else _) = _ => assert (c = true) as -> end.
  { apply Nat.eqb_eq. rewrite !length_app. cbn [length]. rewrite !length_app. cbn [length].
    rewrite !length_app, !(proj1 (pad_digits _ _)). lia. }
  do 3 f_equal.
Qed.

Lemma text_ascii t r : dt_ok t = true -> 1000 <= dt_year t -> forallb is_ascii r = true ->
  forallb is_ascii (date_text t ++ 84 :: clock_text t ++ r) = true.
Proof.
  intros Ht Hy Hr. rewrite forallb_app. cbn [forallb]. rewrite forallb_app, Hr, andb_true_r.
  assert (forall n z, forallb is_ascii (pad n z) = true) as P.
  { intros n z. apply forallb_forall. intros x Hx. apply is_digit_ascii.
    pose proof (proj2 (pad_digits n z)) as F. rewrite List.Forall_forall in F. by apply F. }
  unfold date_text, clock_text. repeat first [rewrite forallb_app | rewrite P | progress cbn [forallb]]. done.
Qed.

Definition set_off (t : datetime) (o : option Z) : datetime :=
  {| dt_year := dt_year t; dt_month := dt_month t; dt_day := dt_day t; dt_hour := dt_hour t;
     dt_min := dt_min t; dt_sec := dt_sec t; dt_us := dt_us t; dt_off := o |}.

Lemma date_shape t : exists a b c d e f g h,
  date_text t = [a; b; c; d; 45; e; f; 45; g; h] /\ is_digit e = true.
Proof.
  unfold date_text. cbn [pad app]. do 8 eexists. split; [done|].
  unfold is_digit. pose proof (Z.mod_pos_bound (dt_month t / 10) 10). by zdec.
Qed.

Lemma date_length t : length (date_text t) = 10%nat.
Proof. by destruct (date_shape t) as (? & ? & ? & ? & ? & ? & ? & ? & -> & _). Qed.

Lemma separator_date t r : separator_location (date_text t ++ 84 :: r) = Some 10%nat.
Proof.
  destruct (date_shape t) as (a & b & c & d & e & f & g & h & -> & He).
  unfold separator_location. cbn [app length nth Nat.eqb Z.eqb Pos.eqb].
  assert ((e =? 87) = false) as ->; [|done].
  unfold is_digit in He. bool_prop. lia.
Qed.

Lemma ascii_nth s i : forallb is_ascii s = true -> is_ascii (nth i s 0) = true.
Proof.
  revert i. induction s as [|c s IH]; intros [|i] H; try done; simpl in *; bool_prop; [|by apply IH].
  unfold is_ascii. by zdec.
Qed.

Lemma sanitize_ascii s : forallb is_ascii s = true -> sanitize s = s.
Proof.
  intros H. unfold sanitize.
  assert (forall i, is_surrogate (nth i s 0) <> true) as N.
  { intros i E. pose proof (ascii_nth s i H) as A. unfold is_ascii, is_surrogate in *. bool_prop. lia. }
  by rewrite !filter_cons_False by auto.
Qed.

(** The normal spelling, with the offset [+00:00], reads back as the same datetime. *)
Lemma iso_parse_text t : dt_ok t = true -> 1000 <= dt_year t ->
  iso_parse (date_text t ++ 84 :: clock_text t ++ lit "+00:00") = Some (set_off t (Some 0)).
Proof.
  intros Ht Hy. pose proof (text_ascii t (lit "+00:00") Ht Hy eq_refl) as A.
  unfold iso_parse. rewrite sanitize_ascii, utf8_encode_ascii by done.
  rewrite !length_app, date_length. cbn [Nat.add Nat.ltb Nat.leb mbind option_bind].
  rewrite separator_date. cbn [mbind option_bind]. rewrite parse_date_text by done.
  cbn [mbind option_bind length].
  rewrite !length_app, date_length. cbn [length Nat.sub Nat.add].
  rewrite app_nth2 by (rewrite date_length; lia). rewrite date_length. cbn [Nat.sub nth].
  change (10 + sep_len 84)%nat with 11%nat.
  rewrite drop_app_ge by (rewrite date_length; lia). rewrite date_length. cbn [Nat.sub drop].
  change (drop (sep_len 84 - 0) (84 :: clock_text t ++ lit "+00:00")) with (clock_text t ++ lit "+00:00").
  unfold parse_time. rewrite tz_pos_app by apply clock_plain.
  change (tz_pos (lit "+00:00")) with O. rewrite Nat.add_0_r, drop_app_length.
  destruct (parse_clock t (lit "+00:00") Ht) as [more ->].
  cbn [mbind option_bind]. change (lit "+00:00") with (43 :: lit "00:00").
  replace (parse_time_part (lit "00:00") 0) with (Some ([0; 0; 0], 0, false)) by (by vm_compute).
  simpl. unfold dt_ok in Ht. by rewrite Ht.
Qed.

(** *** Instants *)
Lemma cycle_roundtrip y m d : 1 <= y <= 400 -> md_ok y m d = true ->
  ord2ymd (ymd2ord y m d) = (y, m, d) /\ 1 <= ymd2ord y m d <= DI400Y.
Proof.
  intros Hy Hm. destruct (year_md_inv y m d Hm) as [E R].
  set (k := days_before_month y m + d - 1) in *.
  replace y with (1 + (y - 1)) in R by lia.
  pose proof (cycle_year_inv (y - 1) k ltac:(lia) R) as C.
  replace (1 + (y - 1)) with y in * by lia.
  assert (0 <= days_before_year y + k < DI400Y) as B.
  { unfold year_days, days_before_year, DI400Y in *. 
    assert (0 <= (y - 1) / 4 <= 99) by (split; [apply Z.div_pos; lia | apply Z.lt_succ_r, Z.div_lt_upper_bound; lia]).
    assert (0 <= (y - 1) / 100 <= 3) by (split; [apply Z.div_pos; lia | apply Z.lt_succ_r, Z.div_lt_upper_bound; lia]).
    assert ((y - 1) / 400 = 0) by (apply Z.div_small; lia).
    pose proof (Z.div_mod (y - 1) 4). pose proof (Z.div_mod (y - 1) 100).
    pose proof (Z.mod_pos_bound (y - 1) 4). pose proof (Z.mod_pos_bound (y - 1) 100).
    split; [lia|]. destruct (is_leap y); lia. }
  unfold ord2ymd, ymd2ord.
  replace (days_before_year y + days_before_month y m + d - 1) with (days_before_year y + k) by lia.
  rewrite Z.mod_small, Z.div_small, C by done. split; [|lia].
  replace (0 * 400 + 1 + (y - 1)) with y by lia. by rewrite E.
Qed.

Lemma ymd2ord_shift q y m d : ymd2ord (q * 400 + y) m d = q * DI400Y + ymd2ord y m d.
Proof.
  unfold ymd2ord, days_before_year, days_before_month. rewrite is_leap_shift.
  replace (q * 400 + y - 1) with ((y - 1) + q * 400) by lia.
  replace ((y - 1 + q * 400) / 4) with ((y - 1) / 4 + q * 100)
    by (replace (y - 1 + q * 400) with (y - 1 + q * 100 * 4) by lia; by rewrite Z.div_add).
  replace ((y - 1 + q * 400) / 100) with ((y - 1) / 100 + q * 4)
    by (replace (y - 1 + q * 400) with (y - 1 + q * 4 * 100) by lia; by rewrite Z.div_add).
  rewrite Z.div_add by done. unfold DI400Y. lia.
Qed.

Lemma ord2ymd_shift q n : 1 <= n <= DI400Y ->
  ord2ymd (q * DI400Y + n) = let '(y, m, d) := ord2ymd n in (q * 400 + y, m, d).
Proof.
  intros Hn. unfold ord2ymd.
  replace (q * DI400Y + n - 1) with ((n - 1) + q * DI400Y) by lia.
  rewrite Z.mod_add, Z.div_add by done. rewrite Z.mod_small, Z.div_small by lia.
  destruct (cycle_year (n - 1)) as [y0 k].
  replace ((0 + q) * 400 + 1 + y0) with (q * 400 + (1 + y0)) by lia.
  replace (0 * 400 + 1 + y0) with (1 + y0) by lia. rewrite year_md_shift.
  by destruct (year_md (1 + y0) k).
Qed.

(** The calendar conversions are inverse on every valid date. *)
Lemma ord2ymd_ymd2ord y m d : md_ok y m d = true -> ord2ymd (ymd2ord y m d) = (y, m, d).
Proof.
  intros Hm. assert (exists q y', y = q * 400 + y' /\ 1 <= y' <= 400) as (q & y' & -> & Hy).
  { exists ((y - 1) / 400), (1 + (y - 1) mod 400).
    pose proof (Z.div_mod (y - 1) 400). pose proof (Z.mod_pos_bound (y - 1) 400). lia. }
  assert (md_ok y' m d = true) as Hm' by (revert Hm; unfold md_ok, month_days; by rewrite is_leap_shift).
  destruct (cycle_roundtrip y' m d) as [E R]; [lia | done|].
  rewrite ymd2ord_shift, ord2ymd_shift, E by done. done.
Qed.

Lemma local_us_set_off t o : local_us (set_off t o) = local_us t.
Proof. done. Qed.

Lemma of_us_local t : dt_ok t = true -> of_us (local_us t) = set_off t (Some 0).
Proof.
  unfold dt_ok, fields_ok. intros H. bool_prop.
  assert (md_ok (dt_year t) (dt_month t) (dt_day t) = true) as Hm by (unfold md_ok; by zdec).
  unfold of_us, local_us, set_off. set (o := ymd2ord _ _ _).
  set (r := ((dt_hour t * 60 + dt_min t) * 60 + dt_sec t) * 1000000 + dt_us t).
  replace ((((o * 24 + dt_hour t) * 60 + dt_min t) * 60 + dt_sec t) * 1000000 + dt_us t)
    with (r + o * DAY_US) by (unfold r, DAY_US; lia).
  assert (0 <= r < DAY_US) by (unfold r, DAY_US; lia).
  rewrite Z.mod_add, Z.div_add, Z.mod_small, Z.div_small by done. rewrite Z.add_0_l.
  unfold o. rewrite ord2ymd_ymd2ord by done.
  assert (r / 3600000000 = dt_hour t) as -> by (symmetry; apply (Z.div_unique_pos _ _ _
    ((dt_min t * 60 + dt_sec t) * 1000000 + dt_us t)); unfold r; lia).
  assert (r / 60000000 = dt_hour t * 60 + dt_min t) as -> by (symmetry; apply (Z.div_unique_pos _ _ _
    (dt_sec t * 1000000 + dt_us t)); unfold r; lia).
  assert (r / 1000000 = (dt_hour t * 60 + dt_min t) * 60 + dt_sec t) as -> by (symmetry;
    apply (Z.div_unique_pos _ _ _ (dt_us t)); unfold r; lia).
  assert (r mod 1000000 = dt_us t) as -> by (symmetry; apply (Z.mod_unique_pos _ _ ((dt_hour t * 60 + dt_min t) * 60 + dt_sec t)); unfold r; lia).
  rewrite !(Z.add_comm _ (dt_min t)), !(Z.add_comm _ (dt_sec t)), !Z.mod_add, !Z.mod_small by lia.
  done.
Qed.

(** A datetime's UTC spelling depends on its instant only. *)
Lemma astimezone_instant t off u : dt_ok t = true -> astimezone_utc t off = Ok u ->
  strftime_z u = strftime_z (of_us (local_us t - off)) /\ dt_ok u = true.
Proof.
  intros Ht. unfold astimezone_utc. destruct (Z.eqb_spec off 0) as [->|].
  - intros [= ->]. rewrite Z.sub_0_r, of_us_local by done. done.
  - destruct ((MIN_US <=? _) && _) eqn:E; [|done]. intros [= <-]. bool_prop.
    split; [done|]. by apply of_us_ok.
Qed.

Lemma ymd2ord_range y m d : 1 <= y <= MAXYEAR -> md_ok y m d = true -> 1 <= ymd2ord y m d <= 3652059.
Proof.
  intros Hy Hm. unfold MAXYEAR in Hy.
  assert (exists q y', y = q * 400 + y' /\ 1 <= y' <= 400) as (q & y' & -> & Hy').
  { exists ((y - 1) / 400), (1 + (y - 1) mod 400).
    pose proof (Z.div_mod (y - 1) 400). pose proof (Z.mod_pos_bound (y - 1) 400). lia. }
  assert (md_ok y' m d = true) as Hm' by (revert Hm; unfold md_ok, month_days; by rewrite is_leap_shift).
  rewrite ymd2ord_shift. destruct (cycle_roundtrip y' m d Hy' Hm') as [_ R].
  destruct (year_md_inv y' m d Hm') as [_ R']. unfold DI400Y in *.
  assert (q <= 23 \/ q = 24 /\ y' <= 399) as [Hq|[-> Hq]] by lia; [lia|].
  destruct (Z.eq_dec y' 399) as [->|].
  - change (year_days 399) with 365 in R'. unfold ymd2ord in *.
    change (days_before_year 399) with 145366 in *. lia.
  - assert (ymd2ord y' m d <= 145731); [|lia].
    unfold ymd2ord. assert (year_days y' <= 366) by (unfold year_days; destruct (is_leap y'); lia).
    assert (days_before_year y' <= 145001); [|lia]. unfold days_before_year.
    assert ((y' - 1) / 4 <= 99) by (apply Z.lt_succ_r, Z.div_lt_upper_bound; lia).
    assert (0 <= (y' - 1) / 100) by (apply Z.div_pos; lia).
    assert ((y' - 1) / 100 = 3 \/ y' - 1 < 300) as [?|?].
    { destruct (Z.lt_ge_cases (y' - 1) 300); [by right|]. left.
      symmetry. apply (Z.div_unique_pos _ _ _ (y' - 1 - 300)); lia. }
    + assert ((y' - 1) / 400 = 0) by (apply Z.div_small; lia). lia.
    + assert ((y' - 1) / 400 = 0) by (apply Z.div_small; lia). lia.
Qed.

Lemma local_us_range t : dt_ok t = true -> MIN_US <= local_us t < MAX_US.
Proof.
  unfold dt_ok, fields_ok. intros H. bool_prop.
  assert (1 <= ymd2ord (dt_year t) (dt_month t) (dt_day t) <= 3652059).
  { apply ymd2ord_range; [lia|]. unfold md_ok. by zdec. }
  unfold local_us, MIN_US, MAX_US, DAY_US. lia.
Qed.

(** The UTC conversion, uniformly in the offset. *)
Lemma astimezone_utc_spec t off : dt_ok t = true ->
  (strftime_z <$> astimezone_utc t off) =
  if (MIN_US <=? local_us t - off) && (local_us t - off <? MAX_US)
  then Ok (strftime_z (of_us (local_us t - off))) else Err OverflowError.
Proof.
  intros Ht. unfold astimezone_utc. destruct (Z.eqb_spec off 0) as [->|].
  - rewrite Z.sub_0_r. pose proof (local_us_range t Ht). zdec. by rewrite of_us_local.
  - by destruct ((MIN_US <=? _) && _).
Qed.
