(* ===== verification/Canonicalizer.v ===== *)
(** Deterministic canonical JSON and timestamp normalisation:
    [src/ics_deception/pqc_evidence/canonicalizer.py].  Every hash and every
    signature of the evidence layer is taken over [canonical_bytes]. *)
From S2P Require Import Prelude PyText Json JsonFacts IsoTime.

Definition MAX_DEPTH := 32%nat.
Definition MAX_STRING_LENGTH := 1000000.

Definition check_string (s : str) : res unit :=
  if MAX_STRING_LENGTH <? zlen s then Err (CanonicalizationError "string exceeds the character limit")
  else if existsb is_surrogate s
  then Err (CanonicalizationError "unpaired Unicode surrogate")
  else match utf8_encode s with
       | Ok _ => Ok tt
       | Err _ => Err (CanonicalizationError "not encodable as UTF-8")
       end.

Fixpoint check (depth : nat) (v : value) {struct v} : res unit :=
  if (MAX_DEPTH <? depth)%nat then Err (CanonicalizationError "nesting too deep")
  else match v with
  | VNone | VBool _ | VInt _ => Ok tt
  | VFloat f => Err (CanonicalizationError
      (match f with S754_nan | S754_infinity _ => "non-finite number" | _ => "float" end))
  | VStr s => check_string s
  | VDict d => iter_res (fun kv => match kv.1 with
                           | KOther _ => Err (CanonicalizationError "non-string object key")
                           | KStr k => check_string k ;; check (S depth) kv.2
                           end) d
  | VList l | VTuple l => iter_res (check (S depth)) l
  | VBytes _ | VOther _ => Err (CanonicalizationError "unsupported type")
  end.

Definition check_canonicalizable (v : value) : res unit := check 0 v.

(** [ensure_ascii=False, sort_keys=True, separators=(",", ":")]; floats were
    rejected, so their text is never asked for. *)
Definition canonical_cfg : cfg := {|
  c_ascii := false; c_sort := true; c_isep := [44]; c_ksep := [58]; c_indent := None;
  c_float := fun _ => [];
|}.

Definition canonical_string (v : value) : res str :=
  check_canonicalizable v ;;
  try_with (dumps canonical_cfg v) (fun e =>
    match e with
    | TypeError _ | ValueError _ => Err (CanonicalizationError "not serialisable as canonical JSON")
    | e => Err e
    end).

Definition canonical_bytes (v : value) : res bytes :=
  text ← canonical_string v;
  try_with (utf8_encode text) (fun _ => Err (CanonicalizationError "not encodable as UTF-8")).

Definition UTC_SUFFIX : str := lit "+00:00".

Definition candidate (text : str) : str :=
  if ends_with (lit "Z") text || ends_with (lit "z") text
  then take (length text - 1) text ++ UTC_SUFFIX else text.

Definition normalize_timestamp (timestamp : value) : res str :=
  match timestamp with
  | VStr (c :: s) =>
    let text := strip (c :: s) in
    parsed ← try_with (fromisoformat (candidate text)) (fun _ =>
      Err (CanonicalizationError "unparseable ISO 8601 timestamp"));
    match dt_off parsed with
    | None => Err (CanonicalizationError "timestamp has no timezone")
    | Some off => u ← astimezone_utc parsed off; Ok (strftime_z u)
    end
  | _ => Err (CanonicalizationError "timestamp must be a non-empty string")
  end.

(** ** Facts *)
#[export] Instance canonical_layout : Layout canonical_cfg.
Proof. split; by exists []. Qed.

(** What holds of every Python value: code points in range, unique dict keys. *)
Definition cp_ok (s : str) : bool := forallb (fun c => (0 <=? c) && (c <=? 0x10FFFF)) s.
Fixpoint pyval (v : value) : bool :=
  match v with
  | VStr s => cp_ok s
  | VList l | VTuple l => forallb pyval l
  | VDict d => forallb (fun kv => cp_ok (kstr kv.1) && pyval kv.2) d && bool_decide (NoDup (keys d))
  | _ => true
  end.

Lemma pyval_dict d : pyval (VDict d) = true <->
  Forall (fun kv => cp_ok (kstr kv.1) = true /\ pyval kv.2 = true) d /\ NoDup (keys d).
Proof.
  simpl. rewrite andb_true_iff, bool_decide_eq_true, forallb_Forall.
  by setoid_rewrite andb_true_iff.
Qed.

Lemma check_string_ok s : check_string s = Ok tt <->
  zlen s <= MAX_STRING_LENGTH /\ existsb is_surrogate s = false.
Proof.
  unfold check_string, utf8_encode. destruct (Z.ltb_spec MAX_STRING_LENGTH (zlen s)); [split; [done | lia]|].
  destruct (existsb is_surrogate s); [split; [done | naive_solver] | naive_solver].
Qed.

Lemma str_ok_intro s : cp_ok s = true -> existsb is_surrogate s = false -> str_ok s = true.
Proof.
  unfold cp_ok, str_ok. induction s as [|c s IH]; [done|]. simpl. intros. bool_prop.
  rewrite IH by done. unfold is_scalar. match goal with H : is_surrogate c = false |- _ => rewrite H end. by zdec.
Qed.

Lemma str_ok_elim s : str_ok s = true -> cp_ok s = true /\ existsb is_surrogate s = false.
Proof.
  unfold cp_ok, str_ok. induction s as [|c s IH]; [done|]. simpl. intros. bool_prop.
  destruct IH as [-> ->]; [done|]. rename select (is_scalar c = true) into H.
  unfold is_scalar in H. bool_prop. match goal with H : is_surrogate c = false |- _ => rewrite H end. by zdec.
Qed.

Lemma check_depth n v : check n v = Ok tt -> (n <= MAX_DEPTH)%nat.
Proof.
  destruct v; simpl; destruct (MAX_DEPTH <? n)%nat eqn:E; try done;
    intros _; by apply Nat.ltb_ge in E.
Qed.

Lemma list_max_le_all {A} (f : A -> nat) l n : Forall (fun x => (f x <= n)%nat) l -> (list_max (map f l) <= n)%nat.
Proof. induction 1; simpl; lia. Qed.

Lemma dump_check_dict d : dump_check (VDict d) = Ok tt ->
  Forall (fun kv => dump_check kv.2 = Ok tt) d.
Proof.
  simpl. intros H%iter_res_ok. eapply Forall_impl; [exact H|]. intros [[k|t] v]; [done|]. done.
Qed.

Lemma check_wf v : forall n,
  pyval v = true -> check n v = Ok tt -> dump_check v = Ok tt ->
  wf v = true /\ (n + nesting v <= S MAX_DEPTH)%nat.
Proof.
  induction v as [| b | z | f | s | b | t | l IH | l IH | d IH] using value_nested_ind;
    intros n Hp Hc Hd; pose proof (check_depth _ _ Hc) as Hn;
    simpl in Hc; replace (MAX_DEPTH <? n)%nat with false in Hc by (symmetry; by apply Nat.ltb_ge);
    try done; try (simpl; split; [done | lia]).
  - simpl in *. unfold int_str in Hd. split; [|lia]. destruct (Z.leb_spec INT_LIMIT (Z.abs z)); [done|]. by apply Z.ltb_lt.
  - simpl. apply check_string_ok in Hc as [_ Hc]. split; [by apply str_ok_intro | lia].
  - apply iter_res_ok in Hc. simpl in Hd. apply iter_res_ok in Hd. simpl in Hp. apply forallb_Forall in Hp.
    assert (Forall (fun v => wf v = true /\ (nesting v <= MAX_DEPTH - n)%nat) l) as F.
    { rewrite Forall_forall in *. intros v Hv. destruct (IH v Hv (S n)); auto. split; [done | lia]. }
    apply Forall_and in F as [F1 F2]. simpl. split; [by apply forallb_Forall|].
    pose proof (list_max_le_all nesting l _ F2). lia.
  - apply iter_res_ok in Hc. simpl in Hd. apply iter_res_ok in Hd. simpl in Hp. apply forallb_Forall in Hp.
    assert (Forall (fun v => wf v = true /\ (nesting v <= MAX_DEPTH - n)%nat) l) as F.
    { rewrite Forall_forall in *. intros v Hv. destruct (IH v Hv (S n)); auto. split; [done | lia]. }
    apply Forall_and in F as [F1 F2]. simpl. split; [by apply forallb_Forall|].
    pose proof (list_max_le_all nesting l _ F2). lia.
  - apply iter_res_ok in Hc. apply dump_check_dict in Hd. apply pyval_dict in Hp as [Hp Hk].
    assert (Forall (fun kv => (key_ok kv.1 = true /\ wf kv.2 = true) /\ (nesting kv.2 <= MAX_DEPTH - n)%nat) d) as F.
    { rewrite Forall_forall in *. intros [[k|t] v] Hv; specialize (Hc _ Hv); simpl in Hc; [|done].
      inv_res. destruct (Hp _ Hv) as [Hpk Hpv].
      rename select (check_string k = Ok _) into Hs. apply check_string_ok in Hs as [_ Hs].
      destruct (IH _ Hv (S n)) as [? ?]; auto. split; [split; [by apply str_ok_intro | done] | simpl in *; lia]. }
    apply Forall_and in F as [F1 F2]. split; [by apply wf_dict|].
    simpl. pose proof (list_max_le_all (fun kv => nesting kv.2) d _ F2). lia.
Qed.

(** *** The text is always encodable *)
Lemma str_ok_app a b : str_ok (a ++ b) = str_ok a && str_ok b.
Proof. apply forallb_app. Qed.
Lemma str_ok_cons c a : str_ok (c :: a) = is_scalar c && str_ok a.
Proof. done. Qed.

Lemma ascii_scalar s : forallb is_ascii s = true -> str_ok s = true.
Proof.
  unfold str_ok. rewrite !forallb_forall. intros H x Hx. specialize (H x Hx).
  unfold is_ascii in H. bool_prop. apply is_scalar_spec. lia.
Qed.

(** An escaped character is printable ASCII, or the character itself. *)
Lemma hexdig_print n : 0 <= n < 16 -> 32 <= hexdig n <= 126.
Proof. intros. unfold hexdig. destruct (Z.ltb_spec n 10); lia. Qed.

Lemma u_esc_print c : 0 <= c < 0x10000 -> Forall (fun y => 32 <= y <= 126) (u_esc c).
Proof.
  intros. unfold u_esc.
  assert (0 <= c / 4096 < 16) by (split; [apply Z.div_pos; lia | apply Z.div_lt_upper_bound; lia]).
  pose proof (Z.mod_pos_bound (c / 256) 16). pose proof (Z.mod_pos_bound (c / 16) 16). pose proof (Z.mod_pos_bound c 16).
  repeat apply Forall_cons_2; try apply hexdig_print; try lia. constructor.
Qed.

Lemma esc1_print a c : is_scalar c = true -> Forall (fun y => 32 <= y <= 126 \/ (a = false /\ y = c /\ 32 <= c)) (esc1 a c).
Proof.
  intros H%is_scalar_spec. assert (forall l, Forall (fun y => 32 <= y <= 126) l ->
    Forall (fun y => 32 <= y <= 126 \/ (a = false /\ y = c /\ 32 <= c)) l) as W
    by (intros l F; eapply Forall_impl; [exact F|]; cbv beta; lia).
  unfold esc1. repeat (case_match; [apply W; repeat apply Forall_cons_2; [lia.. | constructor]|]).
  case_match; [bool_prop; apply W, u_esc_print; lia|].
  case_match; bool_prop.
  { apply Forall_singleton. destruct a; simpl in *; bool_prop; [left; lia | right; lia]. }
  case_match; bool_prop; [apply W, u_esc_print; lia|].
  pose proof (Z.mod_pos_bound (c - 0x10000) 1024).
  assert (0 <= (c - 0x10000) / 1024 < 1024) by (split; [apply Z.div_pos; lia | apply Z.div_lt_upper_bound; lia]).
  apply W, Forall_app. split; apply u_esc_print; lia.
Qed.

(** Every character of a printed value satisfies [P], when printable ASCII does and what
    strings and the layout add to it does. *)
Section DumpChars.
Context (c : cfg) (P : Z -> bool) (Hprint : forall x, 32 <= x <= 126 -> P x = true)
  (Hraw : forall x, c_ascii c = false -> is_scalar x = true -> 32 <= x -> P x = true)
  (Hi : forallb P (c_isep c) = true) (Hk : forallb P (c_ksep c) = true)
  (Hnl : forall lvl, forallb P (nl c lvl) = true).

Lemma quote_chars s : str_ok s = true -> forallb P (quote (c_ascii c) s) = true.
Proof.
  intros H. unfold quote. cbn [forallb]. rewrite (Hprint 34), forallb_app by lia. cbn [forallb]. rewrite (Hprint 34) by lia. cbn [andb]. rewrite andb_true_r.
  induction s as [|x s IH]; [done|]. rewrite str_ok_cons in H. apply andb_true_iff in H as [Hx H].
  cbn [map concat]. rewrite forallb_app, (IH H), andb_true_r. apply forallb_Forall.
  eapply Forall_impl; [exact (esc1_print (c_ascii c) x Hx)|]. intros y [Hy|(Ha & -> & Hy)]; auto.
Qed.

Lemma join_chars sep l : forallb P sep = true -> Forall (fun s => forallb P s = true) l -> forallb P (join sep l) = true.
Proof.
  intros Hs. induction 1 as [|x l Hx Hl IH]; [done|]. cbn [join]. destruct l as [|y l]; [done|].
  by rewrite !forallb_app, Hx, Hs, IH.
Qed.

Lemma wrap_chars lvl op cl items : P op = true -> P cl = true ->
  Forall (fun s => forallb P s = true) items -> forallb P (wrap c lvl op cl items) = true.
Proof.
  intros Ho Hc F. rewrite wrap_shape. destruct items as [|x l] eqn:E; [cbn; by rewrite Ho, Hc|].
  rewrite <- E in *. cbn [forallb]. rewrite Ho, !forallb_app, !Hnl, join_chars; [|by rewrite forallb_app, Hi, Hnl | done].
  cbn. by rewrite Hc.
Qed.

Lemma digits_chars ds : Forall (fun x => is_digit x = true) ds -> forallb P ds = true.
Proof.
  intros F. apply forallb_Forall. eapply Forall_impl; [exact F|]. intros x Hx. apply Hprint.
  unfold is_digit in Hx. bool_prop. lia.
Qed.

Lemma dump_chars v : wf v = true -> forall lvl, forallb P (dump c lvl v) = true.
Proof.
  induction v as [| b | z | f | s | b | t | l IH | l IH | d IH] using value_nested_ind;
    intros Hw lvl; try done.
  - cbn. by rewrite !Hprint by lia.
  - destruct b; cbn; by rewrite !Hprint by lia.
  - simpl. unfold int_text. destruct (Z.ltb_spec z 0).
    + destruct (dec_digits_spec (- z)) as (d & ds & -> & F & _); [lia|]. cbn [forallb]. rewrite Hprint by lia. by apply digits_chars in F.
    + destruct (dec_digits_spec z) as (d & ds & -> & F & _); [lia|]. by apply digits_chars.
  - by apply quote_chars.
  - apply forallb_Forall in Hw. apply wrap_chars; [apply Hprint; lia..|].
    apply Forall_map. rewrite Forall_forall in *. auto.
  - apply forallb_Forall in Hw. apply wrap_chars; [apply Hprint; lia..|].
    apply Forall_map. rewrite Forall_forall in *. auto.
  - apply wf_dict in Hw as [Hw _]. cbn [dump]. apply wrap_chars; [apply Hprint; lia..|].
    apply Forall_map.
    assert (Forall (fun kv : str * str => forallb P (member c kv) = true)
      (map (fun kv => (kstr kv.1, dump c (S lvl) kv.2)) d)) as M.
    { apply Forall_map. rewrite Forall_forall in *. intros [[k|t] v] Hv; destruct (Hw _ Hv) as [Hk' Hv2]; [|done].
      pose proof (IH _ Hv Hv2 (S lvl)) as D. unfold member. change (str_ok k = true) in Hk'.
      cbn [kstr fst snd] in *. by rewrite !forallb_app, quote_chars, Hk, D. }
    destruct (c_sort c); [by rewrite sort_kv_perm | done].
Qed.
End DumpChars.

Lemma is_ascii_print x : 32 <= x <= 126 -> is_ascii x = true.
Proof. intros. unfold is_ascii. by zdec. Qed.

Lemma dump_str_ok v : wf v = true -> forall lvl, str_ok (dump canonical_cfg lvl v) = true.
Proof.
  apply (dump_chars canonical_cfg is_scalar); try done. intros x Hx. apply is_scalar_spec. lia.
Qed.

(** Canonical text has no line breaks, nor any other control character. *)
Lemma dump_printable v : wf v = true -> forall lvl, forallb (fun x => 32 <=? x) (dump canonical_cfg lvl v) = true.
Proof. apply (dump_chars canonical_cfg); try done; intros x **; apply Z.leb_le; lia. Qed.

(** With [ensure_ascii=True] the text is ASCII. *)
Section AsciiLayout.
Context (c : cfg) (Hascii : c_ascii c = true) (Hi : forallb is_ascii (c_isep c) = true)
  (Hk : forallb is_ascii (c_ksep c) = true).

Lemma nl_ascii lvl : forallb is_ascii (nl c lvl) = true.
Proof. unfold nl. destruct (c_indent c); [|done]. simpl. by induction (_ * _)%nat. Qed.

Lemma dump_ascii v : wf v = true -> forall lvl, forallb is_ascii (dump c lvl v) = true.
Proof. apply dump_chars; try done; [exact is_ascii_print | congruence | exact nl_ascii]. Qed.

Lemma dump_range v lvl : wf v = true -> Forall (fun x => 0 <= x <= 0x10FFFF) (dump c lvl v).
Proof.
  intros H. pose proof (dump_ascii v H lvl) as D. apply forallb_Forall in D.
  eapply Forall_impl; [exact D|]. intros x Hx. cbv beta in Hx. unfold is_ascii in Hx. bool_prop. lia.
Qed.
End AsciiLayout.

(** *** What is accepted *)
Fixpoint height (v : value) : nat :=
  match v with
  | VList l | VTuple l => list_max (map (fun x => S (height x)) l)
  | VDict d => list_max (map (fun kv => S (height kv.2)) d)
  | _ => 0
  end.

Fixpoint strings_short (v : value) : bool :=
  match v with
  | VStr s => zlen s <=? MAX_STRING_LENGTH
  | VList l | VTuple l => forallb strings_short l
  | VDict d => forallb (fun kv => (zlen (kstr kv.1) <=? MAX_STRING_LENGTH) && strings_short kv.2) d
  | _ => true
  end.

(** JSON values without floats, with strings that UTF-8 can encode, below the
    nesting, string-length and integer-size limits. *)
Definition acceptable (v : value) : bool :=
  wf v && (height v <=? MAX_DEPTH)%nat && strings_short v.

Lemma list_max_le_iff {A} (f : A -> nat) l n :
  (list_max (map f l) <= n)%nat <-> Forall (fun x => (f x <= n)%nat) l.
Proof.
  split; [|apply list_max_le_all]. intros H. apply Forall_forall. intros x Hx.
  pose proof (list_max_le_map f l x Hx). lia.
Qed.

Lemma check_list n l :
  check n (VList l) = Ok tt <-> (n <= MAX_DEPTH)%nat /\ Forall (fun v => check (S n) v = Ok tt) l.
Proof.
  cbn [check]. destruct (Nat.ltb_spec MAX_DEPTH n).
  - split; [done | lia].
  - rewrite iter_res_ok. naive_solver lia.
Qed.

Lemma check_dict n d :
  check n (VDict d) = Ok tt <-> (n <= MAX_DEPTH)%nat /\
  Forall (fun kv => exists k, kv.1 = KStr k /\ check_string k = Ok tt /\ check (S n) kv.2 = Ok tt) d.
Proof.
  cbn [check]. destruct (Nat.ltb_spec MAX_DEPTH n); [split; [done | lia]|].
  rewrite iter_res_ok. split.
  - intros F. split; [done|]. eapply Forall_impl; [exact F|]. intros [[k|t] v] Hv; [|done].
    simpl in Hv. apply bind_ok in Hv as ([] & ? & ?). by exists k.
  - intros [_ F]. eapply Forall_impl; [exact F|]. intros [k0 v] (k & -> & H1 & H2). simpl in *.
    by rewrite H1.
Qed.

Lemma height_list_le n l : (n + height (VList l) <= MAX_DEPTH)%nat -> (n <= MAX_DEPTH)%nat /\
  Forall (fun v => (S n + height v <= MAX_DEPTH)%nat) l.
Proof.
  intros H. split; [lia|]. simpl in H. apply Forall_forall. intros x Hx.
  pose proof (list_max_le_map (fun x => S (height x)) l x Hx). simpl in *. lia.
Qed.

Lemma height_dict_le n d : (n + height (VDict d) <= MAX_DEPTH)%nat -> (n <= MAX_DEPTH)%nat /\
  Forall (fun kv => (S n + height kv.2 <= MAX_DEPTH)%nat) d.
Proof.
  intros H. split; [lia|]. simpl in H. apply Forall_forall. intros x Hx.
  pose proof (list_max_le_map (fun kv : key * value => S (height kv.2)) d x Hx). simpl in *. lia.
Qed.

(** The strict check accepts exactly the acceptable values. *)
Lemma check_accepts v : forall n, wf v = true -> (n + height v <= MAX_DEPTH)%nat ->
  strings_short v = true -> check n v = Ok tt.
Proof.
  assert (forall n l, Forall (fun v => forall n, wf v = true -> (n + height v <= MAX_DEPTH)%nat ->
      strings_short v = true -> check n v = Ok tt) l ->
    wf (VList l) = true -> (n + height (VList l) <= MAX_DEPTH)%nat -> strings_short (VList l) = true ->
    check n (VList l) = Ok tt) as L.
  { intros n l IH Hw Hh Hs. apply height_list_le in Hh as [Hn Hh]. simpl in Hw, Hs.
    apply forallb_Forall in Hw, Hs. apply check_list. split; [done|].
    rewrite Forall_forall in *. eauto. }
  induction v as [| b | z | f | s | b | t | l IH | l IH | d IH] using value_nested_ind;
    intros n Hw Hh Hs; try (by simpl in Hw); eauto.
  all: try (simpl; replace (MAX_DEPTH <? n)%nat with false by (symmetry; apply Nat.ltb_ge; simpl in Hh; lia); done).
  - simpl in *. replace (MAX_DEPTH <? n)%nat with false by (symmetry; apply Nat.ltb_ge; lia).
    apply check_string_ok. apply str_ok_elim in Hw as [_ ?]. bool_prop. done.
  - exact (L n l IH Hw Hh Hs).
  - apply wf_dict in Hw as [Hw _]. apply height_dict_le in Hh as [Hn Hh]. simpl in Hs.
    apply forallb_Forall in Hs. apply check_dict. split; [done|].
    rewrite Forall_forall in *. intros [[k|t] v] Hv; destruct (Hw _ Hv) as [Hk Hv2]; [|done].
    specialize (Hs _ Hv). simpl in *. bool_prop. exists k. split; [done|].
    split; [|by apply (IH _ Hv); [|apply (Hh _ Hv)|]].
    apply check_string_ok. by apply str_ok_elim in Hk as [_ ?].
Qed.

Lemma check_elim v : forall n, check n v = Ok tt ->
  (n + height v <= MAX_DEPTH)%nat /\ strings_short v = true.
Proof.
  assert (forall n l, Forall (fun v => forall n, check n v = Ok tt ->
      (n + height v <= MAX_DEPTH)%nat /\ strings_short v = true) l -> check n (VList l) = Ok tt ->
    (n + height (VList l) <= MAX_DEPTH)%nat /\ strings_short (VList l) = true) as L.
  { intros n l IH Hc. apply check_list in Hc as [Hn Hc].
    assert (Forall (fun v => (S (height v) <= MAX_DEPTH - n)%nat /\ strings_short v = true) l) as F.
    { rewrite Forall_forall in *. intros x Hx. destruct (IH x Hx _ (Hc x Hx)). split; [lia | done]. }
    apply Forall_and in F as [F1 F2]. simpl. split; [|by apply forallb_Forall].
    apply (list_max_le_all (fun x => S (height x))) in F1. lia. }
  induction v as [| b | z | f | s | b | t | l IH | l IH | d IH] using value_nested_ind;
    intros n Hc; pose proof (check_depth _ _ Hc) as Hn; try (by split; [simpl; lia|]); eauto.
  - simpl in Hc. replace (MAX_DEPTH <? n)%nat with false in Hc by (symmetry; by apply Nat.ltb_ge).
    apply check_string_ok in Hc as [Hc _]. simpl. split; [lia|]. by apply Z.leb_le.
  - apply check_dict in Hc as [_ Hc].
    assert (Forall (fun kv => (S (height kv.2) <= MAX_DEPTH - n)%nat /\
        ((zlen (kstr kv.1) <=? MAX_STRING_LENGTH) && strings_short kv.2) = true) d) as F.
    { rewrite Forall_forall in *. intros kv Hv. destruct (Hc _ Hv) as (k & -> & Hk & Hk2).
      destruct (IH _ Hv _ Hk2) as [? ->]. split; [lia|]. apply check_string_ok in Hk as [? _].
      simpl. rewrite andb_true_r. by apply Z.leb_le. }
    apply Forall_and in F as [F1 F2]. simpl. split; [|by apply forallb_Forall].
    apply (list_max_le_all (fun kv : key * value => S (height kv.2))) in F1. lia.
Qed.

Lemma check_error v : forall n e, check n v = Err e -> exists m, e = CanonicalizationError m.
Proof.
  assert (forall s e, check_string s = Err e -> exists m, e = CanonicalizationError m) as S.
  { intros s e. unfold check_string. repeat case_match; intros; inv_res; eauto. }
  induction v as [| b | z | f | s | b | t | l IH | l IH | d IH] using value_nested_ind; intros n e Hc;
    cbn [check] in Hc; destruct (MAX_DEPTH <? n)%nat; try (inv_res; eauto; fail); eauto.
  - apply iter_res_err in Hc as (v & Hv & Hc). rewrite Forall_forall in IH. eauto.
  - apply iter_res_err in Hc as (v & Hv & Hc). rewrite Forall_forall in IH. eauto.
  - apply iter_res_err in Hc as ([[k|t] v] & Hv & Hc); [|simpl in Hc; inv_res; eauto]. rewrite Forall_forall in IH.
    simpl in Hc. apply bind_err in Hc as [Hc | (? & _ & Hc)]; [eauto|]. apply (IH _ Hv _ _ Hc).
Qed.

Lemma wf_dump_check v : wf v = true -> dump_check v = Ok tt.
Proof.
  induction v as [| b | z | f | s | b | t | l IH | l IH | d IH] using value_nested_ind; intros Hw; try done.
  - simpl in *. unfold int_str. bool_prop. by zdec.
  - simpl in *. apply iter_res_ok. apply forallb_Forall in Hw. rewrite Forall_forall in *. auto.
  - simpl in *. apply iter_res_ok. apply forallb_Forall in Hw. rewrite Forall_forall in *. auto.
  - apply wf_dict in Hw as [Hw _]. simpl. apply iter_res_ok. rewrite Forall_forall in *.
    intros [[k|t] v] Hv; destruct (Hw _ Hv) as [Hk Hv2]; [|done]. by apply (IH _ Hv).
Qed.

Lemma dump_check_error v e : dump_check v = Err e -> (exists m, e = ValueError m) \/ exists m, e = TypeError m.
Proof.
  induction v as [| b | z | f | s | b | t | l IH | l IH | d IH] using value_nested_ind; intros H;
    simpl in H; try (inv_res; eauto; fail).
  - unfold int_str in H. case_match; inv_res; simpl in *; inv_res; eauto.
  - apply iter_res_err in H as (v & Hv & H). rewrite Forall_forall in IH. eauto.
  - apply iter_res_err in H as (v & Hv & H). rewrite Forall_forall in IH. eauto.
  - apply iter_res_err in H as ([[k|t] v] & Hv & H); [|simpl in H; inv_res; eauto]. rewrite Forall_forall in IH.
    apply (IH _ Hv H).
Qed.

Lemma acceptable_spec v : acceptable v = true <->
  wf v = true /\ (height v <= MAX_DEPTH)%nat /\ strings_short v = true.
Proof. unfold acceptable. rewrite !andb_true_iff, Nat.leb_le. tauto. Qed.

(** The outcome on every Python value. *)
Lemma canonical_bytes_outcome v : pyval v = true ->
  (acceptable v = true /\ exists b, canonical_bytes v = Ok b /\ utf8_encode (dump canonical_cfg 0 v) = Ok b)
  \/ (acceptable v = false /\ exists m, canonical_bytes v = Err (CanonicalizationError m)).
Proof.
  intros Hp. rewrite <- not_true_iff_false, acceptable_spec.
  unfold canonical_bytes, canonical_string, check_canonicalizable, dumps.
  destruct (check 0 v) as [[]|e] eqn:Hc.
  - destruct (check_elim v 0 Hc) as [Hh Hs]. simpl. destruct (dump_check v) as [[]|e] eqn:Hd.
    + destruct (check_wf v 0 Hp Hc Hd) as [Hw _]. left. split; [done|]. simpl.
      pose proof (str_ok_elim _ (dump_str_ok v Hw 0)) as [_ Hn].
      unfold utf8_encode. rewrite Hn. simpl. eauto.
    + right. split; [intros (Hw & _); by rewrite (wf_dump_check v Hw) in Hd|].
      apply dump_check_error in Hd as [[m ->]|[m ->]]; simpl; eauto.
  - right. split.
    + intros (Hw & Hh & Hs). by rewrite (check_accepts v 0 Hw Hh Hs) in Hc.
    + apply check_error in Hc as [m ->]. simpl. eauto.
Qed.

(** *** Canonical bytes *)
Lemma wf_cp v lvl : wf v = true -> Forall (fun c => 0 <= c <= 0x10FFFF) (dump canonical_cfg lvl v).
Proof.
  intros H. pose proof (dump_str_ok v H lvl) as S. apply forallb_Forall in S.
  eapply Forall_impl; [exact S|]. intros c Hc. apply is_scalar_spec in Hc. lia.
Qed.

Lemma acceptable_nesting v : pyval v = true -> acceptable v = true ->
  wf v = true /\ (nesting v <= S MAX_DEPTH)%nat.
Proof.
  intros Hp (Hw & Hh & Hs)%acceptable_spec.
  by destruct (check_wf v 0 Hp (check_accepts v 0 Hw Hh Hs) (wf_dump_check v Hw)).
Qed.

(** Canonical bytes are a JSON document that means the value: whenever a value has
    canonical bytes, they decode as UTF-8 to a text that [json.loads] reads back as the
    value with its keys sorted (tuples as arrays); the reader needs 33 levels of nesting. *)
Theorem canonical_bytes_roundtrip (v : value) (b : bytes) (lim : nat)
  (Hv : pyval v = true) (H : canonical_bytes v = Ok b) (Hlim : (S MAX_DEPTH <= lim)%nat) :
  exists text, utf8_decode b = Ok text /\ loads default_hooks lim text = Ok (normal true v).
Proof.
  destruct (canonical_bytes_outcome v Hv) as [(Ha & b' & E & U)|(_ & m & E)]; [|congruence].
  rewrite E in H. inv_res. destruct (acceptable_nesting v Hv Ha) as [Hw Hn].
  exists (dump canonical_cfg 0 v). split.
  - eapply utf8_decode_encode; [by apply wf_cp | done].
  - apply (loads_dump canonical_cfg default_hooks); [done | lia].
Qed.

Definition doc_example (swap : bool) : value :=
  let a := (KStr (lit "a"), VList [VInt (-3); VBool true; VStr [0xe9; 34; 0x1F600]]) in
  let z := (KStr (lit "z"), VTuple [VNone]) in
  VDict (if swap then [z; a] else [a; z]).

Lemma canonical_bytes_roundtrip_witness : exists text b,
  canonical_bytes (doc_example true) = Ok b /\ utf8_decode b = Ok text /\
  loads default_hooks 33 text = Ok (VDict [(KStr (lit "a"), VList [VInt (-3); VBool true; VStr [0xe9; 34; 0x1F600]]);
                                           (KStr (lit "z"), VList [VNone])]).
Proof.
  destruct (canonical_bytes (doc_example true)) as [b|] eqn:E; [|vm_compute in E; discriminate E].
  assert (pyval (doc_example true) = true) as Hv by (vm_compute; reflexivity).
  destruct (canonical_bytes_roundtrip (doc_example true) b 33 Hv E (le_n _)) as (text & H1 & H2).
  exists text, b. split; [reflexivity | split; [exact H1 | exact H2]].
Defined.

Lemma same_bytes_iff (v w : value) (b c : bytes) : pyval v = true -> pyval w = true ->
  canonical_bytes v = Ok b -> canonical_bytes w = Ok c -> b = c <-> normal true v = normal true w.
Proof.
  intros Hv Hw Ev Ew.
  destruct (canonical_bytes_outcome v Hv) as [(Av & b' & E & U)|(_ & m & E)]; [|congruence].
  destruct (canonical_bytes_outcome w Hw) as [(Aw & c' & E' & U')|(_ & m & E')]; [|congruence].
  rewrite E in Ev. rewrite E' in Ew. inv_res.
  destruct (acceptable_nesting v Hv Av) as [Wv Nv], (acceptable_nesting w Hw Aw) as [Ww Nw]. split.
  - intros ->. assert (dump canonical_cfg 0 v = dump canonical_cfg 0 w) as D
      by (eapply utf8_encode_inj; eauto using wf_cp).
    pose proof (loads_dump canonical_cfg default_hooks _ 0 v Wv Nv) as L.
    rewrite D, (loads_dump canonical_cfg default_hooks _ 0 w Ww Nw) in L. by injection L as ->.
  - intros N. rewrite <- (dump_normal canonical_cfg v eq_refl 0), N, dump_normal in U by done. congruence.
Qed.

(** C22. Canonical bytes identify a document: two values get the same bytes exactly when
    they are the same up to the order of object keys and list against tuple. *)
Theorem canonical_bytes_injective (v w : value) (b c : bytes)
  (Hv : pyval v = true) (Hw : pyval w = true)
  (Ev : canonical_bytes v = Ok b) (Ew : canonical_bytes w = Ok c) :
  b = c <-> normal true v = normal true w.
Proof. by apply same_bytes_iff. Qed.

Lemma canonical_bytes_injective_witness : exists b c,
  canonical_bytes (doc_example true) = Ok b /\ canonical_bytes (doc_example false) = Ok c /\ b = c.
Proof.
  destruct (canonical_bytes (doc_example true)) as [b|] eqn:E; [|vm_compute in E; discriminate E].
  destruct (canonical_bytes (doc_example false)) as [c|] eqn:E'; [|vm_compute in E'; discriminate E'].
  exists b, c. split; [reflexivity | split; [reflexivity|]].
  apply (canonical_bytes_injective (doc_example true) (doc_example false) b c);
    [vm_compute; reflexivity .. | exact E | exact E' | vm_compute; reflexivity].
Defined.

(** Exactly the acceptable values have canonical bytes - JSON values without floats,
    string keys, encodable strings of at most a million characters, nesting at most 32,
    integers below the interpreter's 4300-digit limit - and every other value is refused
    with [CanonicalizationError], never with another exception. *)
Theorem canonical_bytes_total (v : value) (Hv : pyval v = true) :
  match canonical_bytes v with
  | Ok _ => acceptable v = true
  | Err e => acceptable v = false /\ exists m, e = CanonicalizationError m
  end.
Proof.
  destruct (canonical_bytes_outcome v Hv) as [(A & b & -> & _)|(A & m & ->)]; eauto.
Qed.

Lemma canonical_bytes_total_witness :
  acceptable (VList [VFloat (S754_zero false)]) = false /\ acceptable (doc_example true) = true.
Proof.
  pose proof (canonical_bytes_total (VList [VFloat (S754_zero false)]) eq_refl) as H1.
  pose proof (canonical_bytes_total (doc_example true) ltac:(vm_compute; reflexivity)) as H2.
  split; [exact (proj1 H1)|]. vm_compute in H2. exact H2.
Defined.

(** Permuting the entries of a dict changes nothing. *)
Lemma normal_permute d d' : NoDup (keys d) -> d ≡ₚ d' -> normal true (VDict d) = normal true (VDict d').
Proof.
  intros Hn Hp. simpl. do 2 f_equal. apply sort_kv_permute.
  - rewrite map_map. exact Hn.
  - by rewrite Hp.
Qed.

(** *** Timestamps *)
Lemma fromisoformat_ok s p : fromisoformat s = Ok p -> iso_parse s = Some p /\ dt_ok p = true.
Proof. unfold fromisoformat. case_match; [|done]. intros [= ->]. eauto using iso_parse_ok. Qed.

(** The outcome for a text that parses with an offset. *)
Lemma normalize_parsed c s p off :
  fromisoformat (candidate (strip (c :: s))) = Ok p -> dt_off p = Some off ->
  normalize_timestamp (VStr (c :: s)) =
  if (MIN_US <=? local_us p - off) && (local_us p - off <? MAX_US)
  then Ok (strftime_z (of_us (local_us p - off))) else Err OverflowError.
Proof.
  intros Hp Ho. pose proof (fromisoformat_ok _ _ Hp) as [_ Hk].
  unfold normalize_timestamp. rewrite Hp. simpl. rewrite Ho, <- (astimezone_utc_spec p off Hk). done.
Qed.

Lemma normalize_inv v t : normalize_timestamp v = Ok t ->
  exists c s p off, v = VStr (c :: s) /\ fromisoformat (candidate (strip (c :: s))) = Ok p /\
    dt_off p = Some off /\ MIN_US <= local_us p - off < MAX_US /\
    t = strftime_z (of_us (local_us p - off)).
Proof.
  intros H. destruct v as [| | | |[|c s]| | | | |]; try discriminate H.
  destruct (fromisoformat (candidate (strip (c :: s)))) as [p|e] eqn:E;
    [|unfold normalize_timestamp in H; rewrite E in H; discriminate H].
  destruct (dt_off p) as [off|] eqn:Ho;
    [|unfold normalize_timestamp in H; rewrite E in H; simpl in H; rewrite Ho in H; discriminate H].
  rewrite (normalize_parsed c s p off E Ho) in H.
  destruct ((MIN_US <=? _) && _) eqn:R; [|discriminate H]. bool_prop. injection H as <-.
  exists c, s, p, off. split_and!; done.
Qed.

Lemma normalize_strftime v t : normalize_timestamp v = Ok t -> exists u, dt_ok u = true /\ t = strftime_z u.
Proof.
  intros (c & s & p & off & _ & _ & _ & R & ->)%normalize_inv. eexists. split; [|reflexivity]. by apply of_us_ok.
Qed.

(** One instant has one spelling: any two timestamps the parser accepts that denote the
    same instant - whatever their UTC offsets, separators and precision - normalise alike,
    to the same text or to the same failure. *)
Theorem normalize_same_instant (c1 c2 : Z) (s1 s2 : str) (p1 p2 : datetime) (o1 o2 : Z)
  (H1 : fromisoformat (candidate (strip (c1 :: s1))) = Ok p1)
  (H2 : fromisoformat (candidate (strip (c2 :: s2))) = Ok p2)
  (O1 : dt_off p1 = Some o1) (O2 : dt_off p2 = Some o2)
  (E : local_us p1 - o1 = local_us p2 - o2) :
  normalize_timestamp (VStr (c1 :: s1)) = normalize_timestamp (VStr (c2 :: s2)).
Proof. by rewrite (normalize_parsed _ _ _ _ H1 O1), (normalize_parsed _ _ _ _ H2 O2), E. Qed.

Lemma normalize_same_instant_witness :
  normalize_timestamp (VStr (lit "2026-08-05T20:15:00+02:00")) =
  normalize_timestamp (VStr (lit " 20260805 181500.000Z")).
Proof.
  destruct (fromisoformat (candidate (strip (lit "2026-08-05T20:15:00+02:00")))) as [p1|] eqn:E1;
    [|vm_compute in E1; discriminate E1].
  destruct (fromisoformat (candidate (strip (lit " 20260805 181500.000Z")))) as [p2|] eqn:E2;
    [|vm_compute in E2; discriminate E2].
  pose proof E1 as E1'. pose proof E2 as E2'. vm_compute in E1', E2'.
  injection E1' as Q1. injection E2' as Q2.
  apply (normalize_same_instant 50 32 (tl (lit "2026-08-05T20:15:00+02:00")) (tl (lit " 20260805 181500.000Z"))
    p1 p2 7200000000 0 E1 E2); subst p1 p2; vm_compute; reflexivity.
Defined.

Lemma strip_id x l y : is_space x = false -> is_space y = false -> strip (x :: l ++ [y]) = x :: l ++ [y].
Proof.
  intros Hx Hy. unfold strip, strip_with.
  assert (drop_while is_space (x :: l ++ [y]) = (x :: l) ++ [y]) as -> by (simpl; by rewrite Hx).
  rewrite rev_app_distr. cbn [rev app]. cbn [drop_while]. rewrite Hy. cbn [rev].
  by rewrite rev_app_distr, rev_involutive.
Qed.

Lemma ends_with_snoc l c : ends_with [c] (l ++ [c]) = true.
Proof.
  unfold ends_with. rewrite length_app. cbn [length]. replace (length l + 1 - 1)%nat with (length l) by lia.
  rewrite drop_app_length, str_eqb_refl, andb_true_r. apply Nat.leb_le. lia.
Qed.

Lemma candidate_z l : candidate (l ++ lit "Z") = l ++ UTC_SUFFIX.
Proof.
  unfold candidate. change (lit "Z") with [90]. rewrite ends_with_snoc. cbn [orb].
  rewrite length_app. cbn [length]. replace (length l + 1 - 1)%nat with (length l) by lia.
  by rewrite take_app_length.
Qed.

(** The normal spelling of a four-digit year parses as itself. *)
Lemma normal_spelling_parses u : dt_ok u = true -> 1000 <= dt_year u ->
  exists c s, strftime_z u = c :: s /\
    fromisoformat (candidate (strip (c :: s))) = Ok (set_off u (Some 0)).
Proof.
  intros Hu Hy. assert (1000 <= dt_year u <= MAXYEAR).
  { unfold dt_ok, fields_ok in Hu. bool_prop. lia. }
  pose proof (strftime_text u ltac:(done)) as T.
  destruct (date_shape u) as (a & b & c & d & e & f & g & h & D & _).
  assert (is_space a = false) as Ha.
  { unfold date_text in D. destruct (pad_digits 4 (dt_year u)) as [L F].
    destruct (pad 4 (dt_year u)) as [|x l]; [done|]. injection D as -> _.
    apply Forall_cons in F as [Fx _]. by apply is_digit_ascii in Fx as [_ ?]. }
  rewrite D in T. cbn [app] in T.
  exists a, (b :: c :: d :: 45 :: e :: f :: 45 :: g :: h :: 84 :: clock_text u ++ [90]).
  rewrite T. cbn [app]. split; [done|].
  change (a :: b :: c :: d :: 45 :: e :: f :: 45 :: g :: h :: 84 :: clock_text u ++ [90])
    with (a :: (b :: c :: d :: 45 :: e :: f :: 45 :: g :: h :: 84 :: clock_text u) ++ [90]).
  rewrite strip_id by done.
  change (a :: (b :: c :: d :: 45 :: e :: f :: 45 :: g :: h :: 84 :: clock_text u) ++ [90])
    with (([a; b; c; d; 45; e; f; 45; g; h] ++ 84 :: clock_text u) ++ lit "Z").
  rewrite candidate_z, <- D, <- app_assoc. cbn [app]. unfold fromisoformat.
  unfold UTC_SUFFIX. by rewrite iso_parse_text.
Qed.

Lemma dec_digits_short y : 0 <= y < 1000 -> (length (dec_digits y) <= 3)%nat.
Proof. intros H. pose proof (dec_digits_len_pow y 3 ltac:(lia) ltac:(lia)). unfold zlen in *. lia. Qed.

Lemma strftime_length u : dt_ok u = true -> (1000 <= dt_year u <-> length (strftime_z u) = 27%nat).
Proof.
  intros Hu. assert (1 <= dt_year u <= MAXYEAR) by (unfold dt_ok, fields_ok in Hu; bool_prop; lia).
  split; intros Hy.
  - rewrite strftime_text by lia. rewrite !length_app. cbn [length].
    by rewrite date_length, (proj1 (clock_plain u)).
  - destruct (Z.lt_ge_cases (dt_year u) 1000); [|done].
    pose proof (dec_digits_short (dt_year u) ltac:(lia)). exfalso. revert Hy. unfold strftime_z.
    rewrite !length_app, !(proj1 (pad_digits _ _)). cbn [length]. lia.
Qed.

Lemma normalize_text u : dt_ok u = true -> length (strftime_z u) = 27%nat ->
  normalize_timestamp (VStr (strftime_z u)) = Ok (strftime_z u).
Proof.
  intros Hu Hl.
  destruct (normal_spelling_parses u Hu) as (c' & s' & T & P); [by apply strftime_length|].
  rewrite T. rewrite (normalize_parsed c' s' _ 0 P eq_refl). rewrite Z.sub_0_r, local_us_set_off.
  rewrite of_us_local by done. pose proof (local_us_range u Hu). zdec. rewrite <- T. reflexivity.
Qed.

(** Normalisation is idempotent: a normalised timestamp of year 1000 or later (27
    characters) is its own normal form, so re-validating a stored event accepts it. *)
Theorem normalize_timestamp_idempotent (v : value) (t : str)
  (H : normalize_timestamp v = Ok t) (Hl : length t = 27%nat) :
  normalize_timestamp (VStr t) = Ok t.
Proof.
  destruct (normalize_strftime v t H) as (u & Hu & ->). by apply normalize_text.
Qed.

Lemma normalize_timestamp_idempotent_witness :
  normalize_timestamp (VStr (lit "2026-08-05T18:15:00.000000Z")) = Ok (lit "2026-08-05T18:15:00.000000Z").
Proof.
  apply (normalize_timestamp_idempotent (VStr (lit "2026-08-05T20:15+02:00"))); vm_compute; reflexivity.
Defined.

(** [normalize_timestamp] documents [CanonicalizationError] as its only failure, but an
    accepted timestamp whose UTC instant leaves years 1..9999 escapes as [OverflowError];
    nothing else escapes. *)
Theorem normalize_timestamp_errors (v : value) (e : exn) (H : normalize_timestamp v = Err e) :
  (exists m, e = CanonicalizationError m) \/
  (e = OverflowError /\ exists c s p off, v = VStr (c :: s) /\
     fromisoformat (candidate (strip (c :: s))) = Ok p /\ dt_off p = Some off /\
     ~ (MIN_US <= local_us p - off < MAX_US)).
Proof.
  destruct v as [| | | |[|c s]| | | | |]; try (injection H as <-; left; eauto; fail).
  destruct (fromisoformat (candidate (strip (c :: s)))) as [p|e'] eqn:E.
  - destruct (dt_off p) as [off|] eqn:Ho.
    + rewrite (normalize_parsed c s p off E Ho) in H. destruct ((MIN_US <=? _) && _) eqn:R; [discriminate H|].
      injection H as <-. right. split; [done|]. exists c, s, p, off. split_and!; [done..|].
      intros [? ?]. apply andb_false_iff in R as [?|?]; bool_prop; lia.
    + unfold normalize_timestamp in H. rewrite E in H. simpl in H. rewrite Ho in H. injection H as <-. eauto.
  - unfold normalize_timestamp in H. rewrite E in H. simpl in H. injection H as <-. eauto.
Qed.

Lemma normalize_timestamp_errors_witness :
  normalize_timestamp (VStr (lit "0001-01-01T00:00:00+01:00")) = Err OverflowError /\
  exists off, ~ (MIN_US <= local_us {| dt_year := 1; dt_month := 1; dt_day := 1; dt_hour := 0; dt_min := 0;
                                       dt_sec := 0; dt_us := 0; dt_off := Some off |} - off < MAX_US).
Proof.
  assert (normalize_timestamp (VStr (lit "0001-01-01T00:00:00+01:00")) = Err OverflowError) as H
    by (vm_compute; reflexivity).
  split; [exact H|].
  destruct (normalize_timestamp_errors _ _ H) as [[m Hm]|(_ & c & s & p & off & Hv & Hp & Ho & R)];
    [discriminate Hm|].
  injection Hv as <- <-. vm_compute in Hp. injection Hp as <-. injection Ho as <-.
  exists 3600000000. exact R.
Defined.

(** *** Normal forms *)
Lemma height_normal v : height (normal true v) = height v.
Proof.
  induction v as [| b | z | f | s | b | t | l IH | l IH | d IH] using value_nested_ind; try done.
  - simpl. rewrite map_map. f_equal. apply map_ext_Forall. eapply Forall_impl; [exact IH|]. simpl. congruence.
  - simpl. rewrite map_map. f_equal. apply map_ext_Forall. eapply Forall_impl; [exact IH|]. simpl. congruence.
  - destruct (normal_dict d) as (d' & -> & P). cbn [height].
    rewrite (list_max_perm _ _ (Permutation_map (fun kv : key * value => S (height kv.2)) P)), map_map. f_equal.
    apply map_ext_Forall. eapply Forall_impl; [exact IH|]. simpl. congruence.
Qed.

Lemma strings_short_normal v : strings_short v = true -> strings_short (normal true v) = true.
Proof.
  induction v as [| b | z | f | s | b | t | l IH | l IH | d IH] using value_nested_ind; intros Hs; try done.
  - simpl in *. apply forallb_Forall in Hs. apply forallb_Forall, Forall_map. rewrite Forall_forall in *. auto.
  - simpl in *. apply forallb_Forall in Hs. apply forallb_Forall, Forall_map. rewrite Forall_forall in *. auto.
  - destruct (normal_dict d) as (d' & -> & P). cbn [strings_short] in *.
    apply forallb_Forall in Hs. apply forallb_Forall. rewrite P. apply Forall_map.
    rewrite Forall_forall in *. intros kv Hv. specialize (Hs _ Hv). bool_prop. simpl.
    rewrite (IH _ Hv) by done. by rewrite andb_true_r, Z.leb_le.
Qed.

Lemma wf_pyval v : wf v = true -> pyval v = true.
Proof.
  induction v as [| b | z | f | s | b | t | l IH | l IH | d IH] using value_nested_ind; intros Hw; try done.
  - by apply str_ok_elim in Hw as [? _].
  - simpl in *. apply forallb_Forall in Hw. apply forallb_Forall. rewrite Forall_forall in *. auto.
  - simpl in *. apply forallb_Forall in Hw. apply forallb_Forall. rewrite Forall_forall in *. auto.
  - apply wf_dict in Hw as [Hw Hn]. apply pyval_dict. split; [|done].
    rewrite Forall_forall in *. intros [[k|t] v] Hv; destruct (Hw _ Hv) as [Hk Hv2]; [|done].
    split; [by apply str_ok_elim in Hk as [? _] | by apply (IH _ Hv)].
Qed.

Lemma acceptable_normal v : acceptable v = true -> acceptable (normal true v) = true.
Proof.
  rewrite !acceptable_spec, height_normal. intros (? & ? & ?).
  auto using wf_normal, strings_short_normal.
Qed.

(** The bytes of an acceptable value. *)
Lemma canonical_bytes_acceptable v : acceptable v = true ->
  canonical_bytes v = Ok (concat (map utf8_encode1 (dump canonical_cfg 0 v))).
Proof.
  intros Ha. pose proof Ha as (Hw & _)%acceptable_spec.
  destruct (canonical_bytes_outcome v (wf_pyval v Hw)) as [(_ & b & E & U)|(? & _)]; [|congruence].
  rewrite E. apply utf8_encode_ok in U as [_ ->]. done.
Qed.

Lemma canonical_bytes_normal v : acceptable v = true ->
  canonical_bytes (normal true v) = canonical_bytes v.
Proof.
  intros Ha. rewrite !canonical_bytes_acceptable by auto using acceptable_normal. by rewrite dump_normal.
Qed.

Lemma check_acceptable v : acceptable v = true -> check_canonicalizable v = Ok tt.
Proof. intros (Hw & Hh & Hs)%acceptable_spec. by apply check_accepts. Qed.

Lemma canonical_bytes_inv v b : pyval v = true -> canonical_bytes v = Ok b -> acceptable v = true.
Proof. intros Hp H. destruct (canonical_bytes_outcome v Hp) as [(? & _)|(_ & m & E)]; congruence. Qed.

(** One direction of injectivity, for the clients of the module. *)
Lemma canonical_doc_eq v w b : pyval v = true -> pyval w = true ->
  canonical_bytes v = Ok b -> canonical_bytes w = Ok b -> normal true v = normal true w.
Proof.
  intros Hv Hw Ev Ew. pose proof (canonical_bytes_inv v b Hv Ev) as Av.
  pose proof (canonical_bytes_inv w b Hw Ew) as Aw.
  destruct (acceptable_nesting v Hv Av) as [Wv Nv], (acceptable_nesting w Hw Aw) as [Ww Nw].
  rewrite canonical_bytes_acceptable in Ev, Ew by done.
  assert (dump canonical_cfg 0 v = dump canonical_cfg 0 w) as D.
  { apply (utf8_encode_inj _ _ b); auto using wf_cp; apply utf8_encode_ok;
      (split; [by apply str_ok_elim, dump_str_ok | congruence]). }
  pose proof (loads_dump canonical_cfg default_hooks _ 0 v Wv Nv) as L.
  rewrite D, (loads_dump canonical_cfg default_hooks _ 0 w Ww Nw) in L. by injection L as ->.
Qed.
