(* ===== verification/Models.v ===== *)
(** The signed-event envelope and its strict validation:
    [src/ics_deception/pqc_evidence/models.py] and the constants of
    [src/ics_deception/pqc_evidence/__init__.py]. *)
From S2P Require Import Prelude PyText Json JsonFacts JsonScan Hashes IsoTime Canonicalizer.

Definition EVIDENCE_FORMAT_VERSION : str := lit "1.0".
Definition DEFAULT_SIGNATURE_ALGORITHM : str := lit "ML-DSA-65".
Definition DEFAULT_HASH_ALGORITHM : str := lit "SHA3-256".

Definition SUPPORTED_FORMAT_VERSIONS : list str := [lit "1.0"].
Definition SUPPORTED_SIGNATURE_ALGORITHMS : list str := [lit "ML-DSA-44"; lit "ML-DSA-65"; lit "ML-DSA-87"].
Definition SUPPORTED_HASH_ALGORITHMS : list str := [lit "SHA3-256"].
Definition MAX_EVIDENCE_BYTES := 262144.
Definition MAX_EVENT_BYTES := 65536.
Definition MAX_EVENT_DEPTH := 16%nat.
Definition MAX_NODE_ID_LENGTH := 128.
Definition MAX_SEQUENCE := 2 ^ 63 - 1.

Definition ENVELOPE_FIELDS : list str :=
  map lit ["format_version"; "node_id"; "sequence"; "timestamp"; "previous_event_hash";
           "event_hash"; "event"; "signature_algorithm"; "hash_algorithm"; "key_id"; "signature"]%string.
Definition HASH_EXCLUDED : list str := [lit "event_hash"; lit "signature"].
Definition SIGNATURE_EXCLUDED : list str := [lit "signature"].

Definition str_in (s : str) (l : list str) : bool := existsb (str_eqb s) l.

(** [_require] with the default reason, and with a given one. *)
Definition malformed (m : string) : exn := EvidenceValidationError "malformed_evidence" m.
Definition require_ (c : bool) (m : string) : res unit := require c (malformed m).
Definition require_as (c : bool) (reason m : string) : res unit :=
  require c (EvidenceValidationError reason m).

(** [_reject_duplicate_keys]: an [object_pairs_hook]. *)
Fixpoint has_duplicate (seen : list str) (pairs : list (str * value)) : bool :=
  match pairs with
  | [] => false
  | (k, _) :: r => str_in k seen || has_duplicate (k :: seen) r
  end.
Definition reject_duplicate_keys (pairs : list (str * value)) : res value :=
  if has_duplicate [] pairs then Err (malformed "duplicate JSON key") else Ok (dict_of_pairs pairs).

(** [_no_constants] *)
Definition no_constants (name : string) : res value := Err (malformed "non-JSON constant").

Definition evidence_hooks : hooks := {| h_pairs := reject_duplicate_keys; h_const := no_constants |}.

(** ** Regular expressions

    Python's [$] also matches before a final newline. *)
Definition is_alnum (c : Z) : bool :=
  is_digit c || ((65 <=? c) && (c <=? 90)) || ((97 <=? c) && (c <=? 122)).
Definition is_id_char (c : Z) : bool :=
  is_alnum c || (c =? 46) || (c =? 95) || (c =? 58) || (c =? 45).

(** The longest prefix of characters in a class, and what follows it. *)
Fixpoint span (p : Z -> bool) (s : str) : str * str :=
  match s with
  | c :: r => if p c then (c :: fst (span p r), snd (span p r)) else ([], s)
  | [] => ([], [])
  end.

Definition dollar (s : str) : bool := match s with [] => true | [10] => true | _ => false end.

(** [^[A-Za-z0-9][A-Za-z0-9._:-]{0,127}$] *)
Definition id_match (s : str) : bool :=
  match s with
  | [] => false
  | c :: r =>
    let body := fst (span is_id_char r) in
    is_alnum c && (zlen body <=? 127) && dollar (snd (span is_id_char r))
  end.

(** [^[0-9a-f]{64}$] *)
Definition hash_match (s : str) : bool :=
  (64 <=? zlen s) && forallb is_hex (take 64 s) && dollar (drop 64 s).

(** ** Field validators *)
Definition validate_identifier (v : value) : res str :=
  match v with
  | VStr s =>
    require_ (negb (bool_decide (s = []))) "identifier must not be empty" ;;
    require_ (zlen s <=? MAX_NODE_ID_LENGTH) "identifier too long" ;;
    require_ (id_match s) "identifier contains illegal characters" ;;
    Ok s
  | _ => Err (malformed "identifier must be a string")
  end.

Definition validate_hash (v : value) : res str :=
  match v with
  | VStr s => require_ (hash_match s) "must be 64 lowercase hexadecimal characters" ;; Ok s
  | _ => Err (malformed "hash must be a string")
  end.

Definition validate_sequence (v : value) : res Z :=
  match v with
  | VInt z =>
    require_ (1 <=? z) "sequence must be positive" ;;
    require_ (z <=? MAX_SEQUENCE) "sequence is out of range" ;;
    Ok z
  | _ => Err (malformed "sequence must be an integer")
  end.

Fixpoint depth (level : nat) (v : value) : nat :=
  match v with
  | VDict d => match d with
               | [] => level
               | _ => list_max (map (fun kv => depth (S level) kv.2) d)
               end
  | VList l | VTuple l => match l with
               | [] => level
               | _ => list_max (map (depth (S level)) l)
               end
  | _ => level
  end.

Abbreviation dict := (list (key * value)).

Definition validate_event (v : value) : res dict :=
  match v with
  | VDict d =>
    try_with (check_canonicalizable v) (fun e =>
      match e with
      | CanonicalizationError _ => Err (malformed "event is not canonicalizable")
      | e => Err e
      end) ;;
    encoded ← canonical_bytes v;
    require_as (zlen encoded <=? MAX_EVENT_BYTES) "oversized_evidence" "event too large" ;;
    require_ (depth 1 v <=? MAX_EVENT_DEPTH)%nat "event nests too deep" ;;
    Ok d
  | _ => Err (malformed "event must be a JSON object")
  end.

Definition validate_signature (v : value) : res bytes :=
  match v with
  | VStr s =>
    require_ (negb (bool_decide (s = []))) "signature must not be empty" ;;
    raw ← try_with (b64decode s) (fun e =>
      match e with
      | ValueError _ => Err (malformed "signature is not valid base64")
      | e => Err e
      end);
    require_ (negb (bool_decide (raw = []))) "signature decodes to zero bytes" ;;
    Ok raw
  | _ => Err (malformed "signature must be a base64 string")
  end.

(** ** The envelope *)
Record SignedEvent := {
  se_format_version : str;
  se_node_id : str;
  se_sequence : Z;
  se_timestamp : str;
  se_previous_event_hash : str;
  se_event_hash : str;
  se_event : dict;
  se_signature_algorithm : str;
  se_hash_algorithm : str;
  se_key_id : str;
  se_signature : str;
  se_signature_bytes : bytes;
}.

Definition to_items (e : SignedEvent) : list (str * value) := [
  (lit "format_version", VStr (se_format_version e));
  (lit "node_id", VStr (se_node_id e));
  (lit "sequence", VInt (se_sequence e));
  (lit "timestamp", VStr (se_timestamp e));
  (lit "previous_event_hash", VStr (se_previous_event_hash e));
  (lit "event_hash", VStr (se_event_hash e));
  (lit "event", VDict (se_event e));
  (lit "signature_algorithm", VStr (se_signature_algorithm e));
  (lit "hash_algorithm", VStr (se_hash_algorithm e));
  (lit "key_id", VStr (se_key_id e));
  (lit "signature", VStr (se_signature e))].

Definition as_dict (l : list (str * value)) : dict := map (fun kv => (KStr kv.1, kv.2)) l.

Definition without (excluded : list str) (l : list (str * value)) : list (str * value) :=
  List.filter (fun kv => negb (str_in kv.1 excluded)) l.

Definition to_dict (e : SignedEvent) : value := VDict (as_dict (to_items e)).

Definition to_json_line (e : SignedEvent) : res str :=
  b ← canonical_bytes (to_dict e); utf8_decode b.

Definition hash_payload (e : SignedEvent) : res bytes :=
  canonical_bytes (VDict (as_dict (without HASH_EXCLUDED (to_items e)))).
Definition signing_payload (e : SignedEvent) : res bytes :=
  canonical_bytes (VDict (as_dict (without SIGNATURE_EXCLUDED (to_items e)))).

Definition with_signature (e : SignedEvent) (b64 : str) (raw : bytes) : SignedEvent := {|
  se_format_version := se_format_version e; se_node_id := se_node_id e;
  se_sequence := se_sequence e; se_timestamp := se_timestamp e;
  se_previous_event_hash := se_previous_event_hash e; se_event_hash := se_event_hash e;
  se_event := se_event e; se_signature_algorithm := se_signature_algorithm e;
  se_hash_algorithm := se_hash_algorithm e; se_key_id := se_key_id e;
  se_signature := b64; se_signature_bytes := raw |}.

Definition with_event_hash (e : SignedEvent) (h : str) : SignedEvent := {|
  se_format_version := se_format_version e; se_node_id := se_node_id e;
  se_sequence := se_sequence e; se_timestamp := se_timestamp e;
  se_previous_event_hash := se_previous_event_hash e; se_event_hash := h;
  se_event := se_event e; se_signature_algorithm := se_signature_algorithm e;
  se_hash_algorithm := se_hash_algorithm e; se_key_id := se_key_id e;
  se_signature := se_signature e; se_signature_bytes := se_signature_bytes e |}.

(** [except CanonicalizationError as exc: raise EvidenceValidationError(str(exc))] *)
Definition recanon {A} (m : res A) : res A :=
  try_with m (fun e => match e with
                       | CanonicalizationError c => Err (malformed c)
                       | e => Err e
                       end).

Definition ZERO_HASH : str := repeat 48 64.

Definition build_unsigned (node_id sequence timestamp previous_event_hash event key_id : value)
    (signature_algorithm hash_algorithm format_version : str) : res SignedEvent :=
  require_as (str_in format_version SUPPORTED_FORMAT_VERSIONS)
    "unsupported_format_version" "unsupported format_version" ;;
  require_as (str_in signature_algorithm SUPPORTED_SIGNATURE_ALGORITHMS)
    "unsupported_algorithm" "unsupported signature_algorithm" ;;
  require_as (str_in hash_algorithm SUPPORTED_HASH_ALGORITHMS)
    "unsupported_algorithm" "unsupported hash_algorithm" ;;
  normalized ← recanon (normalize_timestamp timestamp);
  nid ← validate_identifier node_id;
  sq ← validate_sequence sequence;
  prev ← validate_hash previous_event_hash;
  ev ← validate_event event;
  kid ← validate_identifier key_id;
  Ok {| se_format_version := format_version; se_node_id := nid; se_sequence := sq;
        se_timestamp := normalized; se_previous_event_hash := prev; se_event_hash := ZERO_HASH;
        se_event := ev; se_signature_algorithm := signature_algorithm;
        se_hash_algorithm := hash_algorithm; se_key_id := kid;
        se_signature := []; se_signature_bytes := [] |}.

(** ** Parsing *)

(** [parse_signed_event_size_guard] *)
Definition size_guard (d : dict) (event : value) (max_bytes : Z) : res dict :=
  ev ← validate_event event;
  encoded ← recanon (canonical_bytes (VDict d));
  require_as (zlen encoded <=? max_bytes) "oversized_evidence" "evidence record too large" ;;
  Ok ev.

(** [isinstance(x, str)] and membership, for the three version and algorithm fields. *)
Definition supported_str (v : value) (l : list str) (reason : string) : res str :=
  match v with
  | VStr s => require_as (str_in s l) reason "unsupported value" ;; Ok s
  | _ => Err (malformed "must be a string")
  end.

Definition field (d : dict) (k : string) : res value :=
  match dict_get d (lit k) with Some v => Ok v | None => Err KeyError end.

Definition is_kstr (k : key) : bool := match k with KStr _ => true | KOther _ => false end.
Definition known_key (k : key) : bool :=
  match k with KStr s => str_in s ENVELOPE_FIELDS | KOther _ => false end.

(** The unknown keys are sorted for the message: strings do not compare with keys of
    other types. *)
Definition check_unknown (d : dict) : res unit :=
  let unknown := List.filter (fun k => negb (known_key k)) (map fst d) in
  if existsb is_kstr unknown && existsb (fun k => negb (is_kstr k)) unknown
  then Err (TypeError "unorderable keys")
  else require_ (bool_decide (unknown = [])) "unknown envelope field(s)".

Definition missing (required : list str) (d : dict) : list str :=
  List.filter (fun k => match dict_get d k with Some _ => false | None => true end) required.

Definition parse_signed_event (data : value) (max_bytes : Z) (require_signature : bool) : res SignedEvent :=
  match data with
  | VDict d =>
    check_unknown d ;;
    let required := if require_signature then ENVELOPE_FIELDS else List.filter (fun k => negb (str_eqb k (lit "signature"))) ENVELOPE_FIELDS in
    require_ (bool_decide (missing required d = [])) "missing envelope field(s)" ;;
    fv ← field d "format_version";
    format_version ← supported_str fv SUPPORTED_FORMAT_VERSIONS "unsupported_format_version";
    sa ← field d "signature_algorithm";
    signature_algorithm ← supported_str sa SUPPORTED_SIGNATURE_ALGORITHMS "unsupported_algorithm";
    ha ← field d "hash_algorithm";
    hash_algorithm ← supported_str ha SUPPORTED_HASH_ALGORITHMS "unsupported_algorithm";
    timestamp ← field d "timestamp";
    normalized ← recanon (normalize_timestamp timestamp);
    require_ (match timestamp with VStr t => str_eqb t normalized | _ => false end)
      "timestamp is not in canonical form" ;;
    let signature := default (VStr []) (dict_get d (lit "signature")) in
    signature_bytes ← (if require_signature then validate_signature signature else Ok []);
    ev ← field d "event";
    event ← size_guard d ev max_bytes;
    nid ← field d "node_id"; node_id ← validate_identifier nid;
    sq ← field d "sequence"; sequence ← validate_sequence sq;
    ph ← field d "previous_event_hash"; previous ← validate_hash ph;
    eh ← field d "event_hash"; event_hash ← validate_hash eh;
    ki ← field d "key_id"; key_id ← validate_identifier ki;
    Ok {| se_format_version := format_version; se_node_id := node_id; se_sequence := sequence;
          se_timestamp := normalized; se_previous_event_hash := previous;
          se_event_hash := event_hash; se_event := event;
          se_signature_algorithm := signature_algorithm; se_hash_algorithm := hash_algorithm;
          se_key_id := key_id;
          se_signature := match signature with VStr s => s | _ => [] end;
          se_signature_bytes := signature_bytes |}
  | _ => Err (malformed "evidence record must be a JSON object")
  end.

(** [text: str | bytes] *)
Inductive text_input := TStr (s : str) | TBytes (b : bytes).

Definition raw_of (t : text_input) : res bytes :=
  match t with
  | TBytes b => Ok b
  | TStr s => try_with (utf8_encode s) (fun _ => Err (malformed "evidence text is not encodable as UTF-8"))
  end.

(** [lim] is the nesting the interpreter's recursion limit allows [json.loads]. *)
Definition parse_signed_event_json (lim : nat) (text : text_input) (max_bytes : Z)
    (require_signature : bool) : res SignedEvent :=
  raw ← raw_of text;
  require_as (zlen raw <=? max_bytes) "oversized_evidence" "evidence record too large" ;;
  decoded ← try_with (utf8_decode raw) (fun _ => Err (malformed "evidence is not valid UTF-8"));
  data ← try_with (loads evidence_hooks lim decoded) (fun e =>
    match e with
    | JSONDecodeError | ValueError _ | RecursionError => Err (malformed "evidence is not valid JSON")
    | e => Err e
    end);
  parse_signed_event data max_bytes require_signature.

(** ** Facts *)
Lemma str_in_elem s l : str_in s l = true <-> s ∈ l.
Proof.
  unfold str_in. rewrite existsb_exists, list_elem_of_In. split.
  - intros (x & Hx & E). apply str_eqb_eq in E as ->. done.
  - intros H. exists s. by rewrite str_eqb_refl.
Qed.

Lemma has_duplicate_spec ps : forall seen,
  has_duplicate seen ps = false <-> NoDup (map fst ps) /\ (forall k, k ∈ map fst ps -> ~ k ∈ seen).
Proof.
  induction ps as [|[k v] ps IH]; intros seen; simpl.
  - split; [intros _; split; [constructor | intros k []%elem_of_nil] | done].
  - rewrite orb_false_iff, IH, <- not_true_iff_false, str_in_elem, NoDup_cons.
    setoid_rewrite elem_of_cons. naive_solver.
Qed.

#[export] Instance evidence_pair_hooks : PairHooks evidence_hooks.
Proof.
  intros ps Hn. simpl. unfold reject_duplicate_keys.
  assert (has_duplicate [] ps = false) as ->; [|by rewrite dict_of_pairs_nodup].
  apply has_duplicate_spec. split; [done|]. intros k _. apply not_elem_of_nil.
Qed.

(** A validated envelope. *)
Record event_ok (e : SignedEvent) : Prop := {
  ok_version : str_in (se_format_version e) SUPPORTED_FORMAT_VERSIONS = true;
  ok_node : validate_identifier (VStr (se_node_id e)) = Ok (se_node_id e);
  ok_sequence : validate_sequence (VInt (se_sequence e)) = Ok (se_sequence e);
  ok_timestamp : normalize_timestamp (VStr (se_timestamp e)) = Ok (se_timestamp e);
  ok_previous : validate_hash (VStr (se_previous_event_hash e)) = Ok (se_previous_event_hash e);
  ok_event_hash : validate_hash (VStr (se_event_hash e)) = Ok (se_event_hash e);
  ok_event : validate_event (VDict (se_event e)) = Ok (se_event e);
  ok_sig_alg : str_in (se_signature_algorithm e) SUPPORTED_SIGNATURE_ALGORITHMS = true;
  ok_hash_alg : str_in (se_hash_algorithm e) SUPPORTED_HASH_ALGORITHMS = true;
  ok_key : validate_identifier (VStr (se_key_id e)) = Ok (se_key_id e);
  ok_signature : validate_signature (VStr (se_signature e)) = Ok (se_signature_bytes e);
}.

(** [inv_res] through the model's own [_require]. *)
Ltac inv_req := unfold require_, require_as in *; inv_res.

Lemma validate_identifier_inv v s : validate_identifier v = Ok s ->
  v = VStr s /\ id_match s = true /\ zlen s <= MAX_NODE_ID_LENGTH.
Proof. destruct v; simpl; try done. intros H. inv_req. bool_prop. done. Qed.

Lemma validate_hash_inv v s : validate_hash v = Ok s -> v = VStr s /\ hash_match s = true.
Proof. destruct v; simpl; try done. intros H. inv_req. done. Qed.

Lemma validate_sequence_inv v z : validate_sequence v = Ok z -> v = VInt z /\ 1 <= z <= MAX_SEQUENCE.
Proof. destruct v; simpl; try done. intros H. inv_req. bool_prop. done. Qed.

Lemma validate_signature_inv v b : validate_signature v = Ok b ->
  exists s, v = VStr s /\ b64decode s = Ok b /\ b <> [].
Proof.
  destruct v as [| | | |s| | | | |]; simpl; try done. intros H. inv_req.
  exists s. split; [done|]. unfold try_with in *. destruct (b64decode s) as [|e]; [|by destruct e].
  inv_req. bool_prop. done.
Qed.

Lemma validate_event_inv v d : validate_event v = Ok d -> v = VDict d /\
  exists b, canonical_bytes v = Ok b /\ zlen b <= MAX_EVENT_BYTES /\ (depth 1 v <= MAX_EVENT_DEPTH)%nat.
Proof.
  destruct v as [| | | | | | | |d'|]; simpl; try done. intros H. inv_req. bool_prop.
  rename select (_ <=? MAX_EVENT_DEPTH = true)%nat into Hd. apply Nat.leb_le in Hd. eauto.
Qed.

Lemma supported_str_inv v l r s : supported_str v l r = Ok s -> v = VStr s /\ str_in s l = true.
Proof. destruct v; simpl; try done. intros H. inv_req. done. Qed.

Lemma recanon_ok {A} (m : res A) a : recanon m = Ok a <-> m = Ok a.
Proof. unfold recanon, try_with. destruct m as [|[]]; done. Qed.

Lemma field_inv d k v : field d k = Ok v -> dict_get d (lit k) = Some v.
Proof. unfold field. case_match; intros; inv_req; done. Qed.

Lemma NoDup_map_sub {A B} (f : A -> B) l : NoDup (map f l) -> NoDup l.
Proof. apply (NoDup_fmap_1 f). Qed.

Lemma as_dict_keys l : keys (as_dict l) = map fst l.
Proof. unfold keys, as_dict. by rewrite map_map. Qed.

Lemma to_items_keys e : map fst (to_items e) = ENVELOPE_FIELDS.
Proof. done. Qed.

Lemma envelope_fields_nodup : NoDup ENVELOPE_FIELDS.
Proof. apply (bool_decide_eq_true_1 _). vm_compute. reflexivity. Qed.

Lemma filter_nil_Forall {A} (f : A -> bool) l : List.filter f l = [] <-> Forall (fun x => f x = false) l.
Proof.
  induction l as [|x l IH]; simpl; [done|]. destruct (f x) eqn:E.
  - split; [done|]. intros F. inv F. congruence.
  - rewrite IH. split; [by constructor | intros F; by inv F].
Qed.

(** A dict with exactly the envelope's fields and values is the envelope's dict. *)
Lemma dict_is_envelope d e :
  NoDup (keys d) -> Forall (fun kv => known_key kv.1 = true) d ->
  Forall (fun kv => dict_get d kv.1 = Some kv.2) (to_items e) -> d ≡ₚ as_dict (to_items e).
Proof.
  intros Hn Hk Hg. symmetry.
  assert (NoDup (as_dict (to_items e))) as Hn'.
  { apply (NoDup_map_sub (fun kv => kstr kv.1)). change (NoDup (keys (as_dict (to_items e)))).
    rewrite as_dict_keys, to_items_keys. apply envelope_fields_nodup. }
  assert (forall kv, kv ∈ as_dict (to_items e) -> kv ∈ d) as Hsub.
  { intros kv Hx. unfold as_dict in Hx. apply list_elem_of_In, in_map_iff in Hx as ([k v] & <- & Hx).
    apply list_elem_of_In in Hx. rewrite Forall_forall in Hg. apply dict_get_elem, (Hg _ Hx). }
  apply NoDup_Permutation; [done | by apply (NoDup_map_sub (fun kv => kstr kv.1)) |].
  intros kv. split; [apply Hsub|]. intros Hx. rewrite Forall_forall in Hk. pose proof (Hk _ Hx) as Hkx.
  destruct kv as [[k|t] v]; [|done]. change (str_in k ENVELOPE_FIELDS = true) in Hkx. apply str_in_elem in Hkx.
  rewrite <- (to_items_keys e) in Hkx. apply list_elem_of_In, in_map_iff in Hkx as ([k' v'] & E & Hy).
  simpl in E. subst k'. apply list_elem_of_In in Hy.
  assert ((KStr k, v') ∈ as_dict (to_items e)) as Hy'.
  { apply list_elem_of_In, in_map_iff. exists (k, v'). split; [done | by apply list_elem_of_In]. }
  replace v with v'; [done|].
  pose proof (NoDup_fst_eq (map (fun kv => (kstr kv.1, kv.2)) d) (k, v') (k, v)) as U.
  rewrite map_map in U. enough ((k, v') = (k, v)) as E by (by injection E).
  apply U; [exact Hn | | | done].
  - apply list_elem_of_In, in_map_iff. exists (KStr k, v'). split; [done|]. by apply list_elem_of_In, Hsub.
  - apply list_elem_of_In, in_map_iff. exists (KStr k, v). split; [done|]. by apply list_elem_of_In.
Qed.

(** *** Parsing is sound *)
Lemma check_unknown_ok d : check_unknown d = Ok tt -> Forall (fun kv => known_key kv.1 = true) d.
Proof.
  unfold check_unknown. intros H. case_match; inv_req. bool_prop.
  match goal with E : List.filter _ _ = [] |- _ => apply filter_nil_Forall in E; apply Forall_map in E; rename E into F end.
  eapply Forall_impl; [exact F|]. intros kv Hk. by apply negb_false_iff in Hk.
Qed.

(** The outcome of a successful parse, field by field. *)
Lemma parse_inv data max_bytes e : parse_signed_event data max_bytes true = Ok e ->
  event_ok e /\ exists d b, data = VDict d /\ Forall (fun kv => known_key kv.1 = true) d /\
    Forall (fun kv => dict_get d kv.1 = Some kv.2) (to_items e) /\
    canonical_bytes data = Ok b /\ zlen b <= max_bytes.
Proof.
  destruct data as [| | | | | | | |d|]; try done. unfold parse_signed_event. intros H.
  inv_req. unfold size_guard in *. inv_req.
  repeat match goal with
  | H : supported_str _ _ _ = Ok _ |- _ => apply supported_str_inv in H as [-> H]
  | H : field _ _ = Ok _ |- _ => apply field_inv in H
  | H : recanon _ = Ok _ |- _ => apply (proj1 (recanon_ok _ _)) in H
  | H : validate_identifier ?v = Ok _ |- _ => is_var v; pose proof H as [-> _]%validate_identifier_inv
  | H : validate_hash ?v = Ok _ |- _ => is_var v; pose proof H as [-> _]%validate_hash_inv
  | H : validate_sequence ?v = Ok _ |- _ => is_var v; pose proof H as [-> _]%validate_sequence_inv
  | H : validate_event ?v = Ok _ |- _ => is_var v; pose proof H as [-> _]%validate_event_inv
  end.
  match goal with H : _ = true, H' : normalize_timestamp ?v = Ok ?n |- _ =>
    match type of H with context [str_eqb _ n] => destruct v as [| | | |t| | | | |]; try discriminate H; apply str_eqb_eq in H as -> end end.
  destruct (dict_get d (lit "signature")) as [sv|] eqn:Es; simpl default in *;
    match goal with H : validate_signature _ = Ok _ |- _ => pose proof H as (sg & Esg & _)%validate_signature_inv end;
    [subst sv | by injection Esg as <-].
  split; [by constructor|]. exists d. eexists. split_and!; [done | by apply check_unknown_ok | | done | by apply Z.leb_le].
  unfold to_items. cbn [se_format_version se_node_id se_sequence se_timestamp se_previous_event_hash
    se_event_hash se_event se_signature_algorithm se_hash_algorithm se_key_id se_signature].
  repeat (apply Forall_cons_2; [assumption|]). apply Forall_nil_2.
Qed.

(** What [parse_signed_event] returns is a valid envelope that says exactly what the
    record said: every field passes its validator, the size limit holds, and the record is
    the envelope's dict - no field is dropped, added or altered - up to key order. *)
Theorem parse_signed_event_sound (data : value) (max_bytes : Z) (e : SignedEvent)
  (Hv : pyval data = true) (H : parse_signed_event data max_bytes true = Ok e) :
  event_ok e /\ normal true data = normal true (to_dict e) /\
  exists b, canonical_bytes (to_dict e) = Ok b /\ zlen b <= max_bytes.
Proof.
  destruct (parse_inv _ _ _ H) as (Hok & d & b & -> & Hk & Hg & Hb & Hm).
  pose proof (proj1 (pyval_dict d) Hv) as [Hp Hn].
  pose proof (dict_is_envelope d e Hn Hk Hg) as P.
  assert (normal true (VDict d) = normal true (to_dict e)) as N by (by apply normal_permute).
  split_and!; [done..|]. exists b. split; [|done].
  pose proof (canonical_bytes_inv _ _ Hv Hb) as Ha.
  rewrite <- (canonical_bytes_normal (to_dict e)), <- N, canonical_bytes_normal; [done..|].
  apply acceptable_spec. apply acceptable_spec in Ha as (A1 & A2 & A3). split_and!.
  - apply wf_dict. apply wf_dict in A1 as [A1 _]. rewrite as_dict_keys. split; [|apply envelope_fields_nodup].
    by rewrite <- P.
  - rewrite <- (height_normal (to_dict e)), <- N, height_normal. done.
  - cbn [to_dict strings_short] in *. apply forallb_Forall. apply forallb_Forall in A3. by rewrite <- P.
Qed.

(** *** The round trip through one evidence line *)
Definition normal_event (d : dict) : dict :=
  match normal true (VDict d) with VDict d' => d' | _ => [] end.

Lemma normal_event_eq d : normal true (VDict d) = VDict (normal_event d).
Proof. destruct (normal_dict d) as (d' & E & _). unfold normal_event. by rewrite E. Qed.

Definition with_event (e : SignedEvent) (d : dict) : SignedEvent := {|
  se_format_version := se_format_version e; se_node_id := se_node_id e;
  se_sequence := se_sequence e; se_timestamp := se_timestamp e;
  se_previous_event_hash := se_previous_event_hash e; se_event_hash := se_event_hash e;
  se_event := d; se_signature_algorithm := se_signature_algorithm e;
  se_hash_algorithm := se_hash_algorithm e; se_key_id := se_key_id e;
  se_signature := se_signature e; se_signature_bytes := se_signature_bytes e |}.

(** The envelope's fields in canonical order. *)
Definition sorted_items (e : SignedEvent) (ev : value) : list (str * value) := [
  (lit "event", ev);
  (lit "event_hash", VStr (se_event_hash e));
  (lit "format_version", VStr (se_format_version e));
  (lit "hash_algorithm", VStr (se_hash_algorithm e));
  (lit "key_id", VStr (se_key_id e));
  (lit "node_id", VStr (se_node_id e));
  (lit "previous_event_hash", VStr (se_previous_event_hash e));
  (lit "sequence", VInt (se_sequence e));
  (lit "signature", VStr (se_signature e));
  (lit "signature_algorithm", VStr (se_signature_algorithm e));
  (lit "timestamp", VStr (se_timestamp e))].

Lemma normal_to_dict e :
  normal true (to_dict e) = VDict (as_dict (sorted_items e (normal true (VDict (se_event e))))).
Proof.
  reflexivity.
Qed.

Lemma depth_normal v : forall n, depth n (normal true v) = depth n v.
Proof.
  induction v as [| b | z | f | s | b | t | l IH | l IH | d IH] using value_nested_ind; intros n; try done.
  - simpl. destruct l as [|x l]; [done|]. apply Forall_cons in IH as [Hx IH]. simpl. rewrite Hx. f_equal.
    rewrite map_map. f_equal. apply map_ext_Forall. eapply Forall_impl; [exact IH|]. auto.
  - simpl. destruct l as [|x l]; [done|]. apply Forall_cons in IH as [Hx IH]. simpl. rewrite Hx. f_equal.
    rewrite map_map. f_equal. apply map_ext_Forall. eapply Forall_impl; [exact IH|]. auto.
  - destruct (normal_dict d) as (d' & -> & P). destruct d as [|kv d].
    + symmetry in P. apply Permutation_nil in P. subst. done.
    + destruct d' as [|kv' d']; [by apply Permutation_nil in P|]. cbn [depth].
      rewrite (list_max_perm _ _ (Permutation_map (fun kv : key * value => depth (S n) kv.2) P)), map_map. f_equal.
      apply map_ext_Forall. eapply Forall_impl; [exact IH|]. intros x Hx. apply Hx.
Qed.

Lemma validate_event_normal d : pyval (VDict d) = true -> validate_event (VDict d) = Ok d ->
  validate_event (VDict (normal_event d)) = Ok (normal_event d).
Proof.
  intros Hp (_ & b & Hb & Hs & Hd)%validate_event_inv.
  pose proof (canonical_bytes_inv _ _ Hp Hb) as Ha. unfold validate_event.
  rewrite <- normal_event_eq, check_acceptable, canonical_bytes_normal, Hb by auto using acceptable_normal.
  rewrite depth_normal. cbn [try_with mbind res_bind]. unfold require_as, require_, require.
  apply Z.leb_le in Hs. apply Nat.leb_le in Hd. rewrite Hs, Hd. done.
Qed.

Lemma supported_str_ok s l r : str_in s l = true -> supported_str (VStr s) l r = Ok s.
Proof. intros H. simpl. unfold require_as, require. by rewrite H. Qed.

Lemma parse_normal e max_bytes b : event_ok e -> pyval (VDict (se_event e)) = true ->
  canonical_bytes (normal true (to_dict e)) = Ok b -> zlen b <= max_bytes ->
  parse_signed_event (normal true (to_dict e)) max_bytes true = Ok (with_event e (normal_event (se_event e))).
Proof.
  intros [] Hp Hb Hm. rewrite normal_to_dict, normal_event_eq in *.
  set (D := as_dict (sorted_items e (VDict (normal_event (se_event e))))) in *.
  unfold parse_signed_event.
  assert (check_unknown D = Ok tt) as -> by (vm_compute; reflexivity).
  assert (missing ENVELOPE_FIELDS D = []) as -> by (vm_compute; reflexivity).
  assert (dict_get D (lit "signature") = Some (VStr (se_signature e))) as -> by (vm_compute; reflexivity).
  assert (field D "format_version" = Ok (VStr (se_format_version e))) as -> by (vm_compute; reflexivity).
  assert (field D "signature_algorithm" = Ok (VStr (se_signature_algorithm e))) as -> by (vm_compute; reflexivity).
  assert (field D "hash_algorithm" = Ok (VStr (se_hash_algorithm e))) as -> by (vm_compute; reflexivity).
  assert (field D "timestamp" = Ok (VStr (se_timestamp e))) as -> by (vm_compute; reflexivity).
  assert (field D "event" = Ok (VDict (normal_event (se_event e)))) as -> by (vm_compute; reflexivity).
  assert (field D "node_id" = Ok (VStr (se_node_id e))) as -> by (vm_compute; reflexivity).
  assert (field D "sequence" = Ok (VInt (se_sequence e))) as -> by (vm_compute; reflexivity).
  assert (field D "previous_event_hash" = Ok (VStr (se_previous_event_hash e))) as -> by (vm_compute; reflexivity).
  assert (field D "event_hash" = Ok (VStr (se_event_hash e))) as -> by (vm_compute; reflexivity).
  assert (field D "key_id" = Ok (VStr (se_key_id e))) as -> by (vm_compute; reflexivity).
  change (default (VStr []) (Some (VStr (se_signature e)))) with (VStr (se_signature e)).
  cbn [mbind res_bind]. unfold require_ at 1. cbn [require bool_decide].
  rewrite !supported_str_ok by done. cbn [mbind res_bind].
  unfold recanon at 1. rewrite ok_timestamp0. cbn [try_with mbind res_bind].
  unfold require_ at 1. rewrite str_eqb_refl. cbn [require mbind res_bind]. rewrite ok_signature0.
  cbn [mbind res_bind]. unfold size_guard. rewrite validate_event_normal by done.
  cbn [mbind res_bind]. unfold recanon at 1. rewrite Hb. cbn [try_with mbind res_bind].
  unfold require_as at 1. apply Z.leb_le in Hm. rewrite Hm. cbn [require mbind res_bind].
  rewrite ok_node0, ok_sequence0, ok_previous0, ok_event_hash0, ok_key0. done.
Qed.

Lemma pyval_event e : pyval (to_dict e) = true -> pyval (VDict (se_event e)) = true.
Proof.
  intros H. apply pyval_dict in H as [H _]. rewrite Forall_forall in H.
  apply (H (KStr (lit "event"), VDict (se_event e))). apply list_elem_of_In. simpl. tauto.
Qed.

(** What an evidence line is. *)
Lemma json_line_text e b : pyval (to_dict e) = true -> canonical_bytes (to_dict e) = Ok b ->
  let text := dump canonical_cfg 0 (to_dict e) in
  wf (to_dict e) = true /\ (nesting (to_dict e) <= S MAX_DEPTH)%nat /\
  to_json_line e = Ok text /\ utf8_encode text = Ok b /\ utf8_decode b = Ok text.
Proof.
  intros Hp Hb text. destruct (canonical_bytes_outcome _ Hp) as [(Ha & b' & E & U)|(_ & m & E)]; [|congruence].
  assert (b' = b) as -> by congruence. destruct (acceptable_nesting _ Hp Ha) as [Hw Hn].
  pose proof (utf8_decode_encode _ _ (wf_cp _ 0 Hw) U) as D.
  split_and!; try done. unfold to_json_line. by rewrite Hb.
Qed.

Lemma line_parses e b max_bytes lim : event_ok e -> pyval (to_dict e) = true -> canonical_bytes (to_dict e) = Ok b ->
  zlen b <= max_bytes -> (S MAX_DEPTH <= lim)%nat ->
  parse_signed_event_json lim (TStr (dump canonical_cfg 0 (to_dict e))) max_bytes true =
    Ok (with_event e (normal_event (se_event e))).
Proof.
  intros Hok Hp Hb Hm Hl. destruct (json_line_text e b Hp Hb) as (Hw & Hn & _ & U & D).
  unfold parse_signed_event_json. cbn [raw_of]. rewrite U. cbn [try_with mbind res_bind].
  unfold require_as, require. pose proof Hm as Hm'. apply Z.leb_le in Hm'. rewrite Hm'. cbn [mbind res_bind].
  rewrite D. cbn [try_with mbind res_bind].
  rewrite (loads_dump canonical_cfg evidence_hooks) by (done || lia). change (c_sort canonical_cfg) with true. cbn [try_with mbind res_bind].
  apply (parse_normal e max_bytes b); [done | by apply pyval_event | | done].
  rewrite canonical_bytes_normal; [done|]. by apply (canonical_bytes_inv _ b).
Qed.

(** Round trip: the line an envelope serialises to parses back, as text, to the same
    envelope (the event's keys sorted), for every valid envelope within the size limit and
    a reader that allows 33 levels of nesting. *)
Theorem to_json_line_parses (e : SignedEvent) (text : str) (b : bytes) (max_bytes : Z) (lim : nat)
  (Hok : event_ok e) (Hp : pyval (to_dict e) = true)
  (Ht : to_json_line e = Ok text) (Hb : canonical_bytes (to_dict e) = Ok b)
  (Hm : zlen b <= max_bytes) (Hl : (S MAX_DEPTH <= lim)%nat) :
  parse_signed_event_json lim (TStr text) max_bytes true =
    Ok (with_event e (normal_event (se_event e))).
Proof.
  destruct (json_line_text e b Hp Hb) as (_ & _ & Ht' & _). rewrite Ht in Ht'. injection Ht' as ->.
  by apply (line_parses e b).
Qed.

(** *** Failures *)
Definition text_range (t : text_input) : Prop :=
  match t with TStr s => cps s = true | TBytes b => Bytes b end.

Lemma cps_Forall s : cps s = true <-> Forall (fun c => 0 <= c <= 0x10FFFF) s.
Proof.
  unfold cps. rewrite forallb_Forall. split; intros F; (eapply Forall_impl; [exact F|]); intros c;
    cbv beta; rewrite andb_true_iff, !Z.leb_le; done.
Qed.

Lemma decode_cps t raw s : text_range t -> raw_of t = Ok raw -> utf8_decode raw = Ok s -> cps s = true.
Proof.
  intros Ht Hr Hd. apply cps_Forall. destruct t as [s'|b]; simpl in *.
  - unfold try_with in Hr. destruct (utf8_encode s') as [r|] eqn:E; [|done]. injection Hr as ->.
    apply cps_Forall in Ht. rewrite (utf8_decode_encode _ _ Ht E) in Hd. by injection Hd as <-.
  - injection Hr as ->. by eapply utf8_decode_range.
Qed.

(** A decoded document is a Python value without what [json] cannot print. *)
Lemma decoded_pyval v : decoded v = true -> pyval v = true /\ dump_check v = Ok tt.
Proof.
  induction v as [| b | z | f | s | b | t | l IH | l IH | d IH] using value_nested_ind; intros H; try done.
  - simpl in *. unfold int_str. bool_prop. by zdec.
  - simpl in *. apply forallb_Forall in H. rewrite Forall_forall in *. split.
    + apply forallb_Forall, Forall_forall. intros x Hx. by apply IH; [|apply H].
    + apply iter_res_ok, Forall_forall. intros x Hx. by apply IH; [|apply H].
  - apply decoded_dict in H as [F Hn]. rewrite Forall_forall in *. split.
    + apply pyval_dict. split; [|done]. apply Forall_forall. intros [[k|t] v] Hx; destruct (F _ Hx) as [Hk Hv]; [|done].
      split; [exact Hk | by apply (IH _ Hx)].
    + simpl. apply iter_res_ok, Forall_forall. intros [[k|t] v] Hx; destruct (F _ Hx) as [Hk Hv]; [|done].
      by apply (IH _ Hx).
Qed.

Lemma decoded_get d k v : decoded (VDict d) = true -> dict_get d k = Some v -> decoded v = true.
Proof.
  intros [F _]%decoded_dict H%dict_get_elem. rewrite Forall_forall in F. by apply (F _ H).
Qed.

Definition evidence_err (e : exn) : Prop := exists r m, e = EvidenceValidationError r m.
Definition only_evidence {A} (m : res A) : Prop :=
  match m with Ok _ => True | Err e => evidence_err e end.

Lemma only_require c r m : only_evidence (require_as c r m).
Proof. unfold require_as, require. destruct c; [done|]. by do 2 eexists. Qed.
Lemma only_malformed {A} m : only_evidence (A := A) (Err (malformed m)).
Proof. by do 2 eexists. Qed.
Lemma only_bind {A B} (m : res A) (f : A -> res B) :
  only_evidence m -> (forall a, m = Ok a -> only_evidence (f a)) -> only_evidence (m ≫= f).
Proof. destruct m; simpl; auto. Qed.

Ltac only_ev := repeat first
  [ exact I | apply only_malformed | apply only_require
  | apply only_bind; [apply only_require | intros ? _] ].

Lemma only_identifier v : only_evidence (validate_identifier v).
Proof. unfold validate_identifier; destruct v; only_ev. Qed.
Lemma only_hash v : only_evidence (validate_hash v).
Proof. unfold validate_hash; destruct v; only_ev. Qed.
Lemma only_sequence v : only_evidence (validate_sequence v).
Proof. unfold validate_sequence; destruct v; only_ev. Qed.
Lemma only_supported v l r : only_evidence (supported_str v l r).
Proof. unfold supported_str; destruct v; only_ev. Qed.

Lemma b64decode_err s e : b64decode s = Err e -> exists m, e = ValueError m.
Proof.
  unfold b64decode. intros H. repeat case_match; simplify_eq; eauto.
Qed.

Lemma only_signature v : only_evidence (validate_signature v).
Proof.
  unfold validate_signature; destruct v; try apply only_malformed. apply only_bind; [apply only_require | intros ? _].
  apply only_bind.
  - unfold try_with. destruct (b64decode s) as [|e] eqn:E; [done|]. apply b64decode_err in E as [m ->].
    apply only_malformed.
  - intros ? _. apply only_bind; [apply only_require | done].
Qed.

Lemma only_event v : decoded v = true -> only_evidence (validate_event v).
Proof.
  intros Hd. destruct v as [| | | | | | | |d|]; try apply only_malformed. unfold validate_event.
  destruct (decoded_pyval _ Hd) as [Hp Hc].
  destruct (check_canonicalizable (VDict d)) as [[]|e] eqn:E.
  - cbn [try_with mbind res_bind].
    destruct (check_wf _ _ Hp E Hc) as [Hw _]. destruct (check_elim _ _ E) as [Hh Hs].
    rewrite canonical_bytes_acceptable by (by apply acceptable_spec). cbn [mbind res_bind].
    repeat (apply only_bind; [apply only_require | intros ? _]). done.
  - apply check_error in E as [m ->]. apply only_malformed.
Qed.

Lemma only_recanon_canonical v : pyval v = true -> only_evidence (recanon (canonical_bytes v)).
Proof.
  intros Hp. destruct (canonical_bytes_outcome v Hp) as [(_ & b & -> & _)|(_ & m & ->)]; [done|].
  apply only_malformed.
Qed.

Lemma missing_field d k : missing ENVELOPE_FIELDS d = [] -> str_in (lit k) ENVELOPE_FIELDS = true ->
  exists v, dict_get d (lit k) = Some v /\ field d k = Ok v.
Proof.
  intros Hm Hk. apply filter_nil_Forall in Hm. rewrite Forall_forall in Hm. apply str_in_elem in Hk.
  specialize (Hm _ Hk). unfold field. destruct (dict_get d (lit k)) as [v|]; [eauto | done].
Qed.

(** Evidence errors, and the one exception normalisation lets through. *)
Definition only_overflow {A} (m : res A) : Prop :=
  match m with Ok _ => True | Err e => evidence_err e \/ e = OverflowError end.

Lemma only_weaken {A} (m : res A) : only_evidence m -> only_overflow m.
Proof. destruct m; simpl; auto. Qed.
Lemma over_bind {A B} (m : res A) (f : A -> res B) :
  only_overflow m -> (forall a, m = Ok a -> only_overflow (f a)) -> only_overflow (m ≫= f).
Proof. destruct m; simpl; auto. Qed.

Lemma over_timestamp v : only_overflow (recanon (normalize_timestamp v)).
Proof.
  destruct (normalize_timestamp v) as [t|e] eqn:E; [done|].
  destruct (normalize_timestamp_errors _ _ E) as [[m ->]|[-> _]]; [left; by do 2 eexists | by right].
Qed.

Lemma only_unknown d : decoded (VDict d) = true -> only_evidence (check_unknown d).
Proof.
  intros Hd. unfold check_unknown. cbv zeta. destruct (existsb is_kstr _ && _) eqn:E; [|apply only_require].
  exfalso. apply andb_true_iff in E as [_ Ho].
  apply existsb_exists in Ho as (k & Hk & Hk2). apply filter_In in Hk as [Hk _].
  apply in_map_iff in Hk as (kv & <- & Hk). apply decoded_dict in Hd as [F _].
  rewrite Forall_forall in F. destruct (F kv ltac:(by apply list_elem_of_In)) as [Hc _].
  by destruct (kv.1).
Qed.

Lemma parse_err data max_bytes : decoded data = true ->
  only_overflow (parse_signed_event data max_bytes true).
Proof.
  intros Hd. destruct data as [| | | | | | | |d|]; try apply only_weaken, only_malformed.
  unfold parse_signed_event. cbv zeta.
  apply over_bind; [by apply only_weaken, only_unknown | intros _ _].
  apply over_bind; [apply only_weaken, only_require | intros ? Hm].
  apply (proj1 (require_ok _ _ _)) in Hm. apply bool_decide_eq_true in Hm.
  assert (forall k, str_in (lit k) ENVELOPE_FIELDS = true -> forall B (f : value -> res B),
    (forall v, dict_get d (lit k) = Some v -> only_overflow (f v)) -> only_overflow (field d k ≫= f)) as F.
  { intros k Hk B f Hf. destruct (missing_field d k Hm Hk) as (v & Hg & ->). by apply Hf. }
  do 3 (apply F; [vm_compute; reflexivity | intros ? _];
        apply over_bind; [apply only_weaken, only_supported | intros ? _]).
  apply F; [vm_compute; reflexivity | intros ? _]. apply over_bind; [apply over_timestamp | intros ? _].
  apply over_bind; [apply only_weaken, only_require | intros ? _].
  apply over_bind; [apply only_weaken, only_signature | intros ? _].
  apply F; [vm_compute; reflexivity | intros ev Hev].
  apply over_bind.
  { apply only_weaken. unfold size_guard.
    apply only_bind; [by apply only_event, (decoded_get d (lit "event")) | intros ? _].
    apply only_bind; [by apply only_recanon_canonical, decoded_pyval | intros ? _]. only_ev. }
  intros ? _. apply F; [vm_compute; reflexivity | intros ? _].
  apply over_bind; [apply only_weaken, only_identifier | intros ? _].
  apply F; [vm_compute; reflexivity | intros ? _]. apply over_bind; [apply only_weaken, only_sequence | intros ? _].
  do 2 (apply F; [vm_compute; reflexivity | intros ? _]; apply over_bind; [apply only_weaken, only_hash | intros ? _]).
  apply F; [vm_compute; reflexivity | intros ? _].
  apply over_bind; [apply only_weaken, only_identifier | intros ? _]. done.
Qed.

Lemma evidence_loads_res lim s : cps s = true ->
  match loads evidence_hooks lim s with
  | Ok v => decoded v = true
  | Err e => scan_err (fun e => e = malformed "duplicate JSON key" \/ e = malformed "non-JSON constant") e
  end.
Proof.
  apply loads_res.
  - intros ps F. simpl. unfold reject_duplicate_keys. destruct (has_duplicate [] ps); [by left|].
    by apply dict_of_pairs_decoded.
  - intros c. simpl. by right.
Qed.

(** Parsing untrusted text or bytes always terminates and fails only with
    [EvidenceValidationError] - whatever the input, nesting and size - with one exception the
    code does not intend: [OverflowError], from a timestamp at the edge of the calendar. *)
Theorem parse_signed_event_json_errors (lim : nat) (t : text_input) (max_bytes : Z) (e : exn)
  (Ht : text_range t) (H : parse_signed_event_json lim t max_bytes true = Err e) :
  evidence_err e \/ e = OverflowError.
Proof.
  enough (only_overflow (parse_signed_event_json lim t max_bytes true)) as O by (by rewrite H in O).
  clear H. unfold parse_signed_event_json.
  apply over_bind.
  { destruct t; simpl; [|done]. unfold try_with. case_match; [done|]. apply only_weaken, only_malformed. }
  intros raw Hr. apply over_bind; [apply only_weaken, only_require | intros _ _].
  apply over_bind; [unfold try_with; case_match; [done|]; apply only_weaken, only_malformed|].
  intros s Hs. assert (utf8_decode raw = Ok s) as Hs' by (unfold try_with in Hs; case_match; [done | done]).
  pose proof (evidence_loads_res lim s (decode_cps t raw s Ht Hr Hs')) as R.
  apply over_bind; [|intros v Hv; destruct (loads evidence_hooks lim s) as [v'|e'] eqn:E; simpl in Hv].
  - destruct (loads evidence_hooks lim s); [done|]. simpl.
    destruct R as [->|[->|[[m ->]|[->| ->]]]]; apply only_weaken, only_malformed.
  - injection Hv as ->. by apply parse_err.
  - by destruct e'.
Qed.

(** What parsing accepts is a valid envelope of Python values. *)
Lemma parse_pyval data max_bytes e : pyval data = true -> parse_signed_event data max_bytes true = Ok e ->
  event_ok e /\ pyval (to_dict e) = true.
Proof.
  intros Hv H. destruct (parse_inv _ _ _ H) as (Hok & d & b & -> & Hk & Hg & _). split; [done|].
  apply pyval_dict in Hv as [Hp Hn]. pose proof (dict_is_envelope d e Hn Hk Hg) as P.
  apply pyval_dict. split; [by rewrite <- P | unfold keys in *; by rewrite <- P].
Qed.

Lemma parse_json_inv lim t max_bytes e : text_range t -> parse_signed_event_json lim t max_bytes true = Ok e ->
  event_ok e /\ pyval (to_dict e) = true.
Proof.
  unfold parse_signed_event_json. intros Ht H. inv_req. unfold try_with in *.
  destruct (utf8_decode _) as [s|] eqn:Hs; inv_req.
  match goal with Hr : raw_of t = Ok ?raw |- _ => pose proof (evidence_loads_res lim _ (decode_cps t raw _ Ht Hr Hs)) as R end.
  destruct (loads evidence_hooks lim _) as [v|e'] eqn:E; [|by destruct e']. inv_req.
  eapply parse_pyval; [by apply decoded_pyval | eassumption].
Qed.

(** ** Witnesses *)
Definition sample_line (timestamp : string) : str := jlit (
  "{'format_version':'1.0','node_id':'n1','sequence':1,'timestamp':'" ++ timestamp ++
  "','previous_event_hash':'0123456789abcdef0123456789abcdef0123456789abcdef0123456789abcdef','event_hash':" ++
  "'fedcba9876543210fedcba9876543210fedcba9876543210fedcba9876543210','event':{'b':1,'a':['x',null]}," ++
  "'signature_algorithm':'ML-DSA-65','hash_algorithm':'SHA3-256','key_id':'k1','signature':'QUJD'}").

Definition sample_value : value :=
  match loads evidence_hooks 40 (sample_line "2026-08-05T18:15:00.000000Z") with Ok v => v | Err _ => VNone end.

Definition sample_event : SignedEvent := {|
  se_format_version := lit "1.0"; se_node_id := lit "n1"; se_sequence := 1;
  se_timestamp := lit "2026-08-05T18:15:00.000000Z";
  se_previous_event_hash := lit "0123456789abcdef0123456789abcdef0123456789abcdef0123456789abcdef";
  se_event_hash := lit "fedcba9876543210fedcba9876543210fedcba9876543210fedcba9876543210";
  se_event := as_dict [(lit "b", VInt 1); (lit "a", VList [VStr (lit "x"); VNone])];
  se_signature_algorithm := lit "ML-DSA-65"; se_hash_algorithm := lit "SHA3-256"; se_key_id := lit "k1";
  se_signature := lit "QUJD"; se_signature_bytes := lit "ABC" |}.

Example sample_parses :
  parse_signed_event_json 40 (TStr (sample_line "2026-08-05T18:15:00.000000Z")) MAX_EVIDENCE_BYTES true = Ok sample_event.
Proof. vm_compute. reflexivity. Qed.

Lemma parse_signed_event_sound_witness :
  parse_signed_event sample_value MAX_EVIDENCE_BYTES true = Ok sample_event /\
  normal true sample_value = normal true (to_dict sample_event).
Proof.
  assert (parse_signed_event sample_value MAX_EVIDENCE_BYTES true = Ok sample_event) as H by (vm_compute; reflexivity).
  split; [exact H|].
  exact (proj1 (proj2 (parse_signed_event_sound sample_value MAX_EVIDENCE_BYTES sample_event
    ltac:(vm_compute; reflexivity) H))).
Defined.

Lemma to_json_line_parses_witness : exists text,
  to_json_line sample_event = Ok text /\
  parse_signed_event_json 40 (TStr text) MAX_EVIDENCE_BYTES true =
    Ok (with_event sample_event (as_dict [(lit "a", VList [VStr (lit "x"); VNone]); (lit "b", VInt 1)])).
Proof.
  destruct (to_json_line sample_event) as [text|] eqn:E; [|vm_compute in E; discriminate E].
  destruct (canonical_bytes (to_dict sample_event)) as [b|] eqn:Eb; [|vm_compute in Eb; discriminate Eb].
  exists text. split; [reflexivity|].
  apply (to_json_line_parses sample_event text b MAX_EVIDENCE_BYTES 40).
  - split; vm_compute; reflexivity.
  - vm_compute; reflexivity.
  - exact E.
  - exact Eb.
  - vm_compute in Eb. injection Eb as <-. vm_compute. discriminate.
  - unfold MAX_DEPTH. lia.
Defined.

Lemma parse_signed_event_json_errors_witness :
  parse_signed_event_json 40 (TStr (sample_line "0001-01-01T00:00:00+01:00")) MAX_EVIDENCE_BYTES true = Err OverflowError /\
  (evidence_err OverflowError \/ OverflowError = OverflowError).
Proof.
  assert (parse_signed_event_json 40 (TStr (sample_line "0001-01-01T00:00:00+01:00")) MAX_EVIDENCE_BYTES true
    = Err OverflowError) as H by (vm_compute; reflexivity).
  split; [exact H|].
  exact (parse_signed_event_json_errors 40 (TStr (sample_line "0001-01-01T00:00:00+01:00")) MAX_EVIDENCE_BYTES
    OverflowError ltac:(vm_compute; reflexivity) H).
Defined.

(** Two different signature texts can carry the same signature: the strict decoding
    ignores the unused bits of a padded quantum and padding behind a complete one, so the
    text of a valid envelope's signature is malleable. *)
Theorem validate_signature_malleable :
  exists s1 s2 s3 s4 b, NoDup [s1; s2; s3; s4] /\
    validate_signature (VStr s1) = Ok (b ++ b) /\ validate_signature (VStr s2) = Ok (b ++ b) /\
    validate_signature (VStr s3) = Ok (b ++ b ++ b) /\ validate_signature (VStr s4) = Ok (b ++ b ++ b) /\
    s1 <> s2 /\ s3 <> s4.
Proof.
  exists (lit "QUE="), (lit "QUF="), (lit "QUFB"), (lit "QUFB="), (lit "A").
  split; [apply (bool_decide_eq_true_1 _); vm_compute; reflexivity|].
  split_and!; vm_compute; done.
Qed.

(** What the identifier pattern accepts. *)
Lemma id_match_shape s : id_match s = true ->
  exists c body, is_alnum c = true /\ forallb is_id_char body = true /\ zlen body <= 127 /\
    (s = c :: body \/ s = c :: body ++ [10]).
Proof.
  intros Hm.
  destruct s as [|c r]; [done|]. cbn [id_match] in Hm. bool_prop.
  exists c, (fst (span is_id_char r)).
  assert (forall r, r = fst (span is_id_char r) ++ snd (span is_id_char r) /\
                    forallb is_id_char (fst (span is_id_char r)) = true) as S.
  { clear. induction r as [|x r [IH1 IH2]]; [done|]. simpl. destruct (is_id_char x) eqn:E; [|done].
    simpl. rewrite E, IH2. split; [by f_equal | done]. }
  destruct (S r) as [Er Hr]. split_and!; [done..|].
  unfold dollar in *. destruct (snd (span is_id_char r)) as [|x [|]] eqn:Es.
  - left. rewrite app_nil_r in Er. by f_equal.
  - right. destruct (Z.eq_dec x 10) as [->|]; [by f_equal|].
    exfalso. destruct x as [|p|p]; try done. do 4 (destruct p as [p|p|]; try done).
  - exfalso. destruct x as [|p|p]; try done. do 4 (destruct p as [p|p|]; try done).
Qed.

(** An identifier documented as printable and filesystem-safe may end with a newline:
    the pattern's [$] also matches there.  Apart from that final newline every accepted
    identifier is 1 to 128 letters, digits, dots, underscores, colons and dashes, starting
    with a letter or digit. *)
Theorem validate_identifier_charset (v : value) (s : str) (H : validate_identifier v = Ok s) :
  v = VStr s /\ exists c body, is_alnum c = true /\ forallb is_id_char body = true /\ zlen body <= 127 /\
    (s = c :: body \/ s = c :: body ++ [10]).
Proof.
  apply validate_identifier_inv in H as (-> & Hm & _). split; [done|]. by apply id_match_shape.
Qed.

Lemma validate_identifier_charset_witness :
  validate_identifier (VStr (lit "n" ++ [10])) = Ok (lit "n" ++ [10]) /\
  exists c body, is_alnum c = true /\ forallb is_id_char body = true /\ zlen body <= 127 /\
    (lit "n" ++ [10] = c :: body \/ lit "n" ++ [10] = c :: body ++ [10]).
Proof.
  assert (validate_identifier (VStr (lit "n" ++ [10])) = Ok (lit "n" ++ [10])) as H by (vm_compute; reflexivity).
  split; [exact H | exact (proj2 (validate_identifier_charset (VStr (lit "n" ++ [10])) (lit "n" ++ [10]) H))].
Defined.
