(* ===== verification/CryptoBackend.v ===== *)
(** The cryptographic backend abstraction and its selection by capability:
    [src/ics_deception/pqc_evidence/crypto_backend.py].

    A backend is a record of operations.  The deterministic test backend is the
    program's own code and is modelled as it is (HMAC-SHA3-256); the portable backend
    wraps the third-party packages [dilithium-py] and [kyber-py], which are arguments. *)
From S2P Require Import Prelude PyText Hashes Models.

Definition PYFIPS_BACKEND : str := lit "pyfips".
Definition TEST_BACKEND : str := lit "insecure-test-only".
Definition OPENSSL_BACKEND : str := lit "openssl".
Definition TEST_KEY_MARKER : bytes := lit "INSECURE-TEST-ONLY-KEY-DO-NOT-USE".
Definition ML_DSA_ALGORITHMS : list str := [lit "ML-DSA-44"; lit "ML-DSA-65"; lit "ML-DSA-87"].
Definition ML_KEM_ALGORITHMS : list str := [lit "ML-KEM-512"; lit "ML-KEM-768"; lit "ML-KEM-1024"].
Definition PREFERENCE : list str := [OPENSSL_BACKEND; PYFIPS_BACKEND].

(** [BackendUnavailableError] is a [BackendError]. *)
Definition is_backend_error (e : exn) : bool :=
  match e with BackendError _ _ | BackendUnavailableError _ => true | _ => false end.

Record Capabilities := {
  cap_name : str;
  cap_available : bool;
  cap_signature_algorithms : list str;
  cap_kem_algorithms : list str;
  cap_real_pqc : bool;
}.

Definition supports_signature (c : Capabilities) (algorithm : str) : bool :=
  cap_available c && str_in algorithm (cap_signature_algorithms c).
Definition supports_kem (c : Capabilities) (algorithm : str) : bool :=
  cap_available c && str_in algorithm (cap_kem_algorithms c).

Record KeyPair := { kp_algorithm : str; kp_public : bytes; kp_private : bytes; kp_backend : str }.

(** [CryptoBackend]: randomness ([secrets.token_bytes]) is an argument. *)
Record CryptoBackend := {
  bk_name : str;
  bk_capabilities : Capabilities;
  bk_generate_keypair : bytes -> str -> res KeyPair;
  bk_sign : bytes -> bytes -> str -> res bytes;
  bk_verify : bytes -> bytes -> bytes -> str -> res bool;
  bk_kem_generate_keypair : bytes -> str -> res KeyPair;
  bk_kem_encapsulate : bytes -> bytes -> str -> res (bytes * bytes);
  bk_kem_decapsulate : bytes -> bytes -> str -> res bytes;
}.

(** The process environment the selection reads. *)
Record Environ := {
  env_backend : str;      (* ICS_PQC_BACKEND, empty when unset *)
  env_production : str;   (* ICS_PQC_PRODUCTION, empty when unset *)
}.

Definition production_mode (env : Environ) : bool :=
  str_in (strip (env_production env)) (map lit ["1"; "true"; "yes"; "on"]%string).

(** ** The insecure test backend *)
Section TestBackend.
Context (env : Environ).

Definition test_guard : res unit :=
  if production_mode env then Err (BackendUnavailableError "the insecure test backend is disabled") else Ok tt.

Definition test_capabilities : Capabilities := {|
  cap_name := TEST_BACKEND; cap_available := negb (production_mode env);
  cap_signature_algorithms := ML_DSA_ALGORITHMS; cap_kem_algorithms := ML_KEM_ALGORITHMS;
  cap_real_pqc := false |}.

Definition test_generate_keypair (rand : bytes) (algorithm : str) : res KeyPair :=
  test_guard ;;
  let seed := TEST_KEY_MARKER ++ lit "-" ++ rand in
  Ok {| kp_algorithm := algorithm; kp_public := seed; kp_private := seed; kp_backend := TEST_BACKEND |}.

Definition test_sign (private message : bytes) (algorithm : str) : res bytes :=
  test_guard ;; Ok (hmac_sha3_256 private message).

Definition test_verify (public message signature : bytes) (algorithm : str) : res bool :=
  test_guard ;; Ok (str_eqb (hmac_sha3_256 public message) signature).

Definition test_kem_generate_keypair (rand : bytes) (algorithm : str) : res KeyPair :=
  test_guard ;;
  let seed := TEST_KEY_MARKER ++ lit "-kem-" ++ rand in
  Ok {| kp_algorithm := algorithm; kp_public := seed; kp_private := seed; kp_backend := TEST_BACKEND |}.

Definition test_kem_encapsulate (rand public : bytes) (algorithm : str) : res (bytes * bytes) :=
  test_guard ;; Ok (sha3_256 (public ++ rand), rand).

Definition test_kem_decapsulate (private ciphertext : bytes) (algorithm : str) : res bytes :=
  test_guard ;; Ok (sha3_256 (private ++ ciphertext)).

Definition InsecureTestBackend : CryptoBackend := {|
  bk_name := TEST_BACKEND; bk_capabilities := test_capabilities;
  bk_generate_keypair := test_generate_keypair; bk_sign := test_sign; bk_verify := test_verify;
  bk_kem_generate_keypair := test_kem_generate_keypair;
  bk_kem_encapsulate := test_kem_encapsulate; bk_kem_decapsulate := test_kem_decapsulate |}.
End TestBackend.

(** ** The portable backend over [dilithium-py] and [kyber-py] *)
Record SigImpl := {
  si_keygen : bytes -> bytes * bytes;
  si_sign : bytes -> bytes -> res bytes;
  si_verify : bytes -> bytes -> bytes -> res bool;
}.
Record KemImpl := {
  ki_keygen : bytes -> bytes * bytes;
  ki_encaps : bytes -> bytes -> res (bytes * bytes);
  ki_decaps : bytes -> bytes -> res bytes;
}.

Definition assoc {A} (l : list (str * A)) (k : str) : option A :=
  snd <$> List.find (fun p => str_eqb k p.1) l.

Section PyFips.
(** The importable modules: [None] when the package is missing. *)
Context (sigs : option (list (str * SigImpl))) (kems : option (list (str * KemImpl))).

Definition pyfips_capabilities : Capabilities := {|
  cap_name := PYFIPS_BACKEND;
  cap_available := match sigs with Some _ => true | None => false end;
  cap_signature_algorithms := match sigs with Some l => map fst l | None => [] end;
  cap_kem_algorithms := match kems with Some l => map fst l | None => [] end;
  cap_real_pqc := true |}.

Definition pyfips_impl {A} (l : option (list (str * A))) (algorithm : str) : res A :=
  match l with
  | None => Err (BackendUnavailableError "package is not installed")
  | Some l => match assoc l algorithm with
              | None => Err (BackendError "unsupported_algorithm" "not supported")
              | Some i => Ok i
              end
  end.

Definition pyfips_generate_keypair (rand : bytes) (algorithm : str) : res KeyPair :=
  i ← pyfips_impl sigs algorithm;
  let '(pub, priv) := si_keygen i rand in
  Ok {| kp_algorithm := algorithm; kp_public := pub; kp_private := priv; kp_backend := PYFIPS_BACKEND |}.

Definition pyfips_sign (private message : bytes) (algorithm : str) : res bytes :=
  i ← pyfips_impl sigs algorithm;
  try_with (si_sign i private message) (fun _ => Err (BackendError "sign_failed" "ML-DSA signing failed")).

Definition pyfips_verify (public message signature : bytes) (algorithm : str) : res bool :=
  i ← pyfips_impl sigs algorithm;
  try_with (si_verify i public message signature) (fun _ => Ok false).

Definition pyfips_kem_generate_keypair (rand : bytes) (algorithm : str) : res KeyPair :=
  i ← pyfips_impl kems algorithm;
  let '(ek, dk) := ki_keygen i rand in
  Ok {| kp_algorithm := algorithm; kp_public := ek; kp_private := dk; kp_backend := PYFIPS_BACKEND |}.

Definition pyfips_kem_encapsulate (rand public : bytes) (algorithm : str) : res (bytes * bytes) :=
  i ← pyfips_impl kems algorithm;
  try_with (ki_encaps i rand public) (fun _ => Err (BackendError "kem_encapsulate_failed" "ML-KEM encapsulation failed")).

Definition pyfips_kem_decapsulate (private ciphertext : bytes) (algorithm : str) : res bytes :=
  i ← pyfips_impl kems algorithm;
  try_with (ki_decaps i private ciphertext) (fun _ => Err (BackendError "kem_decapsulate_failed" "ML-KEM decapsulation failed")).

Definition PyFipsBackend : CryptoBackend := {|
  bk_name := PYFIPS_BACKEND; bk_capabilities := pyfips_capabilities;
  bk_generate_keypair := pyfips_generate_keypair; bk_sign := pyfips_sign; bk_verify := pyfips_verify;
  bk_kem_generate_keypair := pyfips_kem_generate_keypair;
  bk_kem_encapsulate := pyfips_kem_encapsulate; bk_kem_decapsulate := pyfips_kem_decapsulate |}.
End PyFips.

(** ** Selection *)

(** [_build_registry]: the three backends under their names.  The OpenSSL backend drives
    an external executable and is an argument. *)
Definition build_registry (env : Environ) (openssl : CryptoBackend)
    (sigs : option (list (str * SigImpl))) (kems : option (list (str * KemImpl))) : list (str * CryptoBackend) :=
  [(OPENSSL_BACKEND, openssl); (PYFIPS_BACKEND, PyFipsBackend sigs kems); (TEST_BACKEND, InsecureTestBackend env)].

Section Selection.
Context (env : Environ) (registry : list (str * CryptoBackend)).

Definition get_backend (name : str) : res CryptoBackend :=
  match assoc registry name with
  | None => Err (BackendError "unknown_backend" "unknown crypto backend")
  | Some b => Ok b
  end.

Definition available_backends : list Capabilities :=
  omap (fun name => bk_capabilities <$> assoc registry name) (PREFERENCE ++ [TEST_BACKEND]).

Definition lstrip (b : bytes) : bytes := drop_while is_bspace b.

Definition detect_private_key_backend (private : bytes) : str :=
  if str_eqb (take 11 (lstrip private)) (lit "-----BEGIN ") then OPENSSL_BACKEND
  else if starts_with TEST_KEY_MARKER private then TEST_BACKEND
  else PYFIPS_BACKEND.

Definition unavailable {A} (m : string) : res A := Err (BackendUnavailableError m).

(** Does the backend qualify in the automatic search? *)
Definition qualifies (algorithm : str) (require_kem : option str) (c : Capabilities) : bool :=
  cap_available c && supports_signature c algorithm &&
  match require_kem with Some ((_ :: _) as k) => supports_kem c k | _ => true end.

(** The loop over [_PREFERENCE]. *)
Fixpoint search_preference (names : list str) (algorithm : str) (require_kem : option str) : res CryptoBackend :=
  match names with
  | [] => unavailable "no backend can provide the algorithm"
  | n :: names =>
    match assoc registry n with
    | None => Err KeyError
    | Some b => if qualifies algorithm require_kem (bk_capabilities b) then Ok b
                else search_preference names algorithm require_kem
    end
  end.

(** [name or os.environ.get(ENV_BACKEND) or None] *)
Definition requested (name : option str) : option str :=
  match name with
  | Some ((_ :: _) as n) => Some n
  | _ => match env_backend env with [] => None | n => Some n end
  end.

Definition select_backend (name : option str) (algorithm : str) (allow_test_backend : bool)
    (require_kem : option str) (for_private_key : option bytes) : res CryptoBackend :=
  match requested name, for_private_key with
  | None, Some ((_ :: _) as key) =>
    let detected := detect_private_key_backend key in
    if str_eqb detected TEST_BACKEND && negb allow_test_backend
    then unavailable "private key is marked INSECURE-TEST-ONLY"
    else
      backend ← get_backend detected;
      let c := bk_capabilities backend in
      if cap_available c && supports_signature c algorithm then Ok backend
      else unavailable "private key format's backend is unavailable"
  | Some r, _ =>
    backend ← get_backend r;
    if str_eqb r TEST_BACKEND && negb allow_test_backend then unavailable "test backend must be requested explicitly"
    else
      let c := bk_capabilities backend in
      if negb (cap_available c) then unavailable "backend is unavailable"
      else if negb (supports_signature c algorithm) then unavailable "backend does not support the algorithm"
      else if match require_kem with Some ((_ :: _) as k) => negb (supports_kem c k) | _ => false end
      then unavailable "backend does not support the KEM"
      else Ok backend
  | None, _ => search_preference PREFERENCE algorithm require_kem
  end.

Definition select_real_backend (algorithm : str) (kem : option str) (require_real_crypto : bool)
    (name : option str) : res CryptoBackend :=
  select_backend name algorithm (negb require_real_crypto) kem None.

Definition real_backends (algorithm : str) (kem : option str) : res (list CryptoBackend) :=
  l ← map_res (fun n => match assoc registry n with Some b => Ok b | None => Err KeyError end) PREFERENCE;
  Ok (List.filter (fun b => let c := bk_capabilities b in
        cap_available c && cap_real_pqc c && qualifies algorithm kem c) l).

(** The two summary fields of [describe_capabilities]. *)
Definition describe_capabilities : bool * option str :=
  let real := List.filter (fun c => cap_available c && cap_real_pqc c) available_backends in
  (negb (bool_decide (real = [])), cap_name <$> head real).
End Selection.

(** ** Facts *)
Lemma assoc_In {A} (l : list (str * A)) k a : assoc l k = Some a -> (k, a) ∈ l.
Proof.
  unfold assoc. destruct (List.find _ l) as [[k' a']|] eqn:E; [|done]. intros [= ->].
  apply find_some in E as [H E]. apply str_eqb_eq in E. simpl in E. subst. by apply list_elem_of_In.
Qed.

Section SelectionFacts.
Context (env : Environ) (openssl : CryptoBackend)
        (sigs : option (list (str * SigImpl))) (kems : option (list (str * KemImpl))).
Context (Hssl : bk_name openssl = OPENSSL_BACKEND).
Notation R := (build_registry env openssl sigs kems).

(** Every backend is registered under its own name. *)
Lemma registry_names n b : assoc R n = Some b -> bk_name b = n.
Proof.
  intros H%assoc_In. unfold build_registry in H.
  repeat (apply elem_of_cons in H as [H|H]; [injection H as -> ->; done|]). by apply elem_of_nil in H.
Qed.

(** What a selected backend can do. *)
Definition selected_ok (algorithm : str) (allow : bool) (b : CryptoBackend) : Prop :=
  cap_available (bk_capabilities b) = true /\ supports_signature (bk_capabilities b) algorithm = true /\
  (bk_name b = TEST_BACKEND -> allow = true).

Lemma search_ok names algorithm kem b allow : ~ TEST_BACKEND ∈ names ->
  search_preference R names algorithm kem = Ok b ->
  selected_ok algorithm allow b /\
  (forall k, kem = Some k -> k <> [] -> supports_kem (bk_capabilities b) k = true).
Proof.
  induction names as [|n names IH]; intros Hn H; [done|]. cbn [search_preference] in H.
  rewrite elem_of_cons in Hn. destruct (assoc R n) as [b'|] eqn:E; [|done].
  destruct (qualifies _ _ _) eqn:Q; [|apply IH; [tauto | done]].
  injection H as <-. unfold qualifies in Q. bool_prop. split; [split_and!; [done..|]|].
  - rewrite (registry_names _ _ E). intros ->. tauto.
  - intros [|x k] -> Hk; [done|]. done.
Qed.

Lemma select_inv name algorithm allow kem key b :
  select_backend env R name algorithm allow kem key = Ok b ->
  selected_ok algorithm allow b /\
  ((requested env name <> None \/ key = None \/ key = Some []) ->
   forall k, kem = Some k -> k <> [] -> supports_kem (bk_capabilities b) k = true).
Proof.
  intros H. unfold select_backend in H. destruct (requested env name) as [r|].
  - assert ((b' ← get_backend R r;
      if str_eqb r TEST_BACKEND && negb allow then unavailable "test backend must be requested explicitly"
      else if negb (cap_available (bk_capabilities b')) then unavailable "backend is unavailable"
      else if negb (supports_signature (bk_capabilities b') algorithm) then unavailable "backend does not support the algorithm"
      else if match kem with Some ((_ :: _) as k) => negb (supports_kem (bk_capabilities b') k) | _ => false end
      then unavailable "backend does not support the KEM" else Ok b') = Ok b) as H' by (by destruct key as [[|]|]).
    clear H. unfold get_backend in H'. destruct (assoc R r) as [b'|] eqn:E; [|done]. simpl in H'.
    destruct (str_eqb r TEST_BACKEND && negb allow) eqn:Ht; [done|].
    destruct (cap_available (bk_capabilities b')) eqn:Ha; [|done].
    destruct (supports_signature _ algorithm) eqn:Hs; [|done].
    destruct (match kem with Some ((_ :: _) as k) => _ | _ => _ end) eqn:Hk; [done|]. injection H' as <-.
    split; [split_and!; [done..|]|].
    + rewrite (registry_names _ _ E). intros ->. rewrite str_eqb_refl in Ht. by destruct allow.
    + intros _ [|x k] -> Hx; [done|]. by apply negb_false_iff in Hk.
  - destruct key as [[|x key]|].
    + destruct (search_ok PREFERENCE algorithm kem b allow) as [? ?]; [|done|auto].
      apply (bool_decide_eq_false_1 _). vm_compute. reflexivity.
    + destruct (str_eqb _ TEST_BACKEND && negb allow) eqn:Ht; [done|]. unfold get_backend in H.
      destruct (assoc R _) as [b'|] eqn:E; [|done]. simpl in H.
      destruct (cap_available _ && _) eqn:Q; [|done]. injection H as <-. apply andb_true_iff in Q as [? ?].
      split; [split_and!; [done..|]|].
      * rewrite (registry_names _ _ E). intros Heq. rewrite Heq, str_eqb_refl in Ht. by destruct allow.
      * intros [?|[?|?]]; done.
    + destruct (search_ok PREFERENCE algorithm kem b allow) as [? ?]; [|done|auto].
      apply (bool_decide_eq_false_1 _). vm_compute. reflexivity.
Qed.
End SelectionFacts.

(** Backend selection is safe: whatever the name, environment and key, a selected backend
    is available and supports the signature algorithm; the insecure test backend is selected
    only when the caller allows it and production mode is off; and the KEM the caller requires
    is supported - unless the backend was chosen by the format of a private key. *)
Theorem select_backend_safe (env : Environ) (openssl : CryptoBackend)
  (sigs : option (list (str * SigImpl))) (kems : option (list (str * KemImpl)))
  (name : option str) (algorithm : str) (allow : bool) (kem : option str) (key : option bytes) (b : CryptoBackend)
  (Hssl : bk_name openssl = OPENSSL_BACKEND)
  (H : select_backend env (build_registry env openssl sigs kems) name algorithm allow kem key = Ok b) :
  supports_signature (bk_capabilities b) algorithm = true /\
  (bk_name b = TEST_BACKEND -> allow = true /\ production_mode env = false) /\
  ((requested env name <> None \/ key = None \/ key = Some []) ->
   forall k, kem = Some k -> k <> [] -> supports_kem (bk_capabilities b) k = true).
Proof.
  destruct (select_inv env openssl sigs kems Hssl _ _ _ _ _ _ H) as [(Ha & Hs & Ht) Hk].
  split_and!; [done | | done]. intros Hb. split; [by apply Ht|].
  assert (exists n, assoc (build_registry env openssl sigs kems) n = Some b) as [n En].
  { unfold select_backend in H. destruct (requested env name) as [r|].
    - exists r. destruct key as [[|]|]; unfold get_backend in H; destruct (assoc _ r); simpl in H;
        repeat (case_match; try done); simplify_eq; done.
    - assert (forall names, search_preference (build_registry env openssl sigs kems) names algorithm kem = Ok b ->
        exists n, assoc (build_registry env openssl sigs kems) n = Some b) as S.
      { induction names as [|n names IH]; [done|]. cbn [search_preference].
        destruct (assoc _ n) as [b'|] eqn:E; [|done]. destruct (qualifies _ _ _); [intros [= ->]; eauto | apply IH]. }
      destruct key as [[|x key]|]; [by apply (S PREFERENCE) | | by apply (S PREFERENCE)].
      case_match; [done|]. unfold get_backend in H.
      destruct (assoc _ (detect_private_key_backend (x :: key))) as [b'|] eqn:E; [|done].
      simpl in H. case_match; [|done]. injection H as <-. eauto. }
  pose proof (registry_names env openssl sigs kems Hssl n b En) as Hn. rewrite Hb in Hn. subst n.
  assert (b = InsecureTestBackend env) as ->.
  { revert En. unfold assoc, build_registry. simpl. intros [= <-]. done. }
  simpl in Ha. by apply negb_true_iff in Ha.
Qed.

Definition no_env : Environ := {| env_backend := []; env_production := [] |}.
Definition dead_openssl : CryptoBackend :=
  let b := InsecureTestBackend no_env in {|
  bk_name := OPENSSL_BACKEND;
  bk_capabilities := {| cap_name := OPENSSL_BACKEND; cap_available := false; cap_signature_algorithms := [];
                        cap_kem_algorithms := []; cap_real_pqc := true |};
  bk_generate_keypair := bk_generate_keypair b; bk_sign := bk_sign b; bk_verify := bk_verify b;
  bk_kem_generate_keypair := bk_kem_generate_keypair b; bk_kem_encapsulate := bk_kem_encapsulate b;
  bk_kem_decapsulate := bk_kem_decapsulate b |}.

Lemma select_backend_safe_witness : exists b,
  select_backend no_env (build_registry no_env dead_openssl None None) (Some TEST_BACKEND)
    (lit "ML-DSA-65") true None None = Ok b /\ bk_name b = TEST_BACKEND /\ production_mode no_env = false.
Proof.
  exists (InsecureTestBackend no_env).
  assert (select_backend no_env (build_registry no_env dead_openssl None None) (Some TEST_BACKEND)
    (lit "ML-DSA-65") true None None = Ok (InsecureTestBackend no_env)) as H by reflexivity.
  split; [exact H | split; [reflexivity|]].
  exact (proj2 (proj1 (proj2 (select_backend_safe no_env dead_openssl None None (Some TEST_BACKEND)
    (lit "ML-DSA-65") true None None _ eq_refl H)) eq_refl)).
Defined.

(** When the backend is inferred from a private key's format, a required KEM is not
    checked: with only [dilithium-py] installed the selection returns a backend that cannot
    do the KEM, where every other path refuses. *)
Theorem select_backend_ignores_kem (i : SigImpl) (k0 : bytes)
  (Hk : detect_private_key_backend k0 = PYFIPS_BACKEND) (Hn : k0 <> []) :
  let sigs := Some [(lit "ML-DSA-65", i)] in
  let R := build_registry no_env dead_openssl sigs None in
  let kem := Some (lit "ML-KEM-768") in
  select_backend no_env R None (lit "ML-DSA-65") false kem (Some k0) = Ok (PyFipsBackend sigs None) /\
  supports_kem (bk_capabilities (PyFipsBackend sigs None)) (lit "ML-KEM-768") = false /\
  select_backend no_env R None (lit "ML-DSA-65") false kem None =
    Err (BackendUnavailableError "no backend can provide the algorithm").
Proof.
  destruct k0 as [|x k0]; [done|]. cbv zeta. split_and!.
  - unfold select_backend. cbn [requested env_backend no_env]. rewrite Hk. reflexivity.
  - reflexivity.
  - reflexivity.
Qed.

Lemma select_backend_ignores_kem_witness : exists k0,
  detect_private_key_backend k0 = PYFIPS_BACKEND /\
  forall i, select_backend no_env (build_registry no_env dead_openssl (Some [(lit "ML-DSA-65", i)]) None) None
    (lit "ML-DSA-65") false (Some (lit "ML-KEM-768")) (Some k0) = Ok (PyFipsBackend (Some [(lit "ML-DSA-65", i)]) None).
Proof.
  exists [1; 2; 3]. split; [vm_compute; reflexivity|]. intros i.
  exact (proj1 (select_backend_ignores_kem i [1; 2; 3] ltac:(vm_compute; reflexivity) ltac:(discriminate))).
Defined.

(** Outside production mode, what the test backend signs it verifies under the same key. *)
Lemma test_backend_roundtrip env rand alg m kp sg : production_mode env = false ->
  test_generate_keypair env rand alg = Ok kp -> test_sign env (kp_private kp) m alg = Ok sg ->
  test_verify env (kp_public kp) m sg alg = Ok true.
Proof.
  intros Hp. unfold test_generate_keypair, test_sign, test_verify, test_guard. rewrite Hp. simpl.
  intros [= <-] [= <-]. simpl. by rewrite str_eqb_refl.
Qed.
