(* ===== verification/OpenSslDer.v ===== *)
(** Public keys as [SubjectPublicKeyInfo] DER, to and from raw bytes:
    [src/ics_deception/pqc_evidence/openssl_backend.py], its module-level functions.

    [parse_spki] is a DER reader of its own, written from the encoding rules, against which
    the encoder is proved. *)
From S2P Require Import Prelude PyText Models CryptoBackend.

Definition RAW_PUBLIC_KEY_SIZES : list (str * Z) := map (fun p => (lit p.1, p.2))
  [("ML-DSA-44", 1312); ("ML-DSA-65", 1952); ("ML-DSA-87", 2592);
   ("ML-KEM-512", 800); ("ML-KEM-768", 1184); ("ML-KEM-1024", 1568)]%string.

(** 2.16.840.1.101.3.4.3.x for ML-DSA, 2.16.840.1.101.3.4.4.x for ML-KEM. *)
Definition nist_oid (arc n : Z) : list Z := [2; 16; 840; 1; 101; 3; 4; arc; n].
Definition ALGORITHM_OIDS : list (str * list Z) := map (fun p => (lit p.1, p.2))
  [("ML-DSA-44", nist_oid 3 17); ("ML-DSA-65", nist_oid 3 18); ("ML-DSA-87", nist_oid 3 19);
   ("ML-KEM-512", nist_oid 4 1); ("ML-KEM-768", nist_oid 4 2); ("ML-KEM-1024", nist_oid 4 3)]%string.

Definition backend_error {A} (code m : string) : res A := Err (BackendError code m).

Definition raw_public_key_from_der (der : bytes) (algorithm : str) : res bytes :=
  match assoc RAW_PUBLIC_KEY_SIZES algorithm with
  | None => backend_error "unsupported_algorithm" "unknown raw public key size"
  | Some size =>
    require (size <=? zlen der) (BackendError "invalid_public_key" "DER public key is too short") ;;
    Ok (drop (Z.to_nat (zlen der - size)) der)
  end.

(** ** The encoder *)

(** [n.to_bytes(k, "big")] *)
Fixpoint be_bytes (k : nat) (n : Z) : bytes :=
  match k with O => [] | S k => be_bytes k (n / 256) ++ [n mod 256] end.

Definition bit_length (n : Z) : Z := if n =? 0 then 0 else Z.log2 n + 1.

(** [bytes([0x80 | len(encoded)])] needs a length below 128, which every length below
    [256 ^ 127] has. *)
Definition der_length (length_ : Z) : bytes :=
  if length_ <? 0x80 then [length_]
  else
    let encoded := be_bytes (Z.to_nat ((bit_length length_ + 7) / 8)) length_ in
    Z.lor 0x80 (zlen encoded) :: encoded.

Definition der_sequence (content : bytes) : bytes := [0x30] ++ der_length (zlen content) ++ content.

Definition der_bit_string (content : bytes) : bytes :=
  let body := [0] ++ content in [0x03] ++ der_length (zlen body) ++ body.

(** [while value]: the groups of seven bits, least significant first. *)
Fixpoint chunks7 (fuel : nat) (value : Z) : list Z :=
  match fuel with
  | O => []
  | S fuel => if value =? 0 then [] else Z.land value 0x7F :: chunks7 fuel (Z.shiftr value 7)
  end.

(** All but the last carry the continuation bit. *)
Fixpoint continued (l : list Z) : bytes :=
  match l with
  | [] => []
  | [x] => [x]
  | x :: l => Z.lor x 0x80 :: continued l
  end.

Definition component_bytes (component : Z) : bytes :=
  if component <? 0x80 then [component]
  else continued (rev (chunks7 (Z.to_nat (bit_length component)) component)).

(** On a tuple of at least two arcs, [IndexError] otherwise. *)
Definition der_object_identifier (oid : list Z) : res bytes :=
  match oid with
  | a :: b :: rest =>
    let body := [a * 40 + b] ++ concat (map component_bytes rest) in
    Ok ([0x06] ++ der_length (zlen body) ++ body)
  | _ => Err IndexError
  end.

Definition der_from_raw_public_key (raw : bytes) (algorithm : str) : res bytes :=
  match assoc RAW_PUBLIC_KEY_SIZES algorithm with
  | None => backend_error "unsupported_algorithm" "unknown raw public key size"
  | Some size =>
    require (zlen raw =? size) (BackendError "invalid_public_key" "raw public key has the wrong length") ;;
    match assoc ALGORITHM_OIDS algorithm with
    | None => backend_error "unsupported_algorithm" "no OID known"
    | Some oid =>
      identifier ← der_object_identifier oid;
      Ok (der_sequence (der_sequence identifier ++ der_bit_string raw))
    end
  end.

(** ** The reader (X.690) *)

(** A length, short or long form, and what follows it. *)
Definition read_length (b : bytes) : option (Z * bytes) :=
  match b with
  | [] => None
  | x :: r =>
    if x <? 0x80 then Some (x, r)
    else
      let k := Z.to_nat (x - 0x80) in
      if (length r <? k)%nat then None else Some (from_be (take k r), drop k r)
  end.

(** The content of an element of this tag, and what follows the element. *)
Definition read_element (tag : Z) (b : bytes) : option (bytes * bytes) :=
  match b with
  | t :: r =>
    if t =? tag
    then '(n, r) ← read_length r; if zlen r <? n then None else Some (take (Z.to_nat n) r, drop (Z.to_nat n) r)
    else None
  | [] => None
  end.

(** The arcs after the first byte: base 128, the high bit on all but the last of a group. *)
Fixpoint read_arcs (b : bytes) (acc : Z) (fresh : bool) : option (list Z) :=
  match b with
  | [] => if fresh then Some [] else None
  | x :: b =>
    if x <? 0x80 then l ← read_arcs b 0 true; Some (acc * 128 + x :: l)
    else read_arcs b (acc * 128 + (x - 0x80)) false
  end.

(** The first byte holds two arcs, the first of them at most 2. *)
Definition read_oid (b : bytes) : option (list Z) :=
  match b with
  | [] => None
  | x :: b => l ← read_arcs b 0 true; Some (let a := Z.min (x / 40) 2 in a :: x - 40 * a :: l)
  end.

(** [SEQUENCE { SEQUENCE { OBJECT IDENTIFIER }, BIT STRING }] with no unused bits, and
    nothing else. *)
Definition parse_spki (der : bytes) : option (list Z * bytes) :=
  '(body, after) ← read_element 0x30 der;
  '(algorithm, r) ← read_element 0x30 body;
  '(oid, more) ← read_element 0x06 algorithm;
  '(bits, rest) ← read_element 0x03 r;
  arcs ← read_oid oid;
  match bits, after, more, rest with
  | 0 :: key, [], [], [] => Some (arcs, key)
  | _, _, _, _ => None
  end.

(** ** Facts *)
Lemma be_bytes_length k : forall n, length (be_bytes k n) = k.
Proof. induction k as [|k IH]; intros n; [done|]. cbn [be_bytes]. rewrite length_app, IH. simpl. lia. Qed.

Lemma from_be_snoc b x : from_be (b ++ [x]) = from_be b * 256 + x.
Proof. unfold from_be. by rewrite fold_left_app. Qed.

Lemma from_be_bytes k : forall n, 0 <= n < 256 ^ Z.of_nat k -> from_be (be_bytes k n) = n.
Proof.
  induction k as [|k IH]; intros n Hn; [simpl in Hn; cbn; lia|]. cbn [be_bytes]. rewrite from_be_snoc, IH.
  - pose proof (Z.div_mod n 256 ltac:(lia)). lia.
  - replace (Z.of_nat (S k)) with (Z.of_nat k + 1) in Hn by lia. rewrite Z.pow_add_r in Hn by lia.
    split; [apply Z.div_pos; lia | apply Z.div_lt_upper_bound; lia].
Qed.

Lemma log2_bytes n : 0 < n -> n < 256 ^ ((bit_length n + 7) / 8).
Proof.
  intros Hn. unfold bit_length. rewrite (proj2 (Z.eqb_neq n 0)) by lia. pose proof (Z.log2_spec n Hn) as [_ L].
  pose proof (Z.log2_nonneg n). pose proof (Z.div_mod (Z.log2 n + 1 + 7) 8 ltac:(lia)) as D.
  pose proof (Z.mod_pos_bound (Z.log2 n + 1 + 7) 8 ltac:(lia)). set (k := (Z.log2 n + 1 + 7) / 8) in *.
  change 256 with (2 ^ 8). rewrite <- Z.pow_mul_r by lia.
  eapply Z.lt_le_trans; [exact L|]. apply Z.pow_le_mono_r; lia.
Qed.

(** Lengths read back, as long as their own length fits seven bits. *)
Lemma read_der_length n rest : 0 <= n < 2 ^ 64 -> read_length (der_length n ++ rest) = Some (n, rest).
Proof.
  intros Hn. unfold der_length. destruct (Z.ltb_spec n 0x80) as [L|L].
  { cbn [app read_length]. by rewrite (proj2 (Z.ltb_lt n 0x80)). }
  cbv zeta. set (k := (bit_length n + 7) / 8).
  assert (0 < k <= 8) as Hk.
  { unfold k, bit_length. rewrite (proj2 (Z.eqb_neq n 0)) by lia.
    pose proof (Z.log2_lt_pow2 n 64 ltac:(lia)) as [B _]. specialize (B ltac:(lia)). pose proof (Z.log2_nonneg n).
    split; [apply Z.div_str_pos; lia | apply Z.lt_succ_r, Z.div_lt_upper_bound; lia]. }
  assert (Z.lor 0x80 (zlen (be_bytes (Z.to_nat k) n)) = 0x80 + k) as E.
  { unfold zlen. rewrite be_bytes_length, Z2Nat.id by lia.
    assert (k = 1 \/ k = 2 \/ k = 3 \/ k = 4 \/ k = 5 \/ k = 6 \/ k = 7 \/ k = 8) as C by lia. clearbody k.
    by repeat (destruct C as [-> | C]); [..| rewrite C]. }
  cbn [app read_length]. rewrite E, (proj2 (Z.ltb_ge (0x80 + k) 0x80)) by lia. replace (0x80 + k - 0x80) with k by lia.
  rewrite length_app, be_bytes_length. rewrite (proj2 (Nat.ltb_ge _ _)) by lia.
  rewrite take_app_length', drop_app_length' by (by rewrite be_bytes_length). rewrite from_be_bytes; [done|].
  rewrite Z2Nat.id by lia. split; [lia | by apply log2_bytes; lia].
Qed.

Lemma read_tlv tag content rest : zlen content < 2 ^ 64 ->
  read_element tag ([tag] ++ der_length (zlen content) ++ content ++ rest) = Some (content, rest).
Proof.
  intros L. cbn [app read_element]. rewrite Z.eqb_refl, read_der_length by (pose proof (zlen_nonneg content); lia).
  cbn [mbind option_bind]. rewrite zlen_app. pose proof (zlen_nonneg rest). rewrite (proj2 (Z.ltb_ge _ _)) by lia.
  unfold zlen. rewrite Nat2Z.id. by rewrite take_app_length, drop_app_length.
Qed.

Lemma element_sequence content rest : zlen content < 2 ^ 64 ->
  read_element 0x30 (der_sequence content ++ rest) = Some (content, rest).
Proof. intros L. unfold der_sequence. rewrite <- !app_assoc. by apply read_tlv. Qed.

Lemma element_bits content rest : zlen content < 2 ^ 63 ->
  read_element 0x03 (der_bit_string content ++ rest) = Some (0 :: content, rest).
Proof. intros L. unfold der_bit_string. cbv zeta. rewrite <- !app_assoc. apply (read_tlv 0x03 (0 :: content)). rewrite zlen_cons. lia. Qed.

Lemma der_length_short n : 0 <= n < 2 ^ 32 -> zlen (der_length n) <= 5.
Proof.
  intros Hn. unfold der_length. destruct (Z.ltb_spec n 0x80) as [L|L]; [by compute|]. cbv zeta. rewrite zlen_cons.
  unfold zlen. rewrite be_bytes_length. unfold bit_length. rewrite (proj2 (Z.eqb_neq n 0)) by lia.
  pose proof (Z.log2_lt_pow2 n 32 ltac:(lia)) as [B _]. specialize (B ltac:(lia)). pose proof (Z.log2_nonneg n).
  assert ((Z.log2 n + 1 + 7) / 8 < 5) by (apply Z.div_lt_upper_bound; lia). lia.
Qed.

(** The identifiers in use read back. *)
Lemma oids_read : Forall (fun p => match der_object_identifier p.2 with
    | Ok id => match read_element 0x06 id with Some (o, []) => read_oid o = Some p.2 /\ zlen id < 100 | _ => False end
    | Err _ => False
    end) ALGORITHM_OIDS.
Proof. unfold ALGORITHM_OIDS. repeat constructor. Qed.

Lemma sizes_known algorithm size : assoc RAW_PUBLIC_KEY_SIZES algorithm = Some size ->
  800 <= size <= 2592 /\ exists oid, assoc ALGORITHM_OIDS algorithm = Some oid.
Proof.
  unfold assoc, RAW_PUBLIC_KEY_SIZES, ALGORITHM_OIDS. cbn [map fst snd List.find].
  repeat (destruct (str_eqb algorithm _); cbn [fmap option_fmap option_map snd]; [intros [= <-]; split; [lia | by eexists]|]). done.
Qed.

Lemma der_reads raw algorithm oid id : zlen raw <= 2592 -> assoc ALGORITHM_OIDS algorithm = Some oid ->
  der_object_identifier oid = Ok id ->
  parse_spki (der_sequence (der_sequence id ++ der_bit_string raw)) = Some (oid, raw).
Proof.
  intros L O I. pose proof oids_read as F. rewrite Forall_forall in F. apply assoc_In in O. specialize (F _ O). cbn [snd] in F.
  rewrite I in F. destruct (read_element 6 id) as [[o [|]]|] eqn:R; try done. destruct F as [Ro Li].
  pose proof (zlen_nonneg raw). pose proof (zlen_nonneg id). unfold parse_spki.
  assert (zlen (der_sequence id) <= 106) as L1.
  { unfold der_sequence. rewrite !zlen_app. pose proof (der_length_short (zlen id) ltac:(lia)). change (zlen [0x30]) with 1. lia. }
  assert (zlen (der_bit_string raw) <= 2599) as L2.
  { unfold der_bit_string. cbv zeta. cbn [app]. rewrite !zlen_cons, zlen_app, zlen_cons.
    pose proof (der_length_short (1 + zlen raw) ltac:(lia)). lia. }
  rewrite <- (app_nil_r (der_sequence (_ ++ _))), element_sequence by (rewrite zlen_app; lia). cbn [mbind option_bind].
  rewrite element_sequence by lia. cbn [mbind option_bind]. rewrite R. cbn [mbind option_bind].
  rewrite <- (app_nil_r (der_bit_string raw)), element_bits by lia. cbn [mbind option_bind]. by rewrite Ro.
Qed.

Lemma spki_exact raw algorithm :
  match der_from_raw_public_key raw algorithm with
  | Ok der => assoc RAW_PUBLIC_KEY_SIZES algorithm = Some (zlen raw) /\
      raw_public_key_from_der der algorithm = Ok raw /\
      exists oid, assoc ALGORITHM_OIDS algorithm = Some oid /\ parse_spki der = Some (oid, raw)
  | Err e => is_backend_error e = true /\ assoc RAW_PUBLIC_KEY_SIZES algorithm <> Some (zlen raw)
  end.
Proof.
  unfold der_from_raw_public_key, raw_public_key_from_der. destruct (assoc RAW_PUBLIC_KEY_SIZES algorithm) as [size|] eqn:S; [|done].
  pose proof (sizes_known _ _ S) as (B & oid & O). destruct (Z.eqb_spec (zlen raw) size) as [E|E]; cbn [require mbind res_bind].
  2: { split; [done|]. congruence. }
  rewrite O. pose proof oids_read as F. rewrite Forall_forall in F. specialize (F _ (assoc_In _ _ _ O)). cbn [snd] in F.
  destruct (der_object_identifier oid) as [id|] eqn:I; [|done]. cbn [mbind res_bind]. split; [by subst|].
  assert (exists x, der_sequence (der_sequence id ++ der_bit_string raw) = x ++ raw) as [x X].
  { unfold der_sequence at 1, der_bit_string at 2. cbv zeta. eexists. rewrite !app_assoc. reflexivity. }
  split; [|exists oid; split; [done|]; apply (der_reads raw algorithm); [lia | done | done]].
  rewrite X, zlen_app, E. pose proof (zlen_nonneg x). rewrite (proj2 (Z.leb_le _ _)) by lia. cbn [require mbind res_bind].
  replace (zlen x + size - size) with (zlen x) by lia. unfold zlen. by rewrite Nat2Z.id, drop_app_length.
Qed.

(** The two key formats agree: a raw key of the algorithm's size is wrapped in a DER
    encoding that an independent reader takes apart into the algorithm's object identifier
    and that key, and from which the raw key is recovered; every other key or algorithm is
    refused with a [BackendError]. *)
Theorem spki_roundtrip raw algorithm :
  match der_from_raw_public_key raw algorithm with
  | Ok der => assoc RAW_PUBLIC_KEY_SIZES algorithm = Some (zlen raw) /\
      raw_public_key_from_der der algorithm = Ok raw /\
      exists oid, assoc ALGORITHM_OIDS algorithm = Some oid /\ parse_spki der = Some (oid, raw)
  | Err e => is_backend_error e = true /\ assoc RAW_PUBLIC_KEY_SIZES algorithm <> Some (zlen raw)
  end.
Proof. apply spki_exact. Qed.

(** The header of a raw ML-DSA-65 key is the 22 bytes every such key starts with. *)
Example header_65 : (der ← der_from_raw_public_key (replicate 1952 7) (lit "ML-DSA-65"); Ok (take 22 der)) =
  Ok [0x30; 0x82; 0x07; 0xB2; 0x30; 0x0B; 0x06; 0x09; 0x60; 0x86; 0x48; 0x01; 0x65; 0x03; 0x04; 0x03; 0x12; 0x03; 0x82; 0x07; 0xA1; 0x00].
Proof. vm_compute. reflexivity. Qed.
