(* ===== verification/OpenSslBackend.v ===== *)
(** ML-DSA and ML-KEM through the [openssl] program:
    [src/ics_deception/pqc_evidence/openssl_backend.py], class [OpenSslBackend].

    The program itself is an argument, [tool]: what a run of it answers and what it leaves in
    the work directory, from its arguments and what the directory holds.  The backend's
    state keeps the cached capabilities, the work directory of the call at hand, and - for
    the theorems only - the argument lists of all runs and what every removed work directory
    last held.  Writing into a fresh work directory and removing it succeed. *)
From S2P Require Import Prelude PyText PyStr Json Models CryptoBackend OpenSslDer.

Definition MIN_OPENSSL_VERSION : list Z := [3; 5; 0].

(** What discovery looks at: the constructor's argument, [ICS_PQC_OPENSSL], the file system
    and the search path, the library directory next to the executable, [LD_LIBRARY_PATH]. *)
Record Shell := {
  sh_explicit : option str;
  sh_env : option str;
  sh_is_file : str -> bool;
  sh_which : str -> option str;
  sh_lib_dir : str -> option str;
  sh_ld_path : str;
}.

(** An argument of the program: a word, or a file of the work directory. *)
Inductive arg := Word (w : str) | Path (name : string).
Definition word (w : string) : arg := Word (lit w).

Abbreviation Files := (gmap string bytes).

Inductive ran := Exited (returncode : Z) (stdout : bytes) | TimedOut | CannotExecute.

Record State := {
  cached : option Capabilities;
  workdir : option Files;
  runs : list (list arg);
  removed : list Files;
}.
Definition new_backend : State := {| cached := None; workdir := None; runs := []; removed := [] |}.

Definition set_cached (c : Capabilities) (s : State) : State :=
  {| cached := Some c; workdir := workdir s; runs := runs s; removed := removed s |}.
Definition set_files (f : Files) (s : State) : State :=
  {| cached := cached s; workdir := Some f; runs := runs s; removed := removed s |}.
Definition drop_workdir (s : State) : State :=
  {| cached := cached s; workdir := None; runs := runs s; removed := removed s ++ [default ∅ (workdir s)] |}.

(** [a or b] on texts. *)
Definition or_text (a b : option str) : option str :=
  match a with Some (_ :: _) => a | _ => match b with Some (_ :: _) => b | _ => None end end.

(** ** The version *)
Section Version.
Context (U : UnicodeDigits).

(** [if current: numbers.append(int(current))] *)
Definition take_number (numbers : list Z) (current : str) : res (list Z) :=
  match current with [] => Ok numbers | _ => n ← int_of U current; Ok (numbers ++ [n]) end.

Fixpoint version_numbers (raw : str) (numbers : list Z) (current : str) : res (list Z) :=
  match raw with
  | [] => take_number numbers current
  | c :: raw =>
    if isdigit1 U c then version_numbers raw numbers (current ++ [c])
    else if c =? 46 then numbers ← take_number numbers current; version_numbers raw numbers []
    else take_number numbers current
  end.

(** Padded with zeros to three numbers. *)
Definition parse_openssl_version (text : str) : res (option (list Z)) :=
  match split_ws text [] with
  | name :: raw :: _ =>
    if str_eqb name (lit "OpenSSL") then
      numbers ← version_numbers raw [] [];
      Ok (match numbers with [] => None | _ => Some (take 3 (numbers ++ [0; 0])) end)
    else Ok None
  | _ => Ok None
  end.
End Version.

Definition NO_CAPABILITIES : Capabilities := {|
  cap_name := OPENSSL_BACKEND; cap_available := false; cap_signature_algorithms := []; cap_kem_algorithms := [];
  cap_real_pqc := true |}.

(** [x.replace('{', ' ').replace('}', ' ').replace(',', ' ')] *)
Definition unbraced (s : str) : str := map (fun c => if (c =? 123) || (c =? 125) || (c =? 44) then 32 else c) s.

(** The algorithms a listing names.  A known name is in upper case already. *)
Definition listed (prefix : str) (text : str) : list str :=
  let tokens := concat (map (fun line => split_ws (unbraced line) []) (splitlines text [])) in
  List.filter (fun c => starts_with prefix c && bool_decide (is_Some (assoc RAW_PUBLIC_KEY_SIZES c))) tokens.

Definition sorted_names (l : list str) : list str := sort_by str_ltb (elements (list_to_set l : gset str)).

Section OpenSsl.
Context (U : UnicodeDigits) (sh : Shell).
Context (tool : str -> option str -> list arg -> Files -> ran * Files).
Notation M := (SE State).

(** ** Running the program *)
Definition executable : option str :=
  match or_text (sh_explicit sh) (sh_env sh) with
  | Some candidate => if sh_is_file sh candidate || bool_decide (is_Some (sh_which sh candidate)) then Some candidate else None
  | None => sh_which sh (lit "openssl")
  end.

(** [LD_LIBRARY_PATH] of the run, when it is changed. *)
Definition library_path (exe : str) : option str :=
  match or_text (sh_explicit sh) (sh_env sh) with
  | None => None
  | Some _ =>
    lib_dir ← sh_lib_dir sh exe;
    Some (match sh_ld_path sh with [] => lib_dir | existing => lib_dir ++ [58] ++ existing end)
  end.

Definition run (args : list arg) : M (Z * bytes) :=
  match executable with
  | None => raise (BackendUnavailableError "no openssl executable found")
  | Some exe => fun s =>
    let '(r, files) := tool exe (library_path exe) args (default ∅ (workdir s)) in
    ({| cached := cached s; workdir := match workdir s with Some _ => Some files | None => None end;
        runs := runs s ++ [args]; removed := removed s |},
     match r with
     | Exited returncode stdout => Ok (returncode, stdout)
     | TimedOut => Err (BackendError "timeout" "openssl timed out")
     | CannotExecute => Err (BackendUnavailableError "cannot execute openssl")
     end)
  end.

(** ** Capabilities *)
Definition list_algorithms (flag prefix : string) : M (list str) :=
  '(returncode, stdout) ← run [word "list"; word flag];
  mret (if returncode =? 0 then sorted_names (listed (lit prefix) (utf8_decode_replace stdout)) else []).

Definition probe : M Capabilities :=
  match executable with
  | None => mret NO_CAPABILITIES
  | Some _ =>
    result ← se_try (x ← run [word "version"]; mret (Some x))
      (fun e => if is_backend_error e then mret None else raise e);
    match result with
    | None => mret NO_CAPABILITIES
    | Some (returncode, stdout) =>
      if negb (returncode =? 0) then mret NO_CAPABILITIES
      else
        parsed ← lift (parse_openssl_version U (strip (utf8_decode_replace stdout)));
        match parsed with
        | None => mret NO_CAPABILITIES
        | Some version =>
          if str_ltb version MIN_OPENSSL_VERSION then mret NO_CAPABILITIES
          else
            signatures ← list_algorithms "-signature-algorithms" "ML-DSA";
            kems ← list_algorithms "-kem-algorithms" "ML-KEM";
            mret (match signatures with
                  | [] => NO_CAPABILITIES
                  | _ => {| cap_name := OPENSSL_BACKEND; cap_available := true; cap_signature_algorithms := signatures;
                            cap_kem_algorithms := kems; cap_real_pqc := true |}
                  end)
        end
    end
  end.

Definition capabilities : M Capabilities :=
  known ← gets cached;
  match known with
  | Some c => mret c
  | None => c ← probe; modify (set_cached c) ;; mret c
  end.

Definition require_available : M unit :=
  c ← capabilities;
  if cap_available c then mret tt else raise (BackendUnavailableError "openssl is unavailable").

(** ** The work directory *)

(** [with tempfile.TemporaryDirectory(...)]: removed on every way out. *)
Definition with_workdir {A} (m : M A) : M A := fun s =>
  match m (set_files ∅ s) with (s', r) => (drop_workdir s', r) end.

Definition files : M Files := gets (fun s => default ∅ (workdir s)).
Definition write_bytes (name : string) (data : bytes) : M unit :=
  f ← files; modify (set_files (<[name := data]> f)).
Definition touch (name : string) : M unit :=
  f ← files; match f !! name with Some _ => mret tt | None => modify (set_files (<[name := []]> f)) end.

(** [read_bytes], [chmod]: the program may have left no file. *)
Definition read_bytes (name : string) : M bytes :=
  f ← files; match f !! name with Some b => mret b | None => raise (OSError "no such file") end.
Definition chmod (name : string) : M unit := read_bytes name ;; mret tt.

(** [_overwrite]: zeros over the whole length, if the file is there. *)
Definition overwrite (name : string) : M unit :=
  f ← files;
  match f !! name with
  | Some b => modify (set_files (<[name := replicate (length b) 0]> f))
  | None => mret tt
  end.

(** [run], its failure an error of this code. *)
Definition run_ok (code message : string) (args : list arg) : M bytes :=
  '(returncode, stdout) ← run args;
  if returncode =? 0 then mret stdout else raise (BackendError code message).

(** ** Signatures *)
Definition genpkey_args (algorithm : str) (private_path : string) : list arg :=
  [word "genpkey"; word "-algorithm"; Word algorithm; word "-out"; Path private_path].
Definition pubout_args (private_path : string) : list arg :=
  [word "pkey"; word "-in"; Path private_path; word "-pubout"; word "-outform"; word "DER"].

Definition make_keypair (private_path : string) (algorithm : str) : M KeyPair :=
  with_workdir (
    run_ok "keygen_failed" "openssl genpkey failed" (genpkey_args algorithm private_path) ;;
    chmod private_path ;;
    private_bytes ← read_bytes private_path;
    der ← run_ok "pubkey_export_failed" "openssl failed to export the public key" (pubout_args private_path);
    raw_public ← lift (raw_public_key_from_der der algorithm);
    mret {| kp_algorithm := algorithm; kp_public := raw_public; kp_private := private_bytes; kp_backend := OPENSSL_BACKEND |}).

Definition generate_keypair (algorithm : str) : M KeyPair :=
  require_available ;; make_keypair "private.pem" algorithm.

Definition sign_args : list arg :=
  [word "pkeyutl"; word "-sign"; word "-inkey"; Path "private.pem"; word "-rawin"; word "-in"; Path "message.bin";
   word "-out"; Path "signature.bin"].

Definition sign (private_bytes message : bytes) (algorithm : str) : M bytes :=
  require_available ;;
  with_workdir (
    touch "private.pem" ;;
    write_bytes "private.pem" private_bytes ;;
    write_bytes "message.bin" message ;;
    run_ok "sign_failed" "openssl signing failed" sign_args ;;
    signature ← read_bytes "signature.bin";
    overwrite "private.pem" ;;
    mret signature).

Definition verify_args : list arg :=
  [word "pkeyutl"; word "-verify"; word "-pubin"; word "-inkey"; Path "public.der"; word "-keyform"; word "DER";
   word "-rawin"; word "-in"; Path "message.bin"; word "-sigfile"; Path "signature.bin"].

Definition verify (public_bytes message signature : bytes) (algorithm : str) : M bool :=
  require_available ;;
  if str_eqb signature [] then mret false
  else
    match der_from_raw_public_key public_bytes algorithm with
    | Err e => if is_backend_error e then mret false else raise e
    | Ok der =>
      with_workdir (
        write_bytes "public.der" der ;;
        write_bytes "message.bin" message ;;
        write_bytes "signature.bin" signature ;;
        '(returncode, _) ← run verify_args;
        mret (returncode =? 0))
    end.

(** ** Key encapsulation *)
Definition kem_generate_keypair (algorithm : str) : M KeyPair :=
  require_available ;;
  c ← capabilities;
  if str_in algorithm (cap_kem_algorithms c) then make_keypair "kem.pem" algorithm
  else raise (BackendUnavailableError "this OpenSSL build does not expose the algorithm").

Definition encap_args : list arg :=
  [word "pkeyutl"; word "-encap"; word "-pubin"; word "-inkey"; Path "public.der"; word "-keyform"; word "DER";
   word "-secret"; Path "secret.bin"; word "-out"; Path "ciphertext.bin"].

Definition kem_encapsulate (public_bytes : bytes) (algorithm : str) : M (bytes * bytes) :=
  require_available ;;
  der ← lift (der_from_raw_public_key public_bytes algorithm);
  with_workdir (
    write_bytes "public.der" der ;;
    run_ok "kem_encapsulate_failed" "openssl encapsulation failed" encap_args ;;
    shared ← read_bytes "secret.bin";
    ciphertext ← read_bytes "ciphertext.bin";
    overwrite "secret.bin" ;;
    mret (shared, ciphertext)).

Definition decap_args : list arg :=
  [word "pkeyutl"; word "-decap"; word "-inkey"; Path "kem.pem"; word "-in"; Path "ciphertext.bin"; word "-secret"; Path "secret.bin"].

Definition kem_decapsulate (private_bytes ciphertext : bytes) (algorithm : str) : M bytes :=
  require_available ;;
  with_workdir (
    touch "kem.pem" ;;
    write_bytes "kem.pem" private_bytes ;;
    write_bytes "ciphertext.bin" ciphertext ;;
    run_ok "kem_decapsulate_failed" "openssl decapsulation failed" decap_args ;;
    shared ← read_bytes "secret.bin";
    overwrite "secret.bin" ;;
    overwrite "kem.pem" ;;
    mret shared).
End OpenSsl.
