(* ===== verification/OpenSslFacts.v ===== *)
(** What the OpenSSL backend guarantees whatever the program does: keys stay off the command
    line and in a directory that is gone when a call returns, verification accepts exactly
    what the program accepts, capabilities are probed once and mean what they say; and, for a
    program that keeps its contract, signatures and secrets survive the raw key format. *)
From S2P Require Import Prelude PyText PyStr Json Models CryptoBackend OpenSslDer OpenSslBackend.

(** ** The argument lists in use: none mentions a key, a message or a signature *)
Inductive public_args : list arg -> Prop :=
| args_version : public_args [word "version"]
| args_list flag : public_args [word "list"; word flag]
| args_genpkey algorithm name : public_args (genpkey_args algorithm name)
| args_pubout name : public_args (pubout_args name)
| args_sign : public_args sign_args
| args_verify : public_args verify_args
| args_encap : public_args encap_args
| args_decap : public_args decap_args.
#[export] Hint Constructors public_args : core.

(** Overwritten with zeros, or gone. *)
Definition wiped (name : string) (f : option Files) : Prop :=
  forall d b, f = Some d -> d !! name = Some b -> Forall (fun x => x = 0) b.

Section Confinement.
Context (U : UnicodeDigits) (sh : Shell).
Context (tool : str -> option str -> list arg -> Files -> ran * Files).
Notation M := (SE State).
Notation run := (run sh tool).
Notation run_ok := (run_ok sh tool).

(** The steps of a call: they neither make nor remove the directory, and run the program on
    public arguments only. *)
Definition triple {A} (P : option Files -> Prop) (m : M A) (Q : A -> option Files -> Prop) : Prop :=
  forall s s' r, m s = (s', r) -> P (workdir s) ->
    (is_Some (workdir s') <-> is_Some (workdir s)) /\ removed s' = removed s /\
    (exists l, runs s' = runs s ++ l /\ Forall public_args l) /\ forall a, r = Ok a -> Q a (workdir s').
Definition any : option Files -> Prop := fun _ => True.
Notation steps m := (triple any m (fun _ => any)).

Lemma triple_bind {A B} P (m : M A) Q (f : A -> M B) R :
  triple P m Q -> (forall a, triple (Q a) (f a) R) -> triple P (m ≫= f) R.
Proof.
  intros Hm Hf s s' r E Hp. unfold mbind, se_bind in E. destruct (m s) as [s1 [a|e]] eqn:E1.
  - destruct (Hm _ _ _ E1 Hp) as (W1 & R1 & (l1 & L1 & F1) & Q1).
    destruct (Hf a _ _ _ E (Q1 a eq_refl)) as (W2 & R2 & (l2 & L2 & F2) & Q2). split; [by rewrite W2|].
    split; [congruence|]. split; [|done]. exists (l1 ++ l2). rewrite L2, L1, app_assoc. split; [done | by apply Forall_app].
  - injection E as <- <-. destruct (Hm _ _ _ E1 Hp) as (W1 & R1 & L1 & _). by split_and!.
Qed.

Lemma triple_weaken {A} P P' (m : M A) Q Q' : triple P m Q -> (forall f, P' f -> P f) -> (forall a f, Q a f -> Q' a f) -> triple P' m Q'.
Proof. intros H HP HQ s s' r E Hp. destruct (H _ _ _ E (HP _ Hp)) as (? & ? & ? & ?). split_and!; eauto. Qed.

Lemma triple_still {A} P (m : M A) Q : (forall s, exists r, m s = (s, r) /\ forall a, r = Ok a -> P (workdir s) -> Q a (workdir s)) -> triple P m Q.
Proof.
  intros H s s' r E Hp. destruct (H s) as (r0 & E0 & Hq). rewrite E in E0. injection E0 as -> ->.
  split_and!; [done | done | exists []; by rewrite app_nil_r | eauto].
Qed.

Lemma triple_ret {A} (P : option Files -> Prop) (a : A) : triple P (mret a) (fun x f => x = a /\ P f).
Proof. apply triple_still. intros s. eexists. split; [reflexivity|]. by intros ? [= ->]. Qed.
Lemma triple_raise {A} P e Q : triple (A := A) P (raise e) Q.
Proof. apply triple_still. intros s. by eexists. Qed.
Lemma triple_lift {A} P (m : res A) : triple P (lift m) (fun _ => P).
Proof. apply triple_still. intros s. eexists. split; [reflexivity|]. by intros. Qed.
Lemma steps_ret {A} (a : A) : steps (mret a).
Proof. by eapply triple_weaken; [apply triple_ret | |]. Qed.
Lemma steps_lift {A} (m : res A) : steps (lift m).
Proof. apply triple_lift. Qed.
Lemma triple_files P : triple P files (fun a f => P f /\ a = default ∅ f).
Proof. apply triple_still. intros s. eexists. split; [reflexivity|]. by intros ? [= <-]. Qed.

Lemma triple_run P args : public_args args -> triple P (run args) (fun _ => any).
Proof.
  intros Ha s s' r E _. unfold OpenSslBackend.run in E. destruct (executable sh) as [exe|].
  - destruct (tool exe _ args _) as [o f]. injection E as <- <-. cbn [workdir removed runs].
    split; [by destruct (workdir s); split; intros [? ?]; eauto|]. split; [done|]. split; [|done]. exists [args]. auto.
  - injection E as <- <-. split_and!; [done | done | exists []; by rewrite app_nil_r | done].
Qed.

Lemma triple_run_ok P code m args : public_args args -> triple P (run_ok code m args) (fun _ => any).
Proof.
  intros Ha. eapply triple_bind; [by apply triple_run|]. intros [rc out]. destruct (rc =? 0); [apply steps_ret | apply triple_raise].
Qed.

(** Changing the files of a work directory. *)
Definition inside : option Files -> Prop := fun f => is_Some f.

Lemma triple_put (P : option Files -> Prop) name data : (forall f, P f -> inside f) ->
  triple P (f ← files; modify (set_files (<[name := data]> f))) (fun _ f => exists g, f = Some (<[name := data]> g) /\ P (Some g)).
Proof.
  intros HP. eapply triple_bind; [apply triple_files|]. intros f s s' r [= <- <-] [Hp ->]. cbn [workdir set_files removed runs].
  destruct (HP _ Hp) as [g E]. rewrite E in *. split_and!; [by split; eauto | done | exists []; by rewrite app_nil_r|].
  intros _ _. by exists g.
Qed.

Lemma write_keeps name data : triple inside (write_bytes name data) (fun _ => inside).
Proof. eapply triple_weaken; [by apply (triple_put inside) | done|]. intros _ f (g & -> & _). by eexists. Qed.

Lemma touch_keeps name : triple inside (touch name) (fun _ => inside).
Proof.
  eapply triple_bind; [apply triple_files|]. intros f. destruct (f !! name).
  - eapply triple_weaken; [apply (triple_ret inside) | by intros ? [? _] | by intros ? ? [_ ?]].
  - intros s s' r [= <- <-] [Hp ->]. split_and!; [|done | exists []; by rewrite app_nil_r | by eexists].
    cbn [workdir set_files]. by split; eauto.
Qed.

Lemma read_keeps P name : triple P (read_bytes name) (fun _ => P).
Proof.
  eapply triple_bind; [apply triple_files|]. intros f. destruct (f !! name); [|apply triple_raise].
  eapply triple_weaken; [apply (triple_ret P) | by intros ? [? _] | by intros ? ? [_ ?]].
Qed.

Lemma chmod_keeps P name : triple P (chmod name) (fun _ => P).
Proof. eapply triple_bind; [apply read_keeps|]. intros b. eapply triple_weaken; [apply (triple_ret P) | done | by intros ? ? [_ ?]]. Qed.

Lemma overwrite_wipes P name : (forall f (b : bytes), P (Some f) -> P (Some (<[name := replicate (length b) 0]> f))) ->
  triple P (overwrite name) (fun _ f => P f /\ wiped name f).
Proof.
  intros HP. eapply triple_bind; [apply triple_files|]. intros f. destruct (f !! name) as [b|] eqn:E.
  - intros s s' r [= <- <-] [Hp ->]. cbn [workdir set_files removed runs]. destruct (workdir s) as [g|]; [|cbn [default] in E; unfold id in E; by rewrite lookup_empty in E].
    split_and!; [by split; eauto | done | exists []; by rewrite app_nil_r|]. intros _ _. split; [by apply HP|].
    intros d b' [= <-] L. cbn [default] in L. rewrite lookup_insert in L. case_decide; [|done]. injection L as <-. by apply Forall_replicate.
  - eapply triple_weaken; [apply (triple_ret (fun f' => P f' /\ f = default ∅ f')) | done|]. intros ? f' (_ & Hp & Ef). split; [done|].
    intros d b Ed L. rewrite Ef, Ed in E. cbn [default id] in E. congruence.
Qed.

(** ** The probe *)
Lemma steps_capabilities : triple any (capabilities U sh tool) (fun _ => any).
Proof.
  eapply (triple_bind any _ (fun _ => any)); [apply triple_still; intros s; eexists; split; [reflexivity | done]|].
  intros [c|]; [apply steps_ret|]. eapply (triple_bind any _ (fun _ => any)).
  - unfold probe. destruct (executable sh); [|apply steps_ret]. eapply (triple_bind any _ (fun _ => any)).
    + intros s s' r E _. unfold se_try in E. destruct ((x ← run [word "version"]; mret (Some x)) s) as [s1 r1] eqn:E1.
      assert (steps (x ← run [word "version"]; mret (Some x))) as T by (eapply triple_bind; [by apply triple_run | intros ?; apply steps_ret]).
      destruct (T _ _ _ E1 I) as (W & R & L & _). destruct r1 as [x|e]; [injection E as <- <-; by split_and!|].
      destruct (is_backend_error e); injection E as <- <-; by split_and!.
    + intros [[rc out]|]; [|apply steps_ret]. destruct (negb (rc =? 0)); [apply steps_ret|].
      eapply triple_bind; [apply steps_lift|]. intros [v|]; [|apply steps_ret]. destruct (str_ltb v _); [apply steps_ret|].
      assert (forall a b, steps (list_algorithms sh tool a b)) as Ls.
      { intros a b. eapply triple_bind; [by apply triple_run|]. intros [? ?]. apply steps_ret. }
      eapply triple_bind; [apply Ls|]. intros sigs. eapply triple_bind; [apply Ls|]. intros kems. apply steps_ret.
  - intros c. eapply (triple_bind any _ (fun _ => any)); [|intros; apply steps_ret].
    intros s s' r [= <- <-] _. split_and!; [done | done | exists []; by rewrite app_nil_r | done].
Qed.

Lemma steps_require : triple any (require_available U sh tool) (fun _ => any).
Proof. eapply triple_bind; [apply steps_capabilities|]. intros c. destruct (cap_available c); [apply steps_ret | apply triple_raise]. Qed.

(** ** Whole calls *)

(** From outside a work directory a call returns outside one; what it ran had public
    arguments; and if it succeeds, the secrets in the directory it removed are wiped. *)
Definition confines {A} (m : M A) (secrets : list string) : Prop :=
  forall s s' r, workdir s = None -> m s = (s', r) ->
    workdir s' = None /\ (exists l, runs s' = runs s ++ l /\ Forall public_args l) /\
    (is_ok r = true -> exists f, last (removed s') = Some f /\ Forall (fun name => wiped name (Some f)) secrets).

Lemma steps_confine {A B} (m : M A) (f : A -> M B) secrets :
  steps m -> (forall a, confines (f a) secrets) -> confines (m ≫= f) secrets.
Proof.
  intros Hm Hf s s' r W E. unfold mbind, se_bind in E. destruct (m s) as [s1 [a|e]] eqn:E1;
    destruct (Hm _ _ _ E1 I) as (W1 & R1 & (l1 & L1 & F1) & _).
  - assert (workdir s1 = None) as N by (destruct (workdir s1); [|done]; rewrite W in W1; by destruct (proj1 W1 ltac:(by eexists))).
    destruct (Hf a _ _ _ N E) as (W2 & (l2 & L2 & F2) & Q). split; [done|]. split; [|done].
    exists (l1 ++ l2). rewrite L2, L1, app_assoc. split; [done | by apply Forall_app].
  - injection E as <- <-. split; [|split; [eauto | done]]. destruct (workdir s1); [|done]. rewrite W in W1.
    by destruct (proj1 W1 ltac:(by eexists)).
Qed.

Lemma workdir_confines {A} (m : M A) secrets :
  triple inside m (fun _ f => Forall (fun name => wiped name f) secrets) -> confines (with_workdir m) secrets.
Proof.
  intros Hm s s' r W E. unfold with_workdir in E. destruct (m (set_files ∅ s)) as [s1 r1] eqn:E1. injection E as <- <-.
  destruct (Hm _ _ _ E1 ltac:(by eexists)) as (W1 & R1 & L & Q). split; [done|]. split; [done|]. intros Ho.
  destruct (proj2 W1 ltac:(by eexists)) as [f Ef]. exists f. cbn [removed drop_workdir]. rewrite Ef, last_snoc. split; [done|].
  destruct r1 as [a|]; [|done]. rewrite <- Ef. by apply (Q a).
Qed.

Lemma raise_confines {A} e secrets : confines (A := A) (raise e) secrets.
Proof. intros s s' r W [= <- <-]. split; [done|]. split; [exists []; by rewrite app_nil_r | done]. Qed.

(** The program may do anything with the files it is given. *)
Lemma run_ok_inside code m args : public_args args -> triple inside (run_ok code m args) (fun _ => inside).
Proof.
  intros Ha s s' r E Hp. destruct (triple_run_ok inside code m args Ha _ _ _ E Hp) as (W & R & L & _).
  split_and!; [done.. |]. intros _ _. by apply W.
Qed.

Lemma make_confines name algorithm : confines (make_keypair sh tool name algorithm) [].
Proof.
  apply workdir_confines. eapply triple_bind; [by apply run_ok_inside|]. intros ?.
  eapply triple_bind; [apply chmod_keeps|]. intros ?. eapply triple_bind; [apply read_keeps|]. intros private.
  eapply triple_bind; [by apply run_ok_inside|]. intros der. eapply triple_bind; [apply triple_lift|]. intros raw.
  eapply triple_weaken; [apply (triple_ret inside) | done | by constructor].
Qed.

Lemma sign_confines private message algorithm : confines (sign U sh tool private message algorithm) ["private.pem"%string].
Proof.
  apply steps_confine; [apply steps_require|]. intros ?. apply workdir_confines.
  eapply triple_bind; [apply touch_keeps|]. intros ?. eapply triple_bind; [apply write_keeps|]. intros ?.
  eapply triple_bind; [apply write_keeps|]. intros ?. eapply triple_bind; [by apply run_ok_inside|]. intros ?.
  eapply triple_bind; [apply read_keeps|]. intros signature.
  eapply triple_bind; [apply overwrite_wipes; by eexists|]. intros ?.
  eapply triple_weaken; [apply (triple_ret (fun f => inside f /\ wiped "private.pem" f)) | done|].
  intros _ f (_ & _ & ?). by constructor.
Qed.

Lemma encap_confines public algorithm : confines (kem_encapsulate U sh tool public algorithm) ["secret.bin"%string].
Proof.
  apply steps_confine; [apply steps_require|]. intros ?. apply steps_confine; [apply steps_lift|]. intros der. apply workdir_confines.
  eapply triple_bind; [apply write_keeps|]. intros ?. eapply triple_bind; [by apply run_ok_inside|]. intros ?.
  eapply triple_bind; [apply read_keeps|]. intros shared. eapply triple_bind; [apply read_keeps|]. intros ciphertext.
  eapply triple_bind; [apply overwrite_wipes; by eexists|]. intros ?.
  eapply triple_weaken; [apply (triple_ret (fun f => inside f /\ wiped "secret.bin" f)) | done|].
  intros _ f (_ & _ & ?). by constructor.
Qed.

Lemma decap_confines private ciphertext algorithm :
  confines (kem_decapsulate U sh tool private ciphertext algorithm) ["secret.bin"; "kem.pem"]%string.
Proof.
  apply steps_confine; [apply steps_require|]. intros ?. apply workdir_confines.
  eapply triple_bind; [apply touch_keeps|]. intros ?. eapply triple_bind; [apply write_keeps|]. intros ?.
  eapply triple_bind; [apply write_keeps|]. intros ?. eapply triple_bind; [by apply run_ok_inside|]. intros ?.
  eapply triple_bind; [apply read_keeps|]. intros shared.
  eapply triple_bind; [apply overwrite_wipes; by eexists|]. intros ?.
  eapply triple_bind; [apply overwrite_wipes|intros ?].
  - intros f b [I W]. split; [by eexists|]. intros d b' [= <-] L. rewrite lookup_insert_ne in L by done. by apply (W f b').
  - eapply triple_weaken; [apply (triple_ret (fun f => (inside f /\ wiped "secret.bin" f) /\ wiped "kem.pem" f)) | done|].
    intros _ f (_ & [_ ?] & ?). by repeat constructor.
Qed.

End Confinement.

(** ** Verification and capabilities *)
Section Answers.
Context (U : UnicodeDigits) (sh : Shell).
Context (tool : str -> option str -> list arg -> Files -> ran * Files).

Definition ready (s : State) : Prop := workdir s = None /\ exists c, cached s = Some c /\ cap_available c = true.

Lemma require_ready s : ready s -> require_available U sh tool s = (s, Ok tt).
Proof.
  intros (_ & c & C & A). unfold require_available, capabilities. rewrite (se_bind_eq _ _ s s c); [by rewrite A|].
  rewrite (se_bind_eq _ _ s s (cached s)) by done. by rewrite C.
Qed.

(** What a run of the program answers in a directory. *)
Definition answer (args : list arg) (f : Files) : res (Z * bytes) :=
  match executable sh with
  | None => Err (BackendUnavailableError "no openssl executable found")
  | Some exe =>
    match (tool exe (library_path sh exe) args f).1 with
    | Exited returncode stdout => Ok (returncode, stdout)
    | TimedOut => Err (BackendError "timeout" "openssl timed out")
    | CannotExecute => Err (BackendUnavailableError "cannot execute openssl")
    end
  end.

Lemma run_answer args s : (run sh tool args s).2 = answer args (default ∅ (workdir s)) /\
  cached (run sh tool args s).1 = cached s /\ (length (runs (run sh tool args s).1) <= S (length (runs s)))%nat /\
  (workdir s = None -> workdir (run sh tool args s).1 = None).
Proof.
  unfold run, answer. destruct (executable sh) as [exe|]; [|split_and!; [done | done | simpl; lia | done]].
  destruct (tool exe _ args _) as [o f]. cbn [fst snd cached runs workdir]. split_and!; [done | done | rewrite length_app; simpl; lia|].
  by intros ->.
Qed.

(** The file operations in a work directory. *)
Lemma write_eq name data f s : workdir s = Some f -> write_bytes name data s = (set_files (<[name := data]> f) s, Ok tt).
Proof. intros W. unfold write_bytes, files. rewrite (se_bind_eq _ _ s s f); [done|]. unfold gets. by rewrite W. Qed.

Lemma touch_eq name f s : workdir s = Some f -> f !! name = None -> touch name s = (set_files (<[name := []]> f) s, Ok tt).
Proof. intros W N. unfold touch, files. rewrite (se_bind_eq _ _ s s f); [by rewrite N|]. unfold gets. by rewrite W. Qed.

Lemma files_read_eq name b f s : workdir s = Some f -> f !! name = Some b -> read_bytes name s = (s, Ok b).
Proof. intros W N. unfold read_bytes, files. rewrite (se_bind_eq _ _ s s f); [by rewrite N|]. unfold gets. by rewrite W. Qed.

Lemma overwrite_eq name f s : workdir s = Some f -> exists g, overwrite name s = (set_files g s, Ok tt).
Proof.
  intros W. unfold overwrite, files. rewrite (se_bind_eq _ _ s s f) by (unfold gets; by rewrite W).
  destruct (f !! name); [by eexists|]. exists f. unfold set_files. destruct s; cbn in *. by subst.
Qed.

Definition verify_files (der message signature : bytes) : Files :=
  <["signature.bin" := signature]> (<["message.bin" := message]> {["public.der" := der]}).

Lemma verify_ready public message signature algorithm s der : ready s -> signature <> [] ->
  der_from_raw_public_key public algorithm = Ok der ->
  (verify U sh tool public message signature algorithm s).2 =
    ('(returncode, _) ← answer verify_args (verify_files der message signature); Ok (returncode =? 0)).
Proof.
  intros Hr Hs Hd. unfold verify. rewrite (se_bind_eq _ _ _ _ _ (require_ready s Hr)), Hd.
  rewrite (proj2 (str_eqb_neq _ _) Hs). unfold with_workdir.
  rewrite (se_bind_eq _ _ _ _ _ (write_eq "public.der" der ∅ (set_files ∅ s) eq_refl)).
  rewrite (se_bind_eq _ _ _ _ _ (write_eq "message.bin" message _ (set_files _ _) eq_refl)).
  rewrite (se_bind_eq _ _ _ _ _ (write_eq "signature.bin" signature _ (set_files _ _) eq_refl)).
  match goal with |- context [(run _ _ _ ≫= ?k) ?s2] => pose proof (run_answer verify_args s2) as (A & _) end.
  cbn [workdir set_files default] in A. unfold id in A. rewrite insert_empty in A. fold (verify_files der message signature) in A.
  unfold mbind at 1, se_bind at 1. destruct (run sh tool verify_args _) as [s1 r1]. cbn [snd] in A. subst r1.
  by destruct (answer verify_args _) as [[rc out]|].
Qed.

(** Verification accepts what the program accepts and nothing else: with an available
    backend, an empty signature or a key of the wrong size is refused without a run; otherwise
    the answer is whether the program, on exactly the DER form of the key, the message and the
    signature, exits with 0 - only a program that does not run or does not end raises. *)
Theorem verify_accepts public message signature algorithm s s' r : ready s ->
  verify U sh tool public message signature algorithm s = (s', r) ->
  match der_from_raw_public_key public algorithm with
  | Ok der =>
    if str_eqb signature [] then r = Ok false /\ runs s' = runs s
    else r = ('(returncode, _) ← answer verify_args (verify_files der message signature); Ok (returncode =? 0))
  | Err _ => r = Ok false /\ runs s' = runs s
  end.
Proof.
  intros Hr E. pose proof (spki_exact public algorithm) as X. pose proof (verify_ready public message signature algorithm s) as V.
  destruct (str_eqb signature []) eqn:Es.
  - unfold verify in E. rewrite (se_bind_eq _ _ _ _ _ (require_ready s Hr)), Es in E. injection E as <- <-.
    by destruct (der_from_raw_public_key public algorithm).
  - destruct (der_from_raw_public_key public algorithm) as [der|e] eqn:D.
    + rewrite E in V. apply V; [done | by apply str_eqb_neq | done].
    + unfold verify in E. rewrite (se_bind_eq _ _ _ _ _ (require_ready s Hr)), Es, D in E. destruct X as [X _]. rewrite X in E.
      by injection E as <- <-.
Qed.

(** ** Capabilities *)
Lemma listed_known prefix text a : a ∈ sorted_names (listed prefix text) ->
  starts_with prefix a = true /\ is_Some (assoc RAW_PUBLIC_KEY_SIZES a).
Proof.
  unfold sorted_names. rewrite sort_by_perm, elem_of_elements, elem_of_list_to_set. unfold listed.
  rewrite list_elem_of_In, filter_In. intros [_ H]. bool_prop. done.
Qed.

(** The names of the algorithms a run of [openssl list] shows. *)
Definition shown (flag prefix : string) : list str :=
  match answer [word "list"; word flag] ∅ with
  | Ok (returncode, out) => if returncode =? 0 then sorted_names (listed (lit prefix) (utf8_decode_replace out)) else []
  | Err _ => []
  end.

Lemma list_eq flag prefix s s' l : workdir s = None -> list_algorithms sh tool flag prefix s = (s', Ok l) ->
  l = shown flag prefix /\ cached s' = cached s /\ workdir s' = None /\ (length (runs s') <= S (length (runs s)))%nat.
Proof.
  intros W E. unfold list_algorithms in E. pose proof (run_answer [word "list"; word flag] s) as (A & C & L & N).
  rewrite W in A. cbn [default] in A. unfold mbind, se_bind in E. unfold shown.
  destruct (run sh tool _ s) as [s1 [[rc out]|e]]; [|done]. cbn [fst snd] in *. injection E as <- <-. rewrite <- A. auto.
Qed.

(** The program is there, is recent enough, and shows an ML-DSA algorithm. *)
Definition suitable : Prop := exists out version, answer [word "version"] ∅ = Ok (0, out) /\
  parse_openssl_version U (strip (utf8_decode_replace out)) = Ok (Some version) /\
  str_ltb version MIN_OPENSSL_VERSION = false /\ shown "-signature-algorithms" "ML-DSA" <> [].

Definition no_capability (c : Capabilities) : Prop := c = NO_CAPABILITIES /\ ~ suitable.

Lemma probe_spec s s' c : workdir s = None -> probe U sh tool s = (s', Ok c) ->
  (length (runs s') <= 3 + length (runs s))%nat /\ (no_capability c \/
    (suitable /\ c = {| cap_name := OPENSSL_BACKEND; cap_available := true;
      cap_signature_algorithms := shown "-signature-algorithms" "ML-DSA"; cap_kem_algorithms := shown "-kem-algorithms" "ML-KEM";
      cap_real_pqc := true |})).
Proof.
  intros W E. unfold probe in E. destruct (executable sh) as [exe|] eqn:X.
  2: { injection E as <- <-. split; [lia|]. left. split; [done|]. intros (out & v & A & _). unfold answer in A. by rewrite X in A. }
  pose proof (run_answer [word "version"] s) as (A & C & L & N). rewrite W in A. cbn [default] in A.
  unfold mbind at 1, se_bind at 1, se_try in E. unfold mbind at 1, se_bind at 1 in E.
  destruct (run sh tool [word "version"] s) as [s1 [[rc out]|e]]; cbn [fst snd] in *.
  2: { destruct (is_backend_error e); [|done]. injection E as <- <-. split; [lia|]. left. split; [done|].
       intros (out & v & A' & _). rewrite <- A in A'. discriminate A'. }
  cbn [mret se_ret] in E. destruct (Z.eqb_spec rc 0) as [->|Nz]; cbn [negb] in E.
  2: { injection E as <- <-. split; [lia|]. left. split; [done|]. intros (out' & v & A' & _). rewrite <- A in A'. by injection A' as ->. }
  apply lift_bind_cases in E as [(x & _ & _ & [=])|(parsed & P & E)].
  assert (forall v, parsed = Some v -> str_ltb v MIN_OPENSSL_VERSION = false -> shown "-signature-algorithms" "ML-DSA" <> [] -> suitable) as Su.
  { intros v -> Hv Hs. by exists out, v. }
  assert (suitable -> exists v, parsed = Some v /\ str_ltb v MIN_OPENSSL_VERSION = false /\ shown "-signature-algorithms" "ML-DSA" <> []) as Su'.
  { intros (out' & v & A' & P' & V & S). rewrite <- A in A'. injection A' as <-. rewrite P in P'. injection P' as ->. by exists v. }
  destruct parsed as [v|]; [|injection E as <- <-; split; [lia|]; left; split; [done|]; intros (v & [=] & _)%Su'].
  destruct (str_ltb v MIN_OPENSSL_VERSION) eqn:V.
  { injection E as <- <-. split; [lia|]. left. split; [done|]. intros (v' & [= <-] & V' & _)%Su'. congruence. }
  specialize (N W). apply se_bind_ok in E as (s2 & sigs & E1 & E). apply list_eq in E1 as (-> & C2 & N2 & L2); [|done].
  apply se_bind_ok in E as (s3 & kems & E1 & E). apply list_eq in E1 as (-> & C3 & N3 & L3); [|done]. injection E as <- <-.
  split; [lia|]. destruct (shown "-signature-algorithms" "ML-DSA") eqn:Sg; [left | right]; split; try done.
  - intros (v' & _ & _ & S)%Su'. done.
  - by apply (Su v).
Qed.

(** Capabilities mean what they say and are probed once: a first answer costs at most
    three runs and says available exactly when the program runs, reports OpenSSL 3.5 or
    newer, and lists an ML-DSA algorithm; it names only listed algorithms whose key size is
    known; and from then on the same answer is given without another run. *)
Theorem capabilities_probe s s' c : workdir s = None -> cached s = None -> capabilities U sh tool s = (s', Ok c) ->
  (cap_available c = true <-> suitable) /\
  (forall a, a ∈ cap_signature_algorithms c -> starts_with (lit "ML-DSA") a = true /\ is_Some (assoc RAW_PUBLIC_KEY_SIZES a)) /\
  (length (runs s') <= 3 + length (runs s))%nat /\ capabilities U sh tool s' = (s', Ok c).
Proof.
  intros W C E. unfold capabilities in E. rewrite (se_bind_eq _ _ s s (cached s)), C in E by done.
  apply se_bind_ok in E as (s1 & c1 & P & E). injection E as <- <-. apply probe_spec in P as [L P]; [|done].
  assert (capabilities U sh tool (set_cached c1 s1) = (set_cached c1 s1, Ok c1)) as K.
  { unfold capabilities. by rewrite (se_bind_eq _ _ _ (set_cached c1 s1) (Some c1)). }
  destruct P as [[-> P]|[P ->]]; (split; [by split|]; split; [|by split]).
  - intros a H. by apply elem_of_nil in H.
  - intros a H. cbn [cap_signature_algorithms] in H. unfold shown in H.
    destruct (answer _ _) as [[rc out]|]; [|by apply elem_of_nil in H]. destruct (rc =? 0); [by apply listed_known in H | by apply elem_of_nil in H].
Qed.

(** ** A program that keeps its contract *)

(** What the manual pages of [genpkey], [pkey] and [pkeyutl] promise for one algorithm: a key
    is written where it is asked for, its public half is exported as [SubjectPublicKeyInfo],
    and a signature made with a key verifies under its public half. *)
Class Contract (algorithm : str) := {
  public_of : bytes -> bytes;
  genpkey_makes ld exe name f : exists out key, tool exe ld (genpkey_args algorithm name) f = (Exited 0 out, <[name := key]> f);
  pubout_exports ld exe name f key : f !! name = Some key -> tool exe ld (pubout_args name) f = (Exited 0 (public_of key), f);
  public_is_spki key : exists raw, der_from_raw_public_key raw algorithm = Ok (public_of key);
  sign_signs ld exe f key message : f !! "private.pem"%string = Some key -> f !! "message.bin"%string = Some message ->
    exists out signature, tool exe ld sign_args f = (Exited 0 out, <["signature.bin"%string := signature]> f) /\ signature <> [] /\
      forall exe' ld', exists out', (tool exe' ld' verify_args (verify_files (public_of key) message signature)).1 = Exited 0 out';
}.

(** A run inside a directory. *)
Lemma run_ok_eq exe s f code m args out f' : executable sh = Some exe -> workdir s = Some f ->
  tool exe (library_path sh exe) args f = (Exited 0 out, f') ->
  exists s', run_ok sh tool code m args s = (s', Ok out) /\ workdir s' = Some f' /\ cached s' = cached s.
Proof.
  intros X W T. unfold run_ok, run. rewrite X. unfold mbind, se_bind. rewrite W. cbn [default]. unfold id. rewrite T.
  by eexists.
Qed.

Lemma drop_ready s s0 : ready s0 -> cached s = cached s0 -> ready (drop_workdir s).
Proof. intros (_ & c & C & A) E. split; [done|]. exists c. by rewrite <- C. Qed.

Context {algorithm : str} `{!Contract algorithm} (exe : str) (X : executable sh = Some exe).

Lemma generate_ready s : ready s -> exists s' kp, generate_keypair U sh tool algorithm s = (s', Ok kp) /\ ready s' /\
  der_from_raw_public_key (kp_public kp) algorithm = Ok (public_of (kp_private kp)).
Proof.
  intros Hr. unfold generate_keypair. rewrite (se_bind_eq _ _ _ _ _ (require_ready s Hr)). unfold make_keypair, with_workdir.
  destruct (genpkey_makes (library_path sh exe) exe "private.pem" ∅) as (out & key & T).
  destruct (run_ok_eq exe (set_files ∅ s) ∅ "keygen_failed" "openssl genpkey failed" _ _ _ X eq_refl T) as (s1 & E1 & W1 & C1).
  rewrite (se_bind_eq _ _ _ _ _ E1). assert (({["private.pem"%string := key]} : Files) !! "private.pem"%string = Some key) as K by apply lookup_singleton_eq.
  rewrite insert_empty in W1. pose proof (files_read_eq "private.pem" key _ s1 W1 K) as Rd.
  assert (chmod "private.pem" s1 = (s1, Ok tt)) as Ch by (unfold chmod; by rewrite (se_bind_eq _ _ _ _ _ Rd)).
  rewrite (se_bind_eq _ _ _ _ _ Ch), (se_bind_eq _ _ _ _ _ Rd).
  destruct (run_ok_eq exe s1 _ "pubkey_export_failed" "openssl failed to export the public key" _ _ _ X W1
    (pubout_exports (library_path sh exe) exe "private.pem" _ key K)) as (s2 & E2 & W2 & C2).
  rewrite (se_bind_eq _ _ _ _ _ E2). destruct (public_is_spki key) as [raw D]. pose proof (spki_exact raw algorithm) as Sp.
  rewrite D in Sp. destruct Sp as (_ & Sp & _). rewrite lift_bind, Sp.
  eexists _, _. split; [reflexivity|]. split; [|exact D]. apply (drop_ready _ s Hr). rewrite C2, C1. done.
Qed.

Lemma sign_ready s key message : ready s -> exists s' signature, sign U sh tool key message algorithm s = (s', Ok signature) /\
  ready s' /\ signature <> [] /\
  exists out, answer verify_args (verify_files (public_of key) message signature) = Ok (0, out).
Proof.
  intros Hr. unfold sign. rewrite (se_bind_eq _ _ _ _ _ (require_ready s Hr)). unfold with_workdir.
  rewrite (se_bind_eq _ _ _ _ _ (touch_eq "private.pem" ∅ (set_files ∅ s) eq_refl (lookup_empty _))).
  rewrite (se_bind_eq _ _ _ _ _ (write_eq "private.pem" key _ (set_files _ _) eq_refl)).
  rewrite (se_bind_eq _ _ _ _ _ (write_eq "message.bin" message _ (set_files _ _) eq_refl)).
  match goal with |- context [(run_ok _ _ _ _ _ ≫= _) (set_files ?f ?s0)] => set (g := f); set (s1 := set_files g s0) end.
  destruct (sign_signs (library_path sh exe) exe g key message) as (out & signature & T & Ns & V).
  { unfold g. rewrite lookup_insert_ne by done. apply lookup_insert_eq. }
  { apply lookup_insert_eq. }
  destruct (run_ok_eq exe s1 g "sign_failed" "openssl signing failed" _ _ _ X eq_refl T) as (s2 & E2 & W2 & C2).
  rewrite (se_bind_eq _ _ _ _ _ E2).
  rewrite (se_bind_eq _ _ _ _ _ (files_read_eq "signature.bin" signature _ s2 W2 (lookup_insert_eq _ _ _))).
  destruct (overwrite_eq "private.pem" _ s2 W2) as (h & E3). rewrite (se_bind_eq _ _ _ _ _ E3).
  eexists _, _. split; [reflexivity|]. split; [apply (drop_ready _ s Hr); cbn [cached set_files]; by rewrite C2|]. split; [done|].
  destruct (V exe (library_path sh exe)) as [out' V']. exists out'. unfold answer. by rewrite X, V'.
Qed.

End Answers.

(** ** A program that keeps the contract for ML-DSA-44 *)
Definition ALG44 : str := lit "ML-DSA-44".
Definition toy_public (key : bytes) : bytes :=
  match der_from_raw_public_key (take 1312 (key ++ replicate 1312 0)) ALG44 with Ok der => der | Err _ => [] end.

Definition toy_tool (exe : str) (ld : option str) (args : list arg) (f : Files) : ran * Files :=
  match args with
  | [_] => (Exited 0 (lit "OpenSSL 3.5.1 1 Jul 2025 (Library: OpenSSL 3.5.1)"), f)
  | [_; _] => (Exited 0 (lit "  { 2.16.840.1.101.3.4.3.17, id-ml-dsa-44, ML-DSA-44, MLDSA44 } @ default"), f)
  | [_; _; _; _; Path name] => (Exited 0 [], <[name := [7; 8; 9]]> f)
  | [_; _; Path name; _; _; _] => match f !! name with Some key => (Exited 0 (toy_public key), f) | None => (Exited 1 [], f) end
  | [_; _; _; _; _; _; Path message; _; Path signature] => (Exited 0 [], <[signature := 1 :: default [] (f !! message)]> f)
  | [_; _; _; _; _; _; _; _; _; Path message; _; Path signature] =>
    (Exited (if bool_decide (f !! signature = Some (1 :: default [] (f !! message))) then 0 else 1) [], f)
  | _ => (Exited 1 [], f)
  end.

Definition toy_shell : Shell := {|
  sh_explicit := None; sh_env := None; sh_is_file := fun _ => false; sh_which := fun _ => Some (lit "/usr/bin/openssl");
  sh_lib_dir := fun _ => None; sh_ld_path := [] |}.

Lemma toy_raw key : exists raw, der_from_raw_public_key raw ALG44 = Ok (toy_public key).
Proof.
  exists (take 1312 (key ++ replicate 1312 0)). unfold toy_public. pose proof (spki_exact (take 1312 (key ++ replicate 1312 0)) ALG44) as S.
  destruct (der_from_raw_public_key _ ALG44) as [der|e]; [done|]. destruct S as [_ S]. destruct S.
  unfold zlen. rewrite length_take, length_app, length_replicate. rewrite Nat.min_l by lia. reflexivity.
Qed.

#[export] Instance toy_contract : Contract toy_tool ALG44.
Proof.
  refine {| public_of := toy_public |}.
  - intros ld exe name f. by exists [], [7; 8; 9].
  - intros ld exe name f key K. cbn. by rewrite K.
  - apply toy_raw.
  - intros ld exe f key message K Hm. cbn. rewrite Hm. cbn [default]. unfold id. exists [], (1 :: message). split; [done|]. split; [done|].
    intros _ _. exists []. cbn. unfold verify_files. rewrite lookup_insert_eq, (lookup_insert_ne _ "signature.bin" "message.bin"), lookup_insert_eq by done. cbn [default]. unfold id.
    by rewrite bool_decide_true.
Qed.

Definition toy_ready : State := (capabilities no_digits toy_shell toy_tool new_backend).1.

Lemma toy_ready_ok : ready toy_ready.
Proof.
  assert (workdir toy_ready = None /\ match cached toy_ready with Some c => cap_available c | None => false end = true) as [W V]
    by (split; vm_compute; reflexivity).
  split; [exact W|]. destruct (cached toy_ready) as [c|]; [by exists c | done].
Qed.


Lemma verify_accepts_witness : exists r,
  (verify no_digits toy_shell toy_tool (replicate 1312 3) [1; 2] [9] ALG44 toy_ready).2 = r /\ r = Ok false.
Proof.
  destruct (verify no_digits toy_shell toy_tool (replicate 1312 3) [1; 2] [9] ALG44 toy_ready) as [s' r] eqn:E. exists r.
  split; [reflexivity|]. pose proof (verify_accepts no_digits toy_shell toy_tool _ _ _ _ _ _ _ toy_ready_ok E) as V.
  destruct (der_from_raw_public_key (replicate 1312 3) ALG44) as [der|] eqn:D; [|exact (proj1 V)].
  exact V.
Defined.

Lemma capabilities_probe_witness : exists c s', capabilities no_digits toy_shell toy_tool new_backend = (s', Ok c) /\
  cap_signature_algorithms c = [ALG44] /\ suitable no_digits toy_shell toy_tool /\
  capabilities no_digits toy_shell toy_tool s' = (s', Ok c).
Proof.
  assert (match (capabilities no_digits toy_shell toy_tool new_backend).2 with
    Ok c => cap_available c && bool_decide (cap_signature_algorithms c = [ALG44]) | Err _ => false end = true) as V by (vm_compute; reflexivity).
  destruct (capabilities no_digits toy_shell toy_tool new_backend) as [s' [c|e]] eqn:E; [|discriminate V]. cbn [snd] in V.
  apply andb_true_iff in V as [A L]. exists c, s'. split; [reflexivity|]. split; [by apply bool_decide_eq_true in L|].
  destruct (capabilities_probe no_digits toy_shell toy_tool new_backend s' c eq_refl eq_refl E) as (S & _ & _ & K).
  split; [by apply S | exact K].
Defined.
