(* ===== verification/EventChain.v ===== *)
(** The SHA3-256 event chain: [src/ics_deception/pqc_evidence/event_chain.py]. *)
From S2P Require Import Prelude PyText Json JsonFacts JsonScan Hashes IsoTime Canonicalizer Models.

Definition GENESIS_DOMAIN : bytes := lit "ics-deception/pqc-evidence/genesis/v1/".
Definition FIRST_SEQUENCE := 1.

(** [hashlib.sha3_256(m).hexdigest()] *)
Definition hash_hex (m : bytes) : str := hex (sha3_256 m).

Definition genesis_previous_hash (node_id : str) : res str :=
  b ← utf8_encode node_id; Ok (hash_hex (GENESIS_DOMAIN ++ b)).

Definition is_genesis (e : SignedEvent) : bool := se_sequence e =? FIRST_SEQUENCE.

Definition expected_previous_hash (node_id : str) (sequence : Z) (last : option str) : res str :=
  if sequence =? FIRST_SEQUENCE then genesis_previous_hash node_id
  else match last with
       | None => Err (ValueError "requires a previous event hash")
       | Some h => Ok h
       end.

Definition compute_event_hash (e : SignedEvent) : res str := p ← hash_payload e; Ok (hash_hex p).

(** [hmac.compare_digest] on two str: both must be ASCII. *)
Definition compare_digest (a b : str) : res bool :=
  if forallb is_ascii a && forallb is_ascii b then Ok (str_eqb a b) else Err (TypeError "non-ASCII digest").

Definition verify_event_hash (e : SignedEvent) : res bool :=
  h ← compute_event_hash e; compare_digest h (se_event_hash e).

Record ChainPosition := {
  cp_node_id : str;
  cp_last_sequence : Z;
  cp_last_event_hash : option str;
}.

Definition new_position (node_id : str) : ChainPosition :=
  {| cp_node_id := node_id; cp_last_sequence := 0; cp_last_event_hash := None |}.

Definition next_sequence (p : ChainPosition) : Z := cp_last_sequence p + 1.

Definition previous_hash_for_next (p : ChainPosition) : res str :=
  expected_previous_hash (cp_node_id p) (next_sequence p) (cp_last_event_hash p).

(** [advance(event, event_hash=None)] *)
Definition advance (p : ChainPosition) (e : SignedEvent) (event_hash : option str) : ChainPosition :=
  {| cp_node_id := cp_node_id p; cp_last_sequence := se_sequence e;
     cp_last_event_hash := Some (match event_hash with Some h => h | None => se_event_hash e end) |}.

Definition position_to_dict (p : ChainPosition) : list (str * value) := [
  (lit "node_id", VStr (cp_node_id p));
  (lit "last_sequence", VInt (cp_last_sequence p));
  (lit "last_event_hash", match cp_last_event_hash p with Some h => VStr h | None => VNone end)].

(** ** Facts *)
Lemma hash_hex_spec m : length (hash_hex m) = 64%nat /\ forallb is_hex (hash_hex m) = true.
Proof.
  unfold hash_hex. destruct (sha3_256_spec m) as [L B]. destruct (hex_spec _ B) as [L' F].
  rewrite L', L. done.
Qed.

Lemma hash_hex_inj a b : hash_hex a = hash_hex b -> sha3_256 a = sha3_256 b.
Proof. apply hex_inj; apply sha3_256_spec. Qed.

Lemma hash_hex_valid m : validate_hash (VStr (hash_hex m)) = Ok (hash_hex m).
Proof.
  destruct (hash_hex_spec m) as [L F]. unfold validate_hash, require_, require, hash_match, zlen.
  rewrite L. change (64 <=? Z.of_nat 64) with true.
  rewrite take_ge, drop_ge by (rewrite L; done). by rewrite F.
Qed.

(** A SHA3-256 collision: two different messages with one digest. *)
Definition collision : Prop := exists x y : bytes, x <> y /\ sha3_256 x = sha3_256 y.

Lemma hash_hex_collision a b : hash_hex a = hash_hex b -> a = b \/ collision.
Proof.
  intros E%hash_hex_inj. destruct (decide (a = b)) as [?|N]; [by left|]. right. by exists a, b.
Qed.

(** What the event hash binds: every field but the hash itself and the signature, the nested
    event up to key order. *)
Record same_content (e f : SignedEvent) : Prop := {
  sc_version : se_format_version e = se_format_version f;
  sc_node : se_node_id e = se_node_id f;
  sc_sequence : se_sequence e = se_sequence f;
  sc_timestamp : se_timestamp e = se_timestamp f;
  sc_previous : se_previous_event_hash e = se_previous_event_hash f;
  sc_event : normal true (VDict (se_event e)) = normal true (VDict (se_event f));
  sc_sig_alg : se_signature_algorithm e = se_signature_algorithm f;
  sc_hash_alg : se_hash_algorithm e = se_hash_algorithm f;
  sc_key : se_key_id e = se_key_id f;
}.

Definition hash_doc (e : SignedEvent) : value := VDict (as_dict (without HASH_EXCLUDED (to_items e))).

Lemma pyval_without excl e : pyval (to_dict e) = true ->
  pyval (VDict (as_dict (without excl (to_items e)))) = true.
Proof.
  intros [F N]%pyval_dict. apply pyval_dict. rewrite as_dict_keys in *. split.
  - unfold as_dict in *. rewrite Forall_map in *. rewrite Forall_forall in *.
    intros x Hx. apply F. apply list_elem_of_In in Hx. apply filter_In in Hx as [Hx _]. by apply list_elem_of_In.
  - clear F. unfold without. induction (to_items e) as [|x l IH]; [done|]. simpl in *.
    apply NoDup_cons in N as [Hx N]. case_match; [|auto]. simpl. constructor; [|auto].
    intros Hin. apply Hx. apply list_elem_of_In, in_map_iff in Hin as (y & <- & Hy).
    apply filter_In in Hy as [Hy _]. apply list_elem_of_In, in_map_iff. eauto.
Qed.

Definition sorted_hash_items (e : SignedEvent) (ev : value) : list (str * value) := [
  (lit "event", ev);
  (lit "format_version", VStr (se_format_version e));
  (lit "hash_algorithm", VStr (se_hash_algorithm e));
  (lit "key_id", VStr (se_key_id e));
  (lit "node_id", VStr (se_node_id e));
  (lit "previous_event_hash", VStr (se_previous_event_hash e));
  (lit "sequence", VInt (se_sequence e));
  (lit "signature_algorithm", VStr (se_signature_algorithm e));
  (lit "timestamp", VStr (se_timestamp e))].

Lemma normal_hash_doc e :
  normal true (hash_doc e) = VDict (as_dict (sorted_hash_items e (normal true (VDict (se_event e))))).
Proof. reflexivity. Qed.

(** Equal hash payloads mean equal content. *)
Lemma hash_payload_inj e f b : pyval (to_dict e) = true -> pyval (to_dict f) = true ->
  hash_payload e = Ok b -> hash_payload f = Ok b -> same_content e f.
Proof.
  intros He Hf Ee Ef. apply (pyval_without HASH_EXCLUDED) in He, Hf. unfold hash_payload in *.
  pose proof (canonical_doc_eq _ _ b He Hf Ee Ef) as N. fold (hash_doc e) (hash_doc f) in N.
  rewrite !normal_hash_doc in N.
  remember (normal true (VDict (se_event e))) as ve eqn:Ve. remember (normal true (VDict (se_event f))) as vf eqn:Vf.
  injection N as N1 N2 N3 N4 N5 N6 N7 N8 N9. constructor; congruence.
Qed.

(** Equal event hashes mean equal content, or a collision in hand. *)
Lemma event_hash_binds e f h : pyval (to_dict e) = true -> pyval (to_dict f) = true ->
  compute_event_hash e = Ok h -> compute_event_hash f = Ok h -> same_content e f \/ collision.
Proof.
  intros He Hf Ee Ef. unfold compute_event_hash in *.
  destruct (hash_payload e) as [p|] eqn:Pe; [|done]. destruct (hash_payload f) as [q|] eqn:Pf; [|done].
  simpl in *. injection Ee as Ee. injection Ef as Ef.
  destruct (hash_hex_collision p q) as [->|C]; [congruence | left | by right].
  by eapply hash_payload_inj.
Qed.

(** ** The chain a node's records must form

    [chain sequence previous es]: the records continue a chain whose next sequence number is
    [sequence] and whose last event hash is [previous]. *)
Fixpoint chain (sequence : Z) (previous : str) (es : list SignedEvent) : Prop :=
  match es with
  | [] => True
  | e :: r => se_sequence e = sequence /\ se_previous_event_hash e = previous /\
              compute_event_hash e = Ok (se_event_hash e) /\ chain (sequence + 1) (se_event_hash e) r
  end.

(** A whole chain: from the node's genesis value on. *)
Definition valid_chain (node_id : str) (es : list SignedEvent) : Prop :=
  exists g, genesis_previous_hash node_id = Ok g /\ chain FIRST_SEQUENCE g es.

(** The hash the next record must link to. *)
Definition tip (previous : str) (es : list SignedEvent) : str :=
  match last es with Some e => se_event_hash e | None => previous end.

Lemma tip_snoc p es e : tip p (es ++ [e]) = se_event_hash e.
Proof. unfold tip. by rewrite last_snoc. Qed.

Lemma tip_cons p e es : tip p (e :: es) = tip (se_event_hash e) es.
Proof. unfold tip. rewrite last_cons. by destruct (last es). Qed.

Lemma chain_app es : forall n p fs,
  chain n p (es ++ fs) <-> chain n p es /\ chain (n + zlen es) (tip p es) fs.
Proof.
  induction es as [|e es IH]; intros n p fs.
  - cbn [app chain]. rewrite zlen_nil, Z.add_0_r. unfold tip. simpl. tauto.
  - cbn [app chain]. rewrite IH, tip_cons, zlen_cons. replace (n + 1 + zlen es) with (n + (1 + zlen es)) by lia. tauto.
Qed.

Lemma chain_snoc n p es e :
  chain n p (es ++ [e]) <-> chain n p es /\ se_sequence e = n + zlen es /\
    se_previous_event_hash e = tip p es /\ compute_event_hash e = Ok (se_event_hash e).
Proof. rewrite chain_app. simpl. tauto. Qed.

Lemma chain_sequence es : forall n p e, chain n p es -> e ∈ es -> n <= se_sequence e < n + zlen es.
Proof.
  induction es as [|f es IH]; intros n p e H Hin; [by apply elem_of_nil in Hin|]. simpl in H.
  destruct H as (H1 & H2 & H3 & H4). rewrite zlen_cons. pose proof (zlen_nonneg es).
  apply elem_of_cons in Hin as [->|Hin]; [lia|]. specialize (IH _ _ _ H4 Hin). lia.
Qed.

(** The records two chains with the same tip must share. *)
Definition pyvals (es : list SignedEvent) : Prop := Forall (fun e => pyval (to_dict e) = true) es.

Lemma pyvals_snoc es e : pyvals (es ++ [e]) <-> pyvals es /\ pyval (to_dict e) = true.
Proof. unfold pyvals. by rewrite Forall_app, Forall_singleton. Qed.

Lemma chains_agree n p es : forall fs m,
  pyvals es -> pyvals fs -> chain n p es -> chain m p fs -> n = m -> zlen es = zlen fs ->
  tip p es = tip p fs -> Forall2 same_content es fs \/ collision.
Proof.
  induction es as [|e es IH] using rev_ind; intros fs m Pe Pf He Hf -> L T.
  - destruct fs; [by left | rewrite zlen_nil, zlen_cons in L; pose proof (zlen_nonneg fs); lia].
  - destruct fs as [|f fs _] using rev_ind.
    { rewrite zlen_app, zlen_cons, zlen_nil in L. pose proof (zlen_nonneg es). lia. }
    rewrite !tip_snoc in T. apply chain_snoc in He as (He & Se & Qe & Ce), Hf as (Hf & Sf & Qf & Cf).
    apply pyvals_snoc in Pe as [Pe Pe1], Pf as [Pf Pf1].
    rewrite T in Ce. destruct (event_hash_binds e f _ Pe1 Pf1 Ce Cf) as [S|C]; [|by right].
    rewrite !zlen_app, !zlen_cons, !zlen_nil in L.
    destruct (IH fs m Pe Pf He Hf eq_refl) as [F|C]; [lia | | | by right].
    + rewrite <- Qe, <- Qf. apply S.
    + left. apply Forall2_app; [done|]. by constructor.
Qed.

(** C23. A chain's head commits to its whole history: two chains of one node that end in the
    same event hash hold the same records - as many, in the same order, with the same content
    up to the key order of the nested events - or a SHA3-256 collision is in hand.  Deleting,
    inserting, reordering or editing any record changes every later head. *)
Theorem chain_head_binds (node_id : str) (es fs : list SignedEvent) (e f : SignedEvent)
  (Pe : pyvals (es ++ [e])) (Pf : pyvals (fs ++ [f]))
  (He : valid_chain node_id (es ++ [e])) (Hf : valid_chain node_id (fs ++ [f]))
  (Hh : se_event_hash e = se_event_hash f) :
  Forall2 same_content (es ++ [e]) (fs ++ [f]) \/ collision.
Proof.
  destruct He as (g & Hg & He), Hf as (g' & Hg' & Hf). rewrite Hg in Hg'. injection Hg' as <-.
  pose proof (proj1 (chain_snoc _ _ _ _) He) as (_ & Se & _ & Ce).
  pose proof (proj1 (chain_snoc _ _ _ _) Hf) as (_ & Sf & _ & Cf).
  pose proof (proj1 (pyvals_snoc _ _) Pe) as [_ Pe1]. pose proof (proj1 (pyvals_snoc _ _) Pf) as [_ Pf1]. rewrite Hh in Ce.
  destruct (event_hash_binds e f _ Pe1 Pf1 Ce Cf) as [S|C]; [|by right].
  pose proof (sc_sequence _ _ S). eapply chains_agree; try done.
  - rewrite !zlen_app, !zlen_cons, !zlen_nil. lia.
  - by rewrite !tip_snoc.
Qed.
