(* ===== verification/KeyRegistry.v ===== *)
(** The trusted public-key registry: [src/ics_deception/pqc_evidence/key_registry.py].

    The registry's dict from key identifiers to records is the list of its records in
    insertion order.  Mutating methods take the registry and return the new one together
    with the outcome, because some of them change it before they raise.  The current time
    ([_utc_now()]) is an argument. *)
From S2P Require Import Prelude PyText PyStr Json JsonFacts JsonScan Hashes IsoTime Canonicalizer Models.

Definition REGISTRY_FORMAT_VERSION : str := lit "1.0".
Definition MAX_REGISTRY_BYTES := 8 * 1024 * 1024.

Inductive KeyState := ACTIVE | ROTATED | REVOKED | EXPIRED | DISABLED.
#[export] Instance KeyState_eq_dec : EqDecision KeyState.
Proof. solve_decision. Defined.

Definition state_value (s : KeyState) : str :=
  lit match s with ACTIVE => "active" | ROTATED => "rotated" | REVOKED => "revoked"
                 | EXPIRED => "expired" | DISABLED => "disabled" end.
Definition key_states : list KeyState := [ACTIVE; ROTATED; REVOKED; EXPIRED; DISABLED].

(** [KeyState(value)] *)
Definition parse_state (v : value) : option KeyState :=
  match v with
  | VStr s => List.find (fun k => str_eqb (state_value k) s) key_states
  | _ => None
  end.

(** [fingerprint]: the first eight digest bytes as colon-separated pairs. *)
Definition fingerprint (public_key : bytes) : str :=
  join [58] (map (fun b => hex [b]) (take 8 (sha3_256 public_key))).

Definition registry_error {A} (m : string) : res A := Err (KeyRegistryError m).

(** [datetime.strptime(t, "%Y-%m-%dT%H:%M:%S.%fZ")] on a normalised timestamp, as
    microseconds: the fields are read by position; a year short of four digits does not
    match the format. *)
Definition strptime_z (t : str) : res Z :=
  if (length t =? 27)%nat then
    let num a b := from_digits (slice t a b) in
    Ok (local_us {| dt_year := num 0 4; dt_month := num 5 7; dt_day := num 8 10;
                    dt_hour := num 11 13; dt_min := num 14 16; dt_sec := num 17 19;
                    dt_us := num 20 26; dt_off := Some 0 |})
  else Err (ValueError "time data does not match format").

Definition parse_time (v : value) : res Z :=
  normalized ← try_with (normalize_timestamp v) (fun _ => registry_error "not a valid UTC timestamp");
  strptime_z normalized.

Record KeyRecord := {
  kr_key_id : str;
  kr_node_id : str;
  kr_algorithm : str;
  kr_public_key : str;
  kr_created_at : str;
  kr_activated_at : str;
  kr_expires_at : option str;
  kr_state : KeyState;
  kr_revocation_reason : value;
  kr_revoked_at : value;
  kr_metadata : dict;
}.

Definition public_key_bytes (r : KeyRecord) : res bytes :=
  try_with (b64decode (kr_public_key r)) (fun e =>
    match e with ValueError _ => registry_error "invalid base64 public key" | e => Err e end).

Definition public_key_sha3_256 (r : KeyRecord) : res str :=
  b ← public_key_bytes r; Ok (hex (sha3_256 b)).
Definition record_fingerprint (r : KeyRecord) : res str :=
  b ← public_key_bytes r; Ok (fingerprint b).

Definition opt_str (o : option str) : value := match o with Some s => VStr s | None => VNone end.

Definition record_items (r : KeyRecord) (fp sha : str) : list (str * value) := [
  (lit "key_id", VStr (kr_key_id r)); (lit "node_id", VStr (kr_node_id r));
  (lit "algorithm", VStr (kr_algorithm r)); (lit "public_key", VStr (kr_public_key r));
  (lit "created_at", VStr (kr_created_at r)); (lit "activated_at", VStr (kr_activated_at r));
  (lit "expires_at", opt_str (kr_expires_at r)); (lit "state", VStr (state_value (kr_state r)));
  (lit "revocation_reason", kr_revocation_reason r); (lit "revoked_at", kr_revoked_at r);
  (lit "metadata", VDict (kr_metadata r)); (lit "fingerprint", VStr fp);
  (lit "public_key_sha3_256", VStr sha)].

Definition record_to_dict (r : KeyRecord) : res value :=
  fp ← record_fingerprint r; sha ← public_key_sha3_256 r;
  Ok (VDict (as_dict (record_items r fp sha))).

(** Python's truth value of a decoded JSON value. *)
Definition truthy (v : value) : bool :=
  match v with
  | VNone => false
  | VBool b => b
  | VInt z => negb (z =? 0)
  | VFloat (S754_zero _) => false
  | VFloat _ => true
  | VStr s => negb (bool_decide (s = []))
  | VBytes b => negb (bool_decide (b = []))
  | VList [] | VTuple [] | VDict [] => false
  | VList _ | VTuple _ | VDict _ | VOther _ => true
  end.

Definition get_or (d : dict) (k : string) (v : value) : value := default v (dict_get d (lit k)).

(** A non-empty str of at most 128 characters. *)
Definition id_field (d : dict) (k : string) : res str :=
  match get_or d k VNone with
  | VStr s => if bool_decide (s = []) || (MAX_NODE_ID_LENGTH <? zlen s)
              then registry_error "invalid identifier" else Ok s
  | _ => registry_error "invalid identifier"
  end.

(** [algorithm not in SUPPORTED_SIGNATURE_ALGORITHMS]: unhashable values raise TypeError. *)
Definition algorithm_field (v : value) : res str :=
  match v with
  | VStr s => if str_in s SUPPORTED_SIGNATURE_ALGORITHMS then Ok s else registry_error "unsupported algorithm"
  | VList _ | VDict _ => Err (TypeError "unhashable type")
  | _ => registry_error "unsupported algorithm"
  end.

(** [base64.b64decode(public_key, validate=True)] accepts text only (and, from Python code,
    bytes, which no decoded document holds). *)
Definition public_key_field (v : value) : res str :=
  match v with
  | VStr s => b ← try_with (b64decode s) (fun e =>
                match e with ValueError _ => registry_error "invalid base64 public key" | e => Err e end);
              Ok s
  | _ => Err (TypeError "argument should be a bytes-like object or ASCII string")
  end.

(** A timestamp field that [_parse_time] accepts is a str. *)
Definition time_field (v : value) : res str :=
  parse_time v ;; match v with VStr s => Ok s | _ => registry_error "not a valid UTC timestamp" end.

Definition required_fields : list str :=
  map lit ["key_id"; "node_id"; "algorithm"; "public_key"; "created_at"; "activated_at"]%string.

(** [KeyRecord.from_dict], on a decoded JSON document. *)
Definition from_dict (data : value) : res KeyRecord :=
  match data with
  | VDict d =>
    match missing required_fields d with _ :: _ => registry_error "missing field(s)" | [] =>
    key_id ← id_field d "key_id";
    node_id ← id_field d "node_id";
    algorithm ← algorithm_field (get_or d "algorithm" VNone);
    match parse_state (get_or d "state" (VStr (state_value ACTIVE))) with
    | None => registry_error "unknown key state"
    | Some state =>
      let meta := get_or d "metadata" VNone in
      match (if truthy meta then meta else VDict []) with
      | VDict metadata =>
        public_key ← public_key_field (get_or d "public_key" VNone);
        created_at ← time_field (get_or d "created_at" VNone);
        activated_at ← time_field (get_or d "activated_at" VNone);
        expires_at ← (match get_or d "expires_at" VNone with
                      | VNone => Ok None
                      | v => s ← time_field v; Ok (Some s)
                      end);
        Ok {| kr_key_id := key_id; kr_node_id := node_id; kr_algorithm := algorithm;
              kr_public_key := public_key; kr_created_at := created_at;
              kr_activated_at := activated_at; kr_expires_at := expires_at; kr_state := state;
              kr_revocation_reason := get_or d "revocation_reason" VNone;
              kr_revoked_at := get_or d "revoked_at" VNone; kr_metadata := metadata |}
      | _ => registry_error "non-object metadata"
      end
    end end
  | _ => registry_error "key record must be a JSON object"
  end.

Record KeyUsability := { usable : bool; problems : list string }.

(** ** The registry *)
Abbreviation KeyRegistry := (list KeyRecord).

Definition get (R : KeyRegistry) (key_id : str) : option KeyRecord :=
  List.find (fun r => str_eqb (kr_key_id r) key_id) R.

Definition insert_record (R : KeyRegistry) (r : KeyRecord) : res KeyRegistry :=
  match get R (kr_key_id r) with
  | Some e =>
    if negb (str_eqb (kr_node_id e) (kr_node_id r)) || negb (str_eqb (kr_public_key e) (kr_public_key r))
    then registry_error "conflicting definitions" else registry_error "duplicate key_id"
  | None =>
    if existsb (fun o => str_eqb (kr_public_key o) (kr_public_key r)) R
    then registry_error "public key is already registered"
    else Ok (R ++ [r])
  end.

(** [KeyRegistry(records)] *)
Definition new_registry (records : list KeyRecord) : res KeyRegistry :=
  fold_res insert_record [] records.

(** [sorted(..., key=lambda r: (r.node_id, r.key_id))] *)
Definition node_key_lt (a b : KeyRecord) : bool :=
  str_ltb (kr_node_id a) (kr_node_id b) ||
  (str_eqb (kr_node_id a) (kr_node_id b) && str_ltb (kr_key_id a) (kr_key_id b)).
Definition sorted_records (R : KeyRegistry) : list KeyRecord := sort_by node_key_lt R.

(** [sorted(records, key=lambda r: r.activated_at, reverse=True)]: reversed order, stable. *)
Definition for_node (R : KeyRegistry) (node_id : str) : list KeyRecord :=
  sort_by (fun a b => str_ltb (kr_activated_at b) (kr_activated_at a))
    (List.filter (fun r => str_eqb (kr_node_id r) node_id) R).

Definition is_active (r : KeyRecord) : bool := bool_decide (kr_state r = ACTIVE).

Definition active_key (R : KeyRegistry) (node_id : str) : option KeyRecord :=
  List.find is_active (for_node R node_id).

Definition nodes (R : KeyRegistry) : list str :=
  sort_by str_ltb (remove_dups (map kr_node_id R)).

Definition set_state (r : KeyRecord) (s : KeyState) : KeyRecord := {|
  kr_key_id := kr_key_id r; kr_node_id := kr_node_id r; kr_algorithm := kr_algorithm r;
  kr_public_key := kr_public_key r; kr_created_at := kr_created_at r;
  kr_activated_at := kr_activated_at r; kr_expires_at := kr_expires_at r; kr_state := s;
  kr_revocation_reason := kr_revocation_reason r; kr_revoked_at := kr_revoked_at r;
  kr_metadata := kr_metadata r |}.

Definition set_revoked (r : KeyRecord) (reason now : str) : KeyRecord := {|
  kr_key_id := kr_key_id r; kr_node_id := kr_node_id r; kr_algorithm := kr_algorithm r;
  kr_public_key := kr_public_key r; kr_created_at := kr_created_at r;
  kr_activated_at := kr_activated_at r; kr_expires_at := kr_expires_at r; kr_state := REVOKED;
  kr_revocation_reason := VStr reason; kr_revoked_at := VStr now; kr_metadata := kr_metadata r |}.

(** Mutate the record with this identifier in place. *)
Definition update (R : KeyRegistry) (key_id : str) (f : KeyRecord -> KeyRecord) : KeyRegistry :=
  map (fun r => if str_eqb (kr_key_id r) key_id then f r else r) R.

(** [normalize_timestamp(x) if x else default] *)
Definition normalize_opt (x : option str) (d : option str) : res (option str) :=
  match x with
  | Some ((_ :: _) as s) => t ← normalize_timestamp (VStr s); Ok (Some t)
  | _ => Ok d
  end.

(** The record [register] builds, up to the validation through [from_dict]. *)
Definition build_record (now key_id node_id : str) (public_key : bytes) (algorithm : str)
    (activated_at expires_at : option str) (metadata : dict) (make_active : bool) : res KeyRecord :=
  require (str_in algorithm SUPPORTED_SIGNATURE_ALGORITHMS) (KeyRegistryError "unsupported algorithm") ;;
  require (negb (bool_decide (public_key = []))) (KeyRegistryError "public key must not be empty") ;;
  act ← normalize_opt activated_at (Some now);
  exp ← normalize_opt expires_at None;
  d ← record_to_dict {| kr_key_id := key_id; kr_node_id := node_id; kr_algorithm := algorithm;
        kr_public_key := b64encode public_key; kr_created_at := now; kr_activated_at := default now act;
        kr_expires_at := exp; kr_state := if make_active then ACTIVE else DISABLED;
        kr_revocation_reason := VNone; kr_revoked_at := VNone; kr_metadata := metadata |};
  from_dict d.

Definition register (R : KeyRegistry) (now key_id node_id : str) (public_key : bytes) (algorithm : str)
    (activated_at expires_at : option str) (metadata : dict) (make_active : bool)
    : KeyRegistry * res KeyRecord :=
  match build_record now key_id node_id public_key algorithm activated_at expires_at metadata make_active with
  | Err e => (R, Err e)
  | Ok r =>
    let R' := if make_active then
        match active_key R node_id with
        | Some previous => update R (kr_key_id previous) (fun p => set_state p ROTATED)
        | None => R
        end
      else R in
    match insert_record R' r with
    | Ok R'' => (R'', Ok r)
    | Err e => (R', Err e)
    end
  end.

Definition require_key (R : KeyRegistry) (key_id : str) : res KeyRecord :=
  match get R key_id with None => registry_error "unknown key_id" | Some r => Ok r end.

Definition revoke (R : KeyRegistry) (now key_id reason : str) : KeyRegistry * res KeyRecord :=
  match require_key R key_id with
  | Err e => (R, Err e)
  | Ok r =>
    if bool_decide (strip reason = []) then (R, registry_error "a revocation reason is required")
    else (update R key_id (fun r => set_revoked r (strip reason) now), Ok (set_revoked r (strip reason) now))
  end.

Definition disable (R : KeyRegistry) (key_id : str) : KeyRegistry * res KeyRecord :=
  match require_key R key_id with
  | Err e => (R, Err e)
  | Ok r => (update R key_id (fun r => set_state r DISABLED), Ok (set_state r DISABLED))
  end.

Definition rotate (R : KeyRegistry) (now node_id new_key_id : str) (public_key : bytes) (algorithm : str)
    (activated_at expires_at : option str) (metadata : dict) : KeyRegistry * res KeyRecord :=
  match active_key R node_id, for_node R node_id with
  | None, [] => (R, registry_error "node has no registered key to rotate")
  | _, _ => register R now new_key_id node_id public_key algorithm activated_at expires_at metadata true
  end.

(** One [_parse_time] inside [check_usable]'s [try]: a KeyRegistryError ends the checks with
    [pqc_malformed_evidence] behind the problems found so far; anything else escapes. *)
Definition try_time (v : str) (found : list string) (k : Z -> res (list string)) : res (list string) :=
  match parse_time (VStr v) with
  | Ok t => k t
  | Err (KeyRegistryError _) => Ok (found ++ ["pqc_malformed_evidence"%string])
  | Err e => Err e
  end.

Definition str_mem (s : string) (l : list string) : bool := existsb (String.eqb s) l.

Definition finish_problems (r : KeyRecord) (p : list string) : res (list string) :=
  Ok (if bool_decide (kr_state r = EXPIRED) && negb (str_mem "pqc_expired_key" p)
      then p ++ ["pqc_expired_key"%string] else p).

Definition time_part (r : KeyRecord) (at_ : str) (p0 : list string) : res (list string) :=
  try_time at_ p0 (fun event_time =>
  try_time (kr_activated_at r) p0 (fun activated =>
    let p1 := if event_time <? activated then p0 ++ ["pqc_unknown_key"%string] else p0 in
    match kr_expires_at r with
    | None => finish_problems r p1
    | Some x => try_time x p1 (fun expires =>
        finish_problems r (if expires <? event_time then p1 ++ ["pqc_expired_key"%string] else p1))
    end)).

Definition check_usable (R : KeyRegistry) (key_id node_id at_ algorithm : str) : res KeyUsability :=
  match get R key_id with
  | None =>
    Ok {| usable := false;
          problems := if existsb (fun r => str_eqb (kr_node_id r) node_id) R
                      then ["pqc_unknown_key"%string]
                      else ["pqc_unknown_node"%string; "pqc_unknown_key"%string] |}
  | Some r =>
    let p0 :=
      (if str_eqb (kr_node_id r) node_id then [] else ["pqc_unknown_node"%string]) ++
      (if str_eqb (kr_algorithm r) algorithm then [] else ["pqc_unsupported_algorithm"%string]) ++
      (if bool_decide (kr_state r = REVOKED) then ["pqc_revoked_key"%string] else []) ++
      (if bool_decide (kr_state r = DISABLED) then ["pqc_revoked_key"%string] else []) in
    p1 ← time_part r at_ p0;
    Ok {| usable := bool_decide (p1 = []); problems := p1 |}
  end.

(** ** Import and persistence *)

(** The entries of an import document, one by one: a failing entry raises and leaves the
    entries before it - and the deletion of its own predecessor - in place. *)
Fixpoint import_entries (R : KeyRegistry) (overwrite : bool) (entries : list value) (added : list str)
    : KeyRegistry * res (list str) :=
  match entries with
  | [] => (R, Ok added)
  | entry :: rest =>
    match from_dict entry with
    | Err e => (R, Err e)
    | Ok r =>
      let known := match get R (kr_key_id r) with Some _ => true | None => false end in
      if known && negb overwrite then import_entries R overwrite rest added
      else
        let R' := if known then List.filter (fun o => negb (str_eqb (kr_key_id o) (kr_key_id r))) R else R in
        match insert_record R' r with
        | Err e => (R', Err e)
        | Ok R'' => import_entries R'' overwrite rest (added ++ [kr_key_id r])
        end
    end
  end.

(** The version check and the [keys] list of a registry document. *)
Definition document_entries (document : value) : res (list value) :=
  match document with
  | VDict d =>
    match get_or d "format_version" VNone with
    | VStr s => if str_eqb s REGISTRY_FORMAT_VERSION then
        match get_or d "keys" VNone with
        | VList l => Ok l
        | _ => registry_error "'keys' must be a list"
        end else registry_error "unsupported format_version"
    | _ => registry_error "unsupported format_version"
    end
  | _ => registry_error "must be a JSON object"
  end.

Definition import_public (R : KeyRegistry) (document : value) (overwrite : bool) : KeyRegistry * res (list str) :=
  match document_entries document with
  | Err e => (R, Err e)
  | Ok entries => import_entries R overwrite entries []
  end.

Definition document (R : KeyRegistry) (stamp : string) (now : str) : res value :=
  ks ← map_res record_to_dict (sorted_records R);
  Ok (VDict (as_dict [(lit "format_version", VStr REGISTRY_FORMAT_VERSION); (lit stamp, VStr now); (lit "keys", VList ks)])).

Definition export_public (R : KeyRegistry) (now : str) : res value := document R "exported_at" now.

(** [json.dump(payload, handle, indent=2, sort_keys=True)]; [float_repr] is
    [float.__repr__], reached only through a key's free-form metadata. *)
Definition registry_cfg (float_repr : spec_float -> str) : cfg := {|
  c_ascii := true; c_sort := true; c_isep := [44]; c_ksep := [58; 32]; c_indent := Some 2%nat;
  c_float := float_repr |}.

(** What [save] leaves in the file. *)
Definition save_text (float_repr : spec_float -> str) (R : KeyRegistry) (now : str) : res bytes :=
  payload ← document R "updated_at" now;
  text ← dumps (registry_cfg float_repr) payload;
  utf8_encode (text ++ [10]).

(** The registry file: absent, unreadable, or its bytes. *)
Inductive registry_file := Missing | Unreadable | Content (b : bytes).

Definition load (lim : nat) (f : registry_file) : res KeyRegistry :=
  match f with
  | Missing => Ok []
  | Unreadable => registry_error "cannot read registry"
  | Content b =>
    require (zlen b <=? MAX_REGISTRY_BYTES) (KeyRegistryError "exceeding the byte limit") ;;
    raw ← try_with (utf8_decode b) (fun _ => registry_error "cannot read registry");
    data ← try_with (loads default_hooks lim raw) (fun e =>
      match e with JSONDecodeError => registry_error "not valid JSON" | e => Err e end);
    entries ← document_entries data;
    records ← map_res from_dict entries;
    new_registry records
  end.

(** ** Facts *)
Record registry_ok (R : KeyRegistry) : Prop := {
  unique_ids : NoDup (map kr_key_id R);
  unique_keys : NoDup (map kr_public_key R);
}.

(** At most one active key per node. *)
Definition one_active (R : KeyRegistry) : Prop :=
  forall r s, r ∈ R -> s ∈ R -> is_active r = true -> is_active s = true ->
    kr_node_id r = kr_node_id s -> kr_key_id r = kr_key_id s.

Lemma get_Some R k r : get R k = Some r -> r ∈ R /\ kr_key_id r = k.
Proof.
  unfold get. intros [H E]%find_some. apply str_eqb_eq in E. split; [by apply list_elem_of_In | done].
Qed.

Lemma get_None R k : get R k = None <-> ~ k ∈ map kr_key_id R.
Proof.
  unfold get. split.
  - intros H Hin. apply list_elem_of_In, in_map_iff in Hin as (r & <- & Hr).
    pose proof (find_none _ _ H _ Hr) as N. cbv beta in N. by rewrite str_eqb_refl in N.
  - intros Hn. destruct (List.find _ R) as [r|] eqn:E; [|done]. apply find_some in E as [Hr E].
    apply str_eqb_eq in E. destruct Hn. apply list_elem_of_In, in_map_iff. eauto.
Qed.

Lemma get_elem R r : NoDup (map kr_key_id R) -> r ∈ R -> get R (kr_key_id r) = Some r.
Proof.
  induction R as [|s R IH]; intros Hn Hr; [by apply elem_of_nil in Hr|]. simpl in Hn.
  apply NoDup_cons in Hn as [Hs Hn]. unfold get in *. simpl. apply elem_of_cons in Hr as [->|Hr].
  - by rewrite str_eqb_refl.
  - destruct (str_eqb (kr_key_id s) (kr_key_id r)) eqn:E; [|by apply IH].
    apply str_eqb_eq in E. destruct Hs. rewrite E. apply list_elem_of_In, in_map, list_elem_of_In, Hr.
Qed.

Lemma update_map {B} (f : KeyRecord -> B) R k g : (forall r, f (g r) = f r) -> map f (update R k g) = map f R.
Proof.
  intros H. unfold update. rewrite map_map. apply map_ext. intros r. by case_match; rewrite ?H.
Qed.

Lemma update_elem R k g r : r ∈ update R k g -> exists s, s ∈ R /\ r = if str_eqb (kr_key_id s) k then g s else s.
Proof.
  unfold update. intros H. apply list_elem_of_In, in_map_iff in H as (s & <- & Hs).
  exists s. split; [by apply list_elem_of_In | done].
Qed.

Lemma update_ok R k g : (forall r, kr_key_id (g r) = kr_key_id r) -> (forall r, kr_public_key (g r) = kr_public_key r) ->
  registry_ok R -> registry_ok (update R k g).
Proof. intros H1 H2 []. split; by rewrite update_map. Qed.

Lemma get_update R k g : (forall r, kr_key_id (g r) = kr_key_id r) ->
  get (update R k g) k = g <$> get R k.
Proof.
  intros H. unfold get, update. induction R as [|r R IH]; [done|]. simpl.
  destruct (str_eqb (kr_key_id r) k) eqn:E; simpl; [by rewrite H, E | by rewrite E].
Qed.

Lemma insert_inv R r R' : insert_record R r = Ok R' ->
  R' = R ++ [r] /\ get R (kr_key_id r) = None /\ ~ kr_public_key r ∈ map kr_public_key R.
Proof.
  unfold insert_record. destruct (get R (kr_key_id r)) as [e|]; [by destruct (_ || _)|].
  destruct (existsb _ R) eqn:E; [done|]. intros [= <-]. split_and!; [done..|].
  intros Hin. apply list_elem_of_In, in_map_iff in Hin as (s & Es & Hs).
  assert (existsb (fun o => str_eqb (kr_public_key o) (kr_public_key r)) R = true) as T; [|congruence].
  apply existsb_exists. exists s. by rewrite Es, str_eqb_refl.
Qed.

Lemma insert_ok R r R' : registry_ok R -> insert_record R r = Ok R' -> registry_ok R'.
Proof.
  intros [H1 H2] (-> & Hg & Hp)%insert_inv. apply get_None in Hg.
  split; rewrite map_app; apply NoDup_app; (split; [done|]); split; try apply NoDup_singleton;
    intros x Hx E; apply list_elem_of_singleton in E; by subst.
Qed.

Lemma fold_insert_ok records : forall R R', registry_ok R -> fold_res insert_record R records = Ok R' -> registry_ok R'.
Proof.
  induction records as [|r records IH]; intros R R' H E; [by injection E as <-|]. simpl in E.
  destruct (insert_record R r) as [R1|] eqn:I; [|done]. eapply IH; [|exact E]. by eapply insert_ok.
Qed.

Lemma empty_ok : registry_ok [].
Proof. split; constructor. Qed.

Lemma filter_ok R f : registry_ok R -> registry_ok (List.filter f R).
Proof.
  intros [H1 H2]. assert (forall B (g : KeyRecord -> B), NoDup (map g R) -> NoDup (map g (List.filter f R))) as F.
  { intros B g. clear. induction R as [|r R IH]; [done|]. simpl. intros [Hr Hn]%NoDup_cons.
    case_match; [|auto]. simpl. constructor; [|auto]. intros Hin. apply Hr.
    apply list_elem_of_In, in_map_iff in Hin as (s & <- & Hs). apply filter_In in Hs as [Hs _].
    apply list_elem_of_In, in_map_iff. eauto. }
  split; by apply F.
Qed.

Lemma import_entries_ok entries overwrite : forall R added, registry_ok R ->
  registry_ok (import_entries R overwrite entries added).1.
Proof.
  induction entries as [|v entries IH]; intros R added H; [done|]. cbn [import_entries].
  destruct (from_dict v) as [r|]; [|done]. destruct (_ && _); [by apply IH|].
  match goal with |- context [insert_record ?X r] => assert (registry_ok X) as HX end.
  { case_match; [by apply filter_ok | done]. }
  destruct (insert_record _ r) as [R''|] eqn:I; [|done]. apply IH. by eapply insert_ok.
Qed.

Lemma register_ok R now kid nid pk alg act exp meta mk :
  registry_ok R -> registry_ok (register R now kid nid pk alg act exp meta mk).1.
Proof.
  intros H. unfold register. destruct (build_record _ _ _ _ _ _ _ _ _) as [r|]; [|done]. cbv zeta.
  match goal with |- context [insert_record ?X r] => assert (registry_ok X) as HX end.
  { destruct mk; [|done]. destruct (active_key R nid); [|done]. by apply update_ok. }
  destruct (insert_record _ r) as [R''|] eqn:I; [|done]. by eapply insert_ok.
Qed.


(** *** Active keys *)
Lemma for_node_elem R n r : r ∈ for_node R n <-> r ∈ R /\ kr_node_id r = n.
Proof.
  unfold for_node. rewrite sort_by_perm. rewrite !list_elem_of_In, filter_In. by rewrite str_eqb_eq.
Qed.

Lemma active_key_Some R n r : active_key R n = Some r -> r ∈ R /\ kr_node_id r = n /\ is_active r = true.
Proof.
  unfold active_key. intros [H E]%find_some. apply list_elem_of_In, for_node_elem in H as [? ?]. done.
Qed.

Lemma active_key_None R n : active_key R n = None <-> forall r, r ∈ R -> kr_node_id r = n -> is_active r = false.
Proof.
  unfold active_key. split.
  - intros H r Hr Hn. apply (find_none _ _ H). by apply list_elem_of_In, for_node_elem.
  - intros H. destruct (List.find _ _) as [r|] eqn:E; [|done]. apply find_some in E as [Hr E].
    apply list_elem_of_In, for_node_elem in Hr as [Hr Hn]. by rewrite (H r Hr Hn) in E.
Qed.

(** The registry after [register] has demoted the node's active key. *)
Definition demote (R : KeyRegistry) (node_id : str) : KeyRegistry :=
  match active_key R node_id with
  | Some p => update R (kr_key_id p) (fun r => set_state r ROTATED)
  | None => R
  end.

Lemma demote_inactive R n : one_active R -> active_key (demote R n) n = None.
Proof.
  intros H. unfold demote. destruct (active_key R n) as [p|] eqn:E; [|done].
  apply active_key_Some in E as (Hp & Hn & Ha). apply active_key_None.
  intros r (s & Hs & ->)%update_elem. destruct (str_eqb (kr_key_id s) (kr_key_id p)) eqn:Ek; [done|].
  intros Hsn. destruct (is_active s) eqn:Es; [|done]. apply str_eqb_neq in Ek. destruct Ek.
  apply H; congruence.
Qed.

Lemma demote_one_active R n : one_active R -> one_active (demote R n).
Proof.
  intros H. unfold demote. destruct (active_key R n) as [p|]; [|done].
  intros r s (r' & Hr & ->)%update_elem (s' & Hs & ->)%update_elem.
  destruct (str_eqb (kr_key_id r') (kr_key_id p)); [done|].
  destruct (str_eqb (kr_key_id s') (kr_key_id p)); [done|]. by apply H.
Qed.

Lemma one_active_snoc R r : one_active R -> (is_active r = true -> active_key R (kr_node_id r) = None) ->
  one_active (R ++ [r]).
Proof.
  intros H Hr a b Ha Hb Aa Ab En. apply elem_of_app in Ha as [Ha|Ha%list_elem_of_singleton];
    apply elem_of_app in Hb as [Hb|Hb%list_elem_of_singleton]; subst; try done.
  - by apply H.
  - specialize (Hr Ab). rewrite active_key_None in Hr. by rewrite (Hr a Ha En) in Aa.
  - specialize (Hr Aa). rewrite active_key_None in Hr. by rewrite (Hr b Hb (eq_sym En)) in Ab.
Qed.

Lemma find_app_last {A} (f : A -> bool) l x : Forall (fun y => f y = false) l -> f x = true ->
  List.find f (l ++ [x]) = Some x.
Proof. induction 1 as [|y l Hy _ IH]; simpl; [by intros ->|]. by rewrite Hy. Qed.

Lemma find_app_found {A} (f : A -> bool) l k x : List.find f l = Some x -> List.find f (l ++ k) = Some x.
Proof. induction l as [|y l IH]; simpl; [done|]. by destruct (f y). Qed.

Lemma get_snoc R r : get R (kr_key_id r) = None -> get (R ++ [r]) (kr_key_id r) = Some r.
Proof.
  intros H. apply find_app_last; [|by rewrite str_eqb_refl]. apply Forall_forall. intros s Hs.
  apply (find_none _ _ H). by apply list_elem_of_In.
Qed.

Lemma active_key_unique R r : registry_ok R -> one_active R -> r ∈ R -> is_active r = true ->
  active_key R (kr_node_id r) = Some r.
Proof.
  intros [Hu _] Ho Hr Ha. destruct (active_key R (kr_node_id r)) as [s|] eqn:E.
  - apply active_key_Some in E as (Hs & Hn & As).
    pose proof (Ho r s Hr Hs Ha As (eq_sym Hn)) as Ek.
    pose proof (get_elem R r Hu Hr) as Gr. rewrite Ek, (get_elem R s Hu Hs) in Gr. congruence.
  - rewrite active_key_None in E. by rewrite (E r Hr eq_refl) in Ha.
Qed.

(** *** Records through [from_dict] *)

(** [from_dict] reads its dict by key only. *)
Lemma from_dict_ext d d' : (forall k, dict_get d k = dict_get d' k) -> from_dict (VDict d) = from_dict (VDict d').
Proof.
  intros H. unfold from_dict, get_or, id_field, get_or.
  assert (missing required_fields d = missing required_fields d') as ->.
  { unfold missing. induction required_fields as [|k l IH]; [done|]. simpl. by rewrite H, IH. }
  by rewrite !H.
Qed.

(** The checks a record passes. *)
Definition id_ok (s : str) : res str :=
  if bool_decide (s = []) || (MAX_NODE_ID_LENGTH <? zlen s) then registry_error "invalid identifier" else Ok s.

Definition check_record (r : KeyRecord) : res KeyRecord :=
  id_ok (kr_key_id r) ;; id_ok (kr_node_id r) ;; algorithm_field (VStr (kr_algorithm r)) ;;
  public_key_field (VStr (kr_public_key r)) ;;
  time_field (VStr (kr_created_at r)) ;; time_field (VStr (kr_activated_at r)) ;;
  (match kr_expires_at r with None => Ok None | Some x => t ← time_field (VStr x); Ok (Some t) end) ;;
  Ok r.

Lemma parse_state_value s : parse_state (VStr (state_value s)) = Some s.
Proof. by destruct s; vm_compute. Qed.

Lemma time_field_str v s : time_field v = Ok s -> v = VStr s.
Proof. unfold time_field. intros H. inv_res. destruct v; inv_res; done. Qed.

Lemma from_dict_items r fp sha : from_dict (VDict (as_dict (record_items r fp sha))) = check_record r.
Proof.
  unfold from_dict. set (d := as_dict (record_items r fp sha)).
  assert (missing required_fields d = []) as -> by (vm_compute; reflexivity).
  unfold id_field.
  assert (get_or d "key_id" VNone = VStr (kr_key_id r)) as -> by (vm_compute; reflexivity).
  assert (get_or d "node_id" VNone = VStr (kr_node_id r)) as -> by (vm_compute; reflexivity).
  assert (get_or d "algorithm" VNone = VStr (kr_algorithm r)) as -> by (vm_compute; reflexivity).
  assert (get_or d "state" (VStr (state_value ACTIVE)) = VStr (state_value (kr_state r))) as -> by (vm_compute; reflexivity).
  assert (get_or d "metadata" VNone = VDict (kr_metadata r)) as -> by (vm_compute; reflexivity).
  assert (get_or d "public_key" VNone = VStr (kr_public_key r)) as -> by (vm_compute; reflexivity).
  assert (get_or d "created_at" VNone = VStr (kr_created_at r)) as -> by (vm_compute; reflexivity).
  assert (get_or d "activated_at" VNone = VStr (kr_activated_at r)) as -> by (vm_compute; reflexivity).
  assert (get_or d "expires_at" VNone = opt_str (kr_expires_at r)) as -> by (vm_compute; reflexivity).
  assert (get_or d "revocation_reason" VNone = kr_revocation_reason r) as -> by (vm_compute; reflexivity).
  assert (get_or d "revoked_at" VNone = kr_revoked_at r) as -> by (vm_compute; reflexivity).
  rewrite parse_state_value. clear d. unfold check_record, id_ok.
  assert ((if truthy (VDict (kr_metadata r)) then VDict (kr_metadata r) else VDict []) = VDict (kr_metadata r)) as ->
    by (by destruct (kr_metadata r)).
  destruct (bool_decide (kr_key_id r = []) || _); [done|]. destruct (bool_decide (kr_node_id r = []) || _); [done|].
  cbn [mbind res_bind].
  destruct (algorithm_field (VStr (kr_algorithm r))) as [a|] eqn:Ea; [|done].
  assert (a = kr_algorithm r) as ->
    by (unfold algorithm_field in Ea; destruct (str_in _ _); [congruence | discriminate Ea]). cbn [mbind res_bind].
  destruct (public_key_field (VStr (kr_public_key r))) as [p|] eqn:Ep; [|done].
  assert (p = kr_public_key r) as ->
    by (unfold public_key_field in Ep; apply bind_ok in Ep as (? & _ & Ep); congruence).
  cbn [mbind res_bind].
  destruct (time_field (VStr (kr_created_at r))) as [c|] eqn:Ec; [|done]. apply time_field_str in Ec as [= <-].
  destruct (time_field (VStr (kr_activated_at r))) as [c|] eqn:Ec; [|done]. apply time_field_str in Ec as [= <-].
  cbn [mbind res_bind]. destruct r as [? ? ? ? ? ? [x|] ? ? ? ?]; simpl; [|done].
  destruct (time_field (VStr x)) as [c|] eqn:Ec; [|done]. apply time_field_str in Ec as [= <-]. done.
Qed.

Lemma check_record_inv r s : check_record r = Ok s -> s = r.
Proof. unfold check_record. intros H. inv_res. done. Qed.

Lemma record_to_dict_inv r v : record_to_dict r = Ok v ->
  exists fp sha, v = VDict (as_dict (record_items r fp sha)).
Proof. unfold record_to_dict. intros H. inv_res. eauto. Qed.

(** What a file's entry gives is validated. *)
Lemma time_field_fixed v s : time_field v = Ok s -> time_field (VStr s) = Ok s.
Proof. intros H. by rewrite <- (time_field_str _ _ H). Qed.

Lemma from_dict_checked v r : from_dict v = Ok r -> check_record r = Ok r.
Proof.
  unfold from_dict. destruct v as [| | | | | | | | |d]; try done. destruct (missing required_fields d); [|done]. intros H.
  apply bind_ok in H as (kid & Hk & H). apply bind_ok in H as (nid & Hn & H). apply bind_ok in H as (alg & Ha & H).
  destruct (parse_state _) as [st|]; [|done]. cbv zeta in H. destruct (if truthy _ then _ else _) as [| | | | | | | | |meta]; try done.
  apply bind_ok in H as (pk & Hp & H). apply bind_ok in H as (ca & Hc & H). apply bind_ok in H as (aa & Hb & H).
  apply bind_ok in H as (ex & He & [= <-]). unfold check_record, id_ok. cbn [kr_key_id kr_node_id kr_algorithm kr_public_key
    kr_created_at kr_activated_at kr_expires_at].
  assert (forall k s, id_field d k = Ok s -> (if bool_decide (s = []) || (MAX_NODE_ID_LENGTH <? zlen s) then registry_error "invalid identifier" else Ok s) = Ok s) as I.
  { intros k s. unfold id_field. destruct (get_or d k VNone); try done. destruct (_ || _) eqn:X; [done|]. intros [= <-]. by rewrite X. }
  rewrite (I _ _ Hk), (I _ _ Hn). cbn [mbind res_bind].
  assert (algorithm_field (VStr alg) = Ok alg) as ->
    by (unfold algorithm_field in *; destruct (get_or d "algorithm" VNone); try done; destruct (str_in s _) eqn:X; [|done]; injection Ha as <-; by rewrite X).
  assert (public_key_field (VStr pk) = Ok pk) as ->.
  { unfold public_key_field in *. destruct (get_or d "public_key" VNone) as [| | | |s| | | | |]; try done. apply bind_ok in Hp as (b & X & [= <-]). by rewrite X. }
  rewrite (time_field_fixed _ _ Hc), (time_field_fixed _ _ Hb). cbn [mbind res_bind].
  destruct ex as [x|]; [|done]. assert (time_field (VStr x) = Ok x) as ->; [|done].
  destruct (get_or d "expires_at" VNone); try done; apply bind_ok in He as (y & Hy & [= <-]); by apply time_field_fixed in Hy.
Qed.

(** What [build_record] returns: the record asked for, validated. *)
Lemma build_record_fields now kid nid pk alg act exp meta mk r :
  build_record now kid nid pk alg act exp meta mk = Ok r ->
  kr_key_id r = kid /\ kr_node_id r = nid /\ kr_algorithm r = alg /\
  kr_public_key r = b64encode pk /\ kr_state r = (if mk then ACTIVE else DISABLED) /\ check_record r = Ok r.
Proof.
  unfold build_record. intros H. inv_res.
  rename select (record_to_dict _ = Ok _) into Hd. apply record_to_dict_inv in Hd as (fp & sha & ->).
  rename select (from_dict _ = Ok _) into Hf. rewrite from_dict_items in Hf.
  pose proof (check_record_inv _ _ Hf) as ->. done.
Qed.

(** *** Registering, revoking, using keys *)
Lemma register_cases R now kid nid pk alg act exp meta mk :
  (exists e, register R now kid nid pk alg act exp meta mk = (R, Err e) /\
             build_record now kid nid pk alg act exp meta mk = Err e) \/
  exists r, build_record now kid nid pk alg act exp meta mk = Ok r /\
    let R1 := if mk then demote R nid else R in
    ((exists e, register R now kid nid pk alg act exp meta mk = (R1, Err e) /\ insert_record R1 r = Err e) \/
     (register R now kid nid pk alg act exp meta mk = (R1 ++ [r], Ok r) /\ insert_record R1 r = Ok (R1 ++ [r]))).
Proof.
  unfold register. destruct (build_record _ _ _ _ _ _ _ _ _) as [r|e]; [|left; eauto].
  right. exists r. split; [done|]. cbv zeta. fold (demote R nid).
  destruct (insert_record (if mk then demote R nid else R) r) as [R2|e] eqn:I; [right | left; eauto].
  pose proof (insert_inv _ _ _ I) as (-> & _). done.
Qed.

(** A successful [register] does what it says: the new record is found under its
    identifier, no other identifier is added or lost, and with [make_active] it becomes the
    node's only active key - the previous one is rotated, and other nodes keep theirs. *)
Theorem register_correct (R : KeyRegistry) (now kid nid : str) (pk : bytes) (alg : str)
  (act exp : option str) (meta : dict) (mk : bool) (R' : KeyRegistry) (r : KeyRecord)
  (Hok : registry_ok R) (H1 : one_active R)
  (H : register R now kid nid pk alg act exp meta mk = (R', Ok r)) :
  get R' kid = Some r /\ kr_node_id r = nid /\ kr_public_key r = b64encode pk /\
  map kr_key_id R' = map kr_key_id R ++ [kid] /\ one_active R' /\
  (mk = true -> active_key R' nid = Some r) /\
  (forall p, active_key R nid = Some p -> mk = true -> get R' (kr_key_id p) = Some (set_state p ROTATED)) /\
  (forall n, n <> nid -> active_key R' n = active_key R n).
Proof.
  destruct (register_cases R now kid nid pk alg act exp meta mk)
    as [(e & E & _)|(r' & Hb & [(e & E & _)|[E I]])]; rewrite E in H; try discriminate H.
  injection H as <- ->. destruct (build_record_fields _ _ _ _ _ _ _ _ _ _ Hb) as (<- & <- & <- & Hpk & Hst & _).
  apply insert_inv in I as (_ & Hg & _).
  set (R1 := if mk then demote R (kr_node_id r) else R) in *.
  assert (map kr_key_id R1 = map kr_key_id R) as Hids.
  { subst R1. destruct mk; [|done]. unfold demote. destruct (active_key R _); [|done]. by apply update_map. }
  assert (registry_ok R1) as Hok1.
  { subst R1. destruct mk; [|done]. unfold demote. destruct (active_key R _); [|done]. by apply update_ok. }
  assert (one_active R1) as Ho1 by (subst R1; destruct mk; [by apply demote_one_active | done]).
  assert (is_active r = true -> active_key R1 (kr_node_id r) = None) as Hfree.
  { intros Ha. unfold is_active in Ha. rewrite Hst in Ha. subst R1. destruct mk; [by apply demote_inactive | done]. }
  assert (one_active (R1 ++ [r])) as Ho2 by (by apply one_active_snoc).
  assert (registry_ok (R1 ++ [r])) as Hok2.
  { pose proof (register_ok R now (kr_key_id r) (kr_node_id r) pk (kr_algorithm r) act exp meta mk Hok) as X.
    by rewrite E in X. }
  split_and!; try done.
  - by apply get_snoc.
  - by rewrite map_app, Hids.
  - intros ->. apply active_key_unique; [done|done| |unfold is_active; by rewrite Hst].
    apply elem_of_app. right. by apply list_elem_of_singleton.
  - intros p Hp ->. subst R1. unfold demote in *. rewrite Hp in *.
    pose proof (active_key_Some _ _ _ Hp) as (Hin & _). pose proof (get_elem R p (unique_ids R Hok) Hin) as G.
    assert (get (update R (kr_key_id p) (fun r => set_state r ROTATED)) (kr_key_id p) = Some (set_state p ROTATED)) as G'
      by (rewrite get_update by done; by rewrite G).
    unfold get in *. by apply find_app_found.
  - intros n Hn. assert (forall s, s ∈ R1 ++ [r] -> kr_node_id s = n -> s ∈ R /\ s ∈ R1) as Hin.
    { intros s [Hs|Hs%list_elem_of_singleton]%elem_of_app Hsn; [|congruence]. split; [|done].
      subst R1. destruct mk; [|done]. unfold demote in Hs. destruct (active_key R (kr_node_id r)) as [p|] eqn:Ep; [|done].
      apply active_key_Some in Ep as (Hp & Hpn & _). apply update_elem in Hs as (s' & Hs & ->).
      destruct (str_eqb (kr_key_id s') (kr_key_id p)) eqn:Ek; [|done]. apply str_eqb_eq in Ek.
      simpl in Hsn. pose proof (get_elem R s' (unique_ids R Hok) Hs) as G.
      rewrite Ek, (get_elem R p (unique_ids R Hok) Hp) in G. congruence. }
    assert (forall s, s ∈ R -> kr_node_id s = n -> s ∈ R1 ++ [r]) as Hin'.
    { intros s Hs Hsn. apply elem_of_app. left. subst R1. destruct mk; [|done]. unfold demote.
      destruct (active_key R (kr_node_id r)) as [p|] eqn:Ep; [|done].
      apply active_key_Some in Ep as (Hp & Hpn & _). apply list_elem_of_In, in_map_iff. exists s.
      split; [|by apply list_elem_of_In]. destruct (str_eqb (kr_key_id s) (kr_key_id p)) eqn:Ek; [|done].
      apply str_eqb_eq in Ek. pose proof (get_elem R s (unique_ids R Hok) Hs) as G.
      rewrite Ek, (get_elem R p (unique_ids R Hok) Hp) in G. congruence. }
    destruct (active_key R n) as [q|] eqn:Eq.
    + apply active_key_Some in Eq as (Hq & <- & Ha). apply active_key_unique; auto.
    + apply active_key_None. intros s Hs Hsn. destruct (Hin s Hs Hsn) as [Hs' _].
      rewrite active_key_None in Eq. by apply Eq.
Qed.

Definition sample_now : str := lit "2026-08-05T18:15:00.000000Z".
Definition sample_register (R : KeyRegistry) (kid : string) (pk : bytes) : KeyRegistry * res KeyRecord :=
  register R sample_now (lit kid) (lit "n1") pk (lit "ML-DSA-65") None None [] true.
Definition sample_record (kid : string) (pk : bytes) (st : KeyState) : KeyRecord := {|
  kr_key_id := lit kid; kr_node_id := lit "n1"; kr_algorithm := lit "ML-DSA-65";
  kr_public_key := b64encode pk; kr_created_at := sample_now; kr_activated_at := sample_now;
  kr_expires_at := None; kr_state := st; kr_revocation_reason := VNone; kr_revoked_at := VNone;
  kr_metadata := [] |}.

Lemma sample_registry_ok st : registry_ok [sample_record "k1" [1] st] /\ one_active [sample_record "k1" [1] st].
Proof.
  split; [split; apply NoDup_singleton|].
  intros r s Hr%list_elem_of_singleton Hs%list_elem_of_singleton. by subst.
Qed.



Lemma register_correct_witness : exists R',
  sample_register [sample_record "k1" [1] ACTIVE] "k2" [2] = (R', Ok (sample_record "k2" [2] ACTIVE)) /\
  active_key R' (lit "n1") = Some (sample_record "k2" [2] ACTIVE) /\
  get R' (lit "k1") = Some (sample_record "k1" [1] ROTATED).
Proof.
  exists [sample_record "k1" [1] ROTATED; sample_record "k2" [2] ACTIVE].
  assert (sample_register [sample_record "k1" [1] ACTIVE] "k2" [2] =
    ([sample_record "k1" [1] ROTATED; sample_record "k2" [2] ACTIVE], Ok (sample_record "k2" [2] ACTIVE))) as H
    by (vm_compute; reflexivity).
  split; [exact H|].
  destruct (register_correct _ _ _ _ _ _ _ _ _ _ _ _ (proj1 (sample_registry_ok ACTIVE)) (proj2 (sample_registry_ok ACTIVE)) H)
    as (_ & _ & _ & _ & _ & Ha & Hp & _).
  split; [exact (Ha eq_refl)|].
  apply (Hp (sample_record "k1" [1] ACTIVE) ltac:(vm_compute; reflexivity) eq_refl).
Defined.

(** Code bug: a [register] that fails on its identifier has already demoted the node's
    active key - the error is raised after the previous key was marked rotated, so a rejected
    registration leaves the node without an active key. *)
Theorem register_failure_demotes (R : KeyRegistry) (now kid nid : str) (pk : bytes) (alg : str)
  (act exp : option str) (meta : dict) (p q r : KeyRecord)
  (H1 : one_active R) (Hp : active_key R nid = Some p) (Hq : get R kid = Some q)
  (Hb : build_record now kid nid pk alg act exp meta true = Ok r) :
  exists R' m, register R now kid nid pk alg act exp meta true = (R', Err (KeyRegistryError m)) /\
    active_key R' nid = None.
Proof.
  destruct (register_cases R now kid nid pk alg act exp meta true)
    as [(e & E & E')|(r' & Hb' & [(e & E & I)|[E I]])]; [congruence| |].
  - exists (demote R nid). unfold insert_record in I.
    assert (exists m, e = KeyRegistryError m) as [m ->].
    { unfold registry_error in I. repeat case_match; try discriminate I; injection I as <-; eauto. }
    exists m. split; [done|]. by apply demote_inactive.
  - exfalso. destruct (build_record_fields _ _ _ _ _ _ _ _ _ _ Hb') as (<- & _).
    apply insert_inv in I as (_ & Hg & _). apply get_None in Hg. apply Hg.
    assert (map kr_key_id (demote R nid) = map kr_key_id R) as ->
      by (unfold demote; destruct (active_key R nid); [by apply update_map | done]).
    apply get_Some in Hq as [Hq Ek]. rewrite <- Ek.
    by apply list_elem_of_In, in_map, list_elem_of_In.
Qed.

Lemma register_failure_demotes_witness : exists R' m,
  sample_register [sample_record "k1" [1] ACTIVE] "k1" [2] = (R', Err (KeyRegistryError m)) /\
  active_key R' (lit "n1") = None.
Proof.
  apply (register_failure_demotes [sample_record "k1" [1] ACTIVE] sample_now (lit "k1") (lit "n1") [2] (lit "ML-DSA-65")
    None None [] (sample_record "k1" [1] ACTIVE) (sample_record "k1" [1] ACTIVE) (sample_record "k1" [2] ACTIVE)
    (proj2 (sample_registry_ok ACTIVE))); vm_compute; reflexivity.
Defined.

(** *** Usability *)
Lemma try_time_ok v found k p : try_time v found k = Ok p ->
  (exists t, parse_time (VStr v) = Ok t /\ k t = Ok p) \/
  ((exists m, parse_time (VStr v) = Err (KeyRegistryError m)) /\ p = found ++ ["pqc_malformed_evidence"%string]).
Proof.
  unfold try_time. destruct (parse_time (VStr v)) as [t|e]; [intros; left; eauto|].
  destruct e; try done. intros [= <-]. right. eauto.
Qed.

Lemma app_one_nil (l : list string) x : l ++ [x] <> [].
Proof. by destruct l. Qed.

Lemma finish_nil r p : finish_problems r p = Ok [] <-> p = [] /\ kr_state r <> EXPIRED.
Proof.
  unfold finish_problems. destruct (decide (kr_state r = EXPIRED)) as [E|E].
  - rewrite bool_decide_eq_true_2 by done. split; [|by intros [? ?]]. intros [= H].
    destruct (negb _) eqn:N; [by destruct (app_one_nil _ _ H)|]. subst p. by vm_compute in N.
  - rewrite bool_decide_eq_false_2 by done. naive_solver.
Qed.

Lemma time_part_nil r at_ : time_part r at_ [] = Ok [] <->
  exists t a, parse_time (VStr at_) = Ok t /\ parse_time (VStr (kr_activated_at r)) = Ok a /\ a <= t /\
    kr_state r <> EXPIRED /\
    match kr_expires_at r with
    | None => True
    | Some x => exists e, parse_time (VStr x) = Ok e /\ t <= e
    end.
Proof.
  unfold time_part. split.
  - intros [(t & Ht & H)|[_ H]]%try_time_ok; [|done].
    apply try_time_ok in H as [(a & Ha & H)|[_ H]]; [|done]. exists t, a.
    destruct (Z.ltb_spec t a).
    { exfalso. destruct (kr_expires_at r) as [x|].
      - apply try_time_ok in H as [(e & _ & H)|[_ H]]; [|done]. apply finish_nil in H as [H _]. by case_match.
      - by apply finish_nil in H as [H _]. }
    destruct (kr_expires_at r) as [x|].
    + apply try_time_ok in H as [(e & He & H)|[_ H]]; [|done]. apply finish_nil in H as [H Hs].
      destruct (Z.ltb_spec e t); [done|]. split_and!; try done. eauto.
    + apply finish_nil in H as [_ Hs]. done.
  - intros (t & a & Ht & Ha & Hat & Hs & Hx). unfold try_time. rewrite Ht, Ha.
    replace (t <? a) with false by (symmetry; apply Z.ltb_ge; lia).
    destruct (kr_expires_at r) as [x|].
    + destruct Hx as (e & -> & He). replace (e <? t) with false by (symmetry; apply Z.ltb_ge; lia).
      by apply finish_nil.
    + by apply finish_nil.
Qed.

(** Problems only accumulate. *)
Lemma time_part_prefix r at_ p0 p : time_part r at_ p0 = Ok p -> exists q, p = p0 ++ q.
Proof.
  assert (forall p0 p, finish_problems r p0 = Ok p -> exists q, p = p0 ++ q) as F.
  { unfold finish_problems. intros p1 p2 [= <-]. case_match; [eauto | exists []; by rewrite app_nil_r]. }
  unfold time_part. intros [(t & Ht & H)|[_ ->]]%try_time_ok; [|eauto].
  apply try_time_ok in H as [(a & Ha & H)|[_ ->]]; [|eauto].
  assert (exists q, (if t <? a then p0 ++ ["pqc_unknown_key"%string] else p0) = p0 ++ q) as [q Eq]
    by (destruct (t <? a); [eauto | exists []; by rewrite app_nil_r]).
  rewrite Eq in H. destruct (kr_expires_at r) as [x|].
  - apply try_time_ok in H as [(e & He & H)|[_ ->]]; [|rewrite <- app_assoc; eauto].
    apply F in H as [q' ->]. destruct (e <? t); rewrite <- !app_assoc; eauto.
  - apply F in H as [q' ->]. rewrite <- app_assoc. eauto.
Qed.

(** [check_usable] says yes exactly when the key is registered for this node and
    algorithm, is neither revoked, disabled nor expired, and the event's time lies within its
    activation and expiry times.  A rotated key counts as usable at any such time: nothing
    makes new events use the new active key. *)
Theorem check_usable_iff (R : KeyRegistry) (kid nid at_ alg : str) :
  check_usable R kid nid at_ alg = Ok {| usable := true; problems := [] |} <->
  exists r t a, get R kid = Some r /\ kr_node_id r = nid /\ kr_algorithm r = alg /\
    (kr_state r = ACTIVE \/ kr_state r = ROTATED) /\
    parse_time (VStr at_) = Ok t /\ parse_time (VStr (kr_activated_at r)) = Ok a /\ a <= t /\
    match kr_expires_at r with
    | None => True
    | Some x => exists e, parse_time (VStr x) = Ok e /\ t <= e
    end.
Proof.
  unfold check_usable. split.
  - destruct (get R kid) as [r|]; [|done]. cbv zeta. intros H. apply bind_ok in H as (p & Hp & [= Hu Hn]). subst p.
    destruct (time_part_prefix _ _ _ _ Hp) as [q Hq]. symmetry in Hq. apply app_nil in Hq as [Hq _].
    rewrite Hq in Hp. apply app_nil in Hq as [H1 Hq]. apply app_nil in Hq as [H2 Hq]. apply app_nil in Hq as [H3 H4].
    destruct (str_eqb (kr_node_id r) nid) eqn:E1; [|done]. apply str_eqb_eq in E1.
    destruct (str_eqb (kr_algorithm r) alg) eqn:E2; [|done]. apply str_eqb_eq in E2.
    apply time_part_nil in Hp as (t & a & Ht & Ha & Hat & Hs & Hx). exists r, t, a.
    split_and!; try done. destruct (kr_state r); auto; done.
  - intros (r & t & a & -> & En & Ea & Hs & Ht & Ha & Hat & Hx). cbv zeta. rewrite En, Ea, !str_eqb_refl.
    assert ((if bool_decide (kr_state r = REVOKED) then ["pqc_revoked_key"%string] else []) = []) as ->
      by (rewrite bool_decide_eq_false_2; [done | by destruct Hs as [-> | ->]]).
    assert ((if bool_decide (kr_state r = DISABLED) then ["pqc_revoked_key"%string] else []) = []) as ->
      by (rewrite bool_decide_eq_false_2; [done | by destruct Hs as [-> | ->]]).
    cbn [app]. assert (time_part r at_ [] = Ok []) as ->; [|done].
    apply time_part_nil. exists t, a. split_and!; try done. by destruct Hs as [-> | ->].
Qed.

(** Revocation sticks: once a key is revoked, every usability check of that key, for any
    node, time and algorithm, reports [pqc_revoked_key] - unless it ends in an exception. *)
Theorem revoked_never_usable (R R' : KeyRegistry) (now kid reason : str) (r : KeyRecord)
  (H : revoke R now kid reason = (R', Ok r)) :
  forall nid at_ alg u, check_usable R' kid nid at_ alg = Ok u ->
    usable u = false /\ "pqc_revoked_key"%string ∈ problems u.
Proof.
  unfold revoke in H. destruct (require_key R kid) as [r0|] eqn:E; [|done]. case_match; [done|]. injection H as <- <-.
  unfold require_key in E. destruct (get R kid) as [r1|] eqn:G; [|done]. injection E as ->.
  intros nid at_ alg u Hu. unfold check_usable in Hu. rewrite get_update, G in Hu by done. cbn [fmap option_fmap option_map] in Hu.
  cbv zeta in Hu. apply bind_ok in Hu as (p & Hp & [= <-]). cbn [usable problems].
  destruct (time_part_prefix _ _ _ _ Hp) as [q ->].
  assert ("pqc_revoked_key"%string ∈
    (((if str_eqb (kr_node_id (set_revoked r0 (strip reason) now)) nid then [] else ["pqc_unknown_node"%string]) ++
      (if str_eqb (kr_algorithm (set_revoked r0 (strip reason) now)) alg then [] else ["pqc_unsupported_algorithm"%string]) ++
      (if bool_decide (kr_state (set_revoked r0 (strip reason) now) = REVOKED) then ["pqc_revoked_key"%string] else []) ++
      (if bool_decide (kr_state (set_revoked r0 (strip reason) now) = DISABLED) then ["pqc_revoked_key"%string] else [])) ++ q)) as Hin.
  { rewrite !elem_of_app. left. right. right. left. simpl. left. }
  split; [|exact Hin]. apply bool_decide_eq_false_2. intros E. rewrite E in Hin. by apply elem_of_nil in Hin.
Qed.

Lemma revoked_never_usable_witness : exists R' r u,
  revoke [sample_record "k1" [1] ACTIVE] sample_now (lit "k1") (lit " lost ") = (R', Ok r) /\
  check_usable R' (lit "k1") (lit "n1") sample_now (lit "ML-DSA-65") = Ok u /\ usable u = false.
Proof.
  destruct (revoke [sample_record "k1" [1] ACTIVE] sample_now (lit "k1") (lit " lost ")) as [R' o] eqn:E.
  pose proof E as E0. vm_compute in E0. injection E0 as E1 E2.
  destruct o as [r|e]; [|discriminate E2]. exists R', r.
  destruct (check_usable R' (lit "k1") (lit "n1") sample_now (lit "ML-DSA-65")) as [u|e] eqn:Eu;
    [|subst R'; vm_compute in Eu; discriminate Eu].
  exists u. split; [reflexivity | split; [reflexivity|]].
  exact (proj1 (revoked_never_usable _ R' sample_now (lit "k1") (lit " lost ") r E (lit "n1") sample_now (lit "ML-DSA-65") u Eu)).
Defined.

(** Every record of the registry is validated; loading and the operations keep it so. *)
Definition checked (R : KeyRegistry) : Prop := Forall (fun r => check_record r = Ok r) R.

Lemma check_record_same r s : kr_key_id s = kr_key_id r -> kr_node_id s = kr_node_id r -> kr_algorithm s = kr_algorithm r ->
  kr_public_key s = kr_public_key r -> kr_created_at s = kr_created_at r -> kr_activated_at s = kr_activated_at r ->
  kr_expires_at s = kr_expires_at r -> check_record r = Ok r -> check_record s = Ok s.
Proof.
  intros E1 E2 E3 E4 E5 E6 E7. unfold check_record. rewrite E1, E2, E3, E4, E5, E6, E7. intros H. inv_res.
  repeat match goal with H : _ = Ok _ |- _ => rewrite H; cbn [mbind res_bind] end. done.
Qed.

Lemma update_checked R k f : (forall r, check_record r = Ok r -> check_record (f r) = Ok (f r)) -> checked R -> checked (update R k f).
Proof.
  intros H C. unfold checked in *. rewrite Forall_forall in *. intros r (s & Hs & ->)%update_elem. destruct (str_eqb _ k); auto.
Qed.

Lemma set_state_checked s r : check_record r = Ok r -> check_record (set_state r s) = Ok (set_state r s).
Proof. by apply (check_record_same r). Qed.

Lemma register_checked R now kid nid pk alg act exp meta mk : checked R ->
  checked (register R now kid nid pk alg act exp meta mk).1.
Proof.
  intros C. assert (checked (if mk then demote R nid else R)) as C1.
  { destruct mk; [|done]. unfold demote. destruct (active_key R nid); [|done]. apply update_checked; [|done]. intros r. apply set_state_checked. }
  destruct (register_cases R now kid nid pk alg act exp meta mk) as [(e & -> & _)|(r & Hb & [(e & -> & _)|[-> _]])]; [done..|].
  apply Forall_app. split; [done|]. apply Forall_singleton. apply build_record_fields in Hb. by destruct Hb as (_ & _ & _ & _ & _ & ?).
Qed.

Lemma revoke_checked R now kid reason : checked R -> checked (revoke R now kid reason).1.
Proof.
  intros C. unfold revoke. destruct (require_key R kid); [|done]. case_bool_decide; [done|]. apply update_checked; [|done].
  intros r'. by apply (check_record_same r').
Qed.

Lemma insert_checked R r R' : insert_record R r = Ok R' -> checked R -> check_record r = Ok r -> checked R'.
Proof. intros (-> & _)%insert_inv C Hr. apply Forall_app. split; [done | by apply Forall_singleton]. Qed.

Lemma load_good lim f R : load lim f = Ok R -> registry_ok R /\ checked R.
Proof.
  unfold load. destruct f as [| |b]; [intros [= <-]; split; [apply empty_ok | constructor] | done |]. intros H. inv_res.
  rename select (map_res from_dict _ = Ok _) into Hm. rename select (new_registry _ = Ok _) into Hn.
  unfold new_registry in Hn. split; [exact (fold_insert_ok _ _ _ empty_ok Hn)|].
  match type of Hm with map_res _ ?l = Ok ?rs => assert (checked rs) as C end.
  { clear Hn. match type of Hm with map_res _ ?l = _ => revert Hm; generalize l end. intros l. clear -l. 
    match goal with |- _ = Ok ?rs -> _ => revert rs end.
    induction l as [|v l IH]; intros rs H; [injection H as <-; constructor|]. cbn [map_res] in H.
    apply bind_ok in H as (r & Hr & H). apply bind_ok in H as (rs' & Hrs & [= <-]). constructor; [by apply from_dict_checked in Hr | by apply IH]. }
  clear Hm. match type of Hn with fold_res _ _ ?rs = _ => revert C Hn; generalize rs end. intros rs C.
  assert (checked []) as C0 by constructor. revert C0. generalize (@nil KeyRecord). 
  induction C as [|r rs Hr C IH]; intros R0 C0 Hf; [by injection Hf as <-|]. cbn [fold_res] in Hf.
  apply bind_ok in Hf as (R1 & Hi & Hf). apply (IH R1); [by apply (insert_checked _ _ _ Hi) | done].
Qed.

(** *** The file round trip *)
#[export] Instance registry_layout fr : Layout (registry_cfg fr).
Proof. split; [exists []; done | exists [32]; split; [done | by repeat constructor]]. Qed.

(** A record after a trip through JSON: free-form values have their keys sorted. *)
Definition normal_record (r : KeyRecord) : KeyRecord := {|
  kr_key_id := kr_key_id r; kr_node_id := kr_node_id r; kr_algorithm := kr_algorithm r;
  kr_public_key := kr_public_key r; kr_created_at := kr_created_at r;
  kr_activated_at := kr_activated_at r; kr_expires_at := kr_expires_at r; kr_state := kr_state r;
  kr_revocation_reason := normal true (kr_revocation_reason r);
  kr_revoked_at := normal true (kr_revoked_at r); kr_metadata := normal_event (kr_metadata r) |}.

Lemma record_items_keys r fp sha : NoDup (keys (as_dict (record_items r fp sha))).
Proof. rewrite as_dict_keys. apply (bool_decide_eq_true_1 _). vm_compute. reflexivity. Qed.

Lemma from_dict_normal r fp sha : check_record r = Ok r ->
  from_dict (normal true (VDict (as_dict (record_items r fp sha)))) = Ok (normal_record r).
Proof.
  intros Hc. destruct (normal_dict (as_dict (record_items r fp sha))) as (d' & -> & P).
  assert (map (fun kv => (KStr (kstr kv.1), normal true kv.2)) (as_dict (record_items r fp sha))
          = as_dict (record_items (normal_record r) fp sha)) as E.
  { unfold as_dict, record_items. cbn [map fst snd kstr].
    assert (normal true (opt_str (kr_expires_at r)) = opt_str (kr_expires_at (normal_record r))) as ->
      by (by destruct r as [? ? ? ? ? ? [|] ? ? ? ?]).
    rewrite normal_event_eq. reflexivity. }
  rewrite E in P. rewrite (from_dict_ext d' (as_dict (record_items (normal_record r) fp sha))).
  - rewrite from_dict_items. unfold check_record in *. inv_res.
    cbn [kr_key_id kr_node_id kr_algorithm kr_public_key kr_created_at kr_activated_at kr_expires_at normal_record].
    repeat match goal with H : _ = Ok _ |- _ => rewrite H; cbn [mbind res_bind] end. done.
  - intros k. symmetry. apply dict_get_perm; [apply record_items_keys | by symmetry].
Qed.

Lemma map_res_records rs vs : map_res record_to_dict rs = Ok vs -> Forall (fun r => check_record r = Ok r) rs ->
  map_res from_dict (map (normal true) vs) = Ok (map normal_record rs).
Proof.
  revert vs. induction rs as [|r rs IH]; intros vs H F; simpl in H; [by injection H as <-|].
  apply bind_ok in H as (v & Hv & H). apply bind_ok in H as (vs' & Hvs & [= <-]).
  apply Forall_cons in F as [Fr F]. apply record_to_dict_inv in Hv as (fp & sha & ->).
  cbn [map map_res]. rewrite from_dict_normal by done. cbn [mbind res_bind]. by rewrite (IH vs' Hvs F).
Qed.

Lemma fold_insert_all rs : forall R, NoDup (map kr_key_id (R ++ rs)) -> NoDup (map kr_public_key (R ++ rs)) ->
  fold_res insert_record R rs = Ok (R ++ rs).
Proof.
  induction rs as [|r rs IH]; intros R H1 H2; [by rewrite app_nil_r|]. cbn [fold_res].
  assert (insert_record R r = Ok (R ++ [r])) as ->.
  { rewrite map_app in H1, H2. apply NoDup_app in H1 as (_ & H1 & _). apply NoDup_app in H2 as (_ & H2 & _).
    unfold insert_record. destruct (get R (kr_key_id r)) as [s|] eqn:G.
    - apply get_Some in G as [Hs Ek]. exfalso. apply (H1 (kr_key_id s)); [|rewrite Ek; simpl; left].
      by apply list_elem_of_In, in_map, list_elem_of_In.
    - destruct (existsb _ R) eqn:E; [|done]. apply existsb_exists in E as (s & Hs & E). apply str_eqb_eq in E.
      exfalso. apply (H2 (kr_public_key s)); [by apply list_elem_of_In, in_map | rewrite E; simpl; left]. }
  cbn [mbind res_bind]. rewrite IH; by rewrite <- app_assoc.
Qed.

Lemma saved_loads (fr : spec_float -> str) (R : KeyRegistry) (now : str) (doc : value) (b : bytes) (lim : nat)
  (Hok : registry_ok R) (Hr : Forall (fun r => check_record r = Ok r) R)
  (Hdoc : document R "updated_at" now = Ok doc) (Hw : wf doc = true) (Hn : (nesting doc <= lim)%nat)
  (Hs : save_text fr R now = Ok b) (Hb : zlen b <= MAX_REGISTRY_BYTES) :
  load lim (Content b) = Ok (map normal_record (sorted_records R)).
Proof.
  unfold save_text in Hs. rewrite Hdoc in Hs. cbn [mbind res_bind] in Hs. unfold dumps in Hs.
  rewrite wf_dump_check in Hs by done. cbn [mbind res_bind] in Hs.
  unfold load, require. apply Z.leb_le in Hb. rewrite Hb. cbn [mbind res_bind].
  set (t := dump (registry_cfg fr) 0 doc) in *.
  assert (utf8_decode b = Ok (t ++ [10])) as ->.
  { eapply utf8_decode_encode; [|exact Hs]. apply Forall_app. split; [by apply dump_range | repeat constructor; lia]. }
  cbn [try_with mbind res_bind].
  unfold t. rewrite (loads_dump_ws (registry_cfg fr) default_hooks lim 0 doc [10]) by (done || by repeat constructor).
  change (c_sort (registry_cfg fr)) with true. cbn [try_with mbind res_bind].
  unfold document in Hdoc. apply bind_ok in Hdoc as (vs & Hvs & [= <-]).
  change (normal true _) with (VDict (as_dict [(lit "format_version", VStr REGISTRY_FORMAT_VERSION);
    (lit "keys", VList (map (normal true) vs)); (lit "updated_at", VStr now)])).
  assert (forall l, document_entries (VDict (as_dict [(lit "format_version", VStr REGISTRY_FORMAT_VERSION);
    (lit "keys", VList l); (lit "updated_at", VStr now)])) = Ok l) as -> by reflexivity.
  cbn [mbind res_bind]. rewrite (map_res_records (sorted_records R) vs Hvs).
  - cbn [mbind res_bind]. unfold new_registry. destruct Hok as [H1 H2]. apply (fold_insert_all _ []); cbn [app];
      rewrite map_map; cbn [kr_key_id kr_public_key normal_record]; unfold sorted_records; by rewrite sort_by_perm.
  - unfold sorted_records. by rewrite sort_by_perm.
Qed.

(** C37. Persistence round trip: a saved registry loads back with the same records in
    (node, key) order, free-form metadata with its keys sorted, for every registry whose
    records are valid and whose document JSON can hold. *)
Theorem registry_save_load (fr : spec_float -> str) (R : KeyRegistry) (now : str) (doc : value) (b : bytes) (lim : nat)
  (Hok : registry_ok R) (Hr : Forall (fun r => check_record r = Ok r) R)
  (Hdoc : document R "updated_at" now = Ok doc) (Hw : wf doc = true) (Hn : (nesting doc <= lim)%nat)
  (Hs : save_text fr R now = Ok b) (Hb : zlen b <= MAX_REGISTRY_BYTES) :
  load lim (Content b) = Ok (map normal_record (sorted_records R)).
Proof. by apply (saved_loads fr R now doc b lim). Qed.

Definition sample_file : res (value * bytes) :=
  let R := [sample_record "k1" [1] ACTIVE] in
  doc ← document R "updated_at" sample_now;
  b ← save_text (fun _ => []) R sample_now;
  Ok (doc, b).

Lemma registry_save_load_witness : exists doc b, sample_file = Ok (doc, b) /\
  load 50 (Content b) = Ok [sample_record "k1" [1] ACTIVE].
Proof.
  destruct sample_file as [[doc b]|e] eqn:E; [|apply (f_equal is_ok) in E; vm_compute in E; discriminate E].
  exists doc, b. split; [reflexivity|].
  assert (exists d t, document [sample_record "k1" [1] ACTIVE] "updated_at" sample_now = Ok d /\
    save_text (fun _ => []) [sample_record "k1" [1] ACTIVE] sample_now = Ok t /\ d = doc /\ t = b) as (d & t & H1 & H2 & -> & ->).
  { unfold sample_file in E. apply bind_ok in E as (d & Hd & E). apply bind_ok in E as (t & Ht & E).
    injection E as E1 E2. exists d, t. exact (conj Hd (conj Ht (conj E1 E2))). }
  assert (wf doc = true /\ (nesting doc <= 50)%nat /\ zlen b <= MAX_REGISTRY_BYTES) as (W & N & Z).
  { assert (match sample_file with Ok (d, t) => wf d && (nesting d <=? 50)%nat && (zlen t <=? MAX_REGISTRY_BYTES) | Err _ => false end = true) as G by (vm_compute; reflexivity).
    rewrite E in G. apply andb_true_iff in G as [G1 G2]. apply andb_true_iff in G1 as [G0 G1].
    split; [exact G0|]. split; [by apply Nat.leb_le | by apply Z.leb_le]. }
  refine (registry_save_load (fun _ => []) [sample_record "k1" [1] ACTIVE] sample_now doc b 50 _ _ H1 W N H2 Z).
  - exact (proj1 (sample_registry_ok ACTIVE)).
  - constructor; [vm_compute; reflexivity | constructor].
Defined.
