(* ===== verification/Verifier.v ===== *)
(** Verification of one signed record against the registry and, given a cursor, its chain:
    [src/ics_deception/pqc_evidence/verifier.py].

    A result carries the alert codes; the human-readable [details] and the wall-clock
    [verified_at] are left out - nothing reads them back. *)
From S2P Require Import Prelude PyText Json JsonFacts JsonScan Hashes IsoTime Canonicalizer Models CryptoBackend EventChain KeyRegistry.

Definition MAX_EVIDENCE_BYTES_CEILING := 16 * 1024 * 1024.

(** [_REASON_TO_ALERT.get(reason, "pqc_malformed_evidence")] *)
Definition reason_to_alert (reason : string) : string :=
  if String.eqb reason "oversized_evidence" then "pqc_oversized_evidence"
  else if String.eqb reason "unsupported_algorithm" then "pqc_unsupported_algorithm"
  else "pqc_malformed_evidence".

Record VerificationResult := {
  vr_valid : bool;
  vr_node_id : str;
  vr_sequence : Z;
  vr_event_hash : str;
  vr_key_id : str;
  vr_errors : list string;
  vr_warnings : list string;
}.

Definition add_error (r : VerificationResult) (alert : string) : VerificationResult := {|
  vr_valid := false; vr_node_id := vr_node_id r; vr_sequence := vr_sequence r;
  vr_event_hash := vr_event_hash r; vr_key_id := vr_key_id r;
  vr_errors := if str_mem alert (vr_errors r) then vr_errors r else vr_errors r ++ [alert];
  vr_warnings := vr_warnings r |}.

Definition add_warning (r : VerificationResult) (alert : string) : VerificationResult := {|
  vr_valid := vr_valid r; vr_node_id := vr_node_id r; vr_sequence := vr_sequence r;
  vr_event_hash := vr_event_hash r; vr_key_id := vr_key_id r; vr_errors := vr_errors r;
  vr_warnings := if str_mem alert (vr_warnings r) then vr_warnings r else vr_warnings r ++ [alert] |}.

(** [VerificationResult(valid=v)] and the one of [verify_event]. *)
Definition blank_result (v : bool) : VerificationResult := {|
  vr_valid := v; vr_node_id := []; vr_sequence := 0; vr_event_hash := []; vr_key_id := [];
  vr_errors := []; vr_warnings := [] |}.
Definition event_result (e : SignedEvent) : VerificationResult := {|
  vr_valid := true; vr_node_id := se_node_id e; vr_sequence := se_sequence e;
  vr_event_hash := se_event_hash e; vr_key_id := se_key_id e; vr_errors := []; vr_warnings := [] |}.

Record EvidenceVerifier := {
  ev_registry : KeyRegistry;
  ev_backend : option CryptoBackend;
  ev_allow_test_backend : bool;
  ev_max_record_bytes : Z;
}.

(** [EvidenceVerifier.__init__] *)
Definition new_verifier (registry : KeyRegistry) (backend : option CryptoBackend)
    (allow_test_backend : bool) (max_record_bytes : Z) : res EvidenceVerifier :=
  require (0 <? max_record_bytes) (VerifierError "max_record_bytes must be greater than zero") ;;
  require (max_record_bytes <=? MAX_EVIDENCE_BYTES_CEILING) (VerifierError "max_record_bytes must not exceed the ceiling") ;;
  Ok {| ev_registry := registry; ev_backend := backend;
        ev_allow_test_backend := allow_test_backend; ev_max_record_bytes := max_record_bytes |}.

(** The environment and the table of backends are the process's. *)
Section Verifier.
Context (env : Environ) (backends : list (str * CryptoBackend)).

Definition backend_for (v : EvidenceVerifier) (algorithm : str) : res CryptoBackend :=
  match ev_backend v with
  | Some b => Ok b
  | None => select_backend env backends None algorithm (ev_allow_test_backend v) None None
  end.

Definition check_event_hash (e : SignedEvent) (r : VerificationResult) : res VerificationResult :=
  recomputed ← compute_event_hash e;
  Ok (if str_eqb recomputed (se_event_hash e) then r else add_error r "pqc_event_hash_mismatch").

Definition check_key (v : EvidenceVerifier) (e : SignedEvent) (r : VerificationResult) : res VerificationResult :=
  u ← check_usable (ev_registry v) (se_key_id e) (se_node_id e) (se_timestamp e) (se_signature_algorithm e);
  Ok (if usable u then r else fold_left add_error (problems u) r).

(** [except BackendError as exc: raise VerifierError(...)] *)
Definition as_verifier_error {A} (m : res A) (msg : string) : res A :=
  try_with m (fun e => if is_backend_error e then Err (VerifierError msg) else Err e).

Definition check_signature (v : EvidenceVerifier) (e : SignedEvent) (r : VerificationResult) : res VerificationResult :=
  match get (ev_registry v) (se_key_id e) with
  | None => Ok (add_error r "pqc_invalid_signature")
  | Some record =>
    match public_key_bytes record with
    | Err _ => Ok (add_error r "pqc_invalid_signature")
    | Ok public_key =>
      backend ← as_verifier_error (backend_for v (se_signature_algorithm e)) "cannot verify the algorithm";
      ok ← as_verifier_error
        (payload ← signing_payload e;
         bk_verify backend public_key payload (se_signature_bytes e) (se_signature_algorithm e))
        "verification backend failed";
      Ok (if ok : bool then r else add_error r "pqc_invalid_signature")
    end
  end.

Definition check_chain (e : SignedEvent) (p : ChainPosition) (r : VerificationResult) : res VerificationResult :=
  let expected := next_sequence p in
  let r1 :=
    if se_sequence e <? expected then
      if se_sequence e <=? cp_last_sequence p then add_error r "pqc_duplicate_sequence" else r
    else if expected <? se_sequence e then add_error r "pqc_sequence_gap"
    else r in
  if se_sequence e =? FIRST_SEQUENCE then
    expected_previous ← genesis_previous_hash (se_node_id e);
    let r2 := if 0 <? cp_last_sequence p then add_error r1 "pqc_chain_reset" else r1 in
    Ok (if str_eqb (se_previous_event_hash e) expected_previous then r2
        else add_error r2 "pqc_previous_hash_mismatch")
  else match cp_last_event_hash p with
  | Some last => Ok (if str_eqb (se_previous_event_hash e) last then r1
                     else add_error r1 "pqc_previous_hash_mismatch")
  | None => Ok r1
  end.

Definition verify_event (v : EvidenceVerifier) (e : SignedEvent) (position : option ChainPosition) : res VerificationResult :=
  r1 ← check_event_hash e (event_result e);
  r2 ← check_key v e r1;
  r3 ← check_signature v e r2;
  match position with
  | Some p => check_chain e p r3
  | None => Ok r3
  end.

Definition verify_line (lim : nat) (v : EvidenceVerifier) (line : text_input)
    : res (VerificationResult * option SignedEvent) :=
  match parse_signed_event_json lim line (ev_max_record_bytes v) true with
  | Ok e => r ← verify_event v e None; Ok (r, Some e)
  | Err (EvidenceValidationError reason _) => Ok (add_error (blank_result false) (reason_to_alert reason), None)
  | Err e => Err e
  end.
End Verifier.

(** ** Facts *)

(** A result is clean when it is valid; errors and validity exclude each other. *)
Definition consistent (r : VerificationResult) : Prop := vr_valid r = true <-> vr_errors r = [].

Lemma add_error_consistent r a : consistent (add_error r a).
Proof.
  unfold consistent. simpl. split; [done|]. case_match; [|by intros [? ?]%app_nil].
  intros E. rewrite E in *. done.
Qed.

Lemma add_errors_valid l : forall r, vr_valid (fold_left add_error l r) = true -> l = [] /\ vr_valid r = true.
Proof.
  induction l as [|a l IH]; intros r; [done|]. simpl. intros [-> H]%IH. done.
Qed.

(** What the chain check demands of an event at a cursor. *)
Record links (e : SignedEvent) (p : ChainPosition) : Prop := {
  li_sequence : se_sequence e = next_sequence p;
  li_genesis : se_sequence e = FIRST_SEQUENCE -> cp_last_sequence p <= 0 /\
    genesis_previous_hash (se_node_id e) = Ok (se_previous_event_hash e);
  li_previous : se_sequence e <> FIRST_SEQUENCE -> forall h, cp_last_event_hash p = Some h -> se_previous_event_hash e = h;
}.

Lemma check_chain_valid e p r r' : check_chain e p r = Ok r' ->
  (vr_valid r' = true <-> vr_valid r = true /\ links e p).
Proof.
  unfold check_chain, next_sequence. cbv zeta. intros H.
  assert (forall r0, vr_valid (if se_sequence e <? cp_last_sequence p + 1 then
      if se_sequence e <=? cp_last_sequence p then add_error r0 "pqc_duplicate_sequence" else r0
    else if cp_last_sequence p + 1 <? se_sequence e then add_error r0 "pqc_sequence_gap" else r0) = true
    <-> vr_valid r0 = true /\ se_sequence e = cp_last_sequence p + 1) as S1.
  { intros r0. destruct (Z.ltb_spec (se_sequence e) (cp_last_sequence p + 1)).
    - replace (se_sequence e <=? cp_last_sequence p) with true by (symmetry; apply Z.leb_le; lia).
      simpl. split; [done | intros [_ ?]; lia].
    - destruct (Z.ltb_spec (cp_last_sequence p + 1) (se_sequence e)); simpl; split; intros; destruct_and?; split_and?; try done; lia. }
  destruct (Z.eqb_spec (se_sequence e) FIRST_SEQUENCE) as [E|E].
  - apply bind_ok in H as (g & Hg & [= <-]).
    destruct (str_eqb (se_previous_event_hash e) g) eqn:P.
    + apply str_eqb_eq in P as <-. destruct (Z.ltb_spec 0 (cp_last_sequence p)).
      * simpl. split; [done|]. intros [_ L]. destruct (li_genesis _ _ L E). lia.
      * rewrite S1. split; [|intros [? []]; done]. intros [? ?]. split; [done|]. split; done.
    + simpl. split; [done|]. intros [_ L]. destruct (li_genesis _ _ L E) as [_ Hg'].
      rewrite Hg in Hg'. injection Hg' as ->. by rewrite str_eqb_refl in P.
  - destruct (cp_last_event_hash p) as [l|] eqn:L; injection H as <-.
    + destruct (str_eqb (se_previous_event_hash e) l) eqn:P.
      * apply str_eqb_eq in P as <-. rewrite S1. split; [|intros [? []]; done].
        intros [? ?]. split; [done|]. split; [done..|]. intros _ h. rewrite L. by intros [= ->].
      * simpl. split; [done|]. intros [_ K]. rewrite (li_previous _ _ K E l L), str_eqb_refl in P. done.
    + rewrite S1. split; [|intros [? []]; done]. intros [? ?]. split; [done|]. split; [done..|].
      intros _ h. rewrite L. done.
Qed.

Lemma check_chain_links e p r : links e p -> check_chain e p r = Ok r.
Proof.
  intros [L1 L2 L3]. unfold check_chain. cbv zeta. rewrite L1, !Z.ltb_irrefl. rewrite L1 in L2, L3.
  destruct (Z.eqb_spec (next_sequence p) FIRST_SEQUENCE) as [E|E].
  - destruct (L2 E) as [Hl ->]. cbn [mbind res_bind]. replace (0 <? cp_last_sequence p) with false by (symmetry; apply Z.ltb_ge; lia).
    by rewrite str_eqb_refl.
  - destruct (cp_last_event_hash p) as [h|] eqn:Eh; [|done]. by rewrite (L3 E h eq_refl), str_eqb_refl.
Qed.

Section VerifierFacts.
Context (env : Environ) (backends : list (str * CryptoBackend)) (v : EvidenceVerifier).

(** What a verified record is: its hash is the hash of its content, its key may sign it, and
    its signature verifies under the registered public key. *)
Record record_sound (e : SignedEvent) : Prop := {
  rs_hash : compute_event_hash e = Ok (se_event_hash e);
  rs_key : check_usable (ev_registry v) (se_key_id e) (se_node_id e) (se_timestamp e) (se_signature_algorithm e) =
    Ok {| usable := true; problems := [] |};
  rs_signature : exists record public_key backend payload,
    get (ev_registry v) (se_key_id e) = Some record /\ public_key_bytes record = Ok public_key /\
    backend_for env backends v (se_signature_algorithm e) = Ok backend /\ signing_payload e = Ok payload /\
    bk_verify backend public_key payload (se_signature_bytes e) (se_signature_algorithm e) = Ok true;
}.

Lemma as_verifier_error_ok {A} (m : res A) msg a : as_verifier_error m msg = Ok a <-> m = Ok a.
Proof. destruct m as [x|x]; simpl; [done|]. by destruct (is_backend_error x). Qed.

Lemma check_event_hash_valid e r r' : check_event_hash e r = Ok r' ->
  (vr_valid r' = true <-> vr_valid r = true /\ compute_event_hash e = Ok (se_event_hash e)).
Proof.
  unfold check_event_hash. intros (h & Hh & [= <-])%bind_ok. rewrite Hh.
  destruct (str_eqb h (se_event_hash e)) eqn:E; [apply str_eqb_eq in E as ->; naive_solver|].
  apply str_eqb_neq in E. simpl. naive_solver.
Qed.

Lemma check_usable_shape R k n a alg u : check_usable R k n a alg = Ok u -> (usable u = true <-> problems u = []).
Proof.
  unfold check_usable. destruct (get R k) as [r|].
  - cbv zeta. intros (p & _ & [= <-])%bind_ok. simpl. apply bool_decide_eq_true.
  - intros [= <-]. simpl. by case_match.
Qed.

Lemma check_key_valid e r r' : check_key v e r = Ok r' ->
  (vr_valid r' = true <-> vr_valid r = true /\
   check_usable (ev_registry v) (se_key_id e) (se_node_id e) (se_timestamp e) (se_signature_algorithm e) =
    Ok {| usable := true; problems := [] |}).
Proof.
  unfold check_key. intros (u & Hu & [= <-])%bind_ok. rewrite Hu. pose proof (check_usable_shape _ _ _ _ _ _ Hu) as S.
  destruct u as [[|] ps]; simpl in *.
  - destruct S as [S _]. rewrite S by done. tauto.
  - split; [|intros [_ K]; discriminate K]. intros [-> _]%add_errors_valid. destruct S as [_ S]. discriminate S. done.
Qed.

Lemma check_signature_valid e r r' : check_signature env backends v e r = Ok r' ->
  (vr_valid r' = true <-> vr_valid r = true /\ exists record public_key backend payload,
    get (ev_registry v) (se_key_id e) = Some record /\ public_key_bytes record = Ok public_key /\
    backend_for env backends v (se_signature_algorithm e) = Ok backend /\ signing_payload e = Ok payload /\
    bk_verify backend public_key payload (se_signature_bytes e) (se_signature_algorithm e) = Ok true).
Proof.
  unfold check_signature. destruct (get _ _) as [rec|];
    [|intros [= <-]; simpl; split; [done | intros (_ & rec' & pk' & b' & pl' & K & _); discriminate K]].
  destruct (public_key_bytes rec) as [pk|] eqn:Ep;
    [|intros [= <-]; simpl; split; [done | intros (_ & rec' & pk' & b' & pl' & [= <-] & K & _); congruence]].
  intros (b & Hb & (ok & Hv & [= <-])%bind_ok)%bind_ok.
  apply as_verifier_error_ok in Hb, Hv. apply bind_ok in Hv as (pl & Hpl & Hv). destruct ok.
  - split; [|by intros [? _]]. intros. split; [done|]. by exists rec, pk, b, pl.
  - simpl. split; [done|]. intros (_ & rec' & pk' & b' & pl' & [= <-] & Hp & Hb' & Hpl' & Hv').
    rewrite Ep in Hp. injection Hp as <-. rewrite Hb in Hb'. injection Hb' as <-. rewrite Hpl in Hpl'. injection Hpl' as <-. congruence.
Qed.

Lemma verify_event_valid e r : verify_event env backends v e None = Ok r ->
  (vr_valid r = true <-> record_sound e).
Proof.
  unfold verify_event. intros (r1 & H1 & (r2 & H2 & (r3 & H3 & [= <-])%bind_ok)%bind_ok)%bind_ok.
  rewrite (check_signature_valid _ _ _ H3), (check_key_valid _ _ _ H2), (check_event_hash_valid _ _ _ H1).
  simpl. split; [intros [[[_ ?] ?] ?]; by split | by intros []].
Qed.

(** A sound record verifies: nothing raises. *)
Lemma verify_event_complete e : record_sound e -> verify_event env backends v e None = Ok (event_result e).
Proof.
  intros [Hh Hk (rec & pk & b & pl & G & Hpk & Hb & Hpl & Hs)]. unfold verify_event, check_event_hash, check_key, check_signature.
  rewrite Hh. cbn [mbind res_bind]. rewrite str_eqb_refl, Hk. cbn [mbind res_bind usable]. rewrite G, Hpk, Hb.
  cbn [as_verifier_error try_with mbind res_bind]. rewrite Hpl. cbn [mbind res_bind]. by rewrite Hs.
Qed.

(** C6. Soundness and completeness of one verification: a record is reported valid exactly
    when its event hash is the hash of its content, the registry allows its key for this
    node, algorithm and time, the signature verifies under the registered public key, and -
    given a chain cursor - the record continues the chain there. *)
Theorem verify_event_iff (e : SignedEvent) (position : option ChainPosition) (r : VerificationResult)
  (H : verify_event env backends v e position = Ok r) :
  vr_valid r = true <->
  record_sound e /\ match position with Some p => links e p | None => True end.
Proof.
  destruct position as [p|]; [|rewrite (verify_event_valid e r H); naive_solver].
  assert (exists r0, verify_event env backends v e None = Ok r0 /\ check_chain e p r0 = Ok r) as (r0 & H0 & Hc).
  { unfold verify_event in *. destruct (check_event_hash _ _) as [r1|]; [|done]. cbn [mbind res_bind] in *.
    destruct (check_key _ _ _) as [r2|]; [|done]. cbn [mbind res_bind] in *.
    destruct (check_signature _ _ _ _ _) as [r3|]; [|done]. eauto. }
  by rewrite (check_chain_valid _ _ _ _ Hc), (verify_event_valid _ _ H0).
Qed.
End VerifierFacts.

(** ** A concrete signed record, under the insecure test backend *)
Definition test_env : Environ := {| env_backend := []; env_production := [] |}.
Definition sample_key : bytes := TEST_KEY_MARKER ++ lit "-1".
Definition sample_verifier : EvidenceVerifier := {|
  ev_registry := [sample_record "k1" sample_key ACTIVE]; ev_backend := Some (InsecureTestBackend test_env);
  ev_allow_test_backend := true; ev_max_record_bytes := MAX_EVIDENCE_BYTES |}.

Definition sample_seal (e : SignedEvent) : res SignedEvent :=
  h ← compute_event_hash e;
  p ← signing_payload (with_event_hash e h);
  s ← test_sign test_env sample_key p (lit "ML-DSA-65");
  Ok (with_signature (with_event_hash e h) (b64encode s) s).

Definition sample_unsigned (n : Z) (previous : str) (what : string) : res SignedEvent :=
  build_unsigned (VStr (lit "n1")) (VInt n) (VStr sample_now) (VStr previous)
    (VDict [(KStr (lit "unit"), VInt n); (KStr (lit "what"), VStr (lit what))]) (VStr (lit "k1"))
    DEFAULT_SIGNATURE_ALGORITHM DEFAULT_HASH_ALGORITHM EVIDENCE_FORMAT_VERSION.

Definition dummy_event : SignedEvent := {|
  se_format_version := []; se_node_id := []; se_sequence := 0; se_timestamp := [];
  se_previous_event_hash := []; se_event_hash := []; se_event := []; se_signature_algorithm := [];
  se_hash_algorithm := []; se_key_id := []; se_signature := []; se_signature_bytes := [] |}.

(** The first two records of a chain. *)
Definition sample_first : SignedEvent := Eval vm_compute in
  match (g ← genesis_previous_hash (lit "n1"); e ← sample_unsigned 1 g "boot"; sample_seal e) with
  | Ok e => e | Err _ => dummy_event end.
Definition sample_second : SignedEvent := Eval vm_compute in
  match (e ← sample_unsigned 2 (se_event_hash sample_first) "alarm"; sample_seal e) with
  | Ok e => e | Err _ => dummy_event end.

Definition sample_verify (p : option ChainPosition) (e : SignedEvent) : res VerificationResult :=
  verify_event test_env [] sample_verifier e p.

Lemma verify_event_iff_witness :
  sample_verify (Some (new_position (lit "n1"))) sample_first = Ok (event_result sample_first) /\
  record_sound test_env [] sample_verifier sample_first.
Proof.
  assert (sample_verify (Some (new_position (lit "n1"))) sample_first = Ok (event_result sample_first)) as H
    by (vm_compute; reflexivity).
  split; [exact H|]. exact (proj1 (proj1 (verify_event_iff test_env [] sample_verifier sample_first (Some (new_position (lit "n1"))) _ H) eq_refl)).
Defined.

(** The second record with its event's keys in the other order. *)
Definition sample_second' : SignedEvent := with_event sample_second (rev (se_event sample_second)).

Lemma sample_chain : valid_chain (lit "n1") [sample_first; sample_second] /\
  valid_chain (lit "n1") [sample_first; sample_second'].
Proof.
  split; (exists (se_previous_event_hash sample_first)); (split; [vm_compute; reflexivity|]);
    cbn [chain]; (split_and!; [vm_compute; reflexivity.. | exact I]).
Qed.

Lemma sample_pyvals : pyvals [sample_first; sample_second] /\ pyvals [sample_first; sample_second'].
Proof. split; repeat constructor. Qed.

Lemma chain_head_binds_witness :
  Forall2 same_content [sample_first; sample_second] [sample_first; sample_second'] \/ collision.
Proof.
  exact (chain_head_binds (lit "n1") [sample_first] [sample_first] sample_second sample_second'
    (proj1 sample_pyvals) (proj2 sample_pyvals) (proj1 sample_chain) (proj2 sample_chain) eq_refl).
Defined.
