(* ===== verification/Collector.v ===== *)
(** Verification of streams of records, several nodes interleaved:
    [src/ics_deception/pqc_evidence/collector.py].

    A tracker per node holds the chain cursor and what was seen; a report counts.  The
    wall-clock fields [started_at]/[finished_at] are left out. *)
From S2P Require Import Prelude PyText Json JsonFacts JsonScan Hashes IsoTime Canonicalizer Models CryptoBackend EventChain KeyRegistry Verifier.

Definition MAX_TRACKED_HASHES := 1000000.

Record NodeTracker := {
  tr_position : ChainPosition;
  tr_seen_sequences : gmap Z str;
  tr_seen_hashes : gset str;
  tr_exhausted : bool;
}.

Definition new_tracker (node_id : str) : NodeTracker :=
  {| tr_position := new_position node_id; tr_seen_sequences := ∅; tr_seen_hashes := ∅; tr_exhausted := false |}.

Definition repeat_alerts (t : NodeTracker) (e : SignedEvent) : list string :=
  match tr_seen_sequences t !! se_sequence e with
  | Some previous => if str_eqb previous (se_event_hash e) then ["pqc_replayed_event"%string]
                     else ["pqc_duplicate_sequence"%string]
  | None => if bool_decide (se_event_hash e ∈ tr_seen_hashes t) then ["pqc_replayed_event"%string] else []
  end.

(** [_NodeTracker.note]: the tracker after it, and the alerts. *)
Definition note (t : NodeTracker) (e : SignedEvent) : NodeTracker * list string :=
  let alerts := repeat_alerts t e in
  if Z.of_nat (size (tr_seen_hashes t)) <? MAX_TRACKED_HASHES then
    ({| tr_position := tr_position t;
        tr_seen_sequences := <[se_sequence e := se_event_hash e]> (tr_seen_sequences t);
        tr_seen_hashes := {[se_event_hash e]} ∪ tr_seen_hashes t;
        tr_exhausted := tr_exhausted t |}, alerts)
  else if tr_exhausted t then (t, alerts)
  else ({| tr_position := tr_position t; tr_seen_sequences := tr_seen_sequences t;
           tr_seen_hashes := tr_seen_hashes t; tr_exhausted := true |},
        alerts ++ ["pqc_malformed_evidence"%string]).

Definition set_position (t : NodeTracker) (p : ChainPosition) : NodeTracker := {|
  tr_position := p; tr_seen_sequences := tr_seen_sequences t;
  tr_seen_hashes := tr_seen_hashes t; tr_exhausted := tr_exhausted t |}.

Record NodeSummary := {
  ns_last_sequence : Z;
  ns_last_event_hash : option str;
  ns_events : Z;
}.

Definition summary (t : NodeTracker) : NodeSummary := {|
  ns_last_sequence := cp_last_sequence (tr_position t);
  ns_last_event_hash := cp_last_event_hash (tr_position t);
  ns_events := Z.of_nat (size (tr_seen_sequences t)) |}.

Record StreamReport := {
  sr_valid : bool;
  sr_total : Z;
  sr_verified : Z;
  sr_failed : Z;
  sr_malformed : Z;
  sr_nodes : gmap str NodeSummary;
  sr_alert_counts : gmap string Z;
  sr_results : list VerificationResult;
  sr_truncated : bool;
}.

Definition empty_report : StreamReport := {|
  sr_valid := true; sr_total := 0; sr_verified := 0; sr_failed := 0; sr_malformed := 0;
  sr_nodes := ∅; sr_alert_counts := ∅; sr_results := []; sr_truncated := false |}.

Record EvidenceCollector := {
  co_registry : KeyRegistry;
  co_verifier : EvidenceVerifier;
  co_max_results : Z;
  co_max_record_bytes : Z;
}.

(** [EvidenceCollector.__init__]; a given verifier is shared, and its limit overwritten. *)
Definition new_collector (registry : KeyRegistry) (verifier : option EvidenceVerifier)
    (max_results max_record_bytes : Z) (allow_test_backend : bool) : res EvidenceCollector :=
  require (0 <? max_record_bytes) (CollectorError "max_record_bytes must be greater than zero") ;;
  require (0 <? max_results) (CollectorError "max_results must be greater than zero") ;;
  v ← match verifier with
      | Some v => Ok {| ev_registry := ev_registry v; ev_backend := ev_backend v;
                        ev_allow_test_backend := ev_allow_test_backend v; ev_max_record_bytes := max_record_bytes |}
      | None => new_verifier registry None allow_test_backend max_record_bytes
      end;
  Ok {| co_registry := registry; co_verifier := v;
        co_max_results := max_results; co_max_record_bytes := max_record_bytes |}.

Definition count_alert (m : gmap string Z) (alert : string) : gmap string Z :=
  <[alert := default 0 (m !! alert) + 1]> m.

(** [_record] *)
Definition record_result (max_results : Z) (p : StreamReport) (r : VerificationResult) : StreamReport := {|
  sr_valid := sr_valid p; sr_total := sr_total p; sr_verified := sr_verified p; sr_failed := sr_failed p;
  sr_malformed := sr_malformed p; sr_nodes := sr_nodes p;
  sr_alert_counts := fold_left count_alert (vr_errors r ++ vr_warnings r) (sr_alert_counts p);
  sr_results := if zlen (sr_results p) <? max_results then sr_results p ++ [r] else sr_results p;
  sr_truncated := if zlen (sr_results p) <? max_results then sr_truncated p else true |}.

Definition count_line (p : StreamReport) : StreamReport := {|
  sr_valid := sr_valid p; sr_total := sr_total p + 1; sr_verified := sr_verified p; sr_failed := sr_failed p;
  sr_malformed := sr_malformed p; sr_nodes := sr_nodes p; sr_alert_counts := sr_alert_counts p;
  sr_results := sr_results p; sr_truncated := sr_truncated p |}.

Definition count_failed (malformed : bool) (p : StreamReport) : StreamReport := {|
  sr_valid := false; sr_total := sr_total p; sr_verified := sr_verified p; sr_failed := sr_failed p + 1;
  sr_malformed := sr_malformed p + (if malformed then 1 else 0); sr_nodes := sr_nodes p;
  sr_alert_counts := sr_alert_counts p; sr_results := sr_results p; sr_truncated := sr_truncated p |}.

Definition count_verified (p : StreamReport) : StreamReport := {|
  sr_valid := sr_valid p; sr_total := sr_total p; sr_verified := sr_verified p + 1; sr_failed := sr_failed p;
  sr_malformed := sr_malformed p; sr_nodes := sr_nodes p; sr_alert_counts := sr_alert_counts p;
  sr_results := sr_results p; sr_truncated := sr_truncated p |}.

Definition set_nodes (p : StreamReport) (nodes : gmap str NodeSummary) : StreamReport := {|
  sr_valid := sr_valid p; sr_total := sr_total p; sr_verified := sr_verified p; sr_failed := sr_failed p;
  sr_malformed := sr_malformed p; sr_nodes := nodes; sr_alert_counts := sr_alert_counts p;
  sr_results := sr_results p; sr_truncated := sr_truncated p |}.

(** A line as it is read: [strip] and [len] of a [str] or a [bytes]. *)
Definition strip_text (t : text_input) : text_input :=
  match t with TStr s => TStr (strip s) | TBytes b => TBytes (bstrip b) end.
Definition text_len (t : text_input) : Z := match t with TStr s => zlen s | TBytes b => zlen b end.
Definition blank (t : text_input) : bool := text_len t =? 0.

Section Collector.
Context (env : Environ) (backends : list (str * CryptoBackend)) (lim : nat).

Definition verify_one (c : EvidenceCollector) (line : text_input) : res VerificationResult :=
  '(r, _) ← verify_line env backends lim (co_verifier c) line; Ok r.

Notation trackers := (gmap str NodeTracker).

(** One parsed record: chain check, note, advance, count. *)
Definition stream_event (c : EvidenceCollector) (p : StreamReport) (ts : trackers)
    (r : VerificationResult) (e : SignedEvent) : res (StreamReport * trackers) :=
  let tracker := default (new_tracker (se_node_id e)) (ts !! se_node_id e) in
  r1 ← check_chain e (tr_position tracker) r;
  let '(noted, alerts) := note tracker e in
  let r2 := fold_left add_error alerts r1 in
  moved ← (if se_sequence e =? next_sequence (tr_position noted)
           then h ← compute_event_hash e; Ok (set_position noted (advance (tr_position noted) e (Some h)))
           else Ok noted);
  let p1 := if vr_valid r2 then count_verified p else count_failed false p in
  Ok (record_result (co_max_results c) p1 r2, <[se_node_id e := moved]> ts).

(** The body of the loop of [verify_stream]. *)
Definition stream_step (c : EvidenceCollector) (st : StreamReport * trackers) (raw : text_input)
    : res (StreamReport * trackers) :=
  let '(p, ts) := st in
  let text := strip_text raw in
  if blank text then Ok st
  else
    let p := count_line p in
    if co_max_record_bytes c <? text_len text then
      Ok (record_result (co_max_results c) (count_failed true p)
            (add_error (blank_result false) "pqc_oversized_evidence"), ts)
    else
      '(r, event) ← verify_line env backends lim (co_verifier c) text;
      match event with
      | None => Ok (record_result (co_max_results c) (count_failed true p) r, ts)
      | Some e => stream_event c p ts r e
      end.

Definition verify_stream (c : EvidenceCollector) (lines : list text_input) : res StreamReport :=
  '(p, ts) ← fold_res (stream_step c) (empty_report, ∅) lines;
  Ok (set_nodes p (summary <$> ts)).

(** [verify_file]: text mode, UTF-8 with replacement, universal newlines. *)
Definition verify_file (c : EvidenceCollector) (f : registry_file) : res StreamReport :=
  match f with
  | Missing => Err (CollectorError "evidence file not found")
  | Unreadable => Err (CollectorError "cannot read evidence file")
  | Content b => verify_stream c (map TStr (text_lines (utf8_decode_replace b)))
  end.

(** [iter_valid_events]: what the generator yields, and the exception that ends it early. *)
Fixpoint iter_valid_events (c : EvidenceCollector) (lines : list str) : list SignedEvent * option exn :=
  match lines with
  | [] => ([], None)
  | raw :: rest =>
    let text := TStr (strip raw) in
    if blank text then iter_valid_events c rest
    else match verify_line env backends lim (co_verifier c) text with
    | Err e => ([], Some e)
    | Ok (r, event) =>
      let '(es, stop) := iter_valid_events c rest in
      (match event with Some e => if vr_valid r then e :: es else es | None => es end, stop)
    end
  end.
End Collector.

(** ** Facts *)

(** The records of one node, in stream order. *)
Definition events_of (node_id : str) (es : list SignedEvent) : list SignedEvent :=
  List.filter (fun e => str_eqb (se_node_id e) node_id) es.

Lemma events_of_snoc n es e :
  events_of n (es ++ [e]) = if str_eqb (se_node_id e) n then events_of n es ++ [e] else events_of n es.
Proof. unfold events_of. rewrite List.filter_app. simpl. case_match; [done | by rewrite app_nil_r]. Qed.

Lemma note_position t e : tr_position (note t e).1 = tr_position t.
Proof. unfold note. cbv zeta. repeat case_match; done. Qed.

Lemma fold_errors_valid l r : vr_valid (fold_left add_error l r) = true -> vr_valid r = true.
Proof. by intros [_ ?]%add_errors_valid. Qed.


Section StreamFacts.
Context (env : Environ) (backends : list (str * CryptoBackend)) (lim : nat) (c : EvidenceCollector).
Notation trackers := (gmap str NodeTracker).
Notation step := (stream_step env backends lim c).
Notation sound := (record_sound env backends (co_verifier c)).

(** What a line reads as. *)
Definition reads (raw : text_input) (e : SignedEvent) : Prop :=
  parse_signed_event_json lim (strip_text raw) (ev_max_record_bytes (co_verifier c)) true = Ok e.

Lemma verify_line_some t r e : verify_line env backends lim (co_verifier c) t = Ok (r, Some e) ->
  parse_signed_event_json lim t (ev_max_record_bytes (co_verifier c)) true = Ok e /\
  verify_event env backends (co_verifier c) e None = Ok r.
Proof.
  unfold verify_line. destruct (parse_signed_event_json _ _ _ _) as [e'|x].
  - intros (r' & Hr & [= <- <-])%bind_ok. done.
  - by destruct x.
Qed.

(** One counted record: the report stays valid only if the record is sound and links. *)
Lemma stream_event_valid p ts r e p' ts' : verify_event env backends (co_verifier c) e None = Ok r ->
  stream_event c p ts r e = Ok (p', ts') -> sr_valid p' = true ->
  let t := default (new_tracker (se_node_id e)) (ts !! se_node_id e) in
  sr_valid p = true /\ sound e /\ links e (tr_position t) /\ repeat_alerts t e = [] /\
  ts' = <[se_node_id e := set_position (note t e).1 (advance (tr_position t) e None)]> ts /\
  sr_total p' = sr_total p /\ sr_verified p' = sr_verified p + 1 /\
  sr_failed p' = sr_failed p /\ sr_malformed p' = sr_malformed p.
Proof.
  intros Hr H Hv. cbv zeta. set (t := default _ _). unfold stream_event in H. cbv zeta in H. fold t in H.
  apply bind_ok in H as (r1 & H1 & H). destruct (note t e) as [noted alerts] eqn:En.
  apply bind_ok in H as (moved & Hm & [= <- <-]).
  revert Hv. destruct (vr_valid (fold_left add_error alerts r1)) eqn:V; intros Hv; [|discriminate Hv].
  apply add_errors_valid in V as [-> V]. apply (check_chain_valid _ _ _ _ H1) in V as [V L].
  apply (verify_event_valid _ _ _ _ _ Hr) in V.
  pose proof (note_position t e) as P. rewrite En in P. simpl in P.
  assert (repeat_alerts t e = []) as Ra.
  { unfold note in En. cbv zeta in En. apply (f_equal snd) in En. destruct (_ <? _), (tr_exhausted t); simpl in En; try done;
      by destruct (repeat_alerts t e). }
  split_and!; try done. simpl. rewrite P in Hm. rewrite (li_sequence _ _ L), Z.eqb_refl, (rs_hash _ _ _ _ V) in Hm.
  injection Hm as <-. done.
Qed.

Lemma step_valid p ts raw p' ts' : step (p, ts) raw = Ok (p', ts') -> sr_valid p' = true ->
  (blank (strip_text raw) = true /\ p' = p /\ ts' = ts) \/
  (blank (strip_text raw) = false /\ exists e, reads raw e /\
   let t := default (new_tracker (se_node_id e)) (ts !! se_node_id e) in
   sr_valid p = true /\ sound e /\ links e (tr_position t) /\ repeat_alerts t e = [] /\
   ts' = <[se_node_id e := set_position (note t e).1 (advance (tr_position t) e None)]> ts /\
   sr_total p' = sr_total p + 1 /\ sr_verified p' = sr_verified p + 1 /\
   sr_failed p' = sr_failed p /\ sr_malformed p' = sr_malformed p).
Proof.
  unfold stream_step. intros H Hv. destruct (blank (strip_text raw)); [left; by injection H as <- <-|].
  right. split; [done|]. destruct (_ <? _); [by injection H as <- <-|].
  apply bind_ok in H as ([r o] & Hl & H). destruct o as [e|]; [|by injection H as <- <-].
  apply verify_line_some in Hl as [Hp Hr]. exists e. split; [done|].
  by destruct (stream_event_valid _ _ _ _ _ _ Hr H Hv) as (? & ? & ? & ? & ? & ? & ? & ? & ?).
Qed.

(** Where a tracker stands after the records [l] of its node. *)
Definition position_after (node_id : str) (l : list SignedEvent) : ChainPosition := {|
  cp_node_id := node_id; cp_last_sequence := zlen l; cp_last_event_hash := se_event_hash <$> last l |}.

Record tracks (node_id : str) (l : list SignedEvent) (t : NodeTracker) : Prop := {
  tk_position : tr_position t = position_after node_id l;
  tk_sequences : forall n, is_Some (tr_seen_sequences t !! n) -> n <= zlen l;
  tk_hashes : forall h, h ∈ tr_seen_hashes t -> exists e, e ∈ l /\ se_event_hash e = h;
  tk_size : Z.of_nat (size (tr_seen_hashes t)) <= zlen l;
}.

Definition tracked (ts : trackers) (es : list SignedEvent) : Prop :=
  forall node_id, tracks node_id (events_of node_id es) (default (new_tracker node_id) (ts !! node_id)).

Lemma new_tracker_tracks n : tracks n [] (new_tracker n).
Proof.
  split; [done | | |]; simpl; [intros x; rewrite lookup_empty; by intros [? ?] | set_solver |].
  change (Z.of_nat (size (∅ : gset str)) <= 0). by rewrite size_empty.
Qed.

Lemma tracked_empty : tracked ∅ [].
Proof. intros n. rewrite lookup_empty. apply new_tracker_tracks. Qed.

Lemma note_tracks n l t e : tracks n l t -> se_node_id e = n -> se_sequence e = zlen l + 1 ->
  tracks n (l ++ [e]) (set_position (note t e).1 (advance (tr_position t) e None)).
Proof.
  intros [P S H Z] En Es. pose proof (zlen_nonneg l). split.
  - simpl. rewrite P. unfold advance, position_after. rewrite last_snoc, zlen_app. simpl. by rewrite Es.
  - intros k. rewrite zlen_app. change (zlen [e]) with 1. unfold note. cbv zeta.
    repeat case_match; simpl; intros Hk; try (specialize (S k Hk); lia).
    destruct (Z.eq_dec k (se_sequence e)) as [->|N]; [lia|]. rewrite lookup_insert_ne in Hk by done. specialize (S k Hk). lia.
  - intros h. setoid_rewrite elem_of_app. unfold note. cbv zeta.
    repeat case_match; simpl; intros Hh; try (destruct (H h Hh) as (f & ? & ?); eauto).
    apply elem_of_union in Hh as [->%elem_of_singleton | Hh]; [|destruct (H h Hh) as (f & ? & ?); eauto].
    exists e. split; [right; left | done].
  - rewrite zlen_app. change (zlen [e]) with 1. unfold note. cbv zeta.
    repeat case_match; simpl; try lia. rewrite size_union_alt, size_singleton.
    pose proof (subseteq_size (tr_seen_hashes t ∖ {[se_event_hash e]}) (tr_seen_hashes t) ltac:(set_solver)). lia.
Qed.

Lemma tracked_step ts es e : tracked ts es -> se_sequence e = zlen (events_of (se_node_id e) es) + 1 ->
  let t := default (new_tracker (se_node_id e)) (ts !! se_node_id e) in
  tracked (<[se_node_id e := set_position (note t e).1 (advance (tr_position t) e None)]> ts) (es ++ [e]).
Proof.
  intros T Es t n. rewrite events_of_snoc. destruct (str_eqb (se_node_id e) n) eqn:E.
  - apply str_eqb_eq in E as <-. rewrite lookup_insert_eq. simpl. apply note_tracks; [apply T | done..].
  - apply str_eqb_neq in E. rewrite lookup_insert_ne by done. apply T.
Qed.

(** Every node's records form its chain. *)
Definition chained (es : list SignedEvent) : Prop :=
  forall node_id, events_of node_id es <> [] -> valid_chain node_id (events_of node_id es).

Lemma chain_grows n l e : (l <> [] -> valid_chain n l) -> se_node_id e = n -> links e (position_after n l) ->
  compute_event_hash e = Ok (se_event_hash e) -> valid_chain n (l ++ [e]).
Proof.
  intros Hl En [L1 L2 L3] Hc. unfold next_sequence in L1. simpl in *. destruct (decide (l = [])) as [->|N].
  - destruct (L2 L1) as [_ Hg]. exists (se_previous_event_hash e). rewrite <- En. done.
  - destruct (Hl N) as (g & Hg & Hch). exists g. split; [done|]. apply chain_snoc. split; [done|].
    assert (0 < zlen l) by (destruct l; [done | rewrite zlen_cons; pose proof (zlen_nonneg l); lia]).
    split; [unfold FIRST_SEQUENCE; lia|]. split; [|done]. apply L3; [unfold FIRST_SEQUENCE; lia|].
    unfold tip. destruct (last l) as [f|] eqn:E; [done|]. by apply last_None in E.
Qed.

Lemma chained_snoc es e : chained es -> links e (position_after (se_node_id e) (events_of (se_node_id e) es)) ->
  compute_event_hash e = Ok (se_event_hash e) -> chained (es ++ [e]).
Proof.
  intros H L Hc n Hn. rewrite events_of_snoc in *. destruct (str_eqb (se_node_id e) n) eqn:E; [|by apply H].
  apply str_eqb_eq in E as <-. apply chain_grows; auto.
Qed.

Definition nonblank (lines : list text_input) : list text_input :=
  List.filter (fun raw => negb (blank (strip_text raw))) lines.

(** A log worth its name: what its lines read as is sound, record by record and chain by chain. *)
Record good_log (lines : list text_input) (es : list SignedEvent) : Prop := {
  gl_reads : Forall2 reads (nonblank lines) es;
  gl_sound : Forall sound es;
  gl_chained : chained es;
}.

Lemma fold_valid_start lines : forall p ts p' ts',
  fold_res step (p, ts) lines = Ok (p', ts') -> sr_valid p' = true -> sr_valid p = true.
Proof.
  induction lines as [|raw lines IH]; intros p ts p' ts' H Hv; [by injection H as <- <-|].
  apply bind_ok in H as ([p1 ts1] & H1 & H). specialize (IH _ _ _ _ H Hv).
  destruct (step_valid _ _ _ _ _ H1 IH) as [(_ & <- & _)|(_ & e & _ & Hp & _)]; done.
Qed.

Lemma fold_valid lines : forall p ts es p' ts', tracked ts es -> Forall sound es -> chained es ->
  fold_res step (p, ts) lines = Ok (p', ts') -> sr_valid p' = true ->
  exists fs, Forall2 reads (nonblank lines) fs /\ Forall sound (es ++ fs) /\ chained (es ++ fs) /\
    tracked ts' (es ++ fs) /\
    sr_total p' = sr_total p + zlen fs /\ sr_verified p' = sr_verified p + zlen fs /\
    sr_failed p' = sr_failed p /\ sr_malformed p' = sr_malformed p.
Proof.
  induction lines as [|raw lines IH]; intros p ts es p' ts' T S C H Hv.
  { injection H as <- <-. exists []. rewrite app_nil_r, zlen_nil. split_and!; try done; lia. }
  apply bind_ok in H as ([p1 ts1] & H1 & H). pose proof (fold_valid_start _ _ _ _ _ H Hv) as V1.
  unfold nonblank. cbn [List.filter].
  destruct (step_valid _ _ _ _ _ H1 V1) as [(-> & -> & ->)|(-> & e & Hr & Hp & Se & L & _ & -> & T1 & T2 & T3 & T4)]; cbn [negb].
  - exact (IH _ _ _ _ _ T S C H Hv).
  - rewrite (tk_position _ _ _ (T _)) in L.
    assert (tracked (<[se_node_id e := set_position (note (default (new_tracker (se_node_id e)) (ts !! se_node_id e)) e).1
      (advance (tr_position (default (new_tracker (se_node_id e)) (ts !! se_node_id e))) e None)]> ts) (es ++ [e])) as T'.
    { apply tracked_step; [done|]. destruct L as [L _ _]. unfold next_sequence in L. simpl in L. done. }
    destruct (IH _ _ (es ++ [e]) _ _ T' ltac:(by apply Forall_app; split; [|constructor])
      (chained_snoc _ _ C L (rs_hash _ _ _ _ Se)) H Hv) as (fs & F & S' & C' & T'' & N1 & N2 & N3 & N4).
    exists (e :: fs). rewrite <- app_assoc in *. rewrite zlen_cons. split_and!; try done; [by constructor | lia..].
Qed.

(** What the stream checks at a record of a good log. *)
Lemma chained_links es e fs : chained (es ++ e :: fs) ->
  links e (position_after (se_node_id e) (events_of (se_node_id e) es)).
Proof.
  intros H. set (n := se_node_id e). set (l := events_of n es).
  assert (events_of n (es ++ e :: fs) = l ++ e :: events_of n fs) as E.
  { unfold events_of, l. rewrite List.filter_app. simpl. unfold n. by rewrite str_eqb_refl. }
  specialize (H n). rewrite E in H. destruct H as (g & Hg & Hc); [by destruct l|].
  apply chain_app in Hc as [_ (Hs & Hp & _)]. split; unfold next_sequence; simpl; [unfold FIRST_SEQUENCE in Hs; lia | |].
  - intros E1. pose proof (zlen_nonneg l). assert (zlen l = 0) as L by lia. split; [lia|].
    destruct l; [|rewrite zlen_cons in L; pose proof (zlen_nonneg l); lia]. rewrite Hp. done.
  - intros _ h Hh. rewrite Hp. unfold tip. by destruct (last l); inversion Hh.
Qed.

(** A record of a chain cannot look like a repeat, but for a hash collision. *)
Lemma chained_fresh es e fs t : tracks (se_node_id e) (events_of (se_node_id e) es) t ->
  chained (es ++ e :: fs) -> Forall sound (es ++ e :: fs) -> pyvals (es ++ e :: fs) ->
  repeat_alerts t e = [] \/ collision.
Proof.
  intros T H S P. pose proof (chained_links _ _ _ H) as [L _ _]. unfold next_sequence in L. simpl in L.
  unfold repeat_alerts. destruct (tr_seen_sequences t !! se_sequence e) eqn:Es.
  { pose proof (tk_sequences _ _ _ T _ (mk_is_Some _ _ Es)). lia. }
  case_bool_decide as Hh; [|by left]. right. apply (tk_hashes _ _ _ T) in Hh as (f & Hf & Eh).
  assert (f ∈ es) as Hfe by (unfold events_of in Hf; apply list_elem_of_In, filter_In in Hf as [? _]; by apply list_elem_of_In).
  assert (forall x, x = f \/ x = e -> x ∈ es ++ e :: fs) as I by (intros x [-> | ->]; apply elem_of_app; [by left | right; left]).
  unfold pyvals in P. rewrite Forall_forall in S, P.
  pose proof (rs_hash _ _ _ _ (S f (I f (or_introl eq_refl)))) as C1. pose proof (rs_hash _ _ _ _ (S e (I e (or_intror eq_refl)))) as C2.
  rewrite Eh in C1.
  destruct (event_hash_binds f e _ (P f (I f (or_introl eq_refl))) (P e (I e (or_intror eq_refl))) C1 C2) as [[_ _ Sq _ _ _ _ _ _]|C]; [|done].
  exfalso. assert (events_of (se_node_id e) (es ++ e :: fs) = events_of (se_node_id e) es ++ e :: events_of (se_node_id e) fs) as E.
  { unfold events_of. rewrite List.filter_app. simpl. by rewrite str_eqb_refl. }
  specialize (H (se_node_id e)). rewrite E in H. destruct H as (g & _ & Hc); [by destruct (events_of (se_node_id e) es)|].
  apply chain_app in Hc as [Hc _]. pose proof (chain_sequence _ _ _ _ Hc Hf) as B. unfold FIRST_SEQUENCE in B. lia.
Qed.

Lemma stream_sound lines rep : verify_stream env backends lim c lines = Ok rep -> sr_valid rep = true ->
  exists es, good_log lines es /\
    sr_total rep = zlen es /\ sr_verified rep = zlen es /\ sr_failed rep = 0 /\ sr_malformed rep = 0.
Proof.
  intros H Hv. unfold verify_stream in H. apply bind_ok in H as ([p ts] & H & [= <-]). simpl in Hv.
  destruct (fold_valid lines _ _ [] _ _ tracked_empty (Forall_nil_2 _) ltac:(by intros n) H Hv) as (es & F & S & C & _ & N1 & N2 & N3 & N4).
  exists es. split; [by split|]. simpl. by rewrite N1, N2, N3, N4.
Qed.

(** C4. Soundness of stream verification: when a stream is reported valid, every non-blank
    line read as a record whose hash, key and signature are right, every node's records, in
    stream order, are a complete unbroken chain from the node's genesis value on - nothing
    deleted, reordered, duplicated, replayed or spliced in - and the report counts them all
    as verified and none as failed. *)
Theorem verify_stream_sound (lines : list text_input) (rep : StreamReport)
  (H : verify_stream env backends lim c lines = Ok rep) (Hv : sr_valid rep = true) :
  exists es, good_log lines es /\
    sr_total rep = zlen es /\ sr_verified rep = zlen es /\ sr_failed rep = 0 /\ sr_malformed rep = 0.
Proof. by apply stream_sound. Qed.

Lemma strip_with_Forall {P : Z -> Prop} f l : Forall P l -> Forall P (strip_with f l).
Proof.
  assert (forall l, Forall P l -> Forall P (drop_while f l)) as D.
  { clear. intros l. induction l as [|x l IH]; intros F; simpl; [done|]. apply Forall_cons in F as F'. case_match; [apply IH, F' | done]. }
  intros F. unfold strip_with. apply Forall_rev, D, Forall_rev, D, F.
Qed.

Lemma strip_range t : text_range t -> text_range (strip_text t).
Proof.
  destruct t; simpl; [|apply strip_with_Forall]. intros H%cps_Forall. apply cps_Forall. by apply strip_with_Forall.
Qed.

Lemma utf8_encode_length s b : utf8_encode s = Ok b -> zlen s <= zlen b.
Proof.
  intros [_ ->]%utf8_encode_ok. induction s as [|x s IH]; [done|]. cbn [map concat]. rewrite zlen_app, zlen_cons.
  enough (1 <= zlen (utf8_encode1 x)) by lia. unfold utf8_encode1, zlen. repeat case_match; simpl; lia.
Qed.

Lemma reads_short raw e : reads raw e -> text_len (strip_text raw) <= ev_max_record_bytes (co_verifier c).
Proof.
  unfold reads, parse_signed_event_json. intros H. inv_req. bool_prop.
  match goal with H : raw_of _ = Ok _ |- _ => rename H into Hr end.
  destruct (strip_text raw) as [s|b]; simpl in *; [|by injection Hr as ->].
  unfold try_with in Hr. destruct (utf8_encode s) eqn:E; inv_res. apply utf8_encode_length in E. lia.
Qed.

Lemma note_quiet t e : repeat_alerts t e = [] -> Z.of_nat (size (tr_seen_hashes t)) < MAX_TRACKED_HASHES ->
  (note t e).2 = [].
Proof. unfold note. cbv zeta. intros -> H%Z.ltb_lt. by rewrite H. Qed.

Lemma step_complete p ts raw e : co_max_record_bytes c = ev_max_record_bytes (co_verifier c) ->
  blank (strip_text raw) = false -> reads raw e -> sound e -> sr_valid p = true ->
  let t := default (new_tracker (se_node_id e)) (ts !! se_node_id e) in
  links e (tr_position t) -> (note t e).2 = [] ->
  exists p', step (p, ts) raw =
    Ok (p', <[se_node_id e := set_position (note t e).1 (advance (tr_position t) e None)]> ts) /\ sr_valid p' = true.
Proof.
  intros Hm Hb Hr Hs Hp t L N. unfold stream_step. rewrite Hb. pose proof (reads_short _ _ Hr) as R.
  rewrite Hm. replace (_ <? _) with false by (symmetry; apply Z.ltb_ge; lia).
  unfold verify_line. rewrite Hr. rewrite (verify_event_complete _ _ _ _ Hs). cbn [mbind res_bind].
  unfold stream_event. cbv zeta. fold t. rewrite (check_chain_links _ _ _ L). cbn [mbind res_bind].
  pose proof (note_position t e) as P. destruct (note t e) as [noted alerts]. simpl in N, P. subst alerts.
  rewrite P, (li_sequence _ _ L), Z.eqb_refl, (rs_hash _ _ _ _ Hs). cbn [mbind res_bind fold_left event_result vr_valid].
  eexists. split; [reflexivity|]. done.
Qed.

Lemma fold_complete lines : forall p ts es fs, co_max_record_bytes c = ev_max_record_bytes (co_verifier c) ->
  tracked ts es -> Forall2 reads (nonblank lines) fs -> Forall sound (es ++ fs) -> chained (es ++ fs) ->
  pyvals (es ++ fs) -> zlen (es ++ fs) <= MAX_TRACKED_HASHES -> sr_valid p = true ->
  (exists p' ts', fold_res step (p, ts) lines = Ok (p', ts') /\ sr_valid p' = true) \/ collision.
Proof.
  induction lines as [|raw lines IH]; intros p ts es fs Hm T F S C P Z Hp; [left; by exists p, ts|].
  unfold nonblank in F. cbn [List.filter] in F. destruct (blank (strip_text raw)) eqn:B; cbn [negb] in F.
  - assert (step (p, ts) raw = Ok (p, ts)) as E by (unfold stream_step; by rewrite B).
    destruct (IH p ts es fs Hm T F S C P Z Hp) as [(p' & ts' & H & Hv)|?]; [left | by right].
    exists p', ts'. cbn [fold_res]. by rewrite E.
  - apply Forall2_cons_inv_l in F as (e & fs' & Hr & F & ->). set (t := default (new_tracker (se_node_id e)) (ts !! se_node_id e)).
    destruct (chained_fresh es e fs' t (T _) C S P) as [Ra|?]; [|by right].
    pose proof (chained_links _ _ _ C) as L. assert (sound e) as Se.
    { rewrite Forall_forall in S. apply S, elem_of_app. right. left. }
    assert ((note t e).2 = []) as N.
    { apply note_quiet; [done|]. pose proof (tk_size _ _ _ (T (se_node_id e))) as K. fold t in K.
      rewrite zlen_app, zlen_cons in Z. pose proof (zlen_nonneg fs').
      assert (zlen (events_of (se_node_id e) es) <= zlen es) by (unfold zlen, events_of; pose proof (List.filter_length_le (fun e0 => str_eqb (se_node_id e0) (se_node_id e)) es); lia). lia. }
    pose proof L as L'. rewrite <- (tk_position _ _ _ (T _)) in L'.
    destruct (step_complete p ts raw e Hm B Hr Se Hp L' N) as (p1 & H1 & Hp1).
    destruct (IH p1 _ (es ++ [e]) fs' Hm (tracked_step ts es e T ltac:(destruct L as [L _ _]; exact L)) F
      ltac:(by rewrite <- app_assoc) ltac:(by rewrite <- app_assoc) ltac:(by rewrite <- app_assoc)
      ltac:(by rewrite <- app_assoc) Hp1) as [(p' & ts' & H & Hv)|?]; [left | by right].
    exists p', ts'. cbn [fold_res]. rewrite H1. cbn [mbind res_bind]. done.
Qed.

(** C5. Completeness of stream verification: a stream whose lines read as sound records that
    form each node's chain is reported valid, without an exception - for up to a million
    records, and unless two of its records collide under SHA3-256. *)
Theorem verify_stream_complete (lines : list text_input) (es : list SignedEvent)
  (Hm : co_max_record_bytes c = ev_max_record_bytes (co_verifier c))
  (Hr : Forall text_range lines) (Hg : good_log lines es) (Hn : zlen es <= MAX_TRACKED_HASHES) :
  (exists rep, verify_stream env backends lim c lines = Ok rep /\ sr_valid rep = true) \/ collision.
Proof.
  destruct Hg as [F S C]. assert (pyvals es) as P.
  { clear S C Hn. revert es F. induction lines as [|raw l IH]; intros es F; [apply Forall2_nil_inv_l in F as ->; constructor|].
    apply Forall_cons in Hr as [Hr1 Hr]. unfold nonblank in F. cbn [List.filter] in F. destruct (negb _); [|by apply IH].
    apply Forall2_cons_inv_l in F as (e & es' & R & F & ->). constructor; [|by apply IH].
    by apply (parse_json_inv _ _ _ _ (strip_range _ Hr1) R). }
  destruct (fold_complete lines empty_report ∅ [] es Hm tracked_empty F S C P Hn eq_refl) as [(p & ts & H & Hv)|?]; [left | by right].
  exists (set_nodes p (summary <$> ts)). unfold verify_stream. by rewrite H.
Qed.
End StreamFacts.

(** ** A concrete stream: two records, a blank line between them *)
Definition sample_collector : EvidenceCollector := {|
  co_registry := ev_registry sample_verifier; co_verifier := sample_verifier;
  co_max_results := 10; co_max_record_bytes := MAX_EVIDENCE_BYTES |}.

Definition sample_stream : list text_input := Eval vm_compute in
  match to_json_line sample_first, to_json_line sample_second with
  | Ok a, Ok b => [TStr (a ++ [10]); TStr [32; 10]; TStr (32 :: b)]
  | _, _ => []
  end.

Definition sample_verify_stream : res StreamReport := verify_stream test_env [] 50 sample_collector sample_stream.

Lemma verify_stream_sound_witness : exists rep, sample_verify_stream = Ok rep /\ sr_valid rep = true /\
  exists es, good_log test_env [] 50 sample_collector sample_stream es /\ sr_total rep = 2 /\ sr_total rep = zlen es.
Proof.
  assert (match sample_verify_stream with Ok r => sr_valid r && (sr_total r =? 2) | Err _ => false end = true) as V
    by (vm_compute; reflexivity).
  destruct sample_verify_stream as [rep|] eqn:E; [|discriminate V]. apply andb_true_iff in V as [V V2].
  exists rep. split; [reflexivity|]. split; [exact V|].
  destruct (verify_stream_sound test_env [] 50 sample_collector sample_stream rep E V) as (es & G & T & _).
  exists es. split; [exact G|]. split; [by apply Z.eqb_eq | exact T].
Defined.

Lemma sample_reads : Forall2 (reads 50 sample_collector) (nonblank sample_stream) [sample_first; sample_second].
Proof.
  let l := eval vm_compute in (nonblank sample_stream) in change (nonblank sample_stream) with l.
  constructor; [|constructor; [|constructor]]; vm_compute; reflexivity.
Qed.

Definition sample_signed (e : SignedEvent) : res bool :=
  p ← signing_payload e; test_verify test_env sample_key p (se_signature_bytes e) (se_signature_algorithm e).

Lemma sample_sound_one e : compute_event_hash e = Ok (se_event_hash e) -> se_key_id e = lit "k1" ->
  check_usable (ev_registry sample_verifier) (lit "k1") (se_node_id e) (se_timestamp e) (se_signature_algorithm e) =
    Ok {| usable := true; problems := [] |} ->
  sample_signed e = Ok true -> record_sound test_env [] sample_verifier e.
Proof.
  intros Hh Hk Hu (p & Hp & Hs)%bind_ok. split; rewrite ?Hk; [exact Hh | exact Hu|].
  exists (sample_record "k1" sample_key ACTIVE), sample_key, (InsecureTestBackend test_env), p.
  split; [reflexivity|]. split; [vm_compute; reflexivity|]. split; [reflexivity|]. split; [exact Hp | exact Hs].
Qed.

Lemma sample_sound : Forall (record_sound test_env [] sample_verifier) [sample_first; sample_second].
Proof.
  constructor; [|constructor; [|constructor]]; apply sample_sound_one; vm_compute; reflexivity.
Qed.

Lemma sample_chained : chained [sample_first; sample_second].
Proof.
  intros n. unfold events_of. cbn [List.filter]. change (se_node_id sample_first) with (lit "n1").
  change (se_node_id sample_second) with (lit "n1"). destruct (str_eqb (lit "n1") n) eqn:E; [|done].
  apply str_eqb_eq in E as <-. intros _. apply sample_chain.
Qed.

Lemma verify_stream_complete_witness :
  (exists rep, sample_verify_stream = Ok rep /\ sr_valid rep = true) \/ collision.
Proof.
  apply (verify_stream_complete test_env [] 50 sample_collector sample_stream [sample_first; sample_second]);
    [reflexivity | repeat constructor | | by compute].
  split; [exact sample_reads | exact sample_sound | exact sample_chained].
Defined.
