(* ===== verification/StateStore.v ===== *)
(** One node's persisted chain position and its locked, atomic store:
    [src/ics_deception/pqc_evidence/state_store.py].

    The file system is a record: the state file's bytes and whether some process holds the
    lock.  Replacing the file ([os.replace] of a synced temporary) is atomic.  [lim] bounds
    the nesting the interpreter lets [json.loads] enter; [py_str] is [str()] of a JSON value
    that is not a string, met only in files this program did not write. *)
From S2P Require Import Prelude PyText Json JsonFacts JsonScan Hashes IsoTime Canonicalizer Models EventChain KeyRegistry.

Definition MAX_STATE_BYTES := 64 * 1024.

Record NodeState := {
  ns_node_id : str;
  ns_key_id : str;
  ns_last_sequence : Z;
  ns_last_event_hash : option str;
  ns_format_version : str;
  ns_updated_at : str;
}.

(** [NodeState(node_id, key_id)] *)
Definition fresh_state (node_id key_id : str) : NodeState := {|
  ns_node_id := node_id; ns_key_id := key_id; ns_last_sequence := 0; ns_last_event_hash := None;
  ns_format_version := EVIDENCE_FORMAT_VERSION; ns_updated_at := [] |}.

Definition state_items (s : NodeState) : list (str * value) := [
  (lit "node_id", VStr (ns_node_id s));
  (lit "key_id", VStr (ns_key_id s));
  (lit "last_sequence", VInt (ns_last_sequence s));
  (lit "last_event_hash", opt_str (ns_last_event_hash s));
  (lit "format_version", VStr (ns_format_version s));
  (lit "updated_at", VStr (ns_updated_at s))].

(** [state.updated_at = now] *)
Definition stamp (s : NodeState) (now : str) : NodeState := {|
  ns_node_id := ns_node_id s; ns_key_id := ns_key_id s; ns_last_sequence := ns_last_sequence s;
  ns_last_event_hash := ns_last_event_hash s; ns_format_version := ns_format_version s; ns_updated_at := now |}.

(** [to_dict]: an empty stamp is replaced by the current time. *)
Definition state_to_dict (s : NodeState) (now : str) : value :=
  VDict (as_dict (state_items (match ns_updated_at s with [] => stamp s now | _ => s end))).

Definition corrupt {A} (m : string) : res A := Err (StateCorruptionError m).

Definition nonempty_str (v : value) (m : string) : res str :=
  match v with VStr ((_ :: _) as s) => Ok s | _ => corrupt m end.

Definition state_hash (v : value) : res (option str) :=
  match v with
  | VNone => Ok None
  | VStr h => if (zlen h =? 64) && forallb is_hex h then Ok (Some h) else corrupt "last_event_hash is not a digest"
  | _ => corrupt "last_event_hash is not a digest"
  end.

Section FromDict.
Context (py_str : value -> str).

(** [str(v)] *)
Definition to_str (v : value) : str := match v with VStr s => s | v => py_str v end.

Definition state_from_dict (data : value) (expected_node_id : option str) : res NodeState :=
  match data with
  | VDict d =>
    require (bool_decide (missing (map lit ["node_id"; "key_id"; "last_sequence"; "format_version"]%string) d = []))
      (StateCorruptionError "state is missing field(s)") ;;
    node_id ← nonempty_str (get_or d "node_id" VNone) "state has an invalid node_id";
    require (match expected_node_id with Some e => str_eqb node_id e | None => true end)
      (StateCorruptionError "state belongs to another node") ;;
    key_id ← nonempty_str (get_or d "key_id" VNone) "state has an invalid key_id";
    last_sequence ← match get_or d "last_sequence" VNone with
                    | VInt z => Ok z
                    | _ => corrupt "last_sequence must be an integer"
                    end;
    require (0 <=? last_sequence) (StateCorruptionError "last_sequence must not be negative") ;;
    hash ← state_hash (get_or d "last_event_hash" VNone);
    require (negb ((0 <? last_sequence) && bool_decide (hash = None)))
      (StateCorruptionError "sequence without last_event_hash") ;;
    require (negb ((last_sequence =? 0) && negb (bool_decide (hash = None))))
      (StateCorruptionError "no events but a last_event_hash") ;;
    format_version ← match get_or d "format_version" VNone with
                     | VStr s => if str_eqb s EVIDENCE_FORMAT_VERSION then Ok s else corrupt "format_version is not supported"
                     | _ => corrupt "format_version is not supported"
                     end;
    Ok {| ns_node_id := node_id; ns_key_id := key_id; ns_last_sequence := last_sequence;
          ns_last_event_hash := hash; ns_format_version := format_version;
          ns_updated_at := to_str (get_or d "updated_at" (VStr [])) |}
  | _ => corrupt "state must be a JSON object"
  end.

(** The text of a state file, read: [read] from the size check on. *)
Definition parse_state (lim : nat) (node_id : str) (b : bytes) : res NodeState :=
  raw ← try_with (utf8_decode b) (fun _ => corrupt "cannot read state file");
  require (negb (bool_decide (strip raw = []))) (StateCorruptionError "state file is empty") ;;
  data ← try_with (loads default_hooks lim raw) (fun e =>
    match e with JSONDecodeError => corrupt "state file is not valid JSON" | e => Err e end);
  state_from_dict data (Some node_id).
End FromDict.

(** [json.dump(state.to_dict(), handle, indent=2, sort_keys=True)] and a newline. *)
Definition no_floats : spec_float -> str := fun _ => [].
Definition no_str : value -> str := fun _ => [].
Definition state_text (s : NodeState) (now : str) : res bytes :=
  text ← dumps (registry_cfg no_floats) (state_to_dict s now); utf8_encode (text ++ [10]).

(** ** The store *)
Record StateFiles := {
  sf_locked : bool;           (* some open descriptor holds the lock *)
  sf_state : option bytes;    (* the state file *)
}.

Record StateStore := {
  ss_node_id : str;
  ss_key_id : str;
  ss_locked : bool;           (* _lock_handle is set *)
  ss_state : option NodeState;
}.

Definition new_store (node_id key_id : str) : StateStore :=
  {| ss_node_id := node_id; ss_key_id := key_id; ss_locked := false; ss_state := None |}.

Abbreviation StateM := (SE (StateFiles * StateStore)).

Definition set_file (b : bytes) (f : StateFiles) : StateFiles := {| sf_locked := sf_locked f; sf_state := Some b |}.
Definition set_lock (l : bool) (f : StateFiles) : StateFiles := {| sf_locked := l; sf_state := sf_state f |}.
Definition set_cache (s : NodeState) (o : StateStore) : StateStore :=
  {| ss_node_id := ss_node_id o; ss_key_id := ss_key_id o; ss_locked := ss_locked o; ss_state := Some s |}.
Definition set_held (l : bool) (o : StateStore) : StateStore :=
  {| ss_node_id := ss_node_id o; ss_key_id := ss_key_id o; ss_locked := l; ss_state := ss_state o |}.

(** [_lock_exclusive]: polls until the lock is free or the deadline has passed.  [freed] is
    what the polls after the first one, up to the deadline, find. *)
Fixpoint lock_exclusive (held : bool) (freed : list bool) : res unit :=
  if held then match freed with
               | [] => Err (StateLockError "another process holds the evidence state lock")
               | f :: freed => lock_exclusive (negb f) freed
               end
  else Ok tt.

Definition acquire (freed : list bool) : StateM unit :=
  mine ← gets (fun s => ss_locked s.2);
  if mine : bool then mret tt
  else
    held ← gets (fun s => sf_locked s.1);
    lift (lock_exclusive held freed) ;;
    modify (fun s => (set_lock true s.1, set_held true s.2)).

Definition release : StateM unit :=
  mine ← gets (fun s => ss_locked s.2);
  if mine : bool then modify (fun s => (set_lock false s.1, set_held false s.2)) else mret tt.

Definition require_lock : StateM unit :=
  mine ← gets (fun s => ss_locked s.2);
  if mine : bool then mret tt else raise (StateStoreError "state store is not locked").

Section Store.
Context (lim : nat) (py_str : value -> str) (now : str).

Definition read : StateM NodeState :=
  require_lock ;;
  file ← gets (fun s => sf_state s.1);
  store ← gets snd;
  state ← match file with
          | None => mret (fresh_state (ss_node_id store) (ss_key_id store))
          | Some b =>
            lift (require (zlen b <=? MAX_STATE_BYTES) (StateCorruptionError "that is corruption, not state")) ;;
            lift (parse_state py_str lim (ss_node_id store) b)
          end;
  modify (fun s => (s.1, set_cache state s.2)) ;;
  mret state.

Definition write (state : NodeState) : StateM unit :=
  require_lock ;;
  text ← lift (state_text (stamp state now) now);
  modify (fun s => (set_file text s.1, set_cache (stamp state now) s.2)).

Definition or_str (a b : str) : str := match a with [] => b | _ => a end.

Definition commit (sequence : Z) (event_hash : str) (key_id : option str) : StateM NodeState :=
  require_lock ;;
  cached ← gets (fun s => ss_state s.2);
  state ← match cached with Some s => mret s | None => read end;
  store ← gets snd;
  if sequence <=? ns_last_sequence state then raise (StateStoreError "refusing to commit a used sequence")
  else if negb (sequence =? ns_last_sequence state + 1) then raise (StateStoreError "no gaps are allowed in a chain")
  else
    let updated := {|
      ns_node_id := or_str (ns_node_id state) (ss_node_id store);
      ns_key_id := or_str (default [] key_id) (or_str (ss_key_id store) (ns_key_id state));
      ns_last_sequence := sequence; ns_last_event_hash := Some event_hash;
      ns_format_version := EVIDENCE_FORMAT_VERSION; ns_updated_at := [] |} in
    write updated ;; mret (stamp updated now).

Definition reset (key_id : option str) : StateM NodeState :=
  require_lock ;;
  store ← gets snd;
  let fresh := fresh_state (ss_node_id store) (or_str (default [] key_id) (ss_key_id store)) in
  write fresh ;; mret (stamp fresh now).

Definition recover_from (sequence : Z) (event_hash : str) (key_id : option str) : StateM NodeState :=
  require_lock ;;
  current ← read;
  store ← gets snd;
  if sequence <? ns_last_sequence current then raise (StateStoreError "refusing to rewind")
  else
    let recovered := {|
      ns_node_id := ss_node_id store;
      ns_key_id := or_str (default [] key_id) (or_str (ss_key_id store) (ns_key_id current));
      ns_last_sequence := sequence; ns_last_event_hash := Some event_hash;
      ns_format_version := EVIDENCE_FORMAT_VERSION; ns_updated_at := [] |} in
    write recovered ;; mret (stamp recovered now).
End Store.

(** ** Facts *)
#[export] Instance indented_layout : Layout (registry_cfg no_floats).
Proof. apply registry_layout. Qed.

Definition name_ok (s : str) : bool := str_ok s && negb (bool_decide (s = [])).

(** What a chain position must look like to be accepted. *)
Record state_ok (s : NodeState) : Prop := {
  st_node : name_ok (ns_node_id s) = true;
  st_key : name_ok (ns_key_id s) = true;
  st_range : 0 <= ns_last_sequence s < INT_LIMIT;
  st_hash : match ns_last_event_hash s with
            | Some h => 0 < ns_last_sequence s /\ zlen h = 64 /\ forallb is_hex h = true
            | None => ns_last_sequence s = 0
            end;
  st_version : ns_format_version s = EVIDENCE_FORMAT_VERSION;
  st_stamp : name_ok (ns_updated_at s) = true;
}.

Lemma is_hex_scalar h : forallb is_hex h = true -> str_ok h = true.
Proof.
  unfold str_ok. rewrite !forallb_forall. intros H x Hx. specialize (H x Hx).
  unfold is_hex, is_digit in H. apply is_scalar_spec. apply orb_true_iff in H as [H|H]; bool_prop; lia.
Qed.

Lemma name_ok_inv s : name_ok s = true -> str_ok s = true /\ s <> [].
Proof. unfold name_ok. intros. bool_prop. done. Qed.

Lemma nonempty_name s m : name_ok s = true -> nonempty_str (VStr s) m = Ok s.
Proof. intros [_ H]%name_ok_inv. by destruct s. Qed.

Lemma state_doc s now : name_ok (ns_updated_at s) = true -> state_to_dict s now = VDict (as_dict (state_items s)).
Proof. intros [_ H]%name_ok_inv. unfold state_to_dict. by destruct (ns_updated_at s). Qed.

Lemma state_wf s : state_ok s -> wf (VDict (as_dict (state_items s))) = true.
Proof.
  intros [Hn Hk Hr Hh Hv Hs]. apply name_ok_inv in Hn as [Hn _], Hk as [Hk _], Hs as [Hs _].
  apply wf_dict. rewrite as_dict_keys. split; [|apply (bool_decide_eq_true_1 _); vm_compute; reflexivity].
  assert (wf (opt_str (ns_last_event_hash s)) = true) as Hw.
  { destruct (ns_last_event_hash s) as [h|]; [|done]. simpl. apply is_hex_scalar, Hh. }
  repeat (apply Forall_cons; split; [split; [vm_compute; reflexivity|] |]); try (constructor); cbn [snd wf]; try done.
  - apply Z.ltb_lt. lia.
  - by rewrite Hv.
Qed.

Lemma state_from_dict_items py node_id s d : state_ok s -> ns_node_id s = node_id ->
  (forall k, dict_get d k = dict_get (as_dict (state_items s)) k) -> state_from_dict py (VDict d) (Some node_id) = Ok s.
Proof.
  intros [Hn Hk Hr Hh Hv Hs] <- G. unfold state_from_dict.
  assert (forall k v, get_or d k v = get_or (as_dict (state_items s)) k v) as Go by (intros; unfold get_or; by rewrite G).
  assert (missing (map lit ["node_id"; "key_id"; "last_sequence"; "format_version"]%string) d = []) as ->
    by (unfold missing; cbn [map List.filter]; rewrite !G; reflexivity).
  rewrite !Go.
  change (get_or (as_dict (state_items s)) "node_id" VNone) with (VStr (ns_node_id s)).
  change (get_or (as_dict (state_items s)) "key_id" VNone) with (VStr (ns_key_id s)).
  change (get_or (as_dict (state_items s)) "last_sequence" VNone) with (VInt (ns_last_sequence s)).
  change (get_or (as_dict (state_items s)) "last_event_hash" VNone) with (opt_str (ns_last_event_hash s)).
  change (get_or (as_dict (state_items s)) "format_version" VNone) with (VStr (ns_format_version s)).
  change (get_or (as_dict (state_items s)) "updated_at" (VStr [])) with (VStr (ns_updated_at s)).
  change (bool_decide ([] = [])) with true.
  cbn [require mbind res_bind].
  rewrite !nonempty_name by done. cbn [mbind res_bind]. rewrite str_eqb_refl. cbn [require mbind res_bind].
  replace (0 <=? ns_last_sequence s) with true by (symmetry; apply Z.leb_le; lia). cbn [require mbind res_bind].
  rewrite Hv. change (str_eqb EVIDENCE_FORMAT_VERSION EVIDENCE_FORMAT_VERSION) with true.
  destruct s as [nid kid seq hash ver upd]; simpl in *. destruct hash as [h|]; simpl.
  - destruct Hh as (H1 & H2 & H3). rewrite H2, H3. simpl. replace (0 <? seq) with true by (symmetry; apply Z.ltb_lt; lia).
    replace (seq =? 0) with false by (symmetry; apply Z.eqb_neq; lia). simpl. by subst.
  - subst. done.
Qed.

(** Reading a written state gives it back. *)
Lemma parse_state_text py lim now s b : state_ok s -> (1 <= lim)%nat -> state_text s now = Ok b ->
  parse_state py lim (ns_node_id s) b = Ok s.
Proof.
  intros Hok Hl H. unfold state_text in H. rewrite state_doc in H by apply Hok.
  pose proof (state_wf s Hok) as W. unfold dumps in H. rewrite wf_dump_check in H by done. cbn [mbind res_bind] in H.
  set (doc := VDict (as_dict (state_items s))) in *.
  unfold parse_state.
  assert (utf8_decode b = Ok (dump (registry_cfg no_floats) 0 doc ++ [10])) as ->.
  { eapply utf8_decode_encode; [|exact H]. apply Forall_app. split; [by apply dump_range | repeat constructor; lia]. }
  cbn [try_with mbind res_bind].
  destruct (dump_head (registry_cfg no_floats) 0 doc W) as (x & t & E & Wx & _).
  assert (bool_decide (strip (dump (registry_cfg no_floats) 0 doc ++ [10]) = []) = false) as ->.
  { apply bool_decide_eq_false. assert (x = 123) as -> by (cbn [doc dump] in E; rewrite wrap_shape in E; by injection E).
    rewrite E. unfold strip, strip_with. simpl. intros N. apply (f_equal length) in N. rewrite length_rev in N.
    assert (forall l, In 123 l -> In 123 (drop_while is_space l)) as D.
    { clear. induction l as [|y l IH]; [done|]. intros [->|Hin]; [by left|]. simpl. case_match; [by apply IH | by right]. }
    pose proof (D (rev (123 :: t ++ [10])) ltac:(apply in_rev; rewrite rev_involutive; by left)) as I.
    simpl in I. destruct (drop_while is_space _); done. }
  cbn [negb require mbind res_bind].
  assert (nesting doc <= lim)%nat by (clear -Hl; by destruct s as [? ? ? [|] ? ?]).
  rewrite (loads_dump_ws (registry_cfg no_floats) default_hooks lim 0 doc [10]) by (done || by repeat constructor).
  cbn [try_with mbind res_bind]. destruct (normal_dict (as_dict (state_items s))) as (d' & E' & P).
  change (c_sort (registry_cfg no_floats)) with true. unfold doc. rewrite E'.
  apply state_from_dict_items; [done..|]. intros k.
  assert (NoDup (keys (as_dict (state_items s)))) as Nk by (rewrite as_dict_keys; apply (bool_decide_eq_true_1 _); vm_compute; reflexivity).
  assert (as_dict (state_items s) = map (fun kv => (KStr (kstr kv.1), normal true kv.2)) (as_dict (state_items s))) as En.
  { clear. by destruct s as [? ? ? [|] ? ?]. }
  symmetry. apply dict_get_perm; [done|]. rewrite En. by symmetry.
Qed.

(** Outcomes of a commit: exactly the next sequence is accepted, and a refused or failed commit
    leaves the file alone. *)
Lemma write_inv now state f o f' o' : write now state (f, o) = ((f', o'), Ok tt) ->
  ss_locked o = true /\ exists b, state_text (stamp state now) now = Ok b /\
    f' = set_file b f /\ o' = set_cache (stamp state now) o.
Proof.
  unfold write, require_lock, mbind, se_bind, gets, lift, modify, mret, se_ret, raise.
  cbn [snd]. destruct (ss_locked o); [|done]. cbn -[state_text stamp].
  destruct (state_text _ _) as [b|] eqn:E; [|done]. intros [= <- <-]. split; [done|]. by exists b.
Qed.

Lemma write_err now state f o s e : write now state (f, o) = (s, Err e) -> s = (f, o).
Proof.
  unfold write, require_lock, mbind, se_bind, gets, lift, modify, mret, se_ret, raise.
  cbn [snd]. destruct (ss_locked o); [|by intros [= <- _]]. cbn -[state_text stamp].
  destruct (state_text _ _) as [b|] eqn:E; [done|]. by intros [= <- _].
Qed.

(** The state a store works from: its cache, or the file. *)
Definition current (lim : nat) (py : value -> str) (f : StateFiles) (o : StateStore) : res NodeState :=
  match ss_state o with
  | Some s => Ok s
  | None => match sf_state f with
            | None => Ok (fresh_state (ss_node_id o) (ss_key_id o))
            | Some b => require (zlen b <=? MAX_STATE_BYTES) (StateCorruptionError "that is corruption, not state") ;;
                        parse_state py lim (ss_node_id o) b
            end
  end.

Lemma read_eq lim py f o : ss_locked o = true -> ss_state o = None ->
  read lim py (f, o) = match current lim py f o with
                       | Ok s => ((f, set_cache s o), Ok s)
                       | Err e => ((f, o), Err e)
                       end.
Proof.
  intros Hl Hc. unfold read, current, require_lock, mbind, se_bind, gets, lift, modify, mret, se_ret, raise.
  cbn [fst snd]. rewrite Hl, Hc. cbn -[parse_state]. destruct (sf_state f) as [b|]; [|done]. cbn -[parse_state].
  unfold require. destruct (zlen b <=? MAX_STATE_BYTES); [|done]. cbn -[parse_state]. by destruct (parse_state _ _ _ b).
Qed.

(** A commit is accepted only for the sequence right after the state it works from - never
    a used one, never with a gap - and then the file holds exactly the new state; a commit
    that is refused or fails leaves the file untouched. *)
Lemma commit_correct (lim : nat) (py : value -> str) (now : str) (sequence : Z) (h : str)
  (key : option str) (f f' : StateFiles) (o o' : StateStore) (r : res NodeState)
  (Hl : ss_locked o = true) (H : commit lim py now sequence h key (f, o) = ((f', o'), r)) :
  match r with
  | Ok s' => exists s b, current lim py f o = Ok s /\ sequence = ns_last_sequence s + 1 /\
      s' = {| ns_node_id := or_str (ns_node_id s) (ss_node_id o);
              ns_key_id := or_str (default [] key) (or_str (ss_key_id o) (ns_key_id s));
              ns_last_sequence := sequence; ns_last_event_hash := Some h;
              ns_format_version := EVIDENCE_FORMAT_VERSION; ns_updated_at := now |} /\
      state_text s' now = Ok b /\ f' = set_file b f /\
      o' = {| ss_node_id := ss_node_id o; ss_key_id := ss_key_id o; ss_locked := true; ss_state := Some s' |}
  | Err _ => f' = f /\ ss_locked o' = true
  end.
Proof.
  unfold commit in H. assert (require_lock (f, o) = ((f, o), Ok tt)) as R by
    (unfold require_lock, mbind, se_bind, gets; cbn [snd]; by rewrite Hl).
  rewrite (se_bind_eq _ _ _ _ _ R) in H.
  set (pre := fun cached : option NodeState => match cached with Some s => mret s | None => read lim py end) in H.
  assert (pre (ss_state o) (f, o) = match current lim py f o with
      | Ok s => ((f, match ss_state o with None => set_cache s o | _ => o end), Ok s)
      | Err e => ((f, o), Err e) end) as P.
  { unfold pre. destruct (ss_state o) as [s|] eqn:E.
    - unfold current. by rewrite E.
    - rewrite read_eq by done. by destruct (current lim py f o). }
  rewrite (se_bind_eq (gets (fun s => ss_state s.2)) _ _ (f, o) (ss_state o)) in H by done.
  change (match ss_state o with Some s => mret s | None => read lim py end) with (pre (ss_state o)) in H.
  destruct (current lim py f o) as [s|e] eqn:C; cbv beta iota in P.
  2: { rewrite (se_bind_err _ _ _ _ _ P) in H. by injection H as <- <- <-. }
  assert (ss_locked (match ss_state o with None => set_cache s o | _ => o end) = true) as Hl1 by (by destruct (ss_state o)).
  rewrite (se_bind_eq _ _ _ _ _ P) in H. set (o1 := match ss_state o with None => set_cache s o | _ => o end) in *.
  rewrite (se_bind_eq (gets snd) _ _ (f, o1) o1) in H by done.
  destruct (Z.leb_spec sequence (ns_last_sequence s)); [by injection H as <- <- <-|].
  destruct (Z.eqb_spec sequence (ns_last_sequence s + 1)); [|by injection H as <- <- <-]. cbn [negb] in H.
  match type of H with context [write now ?u] => set (upd := u) in H end.
  destruct (write now upd (f, o1)) as [[f2 o2] [[]|x]] eqn:W.
  - rewrite (se_bind_eq _ _ _ _ _ W) in H. apply write_inv in W as (_ & b & Hb & -> & ->). injection H as <- <- <-.
    assert (ss_node_id o1 = ss_node_id o /\ ss_key_id o1 = ss_key_id o /\ ss_locked o1 = ss_locked o) as (E1 & E2 & E3)
      by (unfold o1; by destruct (ss_state o)).
    exists s, b. unfold upd, stamp, set_cache in *. cbn in *. rewrite E1, E2, E3, Hl in *. done.
  - rewrite (se_bind_err _ _ _ _ _ W) in H. apply write_err in W. injection W as -> ->. by injection H as <- <- <-.
Qed.

(** ** Sessions: [locked_state] blocks, one store object each *)
Record Session := {
  sn_now : str;                    (* the time its writes are stamped with *)
  sn_freed : list bool;            (* what its polls of the lock find *)
  sn_commits : list (Z * str);     (* the commits its body attempts, until one raises *)
}.

Section Sessions.
Context (lim : nat) (py : value -> str) (node key : str).

Fixpoint commit_all (now : str) (l : list (Z * str)) (st : StateFiles * StateStore) : (StateFiles * StateStore) * list Z :=
  match l with
  | [] => (st, [])
  | (n, h) :: l =>
    match commit lim py now n h None st with
    | (st', Ok s) => let '(st'', ns) := commit_all now l st' in (st'', ns_last_sequence s :: ns)
    | (st', Err _) => (st', [])
    end
  end.

(** The files after the block, and the sequence numbers it committed. *)
Definition session (s : Session) (f : StateFiles) : StateFiles * list Z :=
  match acquire (sn_freed s) (f, new_store node key) with
  | (st, Ok tt) => let '(st', ns) := commit_all (sn_now s) (sn_commits s) st in ((release st').1.1, ns)
  | (st, Err _) => (st.1, [])
  end.

Fixpoint sessions (l : list Session) (f : StateFiles) : StateFiles * list Z :=
  match l with
  | [] => (f, [])
  | s :: l => let '(f1, ns) := session s f in let '(f2, ms) := sessions l f1 in (f2, ns ++ ms)
  end.

(** The file holds a state at sequence [n]. *)
Definition file_at (n : Z) (f : StateFiles) : Prop :=
  (sf_state f = None /\ n = 0) \/
  exists s b now, state_ok s /\ ns_node_id s = node /\ state_text s now = Ok b /\
    sf_state f = Some b /\ ns_last_sequence s = n.

Record coherent (n : Z) (f : StateFiles) (o : StateStore) : Prop := {
  ch_locked : ss_locked o = true;
  ch_node : ss_node_id o = node;
  ch_key : ss_key_id o = key;
  ch_file : file_at n f;
  ch_cache : forall s, ss_state o = Some s -> ns_last_sequence s = n /\ ns_node_id s = node;
}.

Context (Hlim : (1 <= lim)%nat) (Hnode : name_ok node = true) (Hkey : name_ok key = true).

Lemma current_at n f o s : coherent n f o -> current lim py f o = Ok s -> ns_last_sequence s = n /\ ns_node_id s = node.
Proof.
  intros [_ Hn _ Hf Hc]. unfold current. destruct (ss_state o) as [c|]; [intros [= <-]; by apply Hc|].
  destruct Hf as [[-> ->]|(s' & b & now & Ok' & En & Ht & -> & <-)].
  - intros [= <-]. by rewrite <- Hn.
  - rewrite Hn, <- En, (parse_state_text _ _ _ _ _ Ok' Hlim Ht). unfold require. destruct (_ <=? _); [|done].
    by intros [= <-].
Qed.

Definition hash_ok (h : str) : Prop := zlen h = 64 /\ forallb is_hex h = true.

Lemma state_text_range s now b : state_text s now = Ok b -> Z.abs (ns_last_sequence s) < INT_LIMIT.
Proof.
  unfold state_text, dumps. intros H. inv_res. match goal with H : dump_check _ = Ok _ |- _ => rename H into D end.
  unfold state_to_dict in D. cbn [dump_check] in D. apply iter_res_ok in D.
  assert (dump_check (VInt (ns_last_sequence s)) = Ok tt) as I.
  { rewrite Forall_forall in D. apply (D (KStr (lit "last_sequence"), VInt (ns_last_sequence s))).
    destruct (ns_updated_at s); apply list_elem_of_In; simpl; tauto. }
  simpl in I. unfold int_str in I. destruct (Z.leb_spec INT_LIMIT (Z.abs (ns_last_sequence s))); [done | lia].
Qed.

Lemma commit_coherent now n m h f o f' o' s : name_ok now = true -> hash_ok h -> 0 <= n -> coherent n f o ->
  commit lim py now m h None (f, o) = ((f', o'), Ok s) -> m = n + 1 /\ ns_last_sequence s = n + 1 /\ coherent (n + 1) f' o'.
Proof.
  intros Hnow [Hh1 Hh2] Hn C H. pose proof (ch_locked _ _ _ C) as Hl.
  apply commit_correct in H as (s0 & b & Hc & -> & Es & Ht & Hf & Ho); [|done].
  destruct (current_at _ _ _ _ C Hc) as [E1 E2]. rewrite E1, E2 in *.
  rewrite (ch_node _ _ _ C), (ch_key _ _ _ C) in *. apply name_ok_inv in Hnode as Nn, Hkey as Nk.
  assert (or_str node node = node) as On by (by destruct node).
  assert (or_str (default [] None) (or_str key (ns_key_id s0)) = key) as Ok' by (destruct key; [by destruct Nk | done]).
  rewrite On, Ok' in Es. split; [done|]. split; [by rewrite Es|].
  assert (file_at (n + 1) f') as F.
  { right. exists s, b, now. apply state_text_range in Ht as R. rewrite Hf. split_and!; try done; [|by rewrite Es..].
    rewrite Es in *. split; cbn in *; try done; [lia|]. split_and!; [lia | done..]. }
  split; rewrite ?Ho; try done. intros c. cbn. intros [= <-]. by rewrite Es.
Qed.

Lemma commit_all_ok now l : name_ok now = true -> Forall (fun p => hash_ok p.2) l -> forall n f o st' ns,
  0 <= n -> coherent n f o -> commit_all now l (f, o) = (st', ns) ->
  ns = seqZ (n + 1) (zlen ns) /\ file_at (n + zlen ns) st'.1 /\ ss_locked st'.2 = true.
Proof.
  intros Hnow. induction 1 as [|[m h] l Hh Hl IH]; intros n f o st' ns Hn C H; cbn [commit_all] in H.
  { injection H as <- <-. rewrite zlen_nil, Z.add_0_r. destruct C. done. }
  destruct (commit lim py now m h None (f, o)) as [[f1 o1] [s|e]] eqn:E.
  - destruct (commit_all now l (f1, o1)) as [st'' ns'] eqn:E'. injection H as <- <-.
    destruct (commit_coherent _ _ _ _ _ _ _ _ _ Hnow Hh Hn C E) as (-> & Es & C').
    destruct (IH (n + 1) _ _ _ _ ltac:(lia) C' E') as [Hns [C1 C2]]. rewrite zlen_cons, Es.
    split; [|by replace (n + (1 + zlen ns')) with (n + 1 + zlen ns') by lia].
    pose proof (zlen_nonneg ns'). rewrite seqZ_cons by lia.
    replace (Z.pred (1 + zlen ns')) with (zlen ns') by lia. by rewrite <- Z.add_1_r, <- Hns.
  - injection H as <- <-. rewrite zlen_nil, Z.add_0_r. split; [done|].
    apply commit_correct in E as [-> E]; [|apply C]. split; [apply C | done].
Qed.
Definition session_ok (s : Session) : Prop :=
  name_ok (sn_now s) = true /\ Forall (fun p => hash_ok p.2) (sn_commits s).

Lemma acquire_ok freed f o st : ss_locked o = false -> acquire freed (f, o) = (st, Ok tt) ->
  st = (set_lock true f, set_held true o).
Proof.
  intros Hl. unfold acquire, mbind, se_bind, gets, lift, modify. cbn [fst snd]. rewrite Hl.
  destruct (lock_exclusive _ _) as [[]|]; [|done]. by intros [= <-].
Qed.

Lemma acquire_err freed f o st e : ss_locked o = false -> acquire freed (f, o) = (st, Err e) -> st = (f, o).
Proof.
  intros Hl. unfold acquire, mbind, se_bind, gets, lift, modify. cbn [fst snd]. rewrite Hl.
  destruct (lock_exclusive _ _) as [[]|]; [done|]. by intros [= <- _].
Qed.

Lemma session_at s n f f' ns : session_ok s -> 0 <= n -> file_at n f -> session s f = (f', ns) ->
  ns = seqZ (n + 1) (zlen ns) /\ file_at (n + zlen ns) f'.
Proof.
  intros [Hnow Hc] Hn F H. unfold session in H. destruct (acquire _ _) as [st [[]|e]] eqn:A.
  - apply acquire_ok in A as ->; [|done].
    destruct (commit_all _ _ _) as [st' ms] eqn:E. injection H as <- <-.
    assert (coherent n (set_lock true f) (set_held true (new_store node key))) as C by (split; done).
    destruct (commit_all_ok _ _ Hnow Hc _ _ _ _ _ Hn C E) as (E1 & F' & L). split; [done|].
    destruct st' as [f1 o1]. cbn [fst snd] in *. unfold release, mbind, se_bind, gets, modify. cbn [fst snd]. rewrite L. done.
  - apply acquire_err in A as ->; [|done]. injection H as <- <-. rewrite zlen_nil, Z.add_0_r. done.
Qed.

End Sessions.

(** ** Witnesses *)
Definition sample_hash (c : Z) : str := repeat c 64.
Definition sample_session (commits : list (Z * str)) : Session :=
  {| sn_now := sample_now; sn_freed := []; sn_commits := commits |}.
Definition no_files : StateFiles := {| sf_locked := false; sf_state := None |}.
Definition sample_sessions : list Session :=
  [sample_session [(1, sample_hash 97); (2, sample_hash 98); (2, sample_hash 99)];
   sample_session [(4, sample_hash 97)]; sample_session [(3, sample_hash 99)]].


(** A store object kept across two locked blocks works from what it read in the first: if
    another process commits in between, its commit of the same sequence number is accepted -
    one number, two hashes - although each block held the lock. *)
Theorem stale_store_reuses_sequence :
  let commit1 h := commit 5 no_str sample_now 1 h None in
  let a0 := new_store (lit "n1") (lit "k1") in
  let '((f1, a1), r1) := (acquire [] ;; read 5 no_str ;; release) (no_files, a0) in
  let '((f2, _), r2) := (acquire [] ;; commit1 (sample_hash 98) ;; release) (f1, new_store (lit "n1") (lit "k1")) in
  let '((f3, _), r3) := (acquire [] ;; commit1 (sample_hash 97) ;; release) (f2, a1) in
  r1 = Ok tt /\ r2 = Ok tt /\ r3 = Ok tt /\ sf_state f2 <> sf_state f3.
Proof. vm_compute. split_and!; try reflexivity. intros H. discriminate H. Qed.
