(* ===== verification/EvidenceStore.v ===== *)
(** Transactional persistence - lock, journal, log and state - of one node's evidence:
    [src/ics_deception/pqc_evidence/evidence_store.py].

    The disk is a record of the four files; every write has an outcome: it completes, or the
    operating system refuses after some bytes, or the process dies after some bytes.
    Replacing the state file is atomic; truncation, removal and copying files aside succeed.
    The lock is a flag here; [LockFile] has its file.  Wall-clock names are left out.  [lim],
    [py_str] as in StateStore; [py_int] is [int()] of a JSON value that is neither an integer
    nor a Boolean - neither occurs in files this program wrote. *)
From S2P Require Import Prelude PyText Json JsonFacts JsonScan JsonPrefix Hashes IsoTime Canonicalizer Models EventChain KeyRegistry StateStore.

Definition MAX_JOURNAL_BYTES := 1024 * 1024.

(** [json.dump(entry, handle)]: the default layout. *)
Definition default_cfg : cfg := {|
  c_ascii := true; c_sort := false; c_isep := [44; 32]; c_ksep := [58; 32]; c_indent := None;
  c_float := no_floats |}.

Record RecoveryReport := {
  rr_journal_found : bool;
  rr_action : string;
  rr_sequence : option Z;
  rr_bytes_discarded : Z;
  rr_preserved : option bytes;   (* what was copied aside *)
}.

Definition blank_report (found : bool) : RecoveryReport := {|
  rr_journal_found := found; rr_action := "none"; rr_sequence := None;
  rr_bytes_discarded := 0; rr_preserved := None |}.

Definition set_action (r : RecoveryReport) (a : string) : RecoveryReport := {|
  rr_journal_found := rr_journal_found r; rr_action := a; rr_sequence := rr_sequence r;
  rr_bytes_discarded := rr_bytes_discarded r; rr_preserved := rr_preserved r |}.

Record Disk := {
  d_locked : bool;             (* some open descriptor holds the lock *)
  d_state : option bytes;
  d_evidence : option bytes;
  d_journal : option bytes;
}.

Record EvidenceStore := {
  es_node_id : str;
  es_key_id : str;
  es_locked : bool;            (* _lock_fd is set *)
  es_state : option NodeState; (* the cache *)
  es_recovery : option RecoveryReport;
}.

Definition open_store (node_id key_id : str) : EvidenceStore := {|
  es_node_id := node_id; es_key_id := key_id; es_locked := false; es_state := None; es_recovery := None |}.

Abbreviation StoreM := (SE (Disk * EvidenceStore)).

Definition put_lock (b : bool) (d : Disk) : Disk :=
  {| d_locked := b; d_state := d_state d; d_evidence := d_evidence d; d_journal := d_journal d |}.
Definition put_state (b : bytes) (d : Disk) : Disk :=
  {| d_locked := d_locked d; d_state := Some b; d_evidence := d_evidence d; d_journal := d_journal d |}.
Definition put_evidence (b : bytes) (d : Disk) : Disk :=
  {| d_locked := d_locked d; d_state := d_state d; d_evidence := Some b; d_journal := d_journal d |}.
Definition put_journal (b : option bytes) (d : Disk) : Disk :=
  {| d_locked := d_locked d; d_state := d_state d; d_evidence := d_evidence d; d_journal := b |}.

Definition hold (l : bool) (o : EvidenceStore) : EvidenceStore := {|
  es_node_id := es_node_id o; es_key_id := es_key_id o; es_locked := l;
  es_state := es_state o; es_recovery := es_recovery o |}.
Definition cache (s : option NodeState) (o : EvidenceStore) : EvidenceStore := {|
  es_node_id := es_node_id o; es_key_id := es_key_id o; es_locked := es_locked o;
  es_state := s; es_recovery := es_recovery o |}.
Definition recovered (r : RecoveryReport) (o : EvidenceStore) : EvidenceStore := {|
  es_node_id := es_node_id o; es_key_id := es_key_id o; es_locked := es_locked o;
  es_state := es_state o; es_recovery := Some r |}.

Definition on_disk (f : Disk -> Disk) : StoreM unit := modify (fun s => (f s.1, s.2)).
Definition on_store (f : EvidenceStore -> EvidenceStore) : StoreM unit := modify (fun s => (s.1, f s.2)).

(** ** What can happen to a write *)
Inductive io :=
| IoOk
| IoError (n : nat)   (* OSError, [n] bytes having reached the file *)
| IoCrash (n : nat).  (* the process dies, [n] bytes having reached the file *)

(** What a transaction meets: the [fault] hook, and the outcome of its three writes. *)
Record Faults := {
  ft_hook : string -> option exn;
  ft_journal : io;
  ft_append : io;
  ft_state : io;
}.
Definition no_faults : Faults :=
  {| ft_hook := fun _ => None; ft_journal := IoOk; ft_append := IoOk; ft_state := IoOk |}.

Definition fault_at (f : Faults) (stage : string) : StoreM unit :=
  match ft_hook f stage with Some e => raise e | None => mret tt end.

(** The content after writing [b] behind [old]. *)
Definition written (old b : bytes) (o : io) : bytes :=
  match o with IoOk => old ++ b | IoError n | IoCrash n => old ++ take n b end.
Definition io_result (o : io) (stage : string) : res unit :=
  match o with IoOk => Ok tt | IoError _ => Err (OSError stage) | IoCrash _ => Err (Crash stage) end.

(** An atomic replacement happened when the write completed, or the crash came after it. *)
Definition replaced (o : io) : bool := match o with IoOk | IoCrash (S _) => true | _ => false end.

(** ** Locking *)
Definition acquire (freed : list bool) : StoreM unit :=
  mine ← gets (fun s => es_locked s.2);
  if mine : bool then mret tt
  else
    held ← gets (fun s => d_locked s.1);
    lift (lock_exclusive held freed) ;;
    modify (fun s => (put_lock true s.1, hold true s.2)).

Definition release : StoreM unit :=
  mine ← gets (fun s => es_locked s.2);
  if mine : bool then modify (fun s => (put_lock false s.1, hold false s.2)) else mret tt.

Definition require_lock : StoreM unit :=
  mine ← gets (fun s => es_locked s.2);
  if mine : bool then mret tt else raise (EvidenceStoreError "evidence store is not locked").

(** [set(entry)] of a list needs hashable items. *)
Definition hashable (v : value) : bool :=
  match v with VList _ | VDict _ => false | _ => true end.

Definition as_os_error (e : exn) : bool := match e with OSError _ => true | _ => false end.

Section Store.
Context (lim : nat) (py_str : value -> str) (py_int : value -> res Z) (now : str).

(** [int(v)] *)
Definition to_int (v : value) : res Z :=
  match v with VInt z => Ok z | VBool b => Ok (if b then 1 else 0) | v => py_int v end.

Definition read_state : StoreM NodeState :=
  require_lock ;;
  cached ← gets (fun s => es_state s.2);
  match cached with
  | Some s => mret s
  | None =>
    file ← gets (fun s => d_state s.1);
    store ← gets snd;
    state ← match file with
            | None => mret (fresh_state (es_node_id store) (es_key_id store))
            | Some b => lift (parse_state py_str lim (es_node_id store) b)
            end;
    on_store (cache (Some state)) ;;
    mret state
  end.

Definition write_state (o : io) (state : NodeState) : StoreM unit :=
  text ← lift (state_text (stamp state now) now);
  (if replaced o then on_disk (put_state text) else mret tt) ;;
  lift (io_result o "state") ;;
  on_store (cache (Some (stamp state now))).

(** ** The log *)

(** A line of the log that counts as a record of this node. *)
Definition log_record (node_id : str) (v : value) : option (list (key * value)) :=
  match v with
  | VDict d =>
    match get_or d "node_id" VNone, get_or d "sequence" VNone, get_or d "event_hash" VNone with
    | VStr n, (VInt _ | VBool _), VStr _ => if str_eqb n node_id then Some d else None
    | _, _, _ => None
    end
  | _ => None
  end.

Fixpoint last_record (node_id : str) (lines : list str) (last : option (list (key * value)))
    : res (option (list (key * value))) :=
  match lines with
  | [] => Ok last
  | line :: lines =>
    let text := strip line in
    if bool_decide (text = []) then last_record node_id lines last
    else match loads default_hooks lim text with
    | Ok v => last_record node_id lines (match log_record node_id v with Some d => Some d | None => last end)
    | Err (JSONDecodeError | ValueError _) => last_record node_id lines last
    | Err e => Err e
    end
  end.

Definition last_logged_record : StoreM (option (list (key * value))) :=
  file ← gets (fun s => d_evidence s.1);
  store ← gets snd;
  match file with
  | None => mret None
  | Some b => lift (last_record (es_node_id store) (text_lines (utf8_decode_replace b)) None)
  end.

Definition record_sequence (d : list (key * value)) : res Z := to_int (get_or d "sequence" VNone).
Definition record_hash (d : list (key * value)) : str := to_str py_str (get_or d "event_hash" VNone).

Definition last_logged_sequence : StoreM (option Z) :=
  r ← last_logged_record;
  match r with Some d => n ← lift (record_sequence d); mret (Some n) | None => mret None end.

(** ** Recovery *)
Definition drop_journal : StoreM unit := on_disk (put_journal None).

(** [handle.truncate(offset)]: cuts, or extends with zero bytes. *)
Definition truncated (b : bytes) (offset : Z) : bytes :=
  take (Z.to_nat offset) b ++ repeat 0 (Z.to_nat (offset - zlen b)).

Definition truncate_evidence (offset : Z) : StoreM unit :=
  file ← gets (fun s => d_evidence s.1);
  match file with
  | None => raise (OSError "no evidence file")
  | Some b => if offset <? 0 then raise (OSError "negative offset")
              else on_disk (put_evidence (truncated b offset))
  end.

(** The unreadable and the foreign journal: copied aside and dropped. *)
Definition discard_journal (action : string) (b : bytes) : StoreM RecoveryReport :=
  drop_journal ;;
  mret {| rr_journal_found := true; rr_action := action; rr_sequence := None;
          rr_bytes_discarded := 0; rr_preserved := Some b |}.

Definition required_entry : list str := map lit ["sequence"; "event_hash"; "offset"; "record"; "node_id"]%string.

(** The journal's dict: [None] when it must be discarded as foreign. *)
Definition journal_entry (node_id : str) (v : value) : res (option (list (key * value))) :=
  match v with
  | VDict d =>
    Ok (if bool_decide (missing required_entry d = []) &&
           match get_or d "node_id" VNone with VStr n => str_eqb n node_id | _ => false end
        then Some d else None)
  | VStr _ => Ok None
  | VList l =>
    if forallb hashable l then
      if forallb (fun k => existsb (fun x => match x with VStr s => str_eqb s k | _ => false end) l) required_entry
      then Err AttributeError else Ok None
    else Err (TypeError "unhashable type")
  | _ => Err (TypeError "object is not iterable")
  end.

Definition load_journal (b : bytes) : res value :=
  require (zlen b <=? MAX_JOURNAL_BYTES) (StateCorruptionError "journal: that is corruption") ;;
  raw ← utf8_decode b;
  loads default_hooks lim raw.

Definition node_state (node_id key_id : str) (sequence : Z) (hash : str) : NodeState := {|
  ns_node_id := node_id; ns_key_id := key_id; ns_last_sequence := sequence;
  ns_last_event_hash := Some hash; ns_format_version := EVIDENCE_FORMAT_VERSION; ns_updated_at := [] |}.

(** The journal's record is in the log, whole: finish the transaction. *)
Definition complete_commit (d : list (key * value)) (sequence : Z) : StoreM RecoveryReport :=
  store ← gets snd;
  state ← read_state;
  action ← (if ns_last_sequence state <? sequence then
    let key := match get_or d "key_id" VNone with
               | VStr k => or_str k (or_str (es_key_id store) (ns_key_id state))
               | v => if truthy v then py_str v else or_str (es_key_id store) (ns_key_id state)
               end in
    write_state IoOk (node_state (es_node_id store) key sequence (to_str py_str (get_or d "event_hash" VNone))) ;;
    mret "completed_commit"%string
  else mret "already_committed"%string);
  drop_journal ;;
  mret {| rr_journal_found := true; rr_action := action; rr_sequence := Some sequence;
          rr_bytes_discarded := 0; rr_preserved := None |}.

(** It is not: back to the recorded offset. *)
Definition rollback_partial (sequence offset : Z) : StoreM RecoveryReport :=
  file ← gets (fun s => d_evidence s.1);
  let size := match file with Some b => zlen b | None => 0 end in
  let discarded := Z.max 0 (size - offset) in
  let preserved := match file with
                   | Some b => if (0 <? discarded) && (0 <=? offset) then Some (slice b offset (offset + discarded)) else None
                   | None => None
                   end in
  truncate_evidence offset ;;
  drop_journal ;;
  mret {| rr_journal_found := true; rr_action := "rolled_back_partial_append"; rr_sequence := Some sequence;
          rr_bytes_discarded := discarded; rr_preserved := preserved |}.

Definition replay_journal (b : bytes) : StoreM RecoveryReport :=
  match load_journal b with
  | Err (UnicodeError | JSONDecodeError) => discard_journal "discarded_unreadable_journal" b
  | Err e => raise e
  | Ok v =>
    store ← gets snd;
    entry ← lift (journal_entry (es_node_id store) v);
    match entry with
    | None => discard_journal "discarded_foreign_journal" b
    | Some d =>
      sequence ← lift (to_int (get_or d "sequence" VNone));
      offset ← lift (to_int (get_or d "offset" VNone));
      expected ← lift (utf8_encode (to_str py_str (get_or d "record" VNone) ++ [10]));
      file ← gets (fun s => d_evidence s.1);
      let size := match file with Some e => zlen e | None => 0 end in
      if offset + zlen expected <=? size then
        match file with
        | None => raise (OSError "no evidence file")
        | Some e =>
          if offset <? 0 then raise (OSError "negative seek")
          else if str_eqb (slice e offset (offset + zlen expected)) expected
          then complete_commit d sequence
          else rollback_partial sequence offset
        end
      else rollback_partial sequence offset
    end
  end.

Definition check_state_against_log (report : RecoveryReport) : StoreM RecoveryReport :=
  state ← read_state;
  if ns_last_sequence state =? 0 then mret report
  else
    logged ← last_logged_sequence;
    match logged with
    | None => raise (EvidenceStateDivergence "state is ahead of the log")
    | Some n =>
      if n <? ns_last_sequence state then raise (EvidenceStateDivergence "state is ahead of the log")
      else if ns_last_sequence state <? n then
        tail ← last_logged_record;
        match tail with
        | None => mret report
        | Some d =>
          store ← gets snd;
          m ← lift (record_sequence d);
          write_state IoOk (node_state (es_node_id store) (or_str (es_key_id store) (ns_key_id state)) m (record_hash d)) ;;
          mret (if String.eqb (rr_action report) "" then set_action report "adopted_log_tail" else report)
        end
      else mret report
    end.

Definition recover : StoreM RecoveryReport :=
  require_lock ;;
  journal ← gets (fun s => d_journal s.1);
  report ← match journal with Some b => replay_journal b | None => mret (blank_report false) end;
  report ← check_state_against_log report;
  on_store (recovered report) ;;
  mret report.

(** [__enter__]: when [recover] raises, Python never calls [__exit__]. *)
Definition enter (freed : list bool) : StoreM RecoveryReport := acquire freed ;; recover.

(** [with store: body] *)
Definition finally_release {A} (body : StoreM A) : StoreM A := fun s =>
  match body s with (s', r) => ((release s').1, r) end.
Definition with_store {A} (freed : list bool) (body : StoreM A) : StoreM A :=
  _ ← enter freed; finally_release body.

(** ** The transaction *)
Definition journal_value (node_id key_id : str) (sequence : Z) (hash : str) (offset : Z) (record : str) : value :=
  VDict (as_dict [(lit "node_id", VStr node_id); (lit "key_id", VStr key_id); (lit "sequence", VInt sequence);
    (lit "event_hash", VStr hash); (lit "offset", VInt offset); (lit "record", VStr record);
    (lit "written_at", VStr now)]).

(** When [json.dump] raises on an integer, the truncated journal stays. *)
Definition write_journal (o : io) (key_id : str) (sequence : Z) (hash : str) (offset : Z) (record : str) : StoreM unit :=
  store ← gets snd;
  on_disk (put_journal (Some [])) ;;
  text ← lift (dumps default_cfg (journal_value (es_node_id store) key_id sequence hash offset record));
  encoded ← lift (utf8_encode text);
  on_disk (put_journal (Some (written [] encoded o))) ;;
  lift (try_with (io_result o "journal") (fun e =>
    if as_os_error e then Err (TransactionAborted "cannot write the evidence journal") else Err e)).

Definition rollback (offset : Z) : StoreM unit :=
  file ← gets (fun s => d_evidence s.1);
  (match file with
   | Some b => if offset <? zlen b then on_disk (put_evidence (truncated b offset)) else mret tt
   | None => mret tt
   end) ;;
  drop_journal.

Definition append_record (o : io) (offset : Z) (payload : bytes) : StoreM unit :=
  on_disk (fun d => put_evidence (written (default [] (d_evidence d)) payload o) d) ;;
  se_try (lift (io_result o "append")) (fun e =>
    if as_os_error e then rollback offset ;; raise (TransactionAborted "could not append evidence record") else raise e).

Definition append_signed (build_and_sign : Z -> str -> res (str * str)) (key_id : str) (f : Faults) : StoreM (Z * str) :=
  require_lock ;;
  state ← read_state;
  store ← gets snd;
  let sequence := ns_last_sequence state + 1 in
  previous ← lift (expected_previous_hash (es_node_id store) sequence (ns_last_event_hash state));
  fault_at f "before_sign" ;;
  '(record, hash) ← lift (build_and_sign sequence previous);
  fault_at f "after_sign" ;;
  on_disk (fun d => put_evidence (default [] (d_evidence d)) d) ;;
  offset ← gets (fun s => zlen (default [] (d_evidence s.1)));
  write_journal (ft_journal f) (or_str key_id (es_key_id store)) sequence hash offset record ;;
  fault_at f "after_journal" ;;
  payload ← lift (utf8_encode (record ++ [10]));
  append_record (ft_append f) offset payload ;;
  fault_at f "after_append" ;;
  se_try (write_state (ft_state f)
      (node_state (es_node_id store) (or_str key_id (or_str (es_key_id store) (ns_key_id state))) sequence hash))
    (fun e => if as_os_error e then raise (TransactionAborted "record appended, state not committed") else raise e) ;;
  fault_at f "after_commit" ;;
  drop_journal ;;
  mret (sequence, hash).

(** ** Administrative *)
Record StoreStatus := {
  sst_state : NodeState;
  sst_evidence_bytes : Z;
  sst_journal_present : bool;
  sst_last_recovery : option RecoveryReport;
}.

Definition status : StoreM StoreStatus :=
  require_lock ;;
  state ← read_state;
  gets (fun s => {| sst_state := state;
    sst_evidence_bytes := match d_evidence s.1 with Some b => zlen b | None => 0 end;
    sst_journal_present := match d_journal s.1 with Some _ => true | None => false end;
    sst_last_recovery := es_recovery s.2 |}).

Definition repair_from_log : StoreM NodeState :=
  require_lock ;;
  tail ← last_logged_record;
  current ← se_try (s ← read_state; mret (ns_last_sequence s)) (fun e =>
    match e with StateCorruptionError _ | EvidenceStateDivergence _ => mret 0 | e => raise e end);
  store ← gets snd;
  repaired ← match tail with
    | None => if current =? 0 then mret (fresh_state (es_node_id store) (es_key_id store))
              else raise (EvidenceStateDivergence "the log holds no complete records")
    | Some d => n ← lift (record_sequence d);
                mret (node_state (es_node_id store) (es_key_id store) n (record_hash d))
    end;
  on_store (cache None) ;;
  write_state IoOk repaired ;;
  mret (stamp repaired now).
End Store.

(** ** Facts: texts and bytes *)
#[export] Instance default_layout : Layout default_cfg.
Proof. split; [exists [32] | exists [32]]; (split; [done | by repeat constructor]). Qed.

Definition enc (s : str) : bytes := concat (map utf8_encode1 s).

Lemma enc_app a b : enc (a ++ b) = enc a ++ enc b.
Proof. unfold enc. by rewrite map_app, concat_app. Qed.

Lemma utf8_encode_enc s : str_ok s = true -> utf8_encode s = Ok (enc s).
Proof. intros [_ H]%str_ok_elim. apply utf8_encode_ok. done. Qed.

Lemma decode_enc s : str_ok s = true -> utf8_decode (enc s) = Ok s /\ utf8_decode_replace (enc s) = s.
Proof.
  intros H. assert (utf8_decode (enc s) = Ok s) as D.
  { apply (utf8_decode_encode s); [|by apply utf8_encode_enc]. apply str_ok_elim in H as [H _].
    unfold cp_ok in H. apply forallb_Forall in H. eapply Forall_impl; [exact H|]. intros x Hx. cbv beta in Hx. bool_prop. lia. }
  split; [done|]. unfold utf8_decode in D. unfold utf8_decode_replace.
  destruct (mapM id (utf8_units (enc s))) as [t|] eqn:E; [|done]. injection D as ->.
  apply mapM_Some in E. generalize (utf8_units (enc s)) E. clear. intros u E.
  induction E as [|x y u s Hx _ IH]; [done|]. simpl. unfold id in Hx. subst x. by rewrite IH.
Qed.

Lemma slice_app (a b : list Z) : slice (a ++ b) (zlen a) (zlen a + zlen b) = b.
Proof.
  unfold slice, zlen. rewrite Z.add_simpl_l, !Nat2Z.id, drop_app_length. by rewrite take_ge.
Qed.

Lemma truncated_app (a b : list Z) : truncated (a ++ b) (zlen a) = a.
Proof.
  unfold truncated. rewrite zlen_app. pose proof (zlen_nonneg b).
  replace (Z.to_nat (zlen a - (zlen a + zlen b))) with 0%nat by lia.
  unfold zlen. rewrite Nat2Z.id, take_app_length. simpl. by rewrite app_nil_r.
Qed.

(** Lines of a text without line breaks. *)
Definition one_line (s : str) : bool := forallb (fun c => negb ((c =? 10) || (c =? 13))) s.

Lemma split_lines_line l : forall cur r, one_line l = true ->
  split_lines_aux (l ++ 10 :: r) cur = (rev cur ++ l) :: split_lines_aux r [].
Proof.
  induction l as [|c l IH]; intros cur r H; [simpl; by rewrite app_nil_r|].
  simpl in H. apply andb_true_iff in H as [Hc H]. apply negb_true_iff, orb_false_iff in Hc as [H1 H2].
  apply Z.eqb_neq in H1, H2. cbn [app].
  assert (split_lines_aux (c :: l ++ 10 :: r) cur = split_lines_aux (l ++ 10 :: r) (c :: cur)) as ->.
  { simpl. destruct c as [|p|p]; try done. do 4 (destruct p as [p|p|]; try done; try lia). }
  rewrite IH by done. simpl. by rewrite <- app_assoc.
Qed.

Section Log.
Context (lim : nat) (node : str).

(** One record of the log: its line and its event hash. *)
Record LogEntry := { le_line : str; le_hash : str }.

(** A line that counts as this node's record number [n]. *)
Record logged (n : Z) (r : LogEntry) : Prop := {
  lg_text : str_ok (le_line r) = true;
  lg_line : one_line (le_line r) = true;
  lg_some : strip (le_line r) <> [];
  lg_hash : hash_ok (le_hash r);
  lg_reads : exists v d, loads default_hooks lim (strip (le_line r)) = Ok v /\ log_record node v = Some d /\
    get_or d "sequence" VNone = VInt n /\ get_or d "event_hash" VNone = VStr (le_hash r);
}.

Fixpoint log_from (n : Z) (rs : list LogEntry) : Prop :=
  match rs with [] => True | r :: rs => logged n r /\ log_from (n + 1) rs end.

Definition log_text (rs : list LogEntry) : str := concat (map (fun r => le_line r ++ [10]) rs).
Definition log_bytes (rs : list LogEntry) : bytes := enc (log_text rs).

Lemma log_from_app rs : forall n ss, log_from n (rs ++ ss) <-> log_from n rs /\ log_from (n + zlen rs) ss.
Proof.
  induction rs as [|r rs IH]; intros n ss; [simpl; rewrite zlen_nil, Z.add_0_r; tauto|].
  cbn [app log_from]. rewrite IH, zlen_cons. replace (n + 1 + zlen rs) with (n + (1 + zlen rs)) by lia. tauto.
Qed.

Lemma log_bytes_snoc rs r : log_bytes (rs ++ [r]) = log_bytes rs ++ enc (le_line r ++ [10]).
Proof. unfold log_bytes, log_text. rewrite map_app, concat_app. simpl. by rewrite app_nil_r, enc_app. Qed.

Lemma log_str_ok rs : forall n, log_from n rs -> str_ok (log_text rs) = true.
Proof.
  induction rs as [|r rs IH]; intros n H; [done|]. destruct H as [H1 H2]. unfold log_text. cbn [map concat].
  rewrite !str_ok_app, (lg_text _ _ H1). by apply IH in H2.
Qed.

Lemma log_lines rs : forall n, log_from n rs -> text_lines (log_text rs) = map le_line rs.
Proof.
  induction rs as [|r rs IH]; intros n H; [done|]. destruct H as [H1 H2]. unfold text_lines, log_text in *. cbn [map concat].
  rewrite <- app_assoc. cbn [app]. rewrite split_lines_line by apply H1. simpl. f_equal. by apply (IH (n + 1)).
Qed.

Lemma last_record_log rs : forall n acc, log_from n rs ->
  match last rs with
  | None => last_record lim node (map le_line rs) acc = Ok acc
  | Some r => exists d, last_record lim node (map le_line rs) acc = Ok (Some d) /\
      get_or d "sequence" VNone = VInt (n + zlen rs - 1) /\ get_or d "event_hash" VNone = VStr (le_hash r)
  end.
Proof.
  induction rs as [|r rs IH]; intros n acc H; [done|]. destruct H as [H1 H2].
  pose proof (lg_reads _ _ H1) as (v & d & Hl & Hd & Hs & Hh). cbn [map last_record].
  rewrite bool_decide_eq_false_2 by apply H1. rewrite Hl, Hd. rewrite last_cons.
  specialize (IH (n + 1) (Some d) H2). destruct (last rs) as [r'|] eqn:E.
  - destruct IH as (d' & K & S & Hh'). exists d'. rewrite zlen_cons. split; [done|].
    split; [rewrite S; f_equal; lia | done].
  - apply last_None in E as ->. exists d. split; [done|]. split; [|done]. rewrite Hs. f_equal. rewrite zlen_cons, zlen_nil. lia.
Qed.
End Log.

(** ** Facts: what the disk holds between transactions *)
Ltac se := unfold on_disk, on_store, mbind, se_bind, gets, lift, modify, mret, se_ret, raise; cbv beta iota; cbn [fst snd].

Section Recovery.
Context (lim : nat) (py_str : value -> str) (py_int : value -> res Z) (node key : str).
Context (Hlim : (1 <= lim)%nat) (Hnode : name_ok node = true) (Hkey : name_ok key = true).

(** The position a log stands for. *)
Record position (rs : list LogEntry) (s : NodeState) : Prop := {
  po_node : ns_node_id s = node;
  po_sequence : ns_last_sequence s = zlen rs;
  po_hash : ns_last_event_hash s = le_hash <$> last rs;
}.

(** The state file stands for the log [rs]. *)
Definition state_at (rs : list LogEntry) (d : Disk) : Prop :=
  (d_state d = None /\ rs = []) \/
  exists s b now, state_ok s /\ position rs s /\ state_text s now = Ok b /\ d_state d = Some b.

Definition evidence_at (rs : list LogEntry) (d : Disk) : Prop :=
  d_evidence d = Some (log_bytes rs) \/ (d_evidence d = None /\ rs = []).

(** A disk at rest: log and state agree, no transaction is in flight. *)
Record at_rest (rs : list LogEntry) (d : Disk) : Prop := {
  ar_log : log_from lim node 1 rs;
  ar_state : state_at rs d;
  ar_evidence : evidence_at rs d;
  ar_journal : d_journal d = None;
}.

(** A store object of this node, holding the lock, that has read nothing yet. *)
Definition fresh_holder (o : EvidenceStore) : Prop :=
  es_locked o = true /\ es_node_id o = node /\ es_key_id o = key /\ es_state o = None.

Lemma require_lock_ok d o : es_locked o = true -> require_lock (d, o) = ((d, o), Ok tt).
Proof. intros H. unfold require_lock. se. by rewrite H. Qed.

Lemma read_state_at rs d o : fresh_holder o -> state_at rs d ->
  exists s, position rs s /\ read_state lim py_str (d, o) = ((d, cache (Some s) o), Ok s).
Proof.
  intros (Hl & Hn & Hk & Hc) S. unfold read_state. rewrite (se_bind_eq _ _ _ _ _ (require_lock_ok d o Hl)). se. rewrite Hc. se.
  destruct S as [[-> ->]|(s & b & t & Ok' & P & Ht & ->)]; se.
  - eexists. split; [|reflexivity]. rewrite Hn. done.
  - exists s. split; [done|]. rewrite Hn, <- (po_node _ _ P), (parse_state_text _ _ _ _ _ Ok' Hlim Ht). done.
Qed.

Lemma read_state_cached d o s : es_locked o = true -> es_state o = Some s -> read_state lim py_str (d, o) = ((d, o), Ok s).
Proof. intros Hl Hc. unfold read_state. rewrite (se_bind_eq _ _ _ _ _ (require_lock_ok d o Hl)). se. by rewrite Hc. Qed.

Lemma state_text_total s now : state_ok s -> exists b, state_text s now = Ok b.
Proof.
  intros H. unfold state_text. rewrite state_doc by apply H. unfold dumps. pose proof (state_wf s H) as W.
  rewrite wf_dump_check by done. cbn [mbind res_bind]. eexists. apply utf8_encode_ascii. rewrite forallb_app.
  by rewrite dump_ascii.
Qed.

(** The state a transaction commits. *)
Lemma node_state_ok now k n h : name_ok now = true -> name_ok k = true -> 0 < n < INT_LIMIT -> hash_ok h ->
  state_ok (stamp (node_state node k n h) now).
Proof. intros Hnow Hk Hn [H1 H2]. split; try done; cbn; [lia | split_and!; [lia | done..]]. Qed.

Lemma write_state_done now d o k n h : name_ok now = true -> name_ok k = true -> 0 < n < INT_LIMIT -> hash_ok h ->
  exists b, state_text (stamp (node_state node k n h) now) now = Ok b /\
    forall out, write_state now out (node_state node k n h) (d, o) =
      match io_result out "state" with
      | Ok _ => ((put_state b d, cache (Some (stamp (node_state node k n h) now)) o), Ok tt)
      | Err e => ((if replaced out then put_state b d else d, o), Err e)
      end.
Proof.
  intros Hnow Hk Hn Hh. destruct (state_text_total _ now (node_state_ok now k n h Hnow Hk Hn Hh)) as [b Hb].
  exists b. split; [done|]. intros out. unfold write_state. se. rewrite Hb. destruct out as [|m|[|m]]; done.
Qed.

Lemma committed_position rs r k n now : n = zlen rs + 1 -> position (rs ++ [r]) (stamp (node_state node k n (le_hash r)) now).
Proof. intros ->. split; [done | simpl; rewrite zlen_app; done | simpl; by rewrite last_snoc]. Qed.

Lemma committed_state_at rs r k n now b d : name_ok now = true -> name_ok k = true -> n = zlen rs + 1 ->
  n < INT_LIMIT -> hash_ok (le_hash r) ->
  state_text (stamp (node_state node k n (le_hash r)) now) now = Ok b -> state_at (rs ++ [r]) (put_state b d).
Proof.
  intros Hnow Hk -> Hr Hh Hb. right. pose proof (zlen_nonneg rs).
  exists (stamp (node_state node k (zlen rs + 1) (le_hash r)) now), b, now. split; [|split; [by apply committed_position | done]].
  apply node_state_ok; done || lia.
Qed.

Lemma last_logged_at rs d o : es_node_id o = node -> log_from lim node 1 rs -> d_evidence d = Some (log_bytes rs) -> rs <> [] ->
  last_logged_sequence lim py_int (d, o) = ((d, o), Ok (Some (zlen rs))).
Proof.
  intros Hn Hl He Hne. unfold last_logged_sequence, last_logged_record. se. rewrite He. se.
  pose proof (log_str_ok _ _ _ _ Hl) as Hs. unfold log_bytes. rewrite (proj2 (decode_enc _ Hs)), (log_lines _ _ _ _ Hl), Hn.
  pose proof (last_record_log _ _ _ _ None Hl) as K. destruct (last rs) as [r|] eqn:E; [|by apply last_None in E].
  destruct K as (x & -> & Sq & _). unfold record_sequence, to_int. rewrite Sq. repeat f_equal. lia.
Qed.

(** With log and state in agreement the consistency check changes nothing. *)
Lemma check_clean now rs d o s rep : es_locked o = true -> es_node_id o = node -> es_state o = Some s -> position rs s ->
  log_from lim node 1 rs -> evidence_at rs d ->
  check_state_against_log lim py_str py_int now rep (d, o) = ((d, o), Ok rep).
Proof.
  intros Hl Hn Hc P Hlog He. unfold check_state_against_log.
  rewrite (se_bind_eq _ _ _ _ _ (read_state_cached d o s Hl Hc)). rewrite (po_sequence _ _ P).
  destruct (Z.eqb_spec (zlen rs) 0) as [E|E]; [done|].
  assert (rs <> []) as Hne by (by intros ->). destruct He as [He|[_ ->]]; [|done].
  rewrite (se_bind_eq _ _ _ _ _ (last_logged_at rs d o Hn Hlog He Hne)). by rewrite Z.ltb_irrefl.
Qed.

Lemma previous_total rs s : position rs s -> exists p, expected_previous_hash node (zlen rs + 1) (ns_last_event_hash s) = Ok p.
Proof.
  intros P. rewrite (po_hash _ _ P). unfold expected_previous_hash, FIRST_SEQUENCE. pose proof (zlen_nonneg rs).
  destruct (Z.eqb_spec (zlen rs + 1) 1) as [E|E].
  - unfold genesis_previous_hash. apply name_ok_inv in Hnode as [N1 N2].
    rewrite (utf8_encode_enc _ N1). simpl. eauto.
  - destruct (last rs) eqn:L; [simpl; eauto|]. apply last_None in L as ->. done.
Qed.

(** *** Replaying a journal *)
Section Replay.
Context (now now' : str) (rs : list LogEntry) (r : LogEntry) (kid : str).
Context (Hnow : name_ok now = true) (Hnow' : name_ok now' = true) (Hkid : name_ok kid = true).
Context (Hlog : log_from lim node 1 rs) (Hr : logged lim node (zlen rs + 1) r).
Context (Hsmall : zlen rs + 1 < INT_LIMIT) (Hoff : zlen (log_bytes rs) < INT_LIMIT).

Notation payload := (enc (le_line r ++ [10])).

(** The journal of the transaction that appends [r]. *)
Definition entry_items : list (str * value) := [
  (lit "node_id", VStr node); (lit "key_id", VStr kid); (lit "sequence", VInt (zlen rs + 1));
  (lit "event_hash", VStr (le_hash r)); (lit "offset", VInt (zlen (log_bytes rs)));
  (lit "record", VStr (le_line r)); (lit "written_at", VStr now)].
Definition journal_text : str := dump default_cfg 0 (VDict (as_dict entry_items)).

Lemma entry_flat : Forall (fun kv => str_ok kv.1 = true /\ flat kv.2 = true) entry_items.
Proof.
  apply name_ok_inv in Hnode as [Hn _], Hkid as [Hk _], Hnow as [Hw _]. pose proof (zlen_nonneg rs). pose proof (zlen_nonneg (log_bytes rs)).
  repeat (apply Forall_cons; split; [split; [vm_compute; reflexivity|] |]); try constructor; cbn [snd flat]; try done.
  - apply andb_true_iff. rewrite Z.leb_le, Z.ltb_lt. lia.
  - apply is_hex_scalar, Hr.
  - apply andb_true_iff. rewrite Z.leb_le, Z.ltb_lt. lia.
  - apply Hr.
Qed.

Lemma entry_wf : wf (VDict (as_dict entry_items)) = true.
Proof.
  apply wf_dict. rewrite as_dict_keys. split; [|apply (bool_decide_eq_true_1 _); vm_compute; reflexivity].
  unfold as_dict. apply Forall_map. eapply Forall_impl; [exact entry_flat|]. intros [k v] [H1 H2]. split; [done|].
  destruct v; simpl in *; try done. bool_prop. apply Z.ltb_lt. lia.
Qed.

Lemma journal_ascii : forallb is_ascii journal_text = true.
Proof. unfold journal_text. by rewrite dump_ascii by (done || apply entry_wf). Qed.

Lemma ascii_decode s : forallb is_ascii s = true -> utf8_decode s = Ok s.
Proof.
  intros H. apply (utf8_decode_encode s s); [|by apply utf8_encode_ascii]. apply forallb_Forall in H.
  eapply Forall_impl; [exact H|]. intros x Hx. unfold is_ascii in Hx. bool_prop. lia.
Qed.

Lemma ascii_cps s : forallb is_ascii s = true -> cps s = true.
Proof.
  unfold cps. rewrite !forallb_forall. intros H x Hx. specialize (H x Hx). unfold is_ascii in H. bool_prop.
  apply andb_true_iff. rewrite !Z.leb_le. lia.
Qed.

Lemma journal_size_split n : forallb is_ascii (take n journal_text) = true.
Proof.
  pose proof journal_ascii as A. apply forallb_Forall in A. apply forallb_Forall. by apply Forall_take.
Qed.

(** A journal cut short is unreadable; a whole one reads back as it was written. *)
Lemma load_torn n : (n < length journal_text)%nat -> zlen journal_text <= MAX_JOURNAL_BYTES ->
  load_journal lim (take n journal_text) = Err JSONDecodeError.
Proof.
  intros Hn Hs. unfold load_journal, require.
  assert (zlen (take n journal_text) <= zlen journal_text) as L
    by (apply inj_le; rewrite length_take; apply Nat.le_min_r).
  assert ((zlen (take n journal_text) <=? MAX_JOURNAL_BYTES) = true) as -> by (apply Z.leb_le; lia). cbn [mbind res_bind].
  rewrite ascii_decode by apply journal_size_split. cbn [mbind res_bind].
  assert (cps (take n journal_text) = true) as C by (apply ascii_cps, journal_size_split).
  destruct (flat_cut default_hooks default_cfg eq_refl eq_refl entry_items (take n journal_text) (drop n journal_text) lim) as [E|E]; try done.
  - apply entry_flat.
  - by rewrite take_drop.
  - intros D. apply (f_equal length) in D. rewrite length_drop, length_nil in D. lia.
  - pose proof (default_loads_res lim _ C) as R. rewrite E in R. naive_solver.
Qed.

Lemma load_whole : zlen journal_text <= MAX_JOURNAL_BYTES -> load_journal lim journal_text = Ok (VDict (as_dict entry_items)).
Proof.
  intros Hs. unfold load_journal, require. apply Z.leb_le in Hs. rewrite Hs. cbn [mbind res_bind].
  rewrite ascii_decode by apply journal_ascii. cbn [mbind res_bind]. unfold journal_text.
  rewrite (loads_dump default_cfg default_hooks lim 0) by (apply entry_wf || exact Hlim). done.
Qed.

Lemma entry_accepted : journal_entry node (VDict (as_dict entry_items)) = Ok (Some (as_dict entry_items)).
Proof.
  unfold journal_entry. change (get_or (as_dict entry_items) "node_id" VNone) with (VStr node). cbv iota. rewrite str_eqb_refl.
  change (missing required_entry (as_dict entry_items)) with (@nil str). done.
Qed.

Lemma payload_encodes : utf8_encode (to_str py_str (VStr (le_line r)) ++ [10]) = Ok payload.
Proof. apply utf8_encode_enc. cbn [to_str]. rewrite str_ok_app, (lg_text _ _ _ _ Hr). done. Qed.

(** Replay up to the decision. *)
Lemma replay_decides d o E : es_node_id o = node -> zlen journal_text <= MAX_JOURNAL_BYTES -> d_evidence d = Some E ->
  replay_journal lim py_str py_int now' journal_text (d, o) =
    (if zlen (log_bytes rs) + zlen payload <=? zlen E then
       if str_eqb (slice E (zlen (log_bytes rs)) (zlen (log_bytes rs) + zlen payload)) payload
       then complete_commit lim py_str now' (as_dict entry_items) (zlen rs + 1)
       else rollback_partial (zlen rs + 1) (zlen (log_bytes rs))
     else rollback_partial (zlen rs + 1) (zlen (log_bytes rs))) (d, o).
Proof.
  intros Hn Hs He. unfold replay_journal. rewrite load_whole by done. se. rewrite Hn, entry_accepted.
  change (get_or (as_dict entry_items) "sequence" VNone) with (VInt (zlen rs + 1)).
  change (get_or (as_dict entry_items) "offset" VNone) with (VInt (zlen (log_bytes rs))).
  change (get_or (as_dict entry_items) "record" VNone) with (VStr (le_line r)).
  cbn [to_int]. rewrite payload_encodes. cbn [fst]. rewrite He. pose proof (zlen_nonneg (log_bytes rs)).
  replace (zlen (log_bytes rs) <? 0) with false by (symmetry; apply Z.ltb_ge; lia).
  repeat case_match; done.
Qed.

Lemma replay_partial d o part : es_node_id o = node -> zlen journal_text <= MAX_JOURNAL_BYTES ->
  d_evidence d = Some (log_bytes rs ++ part) -> zlen part < zlen payload ->
  exists rep, replay_journal lim py_str py_int now' journal_text (d, o) =
    ((put_journal None (put_evidence (log_bytes rs) d), o), Ok rep).
Proof.
  intros Hn Hs He Hp. rewrite (replay_decides d o _ Hn Hs He), zlen_app.
  replace (_ <=? _) with false by (symmetry; apply Z.leb_gt; lia).
  unfold rollback_partial, truncate_evidence, drop_journal. se. rewrite He. pose proof (zlen_nonneg (log_bytes rs)).
  replace (zlen (log_bytes rs) <? 0) with false by (symmetry; apply Z.ltb_ge; lia). se.
  rewrite truncated_app. eexists. reflexivity.
Qed.

Lemma replay_done d o s : es_locked o = true -> es_node_id o = node -> zlen journal_text <= MAX_JOURNAL_BYTES ->
  d_evidence d = Some (log_bytes rs ++ payload) ->
  read_state lim py_str (d, o) = ((d, cache (Some s) o), Ok s) ->
  (position rs s -> exists rep b, state_text (stamp (node_state node kid (zlen rs + 1) (le_hash r)) now') now' = Ok b /\
     replay_journal lim py_str py_int now' journal_text (d, o) =
     ((put_journal None (put_state b d), cache (Some (stamp (node_state node kid (zlen rs + 1) (le_hash r)) now')) o), Ok rep)) /\
  (position (rs ++ [r]) s -> exists rep, replay_journal lim py_str py_int now' journal_text (d, o) =
     ((put_journal None d, cache (Some s) o), Ok rep)).
Proof.
  intros Hl Hn Hs He Hread. rewrite (replay_decides d o _ Hn Hs He), zlen_app, Z.leb_refl, slice_app, str_eqb_refl.
  assert (forall g, (state ← read_state lim py_str; g state) (d, o) = (g s (d, cache (Some s) o) : _ * res RecoveryReport)) as B
    by (intros g; by rewrite (se_bind_eq _ _ _ _ _ Hread)).
  pose proof (zlen_nonneg rs).
  split; intros P; unfold complete_commit, drop_journal; rewrite (se_bind_eq (gets snd) _ _ (d, o) o) by done; rewrite B, (po_sequence _ _ P).
  - replace (zlen rs <? zlen rs + 1) with true by (symmetry; apply Z.ltb_lt; lia).
    change (get_or (as_dict entry_items) "key_id" VNone) with (VStr kid).
    change (get_or (as_dict entry_items) "event_hash" VNone) with (VStr (le_hash r)). cbn [to_str].
    assert (or_str kid (or_str (es_key_id o) (ns_key_id s)) = kid) as -> by (apply name_ok_inv in Hkid as [_ ?]; by destruct kid).
    rewrite Hn. destruct (write_state_done now' d (cache (Some s) o) kid (zlen rs + 1) (le_hash r)) as (b & Hb & W);
      [done | done | lia | apply Hr |].
    eexists _, b. split; [done|]. se. rewrite (W IoOk). se. done.
  - rewrite zlen_app. change (zlen [r]) with 1. rewrite Z.ltb_irrefl. se. eexists. done.
Qed.

Lemma replay_torn d o n : (n < length journal_text)%nat -> zlen journal_text <= MAX_JOURNAL_BYTES ->
  exists rep, replay_journal lim py_str py_int now' (take n journal_text) (d, o) = ((put_journal None d, o), Ok rep).
Proof. intros Hn Hs. unfold replay_journal. rewrite load_torn by done. unfold discard_journal, drop_journal. se. by eexists. Qed.

(** *** What a transaction leaves behind *)

(** What the disk can look like once the transaction that appends [r] stopped, [b] telling
    whether the record reached the log. *)
Inductive in_flight : bool -> Disk -> Prop :=
| fl_rest d : at_rest rs d -> in_flight false d
| fl_torn d n : (n < length journal_text)%nat -> d_journal d = Some (take n journal_text) ->
    d_evidence d = Some (log_bytes rs) -> state_at rs d -> in_flight false d
| fl_part d part : zlen part < zlen payload -> d_journal d = Some journal_text ->
    d_evidence d = Some (log_bytes rs ++ part) -> state_at rs d -> in_flight false d
| fl_done d : d_journal d = Some journal_text -> d_evidence d = Some (log_bytes rs ++ payload) ->
    state_at rs d \/ state_at (rs ++ [r]) d -> in_flight true d
| fl_commit d : at_rest (rs ++ [r]) d -> in_flight true d.

Definition quiet (f : Faults) (stage : string) : bool := bool_decide (ft_hook f stage = None).

(** The record reaches the log whole, once journalled. *)
Definition appends (f : Faults) : bool :=
  quiet f "after_journal" &&
  match ft_append f with IoOk => true | IoCrash n => (length payload <=? n)%nat | IoError _ => false end.

(** The record is durable: nothing stopped the transaction before the whole line was in the log. *)
Definition landed (f : Faults) : bool :=
  quiet f "before_sign" && quiet f "after_sign" && match ft_journal f with IoOk => true | _ => false end && appends f.

Lemma payload_pos : 0 < zlen payload.
Proof. rewrite enc_app, zlen_app. pose proof (zlen_nonneg (enc (le_line r))). change (zlen (enc [10])) with 1. lia. Qed.

Lemma log_snoc : log_from lim node 1 (rs ++ [r]).
Proof. apply log_from_app. split; [done|]. split; [|done]. by replace (1 + zlen rs) with (zlen rs + 1) by lia. Qed.

Lemma fault_bind {A} f stage (k : unit -> StoreM A) st :
  (fault_at f stage ≫= k) st = match ft_hook f stage with Some e => (st, Err e) | None => k tt st end.
Proof. unfold fault_at, mbind, se_bind. by destruct (ft_hook f stage). Qed.

(** From the durable record on. *)
Lemma commit_stage f d o s : position rs s -> es_node_id o = node ->
  d_journal d = Some journal_text -> d_evidence d = Some (log_bytes rs ++ payload) -> state_at rs d ->
  exists d' o' x, (fault_at f "after_append" ;;
    se_try (write_state now (ft_state f) (node_state node kid (zlen rs + 1) (le_hash r)))
      (fun e => if as_os_error e then raise (TransactionAborted "record appended, state not committed") else raise e) ;;
    fault_at f "after_commit" ;; drop_journal ;; mret (zlen rs + 1, le_hash r)) (d, o) = ((d', o'), x) /\
    in_flight true d' /\ es_locked o' = es_locked o /\ (forall y, x = Ok y -> y = (zlen rs + 1, le_hash r)).
Proof.
  intros P Hn Hj He Hs. unfold fault_at. pose proof (zlen_nonneg rs).
  destruct (ft_hook f "after_append"); [se; eexists _, _, _; split; [reflexivity|]; split; [by apply fl_done; eauto | done]|].
  destruct (write_state_done now d o kid (zlen rs + 1) (le_hash r)) as (b & Hb & W); [done | done | lia | apply Hr |].
  assert (state_at (rs ++ [r]) (put_state b d)) as S by (apply (committed_state_at rs r kid (zlen rs + 1) now); done || apply Hr).
  unfold se_try. rewrite (se_bind_eq (mret tt) _ _ (d, o) tt) by done. unfold mbind at 1, se_bind at 1. cbv beta. rewrite W.
  assert (in_flight true (put_state b d)) as Hc by (apply fl_done; eauto).
  assert (in_flight true d) as Hd by (apply fl_done; eauto).
  destruct (ft_state f) as [|m|[|m]]; cbn [io_result as_os_error replaced]; se; try by (eexists _, _, _; split_and!; [reflexivity | done..]).
  destruct (ft_hook f "after_commit"); se; eexists _, _, _; split_and!; try reflexivity; try done; [| by intros y [= <-]].
  apply fl_commit. split; [apply log_snoc | done | left; by rewrite log_bytes_snoc | done].
Qed.

(** What a transaction needs of its caller: the signed line is the log's next record. *)
Definition signs (build : Z -> str -> res (str * str)) : Prop := forall p,
  expected_previous_hash node (zlen rs + 1) (le_hash <$> last rs) = Ok p ->
  build (zlen rs + 1) p = Ok (le_line r, le_hash r).

Lemma write_journal_done o d out : es_node_id o = node ->
  write_journal now out kid (zlen rs + 1) (le_hash r) (zlen (log_bytes rs)) (le_line r) (d, o) =
  ((put_journal (Some (written [] journal_text out)) d, o),
   try_with (io_result out "journal") (fun e =>
     if as_os_error e then Err (TransactionAborted "cannot write the evidence journal") else Err e)).
Proof.
  intros Hn. unfold write_journal. se. rewrite Hn.
  change (journal_value _ _ _ _ _ _ _) with (VDict (as_dict entry_items)).
  unfold dumps. rewrite wf_dump_check by apply entry_wf. cbn [mbind res_bind].
  change (dump default_cfg 0 (VDict (as_dict entry_items))) with journal_text.
  by rewrite utf8_encode_ascii by apply journal_ascii.
Qed.

(** The record is being written: the journal is whole, the log is as it was. *)
Lemma append_stage f d o s : position rs s -> es_node_id o = node ->
  d_journal d = Some journal_text -> d_evidence d = Some (log_bytes rs) -> state_at rs d ->
  exists d' o' x, (fault_at f "after_journal" ;;
    payload' ← lift (utf8_encode (le_line r ++ [10]));
    append_record (ft_append f) (zlen (log_bytes rs)) payload' ;;
    fault_at f "after_append" ;;
    se_try (write_state now (ft_state f) (node_state node kid (zlen rs + 1) (le_hash r)))
      (fun e => if as_os_error e then raise (TransactionAborted "record appended, state not committed") else raise e) ;;
    fault_at f "after_commit" ;; drop_journal ;; mret (zlen rs + 1, le_hash r)) (d, o) = ((d', o'), x) /\
    in_flight (appends f) d' /\ es_locked o' = es_locked o /\
    (forall y, x = Ok y -> appends f = true /\ y = (zlen rs + 1, le_hash r)).
Proof.
  intros P Hn Hj He Hs. unfold appends, quiet. rewrite fault_bind.
  assert (in_flight false d) as Hw by (apply (fl_part d []); [apply payload_pos | done | by rewrite app_nil_r | done]).
  destruct (ft_hook f "after_journal") as [e|]; [eexists _, _, _; split; [reflexivity | done]|].
  rewrite bool_decide_eq_true_2 by done.
  rewrite (se_bind_eq (lift _) _ _ (d, o) payload) by (unfold lift; f_equal; apply payload_encodes).
  set (d1 := put_evidence (written (log_bytes rs) payload (ft_append f)) d).
  assert (append_record (ft_append f) (zlen (log_bytes rs)) payload (d, o) =
    match ft_append f with
    | IoOk => ((d1, o), Ok tt)
    | IoError n => ((put_journal None (put_evidence (log_bytes rs) d), o), Err (TransactionAborted "could not append evidence record"))
    | IoCrash n => ((d1, o), Err (Crash "append"))
    end) as A.
  { unfold append_record, rollback, drop_journal, se_try. se. rewrite He. subst d1. destruct (ft_append f) as [|n|n]; try done.
    cbn [io_result as_os_error written from_option id]. se. cbn [d_evidence put_evidence]. rewrite zlen_app.
    destruct (Z.ltb_spec (zlen (log_bytes rs)) (zlen (log_bytes rs) + zlen (take n payload))) as [L|L]; se.
    - by rewrite truncated_app.
    - assert (take n payload = []) as -> by (apply length_zero_iff_nil; unfold zlen in L; lia). by rewrite app_nil_r. }
  destruct (ft_append f) as [|n|n] eqn:F.
  - rewrite (se_bind_eq _ _ _ _ _ A). destruct (commit_stage f d1 o s) as (d' & o' & x & E & K & L & Y); try done.
    exists d', o', x. split; [exact E|]. split_and!; [done | done | naive_solver].
  - rewrite (se_bind_err _ _ _ _ _ A). eexists _, _, _. split; [reflexivity|]. split_and!; try done. apply fl_rest. split; try done. by left.
  - rewrite (se_bind_err _ _ _ _ _ A). eexists _, _, _. split; [reflexivity|]. split_and!; try done.
    destruct (Nat.leb_spec (length payload) n) as [L|L].
    + apply fl_done; try done; [|by left]. subst d1. cbn [d_evidence put_evidence written]. by rewrite take_ge.
    + apply (fl_part _ (take n payload)); try done. unfold zlen. rewrite length_take. lia.
Qed.


Lemma torn_or_whole n d : at_rest rs d ->
  in_flight false (put_journal (Some (take n journal_text)) (put_evidence (log_bytes rs) d)).
Proof.
  intros Hrest. destruct (decide (n < length journal_text)%nat) as [L|L].
  - apply (fl_torn _ n); try done. apply Hrest.
  - rewrite take_ge by lia. apply (fl_part _ []); [apply payload_pos | done | by rewrite app_nil_r | apply Hrest].
Qed.

(** A transaction of a locked store leaves one of these disks, whatever stops it. *)
Lemma append_lands build f d o s : signs build -> es_locked o = true -> es_node_id o = node -> es_state o = Some s ->
  position rs s -> at_rest rs d ->
  exists d' o' x, append_signed lim py_str now build kid f (d, o) = ((d', o'), x) /\
    in_flight (landed f) d' /\ es_locked o' = true /\
    (forall y, x = Ok y -> landed f = true /\ y = (zlen rs + 1, le_hash r)).
Proof.
  intros Hb Hl Hn Hc P Hrest. destruct (previous_total rs s P) as [p Hp]. pose proof (fl_rest _ Hrest) as Hfl.
  unfold append_signed. rewrite (se_bind_eq _ _ _ _ _ (require_lock_ok d o Hl)).
  rewrite (se_bind_eq _ _ _ _ _ (read_state_cached d o s Hl Hc)). rewrite (se_bind_eq (gets snd) _ _ (d, o) o) by done.
  rewrite (po_sequence _ _ P), Hn. rewrite (se_bind_eq (lift _) _ _ (d, o) p) by (unfold lift; f_equal; exact Hp).
  rewrite (po_hash _ _ P) in Hp. rewrite fault_bind. unfold landed, quiet.
  destruct (ft_hook f "before_sign"); [eexists _, _, _; split; [reflexivity | done]|]. rewrite bool_decide_eq_true_2 by done.
  rewrite (se_bind_eq (lift _) _ _ (d, o) (le_line r, le_hash r)) by (unfold lift; f_equal; by apply Hb). rewrite fault_bind.
  destruct (ft_hook f "after_sign"); [eexists _, _, _; split; [reflexivity | done]|]. rewrite bool_decide_eq_true_2 by done.
  apply name_ok_inv in Hkid as Nk. destruct Nk as [_ Nk].
  assert (forall a b, or_str kid a = kid /\ or_str kid (or_str a b) = kid) as Hk by (by destruct kid).
  rewrite (proj1 (Hk (es_key_id o) [])), (proj2 (Hk (es_key_id o) (ns_key_id s))).
  set (d1 := put_evidence (log_bytes rs) d).
  assert (default [] (d_evidence d) = log_bytes rs) as He by (destruct (ar_evidence _ _ Hrest) as [-> | [-> ->]]; done).
  rewrite (se_bind_eq (on_disk _) _ _ (d1, o) tt) by (unfold on_disk, modify; cbn [fst snd]; by rewrite He).
  rewrite (se_bind_eq (gets _) _ _ (d1, o) (zlen (log_bytes rs))) by done.
  pose proof (write_journal_done o d1 (ft_journal f) Hn) as W.
  destruct (ft_journal f) as [|n|n].
  - rewrite (se_bind_eq _ _ _ _ _ W).
    destruct (append_stage f (put_journal (Some journal_text) d1) o s) as (d' & o' & x & E & K & L & Y); try done; [apply Hrest|].
    exists d', o', x. split; [exact E|]. rewrite L. done.
  - rewrite (se_bind_err _ _ _ _ _ W). eexists _, _, _. split; [reflexivity|]. split; [|done]. by apply torn_or_whole.
  - rewrite (se_bind_err _ _ _ _ _ W). eexists _, _, _. split; [reflexivity|]. split; [|done]. by apply torn_or_whole.
Qed.

(** Whatever it found, recovery ends with log and state in agreement. *)
Definition settled (l : list LogEntry) (st : Disk * EvidenceStore) : Prop :=
  at_rest l st.1 /\ es_locked st.2 = true /\ es_node_id st.2 = node /\
  exists s, es_state st.2 = Some s /\ position l s.

(** Without a fault the transaction returns the record's position, and the store is settled
    with the record in the log. *)
Lemma append_succeeds build st : signs build -> settled rs st ->
  exists st', append_signed lim py_str now build kid no_faults st = (st', Ok (zlen rs + 1, le_hash r)) /\
    settled (rs ++ [r]) st' /\ d_locked st'.1 = d_locked st.1.
Proof.
  destruct st as [d o]. intros Hb (Hrest & Hl & Hn & s & Hc & P). cbn [fst snd] in *. destruct (previous_total rs s P) as [p Hp].
  unfold append_signed. rewrite (se_bind_eq _ _ _ _ _ (require_lock_ok d o Hl)).
  rewrite (se_bind_eq _ _ _ _ _ (read_state_cached d o s Hl Hc)). rewrite (se_bind_eq (gets snd) _ _ (d, o) o) by done.
  rewrite (po_sequence _ _ P), Hn. rewrite (se_bind_eq (lift _) _ _ (d, o) p) by (unfold lift; f_equal; exact Hp).
  rewrite (po_hash _ _ P) in Hp. rewrite fault_bind. cbn [ft_hook no_faults].
  rewrite (se_bind_eq (lift _) _ _ (d, o) (le_line r, le_hash r)) by (unfold lift; f_equal; by apply Hb). rewrite fault_bind. cbn [ft_hook no_faults].
  apply name_ok_inv in Hkid as Nk. destruct Nk as [_ Nk].
  assert (forall a b, or_str kid a = kid /\ or_str kid (or_str a b) = kid) as Hk by (by destruct kid).
  rewrite (proj1 (Hk (es_key_id o) [])), (proj2 (Hk (es_key_id o) (ns_key_id s))).
  assert (default [] (d_evidence d) = log_bytes rs) as He by (destruct (ar_evidence _ _ Hrest) as [-> | [-> ->]]; done).
  rewrite (se_bind_eq (on_disk _) _ _ (put_evidence (log_bytes rs) d, o) tt) by (unfold on_disk, modify; cbn [fst snd]; by rewrite He).
  rewrite (se_bind_eq (gets _) _ _ (put_evidence (log_bytes rs) d, o) (zlen (log_bytes rs))) by done.
  rewrite (se_bind_eq _ _ _ _ _ (write_journal_done o (put_evidence (log_bytes rs) d) IoOk Hn)). rewrite fault_bind. cbn [ft_hook no_faults].
  rewrite (se_bind_eq (lift _) _ _ _ payload) by (unfold lift; f_equal; apply payload_encodes).
  set (d1 := put_evidence (log_bytes rs ++ payload) (put_journal (Some journal_text) (put_evidence (log_bytes rs) d))).
  rewrite (se_bind_eq (append_record _ _ _) _ _ (d1, o) tt) by done. rewrite fault_bind. cbn [ft_hook no_faults]. pose proof (zlen_nonneg rs).
  destruct (write_state_done now d1 o kid (zlen rs + 1) (le_hash r)) as (b & Hsb & W); [done | done | lia | apply Hr |].
  specialize (W IoOk). cbn [io_result] in W. unfold se_try. unfold mbind at 1, se_bind at 1. cbv beta. cbn [ft_state no_faults]. rewrite W.
  rewrite fault_bind. cbn [ft_hook no_faults]. unfold drop_journal. se. eexists. split; [reflexivity|]. split; [|done].
  split; [|split; [exact Hl|split; [exact Hn|]]]; cbn [fst snd].
  - split; [apply log_snoc | | left; by rewrite log_bytes_snoc | done].
    apply (committed_state_at rs r kid (zlen rs + 1) now); done || apply Hr.
  - eexists. split; [reflexivity|]. by apply committed_position.
Qed.

Lemma settle l d o s rep : log_from lim node 1 l -> evidence_at l d -> d_journal d = None -> state_at l d ->
  es_locked o = true -> es_node_id o = node -> position l s ->
  read_state lim py_str (d, o) = ((d, cache (Some s) o), Ok s) ->
  exists st, (report ← check_state_against_log lim py_str py_int now' rep; on_store (recovered report) ;; mret report) (d, o)
    = (st, Ok rep) /\ settled l st.
Proof.
  intros Hg He Hj Hs Hl Hn P Hread.
  assert (check_state_against_log lim py_str py_int now' rep (d, o) = ((d, cache (Some s) o), Ok rep)) as K.
  { rewrite <- (check_clean now' l d (cache (Some s) o) s rep) by done. unfold check_state_against_log.
    rewrite (se_bind_eq _ _ _ _ _ Hread). by rewrite (se_bind_eq _ _ _ _ _ (read_state_cached d (cache (Some s) o) s Hl eq_refl)). }
  rewrite (se_bind_eq _ _ _ _ _ K). se. eexists. split; [reflexivity|]. split; [done|]. by eauto.
Qed.

Lemma recover_bind d o d' o' rep : es_locked o = true ->
  match d_journal d with
  | Some b => replay_journal lim py_str py_int now' b (d, o) = ((d', o'), Ok rep)
  | None => (d', o', rep) = (d, o, blank_report false)
  end ->
  recover lim py_str py_int now' (d, o) =
    (report ← check_state_against_log lim py_str py_int now' rep; on_store (recovered report) ;; mret report) (d', o').
Proof.
  intros Hl H. unfold recover. rewrite (se_bind_eq _ _ _ _ _ (require_lock_ok d o Hl)).
  rewrite (se_bind_eq (gets _) _ _ (d, o) (d_journal d)) by done.
  rewrite (se_bind_eq _ _ (d, o) (d', o') rep); [done|]. destruct (d_journal d); [done|]. by injection H as -> -> ->.
Qed.

Lemma recover_rest l d o : fresh_holder o -> at_rest l d ->
  exists st rep, recover lim py_str py_int now' (d, o) = (st, Ok rep) /\ settled l st.
Proof.
  intros Ho [Hg Hs He Hj]. destruct (read_state_at l d o Ho Hs) as (s & P & R). destruct Ho as (Hl & Hn & Hk & Hc).
  rewrite (recover_bind d o d o (blank_report false) Hl) by (by rewrite Hj).
  destruct (settle l d o s (blank_report false)) as (st & E & S); try done. eauto.
Qed.

(** A replay that only cuts the log back. *)
Lemma recover_rollback d o j d' rep : fresh_holder o -> d_journal d = Some j ->
  replay_journal lim py_str py_int now' j (d, o) = ((d', o), Ok rep) -> at_rest rs d' ->
  exists st rep, recover lim py_str py_int now' (d, o) = (st, Ok rep) /\ settled rs st.
Proof.
  intros Ho Hj E [Hg Hs He Hj']. destruct (read_state_at rs d' o Ho Hs) as (s & P & R). destruct Ho as (Hl & Hn & Hk & Hc).
  rewrite (recover_bind d o d' o rep Hl) by (by rewrite Hj).
  destruct (settle rs d' o s rep) as (st & E' & S); try done. eauto.
Qed.

Lemma recover_flight b d o : zlen journal_text <= MAX_JOURNAL_BYTES -> fresh_holder o -> in_flight b d ->
  exists st rep, recover lim py_str py_int now' (d, o) = (st, Ok rep) /\ settled (if b then rs ++ [r] else rs) st.
Proof.
  intros Hsize Ho F. pose proof log_snoc as Hg. destruct Ho as (Hl & Hn & Hk & Hc).
  destruct F as [d Hrest | d n Hn' Hj He Hs | d part Hp Hj He Hs | d Hj He Hs | d Hrest].
  - by apply recover_rest.
  - destruct (replay_torn d o n Hn' Hsize) as [rep E]. eapply recover_rollback; try done. split; try done. by left.
  - destruct (replay_partial d o part Hn Hsize He Hp) as [rep E]. eapply recover_rollback; try done. split; try done. by left.
  - assert (forall l, state_at l d -> exists s, position l s /\ read_state lim py_str (d, o) = ((d, cache (Some s) o), Ok s)) as R
      by (intros l; by apply read_state_at).
    assert (log_bytes (rs ++ [r]) = log_bytes rs ++ payload) as Hb by apply log_bytes_snoc.
    destruct Hs as [Hs|Hs]; destruct (R _ Hs) as (s & P & Hread);
      destruct (replay_done d o s Hl Hn Hsize He Hread) as [Behind Level].
    + destruct (Behind P) as (rep & b & Ht & E). set (s' := stamp _ _) in *. set (d' := put_journal None (put_state b d)) in *.
      rewrite (recover_bind d o d' (cache (Some s') o) rep Hl) by (by rewrite Hj).
      destruct (settle (rs ++ [r]) d' (cache (Some s') o) s' rep) as (st & E' & S); try done.
      * left. cbn. by rewrite He, Hb.
      * apply (committed_state_at rs r kid (zlen rs + 1) now' b (put_journal None d)); try done; apply Hr.
      * by apply committed_position.
      * by apply (read_state_cached d' (cache (Some s') o) s').
      * eauto.
    + destruct (Level P) as (rep & E). set (d' := put_journal None d) in *.
      rewrite (recover_bind d o d' (cache (Some s) o) rep Hl) by (by rewrite Hj).
      destruct (settle (rs ++ [r]) d' (cache (Some s) o) s rep) as (st & E' & S); try done.
      * left. cbn. by rewrite He, Hb.
      * by apply (read_state_cached d' (cache (Some s) o) s).
      * eauto.
  - by apply recover_rest.
Qed.

Lemma lock_rest l v d : at_rest l d -> at_rest l (put_lock v d).
Proof. intros []. by split. Qed.

Lemma lock_flight b v d : in_flight b d -> in_flight b (put_lock v d).
Proof.
  destruct 1; [by apply fl_rest, lock_rest | eapply fl_torn; eassumption | eapply fl_part; eassumption | apply fl_done; assumption | by apply fl_commit, lock_rest].
Qed.
End Replay.

Lemma acquire_free freed d o : d_locked d = false -> es_locked o = false ->
  acquire freed (d, o) = ((put_lock true d, hold true o), Ok tt).
Proof. intros Hd Ho. unfold acquire. se. rewrite Ho. cbn [fst snd]. rewrite Hd. by destruct freed. Qed.

Lemma open_holder : fresh_holder (hold true (open_store node key)).
Proof. done. Qed.

(** A disk from which any later process starts with the log [l]. *)
Definition recoverable (l : list LogEntry) (d : Disk) : Prop :=
  d_locked d = false /\ forall now freed, name_ok now = true ->
    exists st rep, enter lim py_str py_int now freed (d, open_store node key) = (st, Ok rep) /\ settled l st.

Lemma enter_recovers now freed l d : d_locked d = false ->
  (exists st rep, recover lim py_str py_int now (put_lock true d, hold true (open_store node key)) = (st, Ok rep) /\ settled l st) ->
  exists st rep, enter lim py_str py_int now freed (d, open_store node key) = (st, Ok rep) /\ settled l st.
Proof.
  intros Hd (st & rep & E & S). exists st, rep. split; [|done]. unfold enter.
  by rewrite (se_bind_eq _ _ _ _ _ (acquire_free freed d (open_store node key) Hd eq_refl)).
Qed.

Lemma rest_recoverable l d : at_rest l d -> d_locked d = false -> recoverable l d.
Proof.
  intros R Hd. split; [done|]. intros now freed _. apply enter_recovers; [done|].
  apply recover_rest; [apply open_holder | by apply lock_rest].
Qed.

Lemma flight_recoverable now rs r kid b d : name_ok now = true -> name_ok kid = true -> log_from lim node 1 rs ->
  logged lim node (zlen rs + 1) r -> zlen rs + 1 < INT_LIMIT -> zlen (log_bytes rs) < INT_LIMIT ->
  zlen (journal_text now rs r kid) <= MAX_JOURNAL_BYTES -> in_flight now rs r kid b d ->
  recoverable (if b then rs ++ [r] else rs) (put_lock false d).
Proof.
  intros Hnow Hkid Hg Hr Hn Ho Hj F. split; [done|]. intros now' freed Hnow'. apply enter_recovers; [done|].
  by apply (recover_flight now now' rs r kid); [.. | apply lock_flight, lock_flight].
Qed.

(** A record that cannot be built changes nothing. *)
Lemma append_refused now rs build kid f d o s : es_locked o = true -> es_node_id o = node -> es_state o = Some s ->
  position rs s ->
  (forall p, expected_previous_hash node (zlen rs + 1) (le_hash <$> last rs) = Ok p -> exists e, build (zlen rs + 1) p = Err e) ->
  exists e, append_signed lim py_str now build kid f (d, o) = ((d, o), Err e).
Proof.
  intros Hl Hn Hc P Hb. destruct (previous_total rs s P) as [p Hp].
  unfold append_signed. rewrite (se_bind_eq _ _ _ _ _ (require_lock_ok d o Hl)).
  rewrite (se_bind_eq _ _ _ _ _ (read_state_cached d o s Hl Hc)). rewrite (se_bind_eq (gets snd) _ _ (d, o) o) by done.
  rewrite (po_sequence _ _ P), Hn. rewrite (se_bind_eq (lift _) _ _ (d, o) p) by (unfold lift; f_equal; exact Hp).
  rewrite (po_hash _ _ P) in Hp. rewrite fault_bind. destruct (ft_hook f "before_sign") as [x|]; [by exists x|].
  destruct (Hb p Hp) as [x Hx]. exists x. by rewrite (se_bind_err (lift _) _ _ (d, o) x) by (unfold lift; f_equal; exact Hx).
Qed.

(** C3. A transaction is atomic and recovery completes it: from log, state and journal at
    rest, whatever stops one [append_signed] - a fault at any of its stages, a write that
    fails or a crash after any number of bytes of the journal, the log or the state file - the
    next [EvidenceStore] that enters succeeds and finds log and state in agreement again, the log
    holding the new record if its whole line had reached it and the old records only
    otherwise; and a transaction that returned has its record in the log. *)
Theorem crash_recovery now now' freed freed' rs r kid build f d :
  name_ok now = true -> name_ok now' = true -> name_ok kid = true ->
  at_rest rs d -> d_locked d = false ->
  logged lim node (zlen rs + 1) r -> signs rs r build ->
  zlen rs + 1 < INT_LIMIT -> zlen (log_bytes rs) < INT_LIMIT ->
  zlen (journal_text now rs r kid) <= MAX_JOURNAL_BYTES ->
  exists d1 o1 x,
    with_store lim py_str py_int now freed (append_signed lim py_str now build kid f) (d, open_store node key) = ((d1, o1), x) /\
    d_locked d1 = false /\
    (forall y, x = Ok y -> landed r f = true /\ y = (zlen rs + 1, le_hash r)) /\
    exists d2 o2 rep, enter lim py_str py_int now' freed' (d1, open_store node key) = ((d2, o2), Ok rep) /\
      at_rest (if landed r f then rs ++ [r] else rs) d2.
Proof.
  intros Hnow Hnow' Hkid Hrest Hfree Hr Hb Hn Ho Hj. pose proof (ar_log _ _ Hrest) as Hg. pose proof open_holder as Hh.
  destruct (recover_rest now rs _ _ Hh (lock_rest _ true _ Hrest)) as ([d0 o0] & rep & E & R0 & L0 & N0 & s & C0 & P0).
  destruct (append_lands now rs r kid Hnow Hkid Hg Hr Hn Ho build f d0 o0 s Hb L0 N0 C0 P0 R0) as (d1 & o1 & x & A & F & L1 & Y).
  exists (put_lock false d1), (hold false o1), x. split_and!; [| done | exact Y |].
  { unfold with_store, enter, finally_release. rewrite (se_bind_eq _ _ _ _ _ (eq_trans (se_bind_eq _ _ _ _ _ (acquire_free freed d (open_store node key) Hfree eq_refl)) E)).
    rewrite A. f_equal. unfold release. se. by rewrite L1. }
  destruct (flight_recoverable now rs r kid _ d1 Hnow Hkid Hg Hr Hn Ho Hj F) as [_ K].
  destruct (K now' freed' Hnow') as ([d2 o2] & rep2 & E2 & S2 & _). by exists d2, o2, rep2.
Qed.

Lemma last_logged_record_at rs r d o : es_node_id o = node -> log_from lim node 1 rs -> d_evidence d = Some (log_bytes rs) ->
  last rs = Some r -> exists x, last_logged_record lim (d, o) = ((d, o), Ok (Some x)) /\
    get_or x "sequence" VNone = VInt (zlen rs) /\ get_or x "event_hash" VNone = VStr (le_hash r).
Proof.
  intros Hn Hl He E. unfold last_logged_record. se. rewrite He. se.
  pose proof (log_str_ok _ _ _ _ Hl) as Hs. unfold log_bytes. rewrite (proj2 (decode_enc _ Hs)), (log_lines _ _ _ _ Hl), Hn.
  pose proof (last_record_log _ _ _ _ None Hl) as K. rewrite E in K.
  destruct K as (x & -> & Sq & Hh). exists x. split_and!; [done | rewrite Sq; f_equal; lia | done].
Qed.

(** [repair_from_log] takes the log's word: on a log of [zlen rs] records the repaired
    state is at record [zlen rs] with that record's hash, the file on disk says so, and the log
    is left alone - whatever sequence number the readable state file held before.  A state
    that was ahead of the log is therefore moved back. *)
Theorem repair_follows_log now rs r d o s t b :
  name_ok now = true -> es_locked o = true -> es_node_id o = node -> es_key_id o = key -> es_state o = None ->
  log_from lim node 1 rs -> last rs = Some r -> hash_ok (le_hash r) -> zlen rs < INT_LIMIT -> d_evidence d = Some (log_bytes rs) ->
  state_ok s -> ns_node_id s = node -> state_text s t = Ok b -> d_state d = Some b ->
  exists d' o' s', repair_from_log lim py_str py_int now (d, o) = ((d', o'), Ok s') /\
    position rs s' /\ state_at rs d' /\ evidence_at rs d' /\ d_journal d' = d_journal d.
Proof.
  intros Hnow Hl Hn Hk Hc Hg E Hh Hs He Ok' Hsn Ht Hd.
  destruct (last_logged_record_at rs r d o Hn Hg He E) as (x & R & Sq & Hx).
  assert (read_state lim py_str (d, o) = ((d, cache (Some s) o), Ok s)) as Rd.
  { unfold read_state. rewrite (se_bind_eq _ _ _ _ _ (require_lock_ok d o Hl)). se. rewrite Hc. cbn [fst]. rewrite Hd. se.
    by rewrite Hn, <- Hsn, (parse_state_text _ _ _ _ _ Ok' Hlim Ht). }
  apply last_Some in E as [l ->]. assert (zlen (l ++ [r]) = zlen l + 1) as Z1 by (rewrite zlen_app; done). pose proof (zlen_nonneg l).
  destruct (write_state_done now d (cache None (cache (Some s) o)) key (zlen (l ++ [r])) (le_hash r)) as (b' & Hb' & W); [done | done | lia | done |].
  unfold repair_from_log. rewrite (se_bind_eq _ _ _ _ _ (require_lock_ok d o Hl)), (se_bind_eq _ _ _ _ _ R).
  unfold se_try at 1. rewrite (se_bind_eq _ _ (d, o) (d, cache (Some s) o) (ns_last_sequence s)) by (by rewrite (se_bind_eq _ _ _ _ _ Rd)).
  unfold record_sequence, record_hash. rewrite Sq, Hx. cbn [to_int to_str].
  rewrite (se_bind_eq (gets snd) _ _ _ (cache (Some s) o)) by done.
  cbn [cache es_node_id es_key_id]. rewrite Hn, Hk. rewrite (se_bind_eq _ _ _ (d, cache (Some s) o) (node_state node key (zlen (l ++ [r])) (le_hash r))) by done.
  rewrite (se_bind_eq (on_store _) _ _ (d, cache None (cache (Some s) o)) tt) by done.
  rewrite (se_bind_eq _ _ _ _ _ (W IoOk)). eexists _, _, _. split; [reflexivity|]. split_and!; try done.
  - by apply committed_position.
  - apply (committed_state_at l r key (zlen (l ++ [r])) now b' d); done.
  - by left.
Qed.
End Recovery.

(** ** The lock across a failing [__enter__] *)

(** A computation that neither takes nor frees the lock. *)
Definition keeps_lock {A} (m : StoreM A) : Prop := forall st, d_locked (m st).1.1 = d_locked st.1.

Lemma keeps_bind {A B} (m : StoreM A) (k : A -> StoreM B) :
  keeps_lock m -> (forall a, keeps_lock (k a)) -> keeps_lock (m ≫= k).
Proof.
  intros Hm Hk st. unfold mbind, se_bind. specialize (Hm st). destruct (m st) as [st' [a|e]]; [|done].
  by rewrite (Hk a st').
Qed.

Lemma keeps_lift {A} (r : res A) : keeps_lock (lift r). Proof. done. Qed.
Lemma keeps_ret {A} (a : A) : keeps_lock (mret a). Proof. done. Qed.
Lemma keeps_raise {A} e : keeps_lock (raise (A := A) e). Proof. done. Qed.
Lemma keeps_gets {A} (f : Disk * EvidenceStore -> A) : keeps_lock (gets f). Proof. done. Qed.
Lemma keeps_store f : keeps_lock (on_store f). Proof. done. Qed.
Lemma keeps_state b : keeps_lock (on_disk (put_state b)). Proof. done. Qed.
Lemma keeps_evidence b : keeps_lock (on_disk (put_evidence b)). Proof. done. Qed.
Lemma keeps_journal b : keeps_lock (on_disk (put_journal b)). Proof. done. Qed.

Create HintDb lock.
#[export] Hint Resolve keeps_lift keeps_ret keeps_raise keeps_gets keeps_store keeps_state keeps_evidence keeps_journal : lock.

Ltac keeps := repeat first [apply keeps_bind; [|intros ?] | progress (auto with lock) | case_match].

Lemma keeps_read_state lim py_str : keeps_lock (read_state lim py_str).
Proof. unfold read_state, require_lock. keeps. Qed.
Lemma keeps_write_state now o s : keeps_lock (write_state now o s).
Proof. unfold write_state. keeps. Qed.
#[export] Hint Resolve keeps_read_state keeps_write_state : lock.

Lemma keeps_replay lim py_str py_int now b : keeps_lock (replay_journal lim py_str py_int now b).
Proof. unfold replay_journal, discard_journal, rollback_partial, truncate_evidence, complete_commit, drop_journal. keeps. Qed.

Lemma keeps_check lim py_str py_int now rep : keeps_lock (check_state_against_log lim py_str py_int now rep).
Proof. unfold check_state_against_log, last_logged_sequence, last_logged_record. keeps. Qed.
#[export] Hint Resolve keeps_replay keeps_check : lock.

Lemma keeps_recover lim py_str py_int now : keeps_lock (recover lim py_str py_int now).
Proof. unfold recover, require_lock. keeps. Qed.

Lemma acquire_result freed d o st a : d_locked d = false -> es_locked o = false -> acquire freed (d, o) = (st, a) ->
  st = (put_lock true d, hold true o) /\ a = Ok tt.
Proof. intros Hd Ho H. rewrite acquire_free in H by done. by injection H as <- <-. Qed.

(** An [EvidenceStore] whose [__enter__] fails - a corrupt or diverged state, an
    oversized journal - keeps the lock: [__exit__] is never called, so every later attempt to
    take the lock is refused until the process ends. *)
Theorem failing_enter_leaks_lock lim py_str py_int now freed d o st e other :
  d_locked d = false -> es_locked o = false ->
  enter lim py_str py_int now freed (d, o) = (st, Err e) -> es_locked other = false ->
  d_locked st.1 = true /\
  acquire [false] (st.1, other) = ((st.1, other), Err (StateLockError "another process holds the evidence state lock")).
Proof.
  intros Hd Ho H Hother. unfold enter in H.
  rewrite (se_bind_eq _ _ _ _ _ (acquire_free freed d o Hd Ho)) in H.
  pose proof (keeps_recover lim py_str py_int now (put_lock true d, hold true o)) as K. rewrite H in K. cbn [fst put_lock d_locked] in K.
  split; [exact K|]. unfold acquire. se. rewrite Hother. cbn [fst]. rewrite K. done.
Qed.

(** A lost state file is not noticed: without a state file and a journal a store opens on
    any log, however many records it holds, reports nothing, leaves the log as it is, and
    stands at sequence number 0: its next transaction is given number 1 again. *)
Theorem lost_state_restarts lim py_str py_int now freed d node key :
  d_locked d = false -> d_state d = None -> d_journal d = None ->
  exists st, enter lim py_str py_int now freed (d, open_store node key) = (st, Ok (blank_report false)) /\
    d_evidence st.1 = d_evidence d /\ es_state st.2 = Some (fresh_state node key).
Proof.
  intros Hd Hs Hj. destruct d as [l s ev j]. cbn in Hd, Hs, Hj. subst l s j. eexists.
  assert (forall d, d_locked d = false -> acquire freed (d, open_store node key) = ((put_lock true d, hold true (open_store node key)), Ok tt)) as A
    by (intros; by apply acquire_free).
  split; [|split].
  - unfold enter. erewrite se_bind_eq by (by apply A). reflexivity.
  - done.
  - done.
Qed.

(** ** Witnesses *)
Definition sample_entry (n : string) (h : Z) : LogEntry := {|
  le_line := jlit "{'node_id':'n1','sequence':" ++ lit n ++ jlit ",'event_hash':'" ++ sample_hash h ++ jlit "'}";
  le_hash := sample_hash h |}.
Definition sample_build (r : LogEntry) (n : Z) (p : str) : res (str * str) := Ok (le_line r, le_hash r).
Definition empty_disk : Disk := {| d_locked := false; d_state := None; d_evidence := None; d_journal := None |}.
Definition no_int (v : value) : res Z := Err (TypeError "int").

(** The process dies five bytes into the log's first line. *)
Definition torn : Faults := {|
  ft_hook := fun _ => None; ft_journal := IoOk; ft_append := IoCrash 5; ft_state := IoOk |}.

Lemma sample_logged : logged 5 (lit "n1") 1 (sample_entry "1" 97).
Proof.
  split; [vm_compute; reflexivity | vm_compute; reflexivity | vm_compute; discriminate | by vm_compute |].
  eexists _, _. split; [vm_compute; reflexivity | split; [vm_compute; reflexivity | by vm_compute]].
Qed.

Lemma empty_rest : at_rest 5 (lit "n1") [] empty_disk.
Proof. split; [done | by left | by right | done]. Qed.

Lemma crash_recovery_witness :
  landed (sample_entry "1" 97) torn = false /\
  exists d1 o1 d2 o2 rep,
    with_store 5 no_str no_int sample_now [] (append_signed 5 no_str sample_now (sample_build (sample_entry "1" 97)) (lit "k1") torn)
      (empty_disk, open_store (lit "n1") (lit "k1")) = ((d1, o1), Err (Crash "append")) /\
    enter 5 no_str no_int sample_now [] (d1, open_store (lit "n1") (lit "k1")) = ((d2, o2), Ok rep) /\
    at_rest 5 (lit "n1") [] d2.
Proof.
  assert (landed (sample_entry "1" 97) torn = false) as L by (vm_compute; reflexivity).
  split; [exact L|].
  assert (zlen (journal_text (lit "n1") sample_now [] (sample_entry "1" 97) (lit "k1")) <= MAX_JOURNAL_BYTES) as J
    by (apply Z.leb_le; vm_compute; reflexivity).
  destruct (crash_recovery 5 no_str no_int (lit "n1") (lit "k1") (le_n_S _ _ (Nat.le_0_l _)) eq_refl
    sample_now sample_now [] [] [] (sample_entry "1" 97) (lit "k1") (sample_build (sample_entry "1" 97)) torn empty_disk
    eq_refl eq_refl eq_refl empty_rest eq_refl sample_logged (fun _ _ => eq_refl) eq_refl eq_refl J) as (d1 & o1 & x & E & _ & _ & d2 & o2 & rep & E2 & R).
  rewrite L in R. exists d1, o1, d2, o2, rep. split; [|split; [exact E2 | exact R]].
  rewrite E. f_equal. apply (f_equal snd) in E. cbn [snd] in E. rewrite <- E. vm_compute. reflexivity.
Defined.

Definition ahead_disk : Disk := {|
  d_locked := false; d_evidence := Some []; d_journal := None;
  d_state := match state_text (stamp (node_state (lit "n1") (lit "k1") 3 (sample_hash 97)) sample_now) sample_now with
             | Ok b => Some b | Err _ => None end |}.

Lemma failing_enter_leaks_lock_witness : exists d o,
  enter 5 no_str no_int sample_now [] (ahead_disk, open_store (lit "n1") (lit "k1")) =
    ((d, o), Err (EvidenceStateDivergence "state is ahead of the log")) /\ d_locked d = true.
Proof.
  destruct (enter 5 no_str no_int sample_now [] (ahead_disk, open_store (lit "n1") (lit "k1"))) as [[d o] x] eqn:E.
  assert (x = Err (EvidenceStateDivergence "state is ahead of the log")) as ->
    by (apply (f_equal snd) in E; cbn [snd] in E; rewrite <- E; vm_compute; reflexivity).
  exists d, o. split; [reflexivity|].
  exact (proj1 (failing_enter_leaks_lock 5 no_str no_int sample_now [] ahead_disk (open_store (lit "n1") (lit "k1")) (d, o) _
    (open_store (lit "n1") (lit "k1")) eq_refl eq_refl E eq_refl)).
Defined.

(** The log holds record 1; the state file is gone; the next record is number 1. *)
Definition lost_disk : Disk := {|
  d_locked := false; d_state := None; d_evidence := Some (log_bytes [sample_entry "1" 97]); d_journal := None |}.

Lemma lost_state_restarts_witness : exists st,
  enter 5 no_str no_int sample_now [] (lost_disk, open_store (lit "n1") (lit "k1")) = (st, Ok (blank_report false)) /\
  (append_signed 5 no_str sample_now (sample_build (sample_entry "1" 98)) (lit "k1") no_faults st).2 = Ok (1, sample_hash 98).
Proof.
  destruct (lost_state_restarts 5 no_str no_int sample_now [] lost_disk (lit "n1") (lit "k1") eq_refl eq_refl eq_refl) as (st & E & _).
  exists st. split; [exact E|].
  assert (st = (enter 5 no_str no_int sample_now [] (lost_disk, open_store (lit "n1") (lit "k1"))).1) as -> by (rewrite E; reflexivity).
  vm_compute. reflexivity.
Defined.

(** The state file says 3, the log holds one record: repaired, the state says 1. *)
Definition ahead_state : NodeState := stamp (node_state (lit "n1") (lit "k1") 3 (sample_hash 97)) sample_now.
Definition short_disk : Disk := {|
  d_locked := true; d_state := d_state ahead_disk; d_evidence := Some (log_bytes [sample_entry "1" 97]); d_journal := None |}.

Lemma repair_follows_log_witness : exists d o s,
  repair_from_log 5 no_str no_int sample_now (short_disk, hold true (open_store (lit "n1") (lit "k1"))) = ((d, o), Ok s) /\
  ns_last_sequence s = 1 /\ ns_last_sequence ahead_state = 3.
Proof.
  destruct (state_text ahead_state sample_now) as [b|e] eqn:E; [|exfalso; revert E; vm_compute; discriminate].
  assert (d_state short_disk = Some b) as D by (unfold short_disk, ahead_disk; cbn [d_state]; change (match state_text ahead_state sample_now with Ok b => Some b | Err _ => None end = Some b); rewrite E; reflexivity).
  assert (state_ok ahead_state) as S by (apply (node_state_ok 5 (lit "n1") (le_n_S _ _ (Nat.le_0_l _))); done).
  destruct (repair_follows_log 5 no_str no_int (lit "n1") (lit "k1") (le_n_S _ _ (Nat.le_0_l _)) eq_refl eq_refl sample_now
    [sample_entry "1" 97] (sample_entry "1" 97) short_disk (hold true (open_store (lit "n1") (lit "k1"))) ahead_state sample_now b
    eq_refl eq_refl eq_refl eq_refl eq_refl (conj sample_logged I) eq_refl (lg_hash _ _ _ _ sample_logged) eq_refl eq_refl S eq_refl E D)
    as (d & o & s & R & P & _).
  exists d, o, s. split; [exact R|]. split; [exact (po_sequence _ _ _ P) | reflexivity].
Defined.
