(* ===== verification/LockFile.v ===== *)
(** The lock of a node's store on the file system's terms: opening the lock file, checking it,
    waiting for its lock and letting go - [EvidenceStore.acquire], [_verify_lock_file],
    [_lock_exclusive] and [release] of [src/ics_deception/pqc_evidence/evidence_store.py].

    [EvidenceStore] has one flag for the lock.  Here are the directory entry, the inodes and the
    open descriptors behind the flag, and several processes whose system calls interleave.
    [flock] is the kernel's: an inode's lock belongs to one descriptor, and goes when that is
    closed. *)
From S2P Require Import Prelude PyText Json StateStore EvidenceStore.

(** ** The file system at the lock's path *)
Record Inode := {
  in_regular : bool;
  in_uid : Z;
  in_mode : Z;
  in_lock : option nat;   (* the descriptor that holds it *)
}.
Inductive entry := Absent | Symlink | Directory | At (inode : nat).

Record Fs := {
  fs_entry : entry;
  fs_inodes : list Inode;
  fs_open : gmap nat nat;   (* descriptor: inode *)
  fs_next : nat;
}.

Definition PRIVATE := 0x180.  (* 0o600 *)
(** [st_mode & (S_IRWXG | S_IRWXO)] *)
Definition shared_mode (mode : Z) : bool := negb (Z.land mode 0x3F =? 0).

Definition set_inodes (l : list Inode) (fs : Fs) : Fs :=
  {| fs_entry := fs_entry fs; fs_inodes := l; fs_open := fs_open fs; fs_next := fs_next fs |}.
Definition change_inode (i : nat) (f : Inode -> Inode) (fs : Fs) : Fs := set_inodes (alter f i (fs_inodes fs)) fs.
Definition put_mode (mode : Z) (n : Inode) : Inode :=
  {| in_regular := in_regular n; in_uid := in_uid n; in_mode := mode; in_lock := in_lock n |}.
Definition put_holder (h : option nat) (n : Inode) : Inode :=
  {| in_regular := in_regular n; in_uid := in_uid n; in_mode := in_mode n; in_lock := h |}.

Definition open_inode (i : nat) (fs : Fs) : Fs := {|
  fs_entry := fs_entry fs; fs_inodes := fs_inodes fs; fs_open := <[fs_next fs := i]> (fs_open fs); fs_next := S (fs_next fs) |}.

(** [os.open(path, O_RDWR | O_CREAT | O_NOFOLLOW, 0o600)]; [denied]: the system refuses. *)
Inductive opened := Loop | Failed | Opened (fd : nat).
Definition os_open (uid umask : Z) (denied : bool) (fs : Fs) : Fs * opened :=
  match fs_entry fs with
  | Symlink => (fs, Loop)
  | Directory => (fs, Failed)
  | At i => if denied then (fs, Failed) else (open_inode i fs, Opened (fs_next fs))
  | Absent =>
    if denied then (fs, Failed)
    else
      let i := length (fs_inodes fs) in
      let n := {| in_regular := true; in_uid := uid; in_mode := Z.land PRIVATE (Z.lnot umask); in_lock := None |} in
      (open_inode i {| fs_entry := At i; fs_inodes := fs_inodes fs ++ [n]; fs_open := fs_open fs; fs_next := fs_next fs |},
       Opened (fs_next fs))
  end.

Definition inode_of (fd : nat) (fs : Fs) : option Inode := i ← fs_open fs !! fd; fs_inodes fs !! i.

(** [flock(fd, LOCK_UN)], and [close], which drops the lock as well. *)
Definition unlock (fd : nat) (fs : Fs) : Fs :=
  match fs_open fs !! fd with
  | Some i => change_inode i (fun n => if bool_decide (in_lock n = Some fd) then put_holder None n else n) fs
  | None => fs
  end.
Definition close (fd : nat) (fs : Fs) : Fs :=
  let fs := unlock fd fs in
  {| fs_entry := fs_entry fs; fs_inodes := fs_inodes fs; fs_open := delete fd (fs_open fs); fs_next := fs_next fs |}.

(** ** [_verify_lock_file] and the opening part of [acquire] *)
Definition verify_lock_file (uid : Z) (chmod_ok : bool) (fd : nat) : SE Fs unit := fun fs =>
  match fs_open fs !! fd, inode_of fd fs with
  | Some i, Some n =>
    if negb (in_regular n) then (fs, Err (StateLockError "not a regular file"))
    else if negb (in_uid n =? uid) then (fs, Err (StateLockError "owned by another user"))
    else if shared_mode (in_mode n) && chmod_ok then (change_inode i (put_mode PRIVATE) fs, Ok tt)
    else (fs, Ok tt)
  | _, _ => (fs, Err (OSError "bad descriptor"))
  end.

(** [except BaseException: os.close(fd); raise] *)
Definition closing {A} (fd : nat) (m : SE Fs A) : SE Fs A := fun fs =>
  match m fs with (fs, Err e) => (close fd fs, Err e) | r => r end.

Definition open_lock (uid umask : Z) (denied chmod_ok : bool) : SE Fs nat := fun fs =>
  match os_open uid umask denied fs with
  | (fs, Loop) => (fs, Err (StateLockError "it is a symbolic link"))
  | (fs, Failed) => (fs, Err (EvidenceStoreError "cannot open lock"))
  | (fs, Opened fd) => (closing fd (verify_lock_file uid chmod_ok fd) ;; mret fd) fs
  end.

(** ** [_lock_exclusive] *)

(** [flock(fd, LOCK_EX | LOCK_NB)]: false when another descriptor holds it. *)
Definition try_lock (fd : nat) : SE Fs bool := fun fs =>
  match fs_open fs !! fd, inode_of fd fs with
  | Some i, Some n =>
    match in_lock n with
    | Some h => (fs, Ok (bool_decide (h = fd)))
    | None => (change_inode i (put_holder (Some fd)) fs, Ok true)
    end
  | _, _ => (fs, Err (OSError "bad descriptor"))
  end.

(** [world]: what the others do before each further poll, until the deadline. *)
Fixpoint poll (fd : nat) (world : list (Fs -> Fs)) : SE Fs unit :=
  got ← try_lock fd;
  if got : bool then mret tt
  else match world with
       | [] => raise (StateLockError "timed out waiting for the evidence lock")
       | others :: world => modify others ;; poll fd world
       end.

Definition acquire (mine : option nat) (uid umask : Z) (denied chmod_ok : bool) (world : list (Fs -> Fs)) : SE Fs nat :=
  match mine with
  | Some fd => mret fd
  | None =>
    fd ← open_lock uid umask denied chmod_ok;
    closing fd (poll fd world) ;;
    mret fd
  end.
Definition release (fd : nat) : SE Fs unit := modify (close fd ∘ unlock fd).

(** ** Several processes of one user *)
Inductive Phase :=
| Idle
| Waiting (fd : nat)    (* opened and checked, polling *)
| Holding (fd : nat).   (* [_lock_fd] is set *)
Definition descriptor (p : Phase) : option nat := match p with Idle => None | Waiting fd | Holding fd => Some fd end.

Abbreviation System := (Fs * list Phase)%type.

(** System calls of the processes, one at a time; a process that dies has its descriptors closed. *)
Inductive lock_step (uid : Z) : System -> System -> Prop :=
| LockOpen s umask denied chmod_ok fs l fs' r : l !! s = Some Idle -> open_lock uid umask denied chmod_ok fs = (fs', r) ->
    lock_step uid (fs, l) (fs', <[s := match r with Ok fd => Waiting fd | Err _ => Idle end]> l)
| LockPoll s fd fs l fs' b : l !! s = Some (Waiting fd) -> try_lock fd fs = (fs', Ok b) ->
    lock_step uid (fs, l) (fs', <[s := if b then Holding fd else Waiting fd]> l)
| LockTimeout s fd fs l : l !! s = Some (Waiting fd) -> lock_step uid (fs, l) (close fd fs, <[s := Idle]> l)
| LockRelease s fd fs l : l !! s = Some (Holding fd) -> lock_step uid (fs, l) ((release fd fs).1, <[s := Idle]> l)
| LockDeath s p fs l : l !! s = Some p ->
    lock_step uid (fs, l) (match descriptor p with Some fd => close fd fs | None => fs end, <[s := Idle]> l).

(** What the processes have of the path's inode. *)
Record locked_well (uid : Z) (st : System) : Prop := {
  lk_entry : forall i, fs_entry st.1 = At i -> (i < length (fs_inodes st.1))%nat;
  lk_open : forall fd, is_Some (fs_open st.1 !! fd) <-> exists s p, st.2 !! s = Some p /\ descriptor p = Some fd;
  lk_next : forall fd, is_Some (fs_open st.1 !! fd) -> (fd < fs_next st.1)%nat;
  lk_own : forall s p s' p' fd, st.2 !! s = Some p -> st.2 !! s' = Some p' -> descriptor p = Some fd -> descriptor p' = Some fd -> s = s';
  lk_path : forall fd i, fs_open st.1 !! fd = Some i -> fs_entry st.1 = At i /\
    exists n, fs_inodes st.1 !! i = Some n /\ in_regular n = true /\ in_uid n = uid;
  lk_lock : forall i n fd, fs_inodes st.1 !! i = Some n ->
    (in_lock n = Some fd <-> fs_open st.1 !! fd = Some i /\ exists s, st.2 !! s = Some (Holding fd));
}.

(** ** What the calls do to the inodes *)

(** Everything but the mode. *)
Definition alike (n n' : Inode) : Prop := in_regular n' = in_regular n /\ in_uid n' = in_uid n /\ in_lock n' = in_lock n.

Definition drop_holder (fd : nat) (n : Inode) : Inode := if bool_decide (in_lock n = Some fd) then put_holder None n else n.

Lemma drop_holder_lock fd n h : in_lock (drop_holder fd n) = Some h <-> in_lock n = Some h /\ h <> fd.
Proof. unfold drop_holder. case_bool_decide as E; cbn [put_holder in_lock]; [split; [done|]; intros []; congruence|]. split; [|by intros []]. intros H. split; [done|]. congruence. Qed.

Lemma drop_holder_same fd n : in_lock n <> Some fd -> drop_holder fd n = n.
Proof. intros H. unfold drop_holder. by rewrite bool_decide_eq_false_2. Qed.

Lemma close_inode fd fs i j : fs_open fs !! fd = Some i -> fs_inodes (close fd fs) !! j = (if bool_decide (i = j) then drop_holder fd else id) <$> fs_inodes fs !! j.
Proof.
  intros H. unfold close, unlock. rewrite H. cbn [fs_inodes change_inode set_inodes]. case_bool_decide as E.
  - subst. by rewrite list_lookup_alter_eq.
  - rewrite list_lookup_alter_ne by done. by rewrite option_fmap_id.
Qed.

Lemma close_rest fd fs : fs_entry (close fd fs) = fs_entry fs /\ fs_open (close fd fs) = delete fd (fs_open fs) /\ fs_next (close fd fs) = fs_next fs /\
  length (fs_inodes (close fd fs)) = length (fs_inodes fs).
Proof. unfold close, unlock. destruct (fs_open fs !! fd); cbn; rewrite ?length_alter; done. Qed.

Lemma close_unlocked fd fs : close fd (unlock fd fs) = close fd fs.
Proof.
  unfold close. assert (unlock fd (unlock fd fs) = unlock fd fs) as ->; [|done]. unfold unlock. destruct (fs_open fs !! fd) as [i|] eqn:E; [|by rewrite E].
  cbn [fs_open change_inode set_inodes]. rewrite E. unfold change_inode, set_inodes. cbn. f_equal. rewrite list_alter_alter_eq.
  apply list_alter_ext; [|done]. intros n _. cbn. do 2 case_bool_decide; done.
Qed.

(** A process that gives up, releases or dies. *)
Lemma closed_well uid fs l s p fd : locked_well uid (fs, l) -> l !! s = Some p -> descriptor p = Some fd ->
  locked_well uid (close fd fs, <[s := Idle]> l).
Proof.
  intros [E O N W P L] Hs Hd. cbn [fst snd] in *. destruct (close_rest fd fs) as (Re & Ro & Rn & Rl).
  assert (is_Some (fs_open fs !! fd)) as [i Hi] by (apply O; eauto).
  assert (forall s' p', <[s := Idle]> l !! s' = Some p' -> (p' = Idle /\ s' = s) \/ (s' <> s /\ l !! s' = Some p' /\ descriptor p' <> Some fd)) as K.
  { intros s' p' [(-> & <- & _)|[Ne H']]%list_lookup_insert_Some; [by left|]. right. split; [done|]. split; [done|].
    intros Hd'. apply Ne. by apply (W s p s' p' fd). }
  split; cbn [fst snd].
  - intros j. rewrite Re, Rl. apply E.
  - intros fd'. rewrite Ro, lookup_delete_is_Some, O. split.
    + intros (Ne & s' & p' & H1 & H2). exists s', p'. split; [|done]. apply list_lookup_insert_Some. right. split; [|done]. intros ->. congruence.
    + intros (s' & p' & [[-> ->]|(Ne & H1 & H3)]%K & H2); [done|]. split; [congruence|]. eauto.
  - intros fd'. rewrite Ro, Rn, lookup_delete_is_Some. intros [_ H]. by apply N.
  - intros s1 p1 s2 p2 fd' [[-> ->]|(_ & H1 & _)]%K [[-> ->]|(_ & H2 & _)]%K D1 D2; try done. by apply (W s1 p1 s2 p2 fd').
  - intros fd' j. rewrite Ro, Re. intros [_ H]%lookup_delete_Some. destruct (P fd' j H) as (H1 & n & H2 & H3). split; [done|].
    exists (if bool_decide (i = j) then drop_holder fd n else n). rewrite (close_inode fd fs i j Hi), H2. unfold drop_holder.
    destruct (bool_decide (i = j)); (split; [done|]); [by destruct (bool_decide (in_lock n = Some fd)) | done].
  - intros j n fd' H. rewrite (close_inode fd fs i j Hi) in H. apply fmap_Some in H as (m & Hm & ->). rewrite Ro, lookup_delete_Some.
    assert (in_lock ((if bool_decide (i = j) then drop_holder fd else id) m) = Some fd' <-> in_lock m = Some fd' /\ fd' <> fd) as ->.
    { case_bool_decide as Eij; [apply drop_holder_lock|]. split; [|by intros []]. cbn [id]. intros Hl. split; [done|]. intros ->.
      apply (L j m fd Hm) in Hl as [Hl _]. congruence. }
    rewrite (L j m fd' Hm). split.
    + intros [[H1 (s' & H2)] Ne]. split; [done|]. exists s'. apply list_lookup_insert_Some. right. split; [|done]. intros ->.
      rewrite Hs in H2. injection H2 as ->. cbn in Hd. congruence.
    + intros [[Ne H1] (s' & [[[=] _]|(_ & H2 & _)]%K)]. split; [|done]. split; [done|]. eauto.
Qed.

(** A process that polls. *)
Lemma polled_well uid fs l s fd fs' b : locked_well uid (fs, l) -> l !! s = Some (Waiting fd) -> try_lock fd fs = (fs', Ok b) ->
  locked_well uid (fs', <[s := if b then Holding fd else Waiting fd]> l).
Proof.
  intros V Hs T. pose proof V as [E O N W P L]. cbn [fst snd] in *.
  assert (is_Some (fs_open fs !! fd)) as [i Hi] by (apply O; eauto). destruct (P fd i Hi) as (Hp & n & Hn & Hr).
  unfold try_lock, inode_of in T. rewrite Hi in T. cbn [mbind option_bind] in T. rewrite Hn in T. destruct (in_lock n) as [h|] eqn:Hl.
  { assert (h <> fd) as Ne.
    { intros ->. apply (L i n fd Hn) in Hl as [_ (s' & H')]. assert (s = s') as <- by (by apply (W s (Waiting fd) s' (Holding fd) fd)). congruence. }
    rewrite bool_decide_eq_false_2 in T by done. injection T as <- <-. by rewrite list_insert_id. }
  injection T as <- <-. assert (forall s' p', <[s := Holding fd]> l !! s' = Some p' ->
    (s' = s /\ p' = Holding fd) \/ (s' <> s /\ l !! s' = Some p' /\ descriptor p' <> Some fd)) as K.
  { intros s' p' [(-> & <- & _)|[Ne H']]%list_lookup_insert_Some; [by left|]. right. split; [done|]. split; [done|].
    intros Hd'. apply Ne. by apply (W s (Waiting fd) s' p' fd). }
  assert (forall s' p', s' <> s -> l !! s' = Some p' -> <[s := Holding fd]> l !! s' = Some p') as K'
    by (intros s' p' Ne H'; rewrite list_lookup_insert_ne by done; done).
  assert (<[s := Holding fd]> l !! s = Some (Holding fd)) as Ks by (apply list_lookup_insert_eq, lookup_lt_is_Some; eauto).
  split; cbn [fst snd change_inode set_inodes fs_entry fs_inodes fs_open fs_next].
  - intros j. rewrite length_alter. apply E.
  - intros fd'. rewrite O. split.
    + intros (s' & p' & H1 & H2). destruct (decide (s' = s)) as [->|Ne]; [|by eauto]. rewrite Hs in H1. injection H1 as <-. exists s, (Holding fd). by split.
    + intros (s' & p' & [[-> ->]|(Ne & H1 & _)]%K & H2); [|by eauto]. exists s, (Waiting fd). by split.
  - exact N.
  - intros s1 p1 s2 p2 fd' [[-> ->]|(Ne1 & H1 & D1')]%K [[-> ->]|(Ne2 & H2 & D2')]%K D1 D2; cbn [descriptor] in *; try done; [congruence..|].
    by apply (W s1 p1 s2 p2 fd').
  - intros fd' j H. destruct (P fd' j H) as (H1 & m & H2 & H3). split; [done|]. exists (if decide (i = j) then put_holder (Some fd) m else m).
    rewrite list_lookup_alter. destruct (decide (i = j)) as [<-|]; [|done]. by rewrite H2.
  - intros j m fd' H. rewrite list_lookup_alter in H. destruct (decide (i = j)) as [<-|Ne].
    + rewrite Hn in H. injection H as <-. cbn [put_holder in_lock]. split.
      * intros [= <-]. split; [done|]. by exists s.
      * intros [H1 (s' & [[-> [= <-]]|(Ne & H2 & _)]%K)]; [done|]. assert (in_lock n = Some fd') as X by (apply (L i n fd' Hn); eauto). congruence.
    + rewrite (L j m fd' H). split; intros [H1 (s' & H2)]; (split; [done|]); exists s'.
      * apply K'; [|done]. intros ->. congruence.
      * apply K in H2 as [[-> [= <-]]|(_ & H2 & _)]; [congruence | done].
Qed.

(** ** Opening *)
Lemma fresh_descriptor uid st : locked_well uid st -> fs_open st.1 !! fs_next st.1 = None /\
  forall i n, fs_inodes st.1 !! i = Some n -> in_lock n <> Some (fs_next st.1).
Proof.
  intros [_ _ N _ _ L]. assert (fs_open st.1 !! fs_next st.1 = None) as F.
  { destruct (fs_open st.1 !! fs_next st.1) eqn:Q; [|done]. specialize (N (fs_next st.1) ltac:(eauto)). lia. }
  split; [done|]. intros i n H [X _]%(L i n _ H). congruence.
Qed.

(** A refused opening leaves nothing open. *)
Lemma reclosed i fs : fs_open fs !! fs_next fs = None -> (forall j n, fs_inodes fs !! j = Some n -> in_lock n <> Some (fs_next fs)) ->
  fs_entry (close (fs_next fs) (open_inode i fs)) = fs_entry fs /\ fs_inodes (close (fs_next fs) (open_inode i fs)) = fs_inodes fs /\
  fs_open (close (fs_next fs) (open_inode i fs)) = fs_open fs.
Proof.
  intros F L. destruct (close_rest (fs_next fs) (open_inode i fs)) as (-> & -> & _ & _). split; [done|]. split.
  - apply list_eq. intros j. rewrite (close_inode _ _ i) by (cbn [fs_open open_inode]; by rewrite lookup_insert_eq). cbn [fs_inodes open_inode].
    destruct (fs_inodes fs !! j) as [n|] eqn:Q; [|done]. cbn. f_equal. case_bool_decide; [|done]. by apply drop_holder_same, (L j).
  - cbn [fs_open open_inode]. by rewrite delete_insert_id.
Qed.

(** What the check leaves of the inode it looks at. *)
Lemma verify_cases uid chmod_ok fd i n fs fs' r : fs_open fs !! fd = Some i -> fs_inodes fs !! i = Some n ->
  verify_lock_file uid chmod_ok fd fs = (fs', r) ->
  (exists e, r = Err e /\ fs' = fs /\ in_regular n && (in_uid n =? uid) = false) \/
  (r = Ok tt /\ in_regular n = true /\ in_uid n = uid /\ fs_entry fs' = fs_entry fs /\ fs_open fs' = fs_open fs /\ fs_next fs' = fs_next fs /\
   length (fs_inodes fs') = length (fs_inodes fs) /\
   (exists n', fs_inodes fs' !! i = Some n' /\ alike n n' /\ (chmod_ok = true -> shared_mode (in_mode n') = false)) /\
   forall j m', fs_inodes fs' !! j = Some m' -> exists m, fs_inodes fs !! j = Some m /\ alike m m').
Proof.
  intros Ho Hn H. unfold verify_lock_file, inode_of in H. rewrite Ho in H. cbn [mbind option_bind] in H. rewrite Hn in H.
  destruct (in_regular n) eqn:Rg; cbn [negb andb] in *; [|injection H as <- <-; left; eauto].
  destruct (Z.eqb_spec (in_uid n) uid) as [Hu|]; cbn [negb] in *; [|injection H as <- <-; left; eauto].
  right. destruct (shared_mode (in_mode n) && chmod_ok) eqn:Sh; injection H as <- <-.
  - cbn [change_inode set_inodes fs_entry fs_open fs_next fs_inodes]. rewrite list_lookup_alter_eq, Hn, length_alter. split_and!; try done.
    + exists (put_mode PRIVATE n). by split.
    + intros j m' Hj. rewrite list_lookup_alter in Hj. destruct (decide (i = j)) as [<-|]; [|by exists m']. rewrite Hn in Hj. injection Hj as <-. by exists n.
  - split_and!; try done.
    + exists n. split; [done|]. split; [done|]. intros ->. by rewrite andb_true_r in Sh.
    + intros j m' Hj. by exists m'.
Qed.

(** What [open_lock] leaves: nothing, or a descriptor of the path's inode, which is a plain file
    of the user's, private if its mode could be changed. *)
Lemma open_lock_cases uid umask denied chmod_ok fs fs' r : fs_open fs !! fs_next fs = None ->
  (forall j n, fs_inodes fs !! j = Some n -> in_lock n <> Some (fs_next fs)) -> (forall i, fs_entry fs = At i -> (i < length (fs_inodes fs))%nat) ->
  open_lock uid umask denied chmod_ok fs = (fs', r) ->
  (exists e, r = Err e /\ fs_entry fs' = fs_entry fs /\ fs_inodes fs' = fs_inodes fs /\ fs_open fs' = fs_open fs /\ (fs_next fs <= fs_next fs')%nat) \/
  (exists i n, r = Ok (fs_next fs) /\ (fs_entry fs = At i \/ (fs_entry fs = Absent /\ i = length (fs_inodes fs))) /\ fs_entry fs' = At i /\
    fs_open fs' = <[fs_next fs := i]> (fs_open fs) /\ fs_next fs' = S (fs_next fs) /\
    fs_inodes fs' !! i = Some n /\ in_regular n = true /\ in_uid n = uid /\ (chmod_ok = true -> shared_mode (in_mode n) = false) /\
    (fs_entry fs = Absent -> in_lock n = None) /\
    (length (fs_inodes fs) <= length (fs_inodes fs'))%nat /\
    forall j m', fs_inodes fs' !! j = Some m' -> (j = i /\ fs_entry fs = Absent) \/ exists m, fs_inodes fs !! j = Some m /\ alike m m').
Proof.
  intros F L B H. unfold open_lock, os_open in H. destruct (fs_entry fs) as [| | |i] eqn:En; try (destruct denied);
    try (injection H as <- <-; left; eauto 10); unfold mbind, se_bind, closing in H.
  - set (n := {| in_regular := true; in_uid := uid; in_mode := _; in_lock := None |}) in *. set (fs1 := open_inode _ _) in H.
    assert (fs_inodes fs1 !! length (fs_inodes fs) = Some n) as Hn
      by (cbn [fs1 open_inode fs_inodes]; rewrite lookup_app_r by lia; by rewrite Nat.sub_diag).
    destruct (verify_lock_file uid chmod_ok (fs_next fs) fs1) as [fs2 v] eqn:V.
    apply (verify_cases _ _ _ (length (fs_inodes fs)) n) in V as [(e & _ & _ & X)|(-> & _ & Hu & He & Ho & Hx & Hl & (n' & Hn' & A & Hc) & K)];
      [cbn in X; by rewrite Z.eqb_refl in X | | by cbn; apply lookup_insert_eq | done].
    injection H as <- <-. right. exists (length (fs_inodes fs)), n'. destruct A as (A1 & A2 & A3). rewrite A1, A2, A3. split_and!; try done; [by right | |].
    + rewrite Hl. cbn [fs1 open_inode fs_inodes]. rewrite length_app. lia.
    + intros j m' Hj. destruct (K j m' Hj) as (m & Hm & Am). cbn [fs1 open_inode fs_inodes] in Hm.
      apply lookup_app_Some in Hm as [Hm|[Hj1 Hm]]; [right; eauto|]. left. destruct (j - length (fs_inodes fs))%nat eqn:Q; [|done]. split; [lia | done].
  - destruct (lookup_lt_is_Some_2 _ _ (B i eq_refl)) as [n Hn]. destruct (reclosed i fs F L) as (R1 & R2 & R3).
    destruct (verify_lock_file uid chmod_ok (fs_next fs) (open_inode i fs)) as [fs2 v] eqn:V.
    apply (verify_cases _ _ _ i n) in V as [(e & -> & -> & _)|(-> & Hr & Hu & He & Ho & Hx & Hl & (n' & Hn' & (A1 & A2 & A3) & Hc) & K)];
      [| | by cbn; apply lookup_insert_eq | done]; injection H as <- <-.
    + left. eexists. rewrite R1, R2, R3. split_and!; try done. destruct (close_rest (fs_next fs) (open_inode i fs)) as (_ & _ & -> & _). cbn. lia.
    + right. exists i, n'. rewrite A1, A2, A3. split_and!; try done; [by left | rewrite He; done | by rewrite Hl|]. intros j m' Hj. right. by apply K.
Qed.

Lemma opened_well uid fs l s umask denied chmod_ok fs' r : locked_well uid (fs, l) -> l !! s = Some Idle ->
  open_lock uid umask denied chmod_ok fs = (fs', r) -> locked_well uid (fs', <[s := match r with Ok fd => Waiting fd | Err _ => Idle end]> l).
Proof.
  intros V Hs H. pose proof (fresh_descriptor uid (fs, l) V) as [F Fl]. pose proof V as [E O N W P L]. cbn [fst snd] in *.
  destruct (open_lock_cases _ _ _ _ _ _ _ F Fl E H) as [(e & -> & He & Hi & Ho & Hn)|(i & n & -> & C & He & Ho & Hn & Hi & Hr & Hu & _ & Hl & Hlen & K)].
  - rewrite list_insert_id by done. split; cbn [fst snd]; rewrite ?He, ?Hi, ?Ho; try done. intros fd Hf. specialize (N fd Hf). lia.
  - assert (forall s' p', <[s := Waiting (fs_next fs)]> l !! s' = Some p' ->
      (s' = s /\ p' = Waiting (fs_next fs)) \/ (s' <> s /\ l !! s' = Some p' /\ descriptor p' <> Some (fs_next fs))) as Q.
    { intros s' p' [(-> & <- & _)|[Ne H']]%list_lookup_insert_Some; [by left|]. right. split; [done|]. split; [done|].
      intros Hd. assert (is_Some (fs_open fs !! fs_next fs)) as [? X] by (apply O; eauto). congruence. }
    assert (forall s' p', s' <> s -> l !! s' = Some p' -> <[s := Waiting (fs_next fs)]> l !! s' = Some p') as Q'
      by (intros s' p' Ne H'; rewrite list_lookup_insert_ne by done; done).
    assert (<[s := Waiting (fs_next fs)]> l !! s = Some (Waiting (fs_next fs))) as Qs by (apply list_lookup_insert_eq, lookup_lt_is_Some; eauto).
    assert (forall fd j, fs_open fs !! fd = Some j -> j = i /\ fs_entry fs = At i) as Same.
    { intros fd j H1. destruct (P fd j H1) as [H2 _]. destruct C as [C|[C _]]; [|congruence]. rewrite C in *. by injection H2 as ->. }
    split; cbn [fst snd]; rewrite ?He, ?Ho, ?Hn.
    + intros j [= <-]. apply lookup_lt_is_Some. eauto.
    + intros fd. rewrite lookup_insert_is_Some, O. split.
      * intros [<-|[Ne (s' & p' & H1 & H2)]]; [by exists s, (Waiting (fs_next fs))|]. exists s', p'. split; [|done]. apply Q'; [|done]. intros ->. rewrite Hs in H1. injection H1 as <-. done.
      * intros (s' & p' & [[-> ->]|(Ne & H1 & H3)]%Q & H2); [left; by injection H2|]. right. split; [congruence|]. eauto.
    + intros fd [<-|[_ H1]]%lookup_insert_is_Some; [lia|]. specialize (N fd H1). lia.
    + intros s1 p1 s2 p2 fd [[-> ->]|(Ne1 & H1 & D1')]%Q [[-> ->]|(Ne2 & H2 & D2')]%Q D1 D2; cbn [descriptor] in *; try done; [congruence..|].
      by apply (W s1 p1 s2 p2 fd).
    + intros fd j [[<- <-]|[Ne H1]]%lookup_insert_Some; [eauto|]. destruct (Same fd j H1) as [-> Hat]. eauto.
    + intros j m fd Hj. destruct (decide (fs_next fs = fd)) as [<-|Ne].
      * split; [|intros [_ (s' & [[_ [=]]|(_ & _ & [])]%Q)]; done].
        intros X. destruct (K j m Hj) as [[-> C']|(m0 & H1 & _ & _ & Q3)].
        -- assert (m = n) as -> by congruence. specialize (Hl C'). congruence.
        -- rewrite Q3 in X. by destruct (Fl j m0 H1).
      * rewrite lookup_insert_ne by done. destruct (K j m Hj) as [[-> C']|(m0 & H1 & _ & _ & Q3)].
        -- assert (m = n) as -> by congruence. rewrite (Hl C'). split; [done|]. intros [X _]. destruct (Same fd _ X) as [_ Y]. congruence.
        -- rewrite Q3, (L j m0 fd H1). split; intros [X (s' & Y)]; (split; [done|]); exists s'.
           ++ apply Q'; [|done]. intros ->. congruence.
           ++ apply Q in Y as [[_ [=]]|(_ & Y & _)]. done.
Qed.

Lemma step_well uid st st' : lock_step uid st st' -> locked_well uid st -> locked_well uid st'.
Proof.
  destruct 1 as [s umask denied chmod_ok fs l fs' r Hs H|s fd fs l fs' b Hs H|s fd fs l Hs|s fd fs l Hs|s p fs l Hs]; intros V.
  - by apply (opened_well uid fs l s umask denied chmod_ok).
  - by apply (polled_well uid fs l s fd).
  - by apply (closed_well uid fs l s (Waiting fd) fd).
  - change ((release fd fs).1) with (close fd (unlock fd fs)). rewrite close_unlocked. by apply (closed_well uid fs l s (Holding fd) fd).
  - destruct (descriptor p) as [fd|] eqn:D; [by apply (closed_well uid fs l s p fd)|]. destruct p; try done. by rewrite list_insert_id.
Qed.

(** Nobody has opened the lock file. *)
Record unused (fs : Fs) : Prop := {
  un_entry : forall i, fs_entry fs = At i -> (i < length (fs_inodes fs))%nat;
  un_open : fs_open fs = ∅;
  un_lock : forall i n, fs_inodes fs !! i = Some n -> in_lock n = None;
}.

Lemma unused_well uid fs k : unused fs -> locked_well uid (fs, replicate k Idle).
Proof.
  intros [E O L]. split; cbn [fst snd]; rewrite ?O; try done.
  - intros fd. rewrite lookup_empty. split; [by intros [? [=]]|]. intros (s & p & [-> _]%lookup_replicate & [=]).
  - intros fd. rewrite lookup_empty. by intros [? [=]].
  - intros s p s' p' fd [-> _]%lookup_replicate _ [=].
  - intros i n fd H. rewrite (L i n H), lookup_empty. split; [done | by intros [[=] _]].
Qed.

(** C24. The lock excludes: however the system calls of the processes that share a store
    interleave - openings, polls, time-outs, releases, deaths at any point - and whatever is at
    the lock's path in the beginning, at most one of them holds the lock; it holds it on the
    file at the path, which is a plain file of the user's, not a link's target; and no process
    that does not use the store has a descriptor left open. *)
Theorem lock_excludes uid fs k st (U : unused fs) (R : rtc (lock_step uid) (fs, replicate k Idle) st) :
  (forall s fd s' fd', st.2 !! s = Some (Holding fd) -> st.2 !! s' = Some (Holding fd') -> s = s' /\ fd = fd') /\
  (forall s fd, st.2 !! s = Some (Holding fd) -> exists i n, fs_entry st.1 = At i /\ fs_open st.1 !! fd = Some i /\
     fs_inodes st.1 !! i = Some n /\ in_regular n = true /\ in_uid n = uid /\ in_lock n = Some fd) /\
  (forall fd, is_Some (fs_open st.1 !! fd) <-> exists s p, st.2 !! s = Some p /\ descriptor p = Some fd).
Proof.
  assert (locked_well uid st) as V.
  { pose proof (unused_well uid fs k U) as V. induction R as [|st st1 st2 S _ IH]; [done|]. by apply IH, (step_well uid st). }
  clear R. destruct V as [E O N W P L].
  assert (forall s fd, st.2 !! s = Some (Holding fd) -> exists i n, fs_entry st.1 = At i /\ fs_open st.1 !! fd = Some i /\
     fs_inodes st.1 !! i = Some n /\ in_regular n = true /\ in_uid n = uid /\ in_lock n = Some fd) as H.
  { intros s fd Hs. assert (is_Some (fs_open st.1 !! fd)) as [i Hi] by (apply O; by exists s, (Holding fd)). destruct (P fd i Hi) as (He & n & Hn & Hr & Hu).
    exists i, n. split_and!; try done. apply (L i n fd Hn). eauto. }
  split; [|split; [exact H | exact O]]. intros s fd s' fd' Hs Hs'.
  destruct (H s fd Hs) as (i & n & E1 & _ & H1 & _ & _ & L1), (H s' fd' Hs') as (i' & n' & E2 & _ & H2 & _ & _ & L2).
  assert (fd = fd') as <- by congruence. split; [|done]. by apply (W s (Holding fd) s' (Holding fd) fd).
Qed.

(** ** The flag of [EvidenceStore] *)

(** Polling behind a holder that may let go between two polls is [lock_exclusive]: it succeeds
    exactly when that does, and then holds the lock. *)
Lemma poll_refines fd h i freed : forall fs n, fs_open fs !! fd = Some i -> fs_open fs !! h = Some i -> h <> fd ->
  fs_inodes fs !! i = Some n -> in_lock n = Some h ->
  match poll fd (map (fun f : bool => if f then close h else id) freed) fs with
  | (fs', Ok _) => lock_exclusive true freed = Ok tt /\ exists n', inode_of fd fs' = Some n' /\ in_lock n' = Some fd
  | (fs', Err e) => exists m, lock_exclusive true freed = Err (StateLockError m) /\ e = StateLockError "timed out waiting for the evidence lock" /\ fs' = fs
  end.
Proof.
  induction freed as [|f freed IH]; intros fs n Hfd Hh Ne Hn Hl;
    assert (try_lock fd fs = (fs, Ok false)) as T by (unfold try_lock, inode_of; rewrite Hfd; cbn [mbind option_bind]; rewrite Hn, Hl; by rewrite bool_decide_eq_false_2).
  - cbn [map poll]. rewrite (se_bind_eq _ _ _ _ _ T). cbn. eauto.
  - cbn [map poll]. rewrite (se_bind_eq _ _ _ _ _ T). destruct f; cbn [lock_exclusive negb].
    + rewrite (se_bind_eq (modify _) _ fs (close h fs) tt) by done.
      assert (try_lock fd (close h fs) = (change_inode i (put_holder (Some fd)) (close h fs), Ok true)) as T2.
      { unfold try_lock, inode_of. destruct (close_rest h fs) as (_ & -> & _). rewrite lookup_delete_ne, Hfd by done. cbn [mbind option_bind].
        rewrite (close_inode h fs i i Hh), bool_decide_eq_true_2, Hn by done. cbn [fmap option_fmap option_map]. unfold drop_holder. by rewrite bool_decide_eq_true_2. }
      assert (exists n', inode_of fd (change_inode i (put_holder (Some fd)) (close h fs)) = Some n' /\ in_lock n' = Some fd) as X.
      { eexists. unfold inode_of. cbn [change_inode set_inodes fs_open fs_inodes]. destruct (close_rest h fs) as (_ & -> & _).
        rewrite lookup_delete_ne, Hfd by done. cbn [mbind option_bind]. rewrite list_lookup_alter_eq, (close_inode h fs i i Hh), Hn. by split. }
      destruct freed as [|g freed]; cbn [map poll]; rewrite (se_bind_eq _ _ _ _ _ T2); by split.
    + rewrite (se_bind_eq (modify _) _ fs fs tt) by done. exact (IH fs n Hfd Hh Ne Hn Hl).
Qed.

(** ** Concrete runs *)
Definition bare : Fs := {| fs_entry := Absent; fs_inodes := []; fs_open := ∅; fs_next := 3 |}.
Definition opened_once : Fs := (open_lock 1000 0x12 false true bare).1.
Definition held_once : Fs := (try_lock 3 opened_once).1.
Definition contended : Fs := (open_lock 1000 0x12 false true held_once).1.

Lemma contended_reached : rtc (lock_step 1000) (bare, replicate 2 Idle) (contended, [Holding 3; Waiting 4]).
Proof.
  eapply rtc_l; [exact (LockOpen 1000 0 0x12 false true bare (replicate 2 Idle) opened_once (Ok 3%nat) eq_refl eq_refl)|].
  eapply rtc_l; [exact (LockPoll 1000 0 3 opened_once [Waiting 3; Idle] held_once true eq_refl eq_refl)|].
  eapply rtc_l; [exact (LockOpen 1000 1 0x12 false true held_once [Holding 3; Idle] contended (Ok 4%nat) eq_refl eq_refl)|].
  apply rtc_once. exact (LockPoll 1000 1 4 contended [Holding 3; Waiting 4] contended false eq_refl eq_refl).
Qed.

Lemma lock_excludes_witness : exists i n, fs_entry contended = At i /\ fs_open contended !! 3%nat = Some i /\
  fs_inodes contended !! i = Some n /\ in_regular n = true /\ in_uid n = 1000 /\ in_lock n = Some 3%nat.
Proof.
  assert (unused bare) as U by (split; [done | done | by intros i n [=]]).
  exact (proj1 (proj2 (lock_excludes 1000 bare 2 (contended, [Holding 3; Waiting 4]) U contended_reached)) 0%nat 3%nat eq_refl).
Defined.

(** What is refused: a link, a directory, a device, another's file; a shared mode is tightened. *)
Definition beside (e : entry) (regular : bool) (uid mode : Z) : Fs := {|
  fs_entry := e; fs_inodes := [{| in_regular := regular; in_uid := uid; in_mode := mode; in_lock := None |}]; fs_open := ∅; fs_next := 3 |}.
Example refusals : map (fun fs => (open_lock 1000 0x12 false true fs).2)
    [beside Symlink true 1000 PRIVATE; beside Directory true 1000 PRIVATE; beside (At 0) false 1000 PRIVATE; beside (At 0) true 0 PRIVATE] =
  [Err (StateLockError "it is a symbolic link"); Err (EvidenceStoreError "cannot open lock"); Err (StateLockError "not a regular file");
   Err (StateLockError "owned by another user")].
Proof. reflexivity. Qed.
Example tightened : in_mode <$> fs_inodes (open_lock 1000 0x12 false true (beside (At 0) true 1000 0x1B6)).1 !! 0%nat = Some PRIVATE.
Proof. reflexivity. Qed.

(** Removing the lock file while it is held lets a second process in: the lock is the inode's,
    not the path's, as the message of the time-out warns. *)
Definition unlinked : Fs := {| fs_entry := Absent; fs_inodes := fs_inodes held_once; fs_open := fs_open held_once; fs_next := fs_next held_once |}.
Example removed_while_held : let '(fs, r) := acquire None 1000 0x12 false true [] unlinked in
  r = Ok 4%nat /\ in_lock <$> inode_of 3 fs = Some (Some 3%nat) /\ in_lock <$> inode_of 4 fs = Some (Some 4%nat).
Proof. vm_compute. by repeat split. Qed.
