(* ===== verification/RecordFacts.v ===== *)
(** Evidence records as text: what bounds a record's fields, that such a record has
    canonical bytes and how many, that sorting its event's keys changes nothing, and that
    its write-ahead journal fits the journal's size limit. *)
From S2P Require Import Prelude PyText Json JsonFacts JsonScan Hashes IsoTime Canonicalizer Models EventChain KeyRegistry Verifier Collector StateStore EvidenceStore.

(** ** Characters *)
Lemma ascii_pyval s : forallb is_ascii s = true -> pyval (VStr s) = true.
Proof. intros H. apply ascii_scalar, str_ok_elim in H as [H _]. exact H. Qed.

(** Printable ASCII without quotes and backslashes: JSON does not escape it. *)
Definition plain (c : Z) : bool := (32 <=? c) && (c <=? 126) && negb ((c =? 34) || (c =? 92)).

(** The alphabet: a predicate of its 64 characters and of the padding holds of every encoding. *)
Lemma b64encode_chars (p : Z -> bool) b : (forall n, 0 <= n < 64 -> p (b64_char n) = true) -> p 61 = true ->
  Bytes b -> forallb p (b64encode b) = true.
Proof.
  intros C P. revert b. fix IH 1. intros [|x [|y [|z r]]] Hb; [done|..].
  all: repeat match goal with H : Forall _ (_ :: _) |- _ => apply Forall_cons in H as [?%is_byte_spec H] end.
  - destruct (divmod 4 x); [lia|]. cbn [b64encode forallb]. by rewrite !C, P by lia.
  - destruct (divmod 4 x), (divmod 16 y); try lia. cbn [b64encode forallb]. by rewrite !C, P by lia.
  - destruct (divmod 4 x), (divmod 16 y), (divmod 64 z); try lia. cbn [b64encode forallb]. rewrite !C by lia. by apply IH.
Qed.

Definition visible (c : Z) : bool := (33 <=? c) && (c <=? 126) && negb ((c =? 34) || (c =? 92)).

Lemma b64encode_visible b : Bytes b -> forallb visible (b64encode b) = true.
Proof.
  apply b64encode_chars; [|done]. intros n Hn. unfold b64_char, visible.
  destruct (Z.ltb_spec n 26); [|destruct (Z.ltb_spec n 52); [|destruct (Z.ltb_spec n 62); [|destruct (Z.eqb_spec n 62)]]]; by zdec.
Qed.

Lemma b64encode_plain b : Bytes b -> forallb plain (b64encode b) = true.
Proof.
  intros H%b64encode_visible. rewrite forallb_forall in *. intros c Hc. specialize (H c Hc). unfold visible, plain in *. bool_prop. by zdec.
Qed.

Lemma plain_ascii x : forallb plain x = true -> forallb is_ascii x = true.
Proof.
  rewrite !forallb_forall. intros H c Hc. specialize (H c Hc). unfold plain, is_ascii in *. bool_prop. by zdec.
Qed.

Lemma strftime_ascii u : dt_ok u = true -> length (strftime_z u) = 27%nat -> forallb is_ascii (strftime_z u) = true.
Proof.
  intros Hu Hl. apply strftime_length in Hl as Hy; [|done].
  assert (1 <= dt_year u <= MAXYEAR) by (unfold dt_ok, fields_ok in Hu; bool_prop; lia).
  rewrite strftime_text by lia. by apply text_ascii.
Qed.

Lemma hex_ascii h : forallb is_hex h = true -> forallb is_ascii h = true.
Proof.
  rewrite !forallb_forall. intros H x Hx. specialize (H x Hx). unfold is_hex, is_digit, is_ascii in *. bool_prop.
  destruct H as [H|H]; bool_prop; zdec; done.
Qed.


Lemma hash_match_ascii h : hash_match h = true -> forallb is_ascii h = true.
Proof.
  unfold hash_match. intros H. bool_prop. rewrite <- (take_drop 64 h), forallb_app, hex_ascii by done.
  rename select (dollar _ = true) into D. unfold dollar in D. destruct (drop 64 h) as [|c [|c' r]]; try done.
  - destruct c as [|q|q]; try done. by do 4 (destruct q as [q|q|]; try done).
  - destruct c as [|q|q]; try done. exfalso. by do 4 (destruct q as [q|q|]; try done).
Qed.


(** *** A record with its event's keys sorted is the same record *)
Definition shallow (d : dict) : dict := map (fun kv => (kv.1, normal true kv.2)) d.

Lemma keys_shallow d : keys (shallow d) = keys d.
Proof. unfold keys, shallow. by rewrite map_map. Qed.

Lemma acceptable_shallow d : acceptable (VDict d) = true -> acceptable (VDict (shallow d)) = true.
Proof.
  rewrite !acceptable_spec. intros (W & H & Sh). apply wf_dict in W as [W N]. split_and!.
  - apply wf_dict. rewrite keys_shallow. split; [|done]. unfold shallow. apply Forall_map.
    eapply Forall_impl; [exact W|]. cbn. intros kv [? ?]. split; [done | by apply wf_normal].
  - cbn [height] in *. unfold shallow. rewrite map_map. cbn [snd].
    by rewrite (map_ext (fun kv : key * value => S (height (normal true kv.2))) (fun kv => S (height kv.2))) by (intros; by rewrite height_normal).
  - cbn [strings_short] in *. apply forallb_Forall in Sh. apply forallb_Forall. unfold shallow. apply Forall_map.
    eapply Forall_impl; [exact Sh|]. cbn. intros kv Hkv. bool_prop. rewrite strings_short_normal by done.
    apply andb_true_iff. split; [by apply Z.leb_le | done].
Qed.

Lemma canonical_shallow d b : pyval (VDict d) = true -> canonical_bytes (VDict d) = Ok b -> canonical_bytes (VDict (shallow d)) = Ok b.
Proof.
  intros Hp Hb. pose proof (canonical_bytes_inv _ _ Hp Hb) as Ha. pose proof (acceptable_shallow d Ha) as Ha'.
  rewrite <- Hb, !canonical_bytes_acceptable by done. f_equal. cbn [dump]. unfold shallow. rewrite map_map. cbn [fst snd].
  f_equal. by rewrite (map_ext (fun kv : key * value => (kstr kv.1, dump canonical_cfg 1 (normal true kv.2))) (fun kv => (kstr kv.1, dump canonical_cfg 1 kv.2)))
    by (intros; by rewrite dump_normal).
Qed.

(** What an evidence line reads back as. *)
Definition normed (e : SignedEvent) : SignedEvent := with_event e (normal_event (se_event e)).

Lemma to_items_normed e : to_items (normed e) = map (fun kv => (kv.1, normal true kv.2)) (to_items e).
Proof. unfold to_items, normed. cbn [se_event with_event map fst snd]. rewrite normal_event_eq. reflexivity. Qed.

Lemma without_shallow excl l : as_dict (without excl (map (fun kv => (kv.1, normal true kv.2)) l)) = shallow (as_dict (without excl l)).
Proof.
  unfold without, shallow, as_dict. induction l as [|[k x] l IH]; [done|]. cbn [map List.filter fst snd].
  destruct (negb _); [|done]. cbn [map fst snd]. by rewrite IH.
Qed.

Lemma payload_normed excl e b : pyval (to_dict e) = true ->
  canonical_bytes (VDict (as_dict (without excl (to_items e)))) = Ok b ->
  canonical_bytes (VDict (as_dict (without excl (to_items (normed e))))) = Ok b.
Proof.
  intros Hp Hb. rewrite to_items_normed, without_shallow. apply canonical_shallow; [by apply pyval_without | done].
Qed.

(** *** Sizes *)
Lemma esc1_len a c : zlen (esc1 a c) <= 12.
Proof. unfold esc1, u_esc. repeat case_match; unfold zlen; simpl; lia. Qed.

Lemma quote_len a x : zlen (quote a x) <= 12 * zlen x + 2.
Proof.
  unfold quote. rewrite zlen_cons, zlen_app. change (zlen [34]) with 1.
  enough (zlen (concat (map (esc1 a) x)) <= 12 * zlen x) by lia.
  induction x as [|c x IH]; [done|]. cbn [map concat]. rewrite zlen_app, zlen_cons. pose proof (esc1_len a c). lia.
Qed.

Lemma int_text_len z : 0 <= z < INT_LIMIT -> zlen (int_text z) <= INT_MAX_STR_DIGITS.
Proof. intros H. unfold int_text. replace (z <? 0) with false by (symmetry; apply Z.ltb_ge; lia). by apply dec_digits_len. Qed.

Lemma join_len sep l : zlen (join sep l) <= foldr (fun x n => zlen x + zlen sep + n) 0 l.
Proof.
  induction l as [|x [|y l] IH]; [done| |].
  - cbn. pose proof (zlen_nonneg sep). lia.
  - cbn [join foldr] in *. rewrite !zlen_app. lia.
Qed.

(** The write-ahead journal of a record of 86,000 bytes fits. *)
Lemma journal_fits node now rs r kid : zlen node <= MAX_NODE_ID_LENGTH -> zlen kid <= MAX_NODE_ID_LENGTH ->
  zlen now <= 100 -> zlen (le_hash r) = 64 -> zlen (le_line r) <= 86000 ->
  zlen rs + 1 < INT_LIMIT -> zlen (log_bytes rs) < INT_LIMIT ->
  zlen (journal_text node now rs r kid) <= MAX_JOURNAL_BYTES.
Proof.
  intros Hn Hk Hw Hh Hl Hs Ho. pose proof (zlen_nonneg rs). pose proof (zlen_nonneg (log_bytes rs)).
  pose proof (int_text_len (zlen rs + 1) ltac:(lia)). pose proof (int_text_len (zlen (log_bytes rs)) ltac:(lia)). unfold journal_text. cbn [dump as_dict entry_items map fst snd kstr c_sort default_cfg].
  rewrite wrap_shape. cbn [map]. rewrite !zlen_cons, !zlen_app. unfold nl. cbn [c_indent default_cfg c_isep].
  change (zlen (@nil Z)) with 0. change (zlen [125]) with 1. rewrite app_nil_r.
  match goal with |- context [join ?sep ?l] => pose proof (join_len sep l) as J end.
  unfold member in J |- *. cbn [foldr c_ascii c_ksep default_cfg fst snd] in J |- *. rewrite !zlen_app in J.
  assert (forall k, zlen (quote true (lit k)) <= 12 * zlen (lit k) + 2) as Q by (intros; apply quote_len).
  pose proof (Q "node_id"%string). pose proof (Q "key_id"%string). pose proof (Q "sequence"%string). pose proof (Q "event_hash"%string).
  pose proof (Q "offset"%string). pose proof (Q "record"%string). pose proof (Q "written_at"%string).
  repeat match goal with H : context [zlen (lit ?k)] |- _ => let n := eval vm_compute in (zlen (lit k)) in change (zlen (lit k)) with n in H end.
  change (zlen [58; 32]) with 2 in J. change (zlen [44; 32]) with 2 in J. change INT_MAX_STR_DIGITS with 4300 in *.
  change MAX_NODE_ID_LENGTH with 128 in *. change MAX_JOURNAL_BYTES with 1048576.
  pose proof (quote_len true node). pose proof (quote_len true kid). pose proof (quote_len true (le_hash r)).
  pose proof (quote_len true (le_line r)). pose proof (quote_len true now).
  lia.
Qed.


(** *** Its size *)
Lemma list_max_cons x l : list_max (x :: l) = Nat.max x (list_max l).
Proof. done. Qed.

Lemma depth_height v : forall n, depth n v = (n + height v)%nat.
Proof.
  assert (forall (A : Type) (f g : A -> nat) n l, l <> [] -> Forall (fun x => f x = (S n + g x)%nat) l ->
    list_max (map f l) = (n + list_max (map (fun x => S (g x)) l))%nat) as M.
  { intros A f g n l Hl F. induction F as [|x l Hx F IH]; [done|]. cbn [map]. rewrite !list_max_cons, Hx.
    destruct l as [|y l]; [cbn; lia|]. rewrite IH by done. lia. }
  induction v as [| b | z | f | t | b | t | l IH | l IH | d IH] using value_nested_ind; intros n; cbn [depth height]; try lia.
  - destruct l as [|x l]; [cbn; lia|]. apply M; [done|]. eapply Forall_impl; [exact IH|]. intros y Hy. apply Hy.
  - destruct l as [|x l]; [cbn; lia|]. apply M; [done|]. eapply Forall_impl; [exact IH|]. intros y Hy. apply Hy.
  - destruct d as [|x d]; [cbn; lia|]. apply (M _ (fun kv => depth (S n) kv.2) (fun kv => height kv.2)); [done|].
    eapply Forall_impl; [exact IH|]. intros y Hy. apply Hy.
Qed.

Lemma id_match_ascii x : id_match x = true -> forallb is_ascii x = true.
Proof.
  intros (c & body & Hc & Hb & _ & E)%id_match_shape. assert (forall y, is_id_char y = true -> is_ascii y = true) as I.
  { intros y Hy. unfold is_id_char, is_alnum, is_digit, is_ascii in *. repeat (apply orb_true_iff in Hy as [Hy|Hy]; bool_prop); zdec; done. }
  assert (is_ascii c = true) as Hc' by (apply I; unfold is_id_char; by rewrite Hc).
  assert (forallb is_ascii body = true) as Hb' by (rewrite forallb_forall in *; auto).
  destruct E as [-> | ->]; cbn [forallb]; rewrite Hc', ?forallb_app, Hb'; done.
Qed.

Lemma hash_match_len h : hash_match h = true -> zlen h <= 65.
Proof.
  unfold hash_match. intros H. bool_prop. rewrite <- (take_drop 64 h), zlen_app.
  assert (zlen (take 64 h) <= 64) by (unfold zlen; rewrite length_take; lia).
  rename select (dollar _ = true) into D. unfold dollar in D. destruct (drop 64 h) as [|c [|c' r]]; rewrite ?zlen_nil, ?zlen_cons, ?zlen_nil; try lia.
  exfalso. destruct c as [|q|q]; try done. by do 4 (destruct q as [q|q|]; try done).
Qed.

Lemma b64_len b : 3 * zlen (b64encode b) <= 4 * zlen b + 8.
Proof.
  revert b. fix IH 1. intros [|x [|y [|z r]]]; [clear IH; by compute | clear IH; by compute | clear IH; by compute |].
  cbn [b64encode]. rewrite !zlen_cons. pose proof (IH r). lia.
Qed.

(** A short ASCII text or a sequence number. *)
Definition small (v : value) : Prop :=
  match v with
  | VStr x => forallb is_ascii x = true /\ zlen x <= 129
  | VInt z => 1 <= z <= MAX_SEQUENCE
  | _ => False
  end.

Lemma str_in_small x l : str_in x l = true -> forallb (fun y => forallb is_ascii y && (zlen y <=? 129)) l = true -> small (VStr x).
Proof. intros H%str_in_elem F. apply forallb_Forall in F. rewrite Forall_forall in F. specialize (F x H). cbn. by bool_prop. Qed.

Lemma identifier_small x y : validate_identifier (VStr x) = Ok y -> small (VStr x).
Proof. intros ([= <-] & Hm & Hl)%validate_identifier_inv. split; [by apply id_match_ascii | unfold MAX_NODE_ID_LENGTH in Hl; lia]. Qed.

(** What a signed record's fields are bounded by. *)
Record bounded (e : SignedEvent) : Prop := {
  bd_small : Forall (fun kv => small kv.2) (without [lit "event"; lit "signature"] (to_items e));
  bd_signature : forallb plain (se_signature e) = true /\ zlen (se_signature e) <= 6269;
  bd_event : acceptable (VDict (se_event e)) = true /\ (height (VDict (se_event e)) <= 15)%nat /\
    exists b, canonical_bytes (VDict (se_event e)) = Ok b /\ zlen b <= MAX_EVENT_BYTES;
}.

Lemma bounded_all (P : value -> Prop) e : bounded e -> (forall v, small v -> P v) -> P (VStr (se_signature e)) ->
  P (VDict (se_event e)) -> Forall (fun kv => P kv.2) (to_items e).
Proof.
  intros [F _ _] Hs Hg He. unfold without, to_items in F. cbn [List.filter] in F. cbn [str_in existsb negb fst] in F.
  repeat match type of F with context [if ?b then _ else _] => let x := eval vm_compute in b in change b with x in F; cbv iota in F end.
  unfold to_items. repeat (apply Forall_cons in F as [?H F]). repeat apply Forall_cons_2; cbn [snd] in *; auto.
Qed.

Lemma item_keys e : Forall (fun kv => str_ok kv.1 = true /\ zlen kv.1 <= 20) (to_items e).
Proof.
  assert (Forall (fun k => str_ok k = true /\ zlen k <= 20) (map fst (to_items e))) as F; [|by rewrite Forall_map in F].
  rewrite to_items_keys. apply (Forall_impl (fun k => str_ok k && (zlen k <=? 20) = true)); [|intros k Hk; by bool_prop].
  apply forallb_Forall. by vm_compute.
Qed.

Lemma bounded_acceptable e : bounded e -> acceptable (to_dict e) = true.
Proof.
  intros Hb. pose proof Hb as [_ [G1 G2] (E1 & E2 & _)]. apply plain_ascii in G1. apply acceptable_spec in E1 as (W & _ & Sh).
  assert (Forall (fun kv => wf kv.2 = true /\ (height kv.2 <= 15)%nat /\ strings_short kv.2 = true) (to_items e)) as F.
  { apply (bounded_all (fun v => wf v = true /\ (height v <= 15)%nat /\ strings_short v = true) e Hb); [| |done].
    - intros [| |z| |x| | | | |] Hv; try done.
      + cbn in *. unfold MAX_SEQUENCE in Hv. pose proof limit_large. split; [|split; [lia | done]]. apply Z.ltb_lt. lia.
      + destruct Hv as [H1 H2]. split; [by apply ascii_scalar|]. split; [cbn; lia|]. apply Z.leb_le. unfold MAX_STRING_LENGTH. lia.
    - split; [by apply ascii_scalar|]. split; [cbn; lia|]. apply Z.leb_le. unfold MAX_STRING_LENGTH. lia. }
  pose proof (item_keys e) as K. apply acceptable_spec. split; [|split].
  - apply wf_dict. rewrite as_dict_keys. split; [|apply envelope_fields_nodup]. unfold as_dict. apply Forall_map.
    eapply Forall_impl; [apply (proj2 (Forall_and _ _) (conj F K))|]. cbn. by intros kv [(? & _) [? _]].
  - cbn [height to_dict]. unfold as_dict. rewrite map_map. cbn [snd]. apply list_max_le_all.
    eapply Forall_impl; [exact F|]. cbn. unfold MAX_DEPTH. intros kv (_ & ? & _). lia.
  - cbn [strings_short to_dict]. apply forallb_Forall. unfold as_dict. apply Forall_map.
    eapply Forall_impl; [apply (proj2 (Forall_and _ _) (conj F K))|]. cbn. intros kv [(_ & _ & ->) [_ ?]].
    apply andb_true_iff. split; [|done]. apply Z.leb_le. unfold MAX_STRING_LENGTH. lia.
Qed.

(** *** The size of the printed record, in bytes *)
Lemma enc_ascii x : forallb is_ascii x = true -> zlen (enc x) = zlen x.
Proof. intros H. apply utf8_encode_ascii, utf8_encode_ok in H as [_ H]. unfold enc. by rewrite <- H. Qed.

Lemma esc1_small c : is_ascii c = true -> forallb is_ascii (esc1 false c) = true /\ zlen (esc1 false c) <= 6.
Proof.
  intros H. unfold is_ascii in H. bool_prop. split.
  - apply forallb_Forall. eapply Forall_impl; [apply esc1_print; apply is_scalar_spec; lia|].
    cbv beta. unfold is_ascii. intros y [?|(_ & -> & _)]; by zdec.
  - unfold esc1. repeat (case_match; [unfold zlen; simpl; lia|]). simpl in *. discriminate.
Qed.

Lemma quote_small x : forallb is_ascii x = true -> zlen (enc (quote false x)) <= 6 * zlen x + 2.
Proof.
  intros H. unfold quote. change (34 :: concat (map (esc1 false) x) ++ [34]) with ([34] ++ concat (map (esc1 false) x) ++ [34]).
  rewrite !enc_app, !zlen_app. change (zlen (enc [34])) with 1.
  enough (zlen (enc (concat (map (esc1 false) x))) <= 6 * zlen x) by lia.
  induction x as [|c x IH]; [done|]. cbn [forallb map concat] in *. apply andb_true_iff in H as [Hc H].
  destruct (esc1_small c Hc) as [A L]. rewrite enc_app, zlen_app, zlen_cons, (enc_ascii _ A). specialize (IH H). lia.
Qed.

Lemma quote_plain a x : forallb plain x = true -> quote a x = 34 :: x ++ [34].
Proof.
  intros H. unfold quote. f_equal. f_equal. induction x as [|c x IH]; [done|]. cbn [forallb map concat] in *.
  apply andb_true_iff in H as [Hc H]. rewrite (IH H). unfold plain in Hc. bool_prop. unfold esc1.
  repeat (rewrite (proj2 (Z.eqb_neq _ _)) by lia). rewrite (proj2 (Z.ltb_ge c 32)), (proj2 (Z.ltb_lt c 127)), orb_true_r by lia. done.
Qed.

Lemma sum_perm {A} (f : A -> Z) l l' : l ≡ₚ l' -> foldr (fun x n => f x + n) 0 l = foldr (fun x n => f x + n) 0 l'.
Proof. induction 1; cbn [foldr] in *; lia. Qed.

Lemma join_enc sep l : zlen (enc (join sep l)) <= foldr (fun x n => (zlen (enc x) + zlen (enc sep)) + n) 0 l.
Proof.
  induction l as [|x [|y l] IH]; [done| |].
  - cbn [join foldr]. pose proof (zlen_nonneg (enc sep)). lia.
  - cbn [join foldr] in *. rewrite !enc_app, !zlen_app. lia.
Qed.

(** Without indentation the nesting level does not show. *)
Lemma dump_compact c (Hc : c_indent c = None) v : forall n m, dump c n v = dump c m v.
Proof.
  assert (forall n m op cl items, wrap c n op cl items = wrap c m op cl items) as W by (intros; unfold wrap, nl; by rewrite Hc).
  induction v as [| b | z | f | t | b | t | l IH | l IH | d IH] using value_nested_ind; intros n m; try done; cbn [dump]; rewrite (W n m).
  - f_equal. apply map_ext_Forall. eapply Forall_impl; [exact IH|]. auto.
  - f_equal. apply map_ext_Forall. eapply Forall_impl; [exact IH|]. auto.
  - f_equal. f_equal. assert (map (fun kv : key * value => (kstr kv.1, dump c (S n) kv.2)) d = map (fun kv => (kstr kv.1, dump c (S m) kv.2)) d) as ->; [|done].
    apply map_ext_Forall. eapply Forall_impl; [exact IH|]. intros kv Hkv. f_equal. apply Hkv.
Qed.

Lemma member_size k t B : forallb is_ascii (lit k) = true -> zlen (lit k) <= 20 -> zlen (enc t) <= B ->
  zlen (enc (member canonical_cfg (lit k, t))) <= 123 + B.
Proof.
  intros Ha Hk Ht. unfold member. cbn [fst snd c_ascii c_ksep canonical_cfg]. rewrite !enc_app, !zlen_app.
  pose proof (quote_small _ Ha). change (zlen (enc [58])) with 1. lia.
Qed.

Lemma small_size v : small v -> zlen (enc (dump canonical_cfg 1 v)) <= 776.
Proof.
  destruct v as [| |z| |x| | | | |]; try done; intros H.
  - cbn [dump small] in *. assert (int_text z = dec_digits z) as -> by (unfold int_text; by replace (z <? 0) with false by (symmetry; apply Z.ltb_ge; lia)).
    destruct (dec_digits_spec z) as (d & ds & E & F & _); [lia|]. rewrite enc_ascii.
    + assert (zlen (dec_digits z) <= 20); [|lia]. apply dec_digits_len_pow; [lia|]. unfold MAX_SEQUENCE in H. lia.
    + rewrite E. apply (digits_chars is_ascii is_ascii_print). exact F.
  - destruct H as [H1 H2]. cbn [dump c_ascii canonical_cfg]. pose proof (quote_small x H1). lia.
Qed.

Lemma record_size e : bounded e -> zlen (enc (dump canonical_cfg 0 (to_dict e))) <= 86000.
Proof.
  intros [F [G1 G2] (E1 & _ & b & Eb & Hb)]. rewrite canonical_bytes_acceptable in Eb by done.
  assert (enc (dump canonical_cfg 0 (VDict (se_event e))) = b) as Eb' by (unfold enc; congruence).
  assert (zlen (enc (dump canonical_cfg 1 (VDict (se_event e)))) <= 65536) as He.
  { unfold MAX_EVENT_BYTES in Hb. by rewrite (dump_compact canonical_cfg eq_refl _ 1 0), Eb'. }
  assert (zlen (enc (dump canonical_cfg 1 (VStr (se_signature e)))) <= 6271) as Hg.
  { cbn [dump c_ascii canonical_cfg]. rewrite (quote_plain false _ G1), enc_ascii; [rewrite zlen_cons, zlen_app; change (zlen [34]) with 1; lia|].
    cbn [forallb]. rewrite forallb_app, (plain_ascii _ G1). done. }
  unfold without, to_items in F. cbn [List.filter] in F. cbn [str_in existsb negb fst] in F.
  repeat match type of F with context [if ?b then _ else _] => let x := eval vm_compute in b in change b with x in F; cbv iota in F end.
  unfold to_dict. cbn [dump]. rewrite wrap_shape. unfold nl. cbn [c_indent c_isep canonical_cfg c_sort].
  match goal with |- context [map (member _) (sort_kv ?l)] => set (items := l) end.
  assert (zlen (enc (join [44] (map (member canonical_cfg) (sort_kv items)))) <= 85998) as J.
  { etransitivity; [apply join_enc|]. rewrite (sum_perm _ _ _ (Permutation_map (member canonical_cfg) (sort_kv_perm items))).
    repeat (apply Forall_cons in F as [?F F]). cbn [snd] in *.
    subst items. unfold to_items, as_dict. cbn [map foldr fst snd kstr]. change (zlen (enc [44])) with 1.
    repeat match goal with H : small _ |- _ => apply small_size in H end.
    repeat match goal with H : zlen (enc ?t) <= ?B |- context [member canonical_cfg (lit ?k, ?t)] =>
      pose proof (member_size k t B eq_refl ltac:(by compute) H); clear H end.
    lia. }
  match goal with |- zlen (enc (_ :: match ?l with _ => _ end)) <= _ => destruct l eqn:El end.
  - change (zlen (enc [123; 125]) <= 86000). by compute.
  - cbn [app].
    assert (forall x y, enc (123 :: x ++ y) = enc [123] ++ enc x ++ enc y) as -> by (intros; by rewrite <- !enc_app).
    rewrite !zlen_app.
    change (zlen (enc [123])) with 1. change (zlen (enc [125])) with 1. lia.
Qed.

(** The line of a record, and its log entry. *)
Definition line_of (e : SignedEvent) : str := dump canonical_cfg 0 (to_dict e).
Definition entry_of (e : SignedEvent) : LogEntry := {| le_line := line_of e; le_hash := se_event_hash e |}.

Lemma line_shape e : exists l, line_of e = 123 :: l ++ [125].
Proof. unfold line_of, to_dict. cbn [dump]. rewrite wrap_shape. destruct (map _ _) as [|i l]; [by exists []|]. rewrite !app_assoc. by eexists. Qed.

Lemma line_strip e : strip (line_of e) = line_of e.
Proof. destruct (line_shape e) as [l ->]. by apply strip_id. Qed.

