(* ===== verification/Signer.v ===== *)
(** Signing events into the evidence log: [src/ics_deception/pqc_evidence/signer.py].

    A transaction builds the envelope inside the store's lock, hashes it, signs it and lets
    the store append it.  The lock time-out appears as what the polls of the lock find
    ([freed]); [clock i] is the wall clock at the [i]-th event of a batch. *)
From S2P Require Import Prelude PyText Json JsonFacts JsonScan Hashes IsoTime Canonicalizer Models CryptoBackend EventChain KeyRegistry Verifier Collector StateStore EvidenceStore RecordFacts.

(** ** The private key's file: its permission bits and its content *)
(** Modes are octal in the source: [0x180] is [0o600], [0x3F] is [0o077]. *)
Abbreviation key_file := (option (Z * bytes)).

(** The writing of a new file: it completes, or fails with [n] bytes on the disk. *)
Definition write_private_key (f : key_file) (k : KeyPair) (o : io) : key_file * res unit :=
  match f with
  | Some _ => (f, Err (SignerError "refusing to overwrite the existing private key"))
  | None => (Some (0x180, written [] (kp_private k) o),
             try_with (io_result o "key") (fun e =>
               if as_os_error e then Err (SignerError "cannot write private key") else Err e))
  end.

(** [stat.S_IRWXG | stat.S_IRWXO] *)
Definition load_private_key (f : key_file) (require_strict_permissions : bool) : res bytes :=
  match f with
  | None => Err (SignerError "private key not found")
  | Some (mode, data) =>
    if require_strict_permissions && negb (Z.land mode 0x3F =? 0)
    then Err (SignerError "private key is group/world accessible")
    else if bool_decide (data = []) then Err (SignerError "private key is empty") else Ok data
  end.

(** ** The signer *)
Record SigningReport := {
  sg_signed : Z;
  sg_skipped : Z;
  sg_errors : Z;
  sg_first_sequence : option Z;
  sg_last_sequence : option Z;
}.

Record EvidenceSigner := {
  sn_node_id : str;
  sn_key_id : str;
  sn_private_key : bytes;
  sn_algorithm : str;
  sn_hash_algorithm : str;
  sn_backend : CryptoBackend;
  sn_real_pqc : bool;
}.

Section Signer.
Context (env : Environ) (backends : list (str * CryptoBackend)).

(** [__init__]; [positive_timeout]: [lock_timeout > 0]. *)
Definition new_signer (node_id key_id : str) (private_key : bytes) (backend : option CryptoBackend)
    (algorithm hash_algorithm : str) (positive_timeout : bool) : res EvidenceSigner :=
  require (negb (bool_decide (private_key = []))) (SignerError "private key must not be empty") ;;
  require positive_timeout (SignerError "lock_timeout must be greater than zero") ;;
  b ← match backend with
      | Some b => Ok b
      | None => select_backend env backends None algorithm false None (Some private_key)
      end;
  let real := cap_real_pqc (bk_capabilities b) in
  require (negb (starts_with TEST_KEY_MARKER private_key && real))
    (SignerError "test key under a real backend") ;;
  Ok {| sn_node_id := node_id; sn_key_id := key_id; sn_private_key := private_key; sn_algorithm := algorithm;
        sn_hash_algorithm := hash_algorithm; sn_backend := b; sn_real_pqc := real |}.

Definition signer_store (s : EvidenceSigner) : EvidenceStore := open_store (sn_node_id s) (sn_key_id s).

(** [except BackendError: raise / except Exception as exc: raise SignerError(...)] *)
Definition as_signer_error {A} (m : res A) : res A :=
  try_with m (fun e => if is_backend_error e then Err e else Err (SignerError "signing failed")).

Definition build_and_sign (s : EvidenceSigner) (event : dict) (timestamp : str) (sequence : Z) (previous_hash : str)
    : res SignedEvent :=
  envelope ← build_unsigned (VStr (sn_node_id s)) (VInt sequence) (VStr timestamp) (VStr previous_hash)
    (VDict event) (VStr (sn_key_id s)) (sn_algorithm s) (sn_hash_algorithm s) EVIDENCE_FORMAT_VERSION;
  hash ← compute_event_hash envelope;
  let envelope := with_event_hash envelope hash in
  raw ← as_signer_error (payload ← signing_payload envelope;
                         bk_sign (sn_backend s) (sn_private_key s) payload (sn_algorithm s));
  require (negb (bool_decide (raw = []))) (SignerError "backend returned an empty signature") ;;
  Ok (with_signature envelope (b64encode raw) raw).

Section Store.
Context (lim : nat) (py_str : value -> str) (py_int : value -> res Z) (now : str).

(** The inner [build_and_sign]: the line and the hash of the record it produces. *)
Definition produce (s : EvidenceSigner) (event : dict) (timestamp : str) (sequence : Z) (previous_hash : str)
    : res (str * str) :=
  record ← build_and_sign s event timestamp sequence previous_hash;
  line ← to_json_line record;
  Ok (line, se_event_hash record).

(** [_transact].  [produced] is what the closure has left behind: the record built for the
    committed position, which is read - and cached - before the transaction starts. *)
Definition transact (s : EvidenceSigner) (event : dict) (timestamp : str) (f : Faults) : StoreM SignedEvent :=
  state ← read_state lim py_str;
  store ← gets snd;
  '(sequence, _) ← append_signed lim py_str now (produce s event timestamp) (sn_key_id s) f;
  previous ← lift (expected_previous_hash (es_node_id store) sequence (ns_last_event_hash state));
  lift (build_and_sign s event timestamp sequence previous).

(** [sign_event], on a store of its own. *)
Definition sign_event (freed : list bool) (s : EvidenceSigner) (event : dict) (timestamp : option str) (iso_now : str)
    (f : Faults) (d : Disk) : Disk * res SignedEvent :=
  let moment := match timestamp with Some (c :: t) => c :: t | _ => iso_now end in
  let '((d', _), r) := with_store lim py_str py_int now freed (transact s event moment f) (d, signer_store s) in
  (d', r).

(** [sign_events]: what the generator yields, and the exception that ends it early. *)
Fixpoint sign_each (clock : nat -> str) (i : nat) (s : EvidenceSigner) (events : list dict)
    (st : Disk * EvidenceStore) : (Disk * EvidenceStore) * (list SignedEvent * option exn) :=
  match events with
  | [] => (st, ([], None))
  | event :: events =>
    match transact s event (clock i) no_faults st with
    | (st, Err e) => (st, ([], Some e))
    | (st, Ok record) =>
      let '(st, (records, stop)) := sign_each clock (S i) s events st in (st, (record :: records, stop))
    end
  end.

Definition sign_events (freed : list bool) (clock : nat -> str) (s : EvidenceSigner) (events : list dict) (d : Disk)
    : Disk * (list SignedEvent * option exn) :=
  match enter lim py_str py_int now freed (d, signer_store s) with
  | (st, Err e) => (st.1, ([], Some e))
  | (st, Ok _) => let '(st, out) := sign_each clock 0 s events st in ((release st).1.1, out)
  end.

Definition count_skipped (r : SigningReport) : SigningReport := {|
  sg_signed := sg_signed r; sg_skipped := sg_skipped r + 1; sg_errors := sg_errors r;
  sg_first_sequence := sg_first_sequence r; sg_last_sequence := sg_last_sequence r |}.
Definition count_error (r : SigningReport) : SigningReport := {|
  sg_signed := sg_signed r; sg_skipped := sg_skipped r; sg_errors := sg_errors r + 1;
  sg_first_sequence := sg_first_sequence r; sg_last_sequence := sg_last_sequence r |}.
Definition count_signed (n : Z) (r : SigningReport) : SigningReport := {|
  sg_signed := sg_signed r + 1; sg_skipped := sg_skipped r; sg_errors := sg_errors r;
  sg_first_sequence := match sg_first_sequence r with None => Some n | x => x end; sg_last_sequence := Some n |}.

(** The loop of [sign_log]: the generator over the lines and the signing interleaved.  [count]
    events have been taken so far; [stop] is what reading the line after the last raises. *)
Fixpoint sign_lines (clock : nat -> str) (s : EvidenceSigner) (max_events : option Z) (source : list str) (stop : option exn)
    (count : nat) (r : SigningReport) : StoreM SigningReport :=
  match source with
  | [] => match stop with Some e => raise e | None => mret r end
  | line :: source =>
    let text := strip line in
    if bool_decide (text = []) then sign_lines clock s max_events source stop count (count_skipped r)
    else if match max_events with Some m => m <=? Z.of_nat count | None => false end then mret r
    else match loads default_hooks lim text with
    | Ok (VDict event) =>
      record ← transact s event (clock count) no_faults;
      sign_lines clock s max_events source stop (S count) (count_signed (se_sequence record) r)
    | Ok _ | Err (JSONDecodeError | ValueError _) => sign_lines clock s max_events source stop count (count_error r)
    | Err e => raise e
    end
  end.

Definition blank_signing : SigningReport := {|
  sg_signed := 0; sg_skipped := 0; sg_errors := 0; sg_first_sequence := None; sg_last_sequence := None |}.

Definition sign_log (freed : list bool) (clock : nat -> str) (s : EvidenceSigner) (source : list str) (stop : option exn)
    (max_events : option Z) (d : Disk) : Disk * res SigningReport :=
  let '((d', _), r) := with_store lim py_str py_int now freed
    (sign_lines clock s max_events source stop 0 blank_signing) (d, signer_store s) in
  (d', r).

Definition signer_status (freed : list bool) (s : EvidenceSigner) (d : Disk) : Disk * res StoreStatus :=
  let '((d', _), r) := with_store lim py_str py_int now freed (status lim py_str) (d, signer_store s) in (d', r).

(** [contextlib.suppress(Exception)]: everything but a dying process. *)
Definition suppress {A} (m : StoreM A) : StoreM unit :=
  se_try (m ;; mret tt) (fun e => match e with Crash _ => raise e | _ => mret tt end).

Definition repair_state_from_log (freed : list bool) (s : EvidenceSigner) (d : Disk) : Disk * res value :=
  let '((d', _), r) := (acquire freed ;;
    finally_release (
      suppress (recover lim py_str py_int now) ;;
      repaired ← repair_from_log lim py_str py_int now;
      mret (state_to_dict repaired now))) (d, signer_store s) in
  (d', r).
End Store.
End Signer.


(** ** Facts: what the signer produces *)
(** What one signing run builds. *)
Record signed_as (s : EvidenceSigner) (event : dict) (n : Z) (p : str) (e : SignedEvent) : Prop := {
  sa_node : se_node_id e = sn_node_id s;
  sa_sequence : se_sequence e = n;
  sa_previous : se_previous_event_hash e = p;
  sa_event : se_event e = event;
  sa_key : se_key_id e = sn_key_id s;
  sa_algorithm : se_signature_algorithm e = sn_algorithm s;
  sa_hash : compute_event_hash e = Ok (se_event_hash e);
  sa_signature : exists payload, signing_payload e = Ok payload /\
    bk_sign (sn_backend s) (sn_private_key s) payload (sn_algorithm s) = Ok (se_signature_bytes e);
}.

Lemma as_signer_error_ok {A} (m : res A) a : as_signer_error m = Ok a <-> m = Ok a.
Proof. unfold as_signer_error. destruct m as [x|x]; simpl; [done|]. by destruct (is_backend_error x). Qed.

Lemma build_unsigned_inv node n ts p event key alg halg version e :
  build_unsigned (VStr node) (VInt n) (VStr ts) (VStr p) (VDict event) (VStr key) alg halg version = Ok e ->
  str_in version SUPPORTED_FORMAT_VERSIONS = true /\ str_in alg SUPPORTED_SIGNATURE_ALGORITHMS = true /\
  str_in halg SUPPORTED_HASH_ALGORITHMS = true /\ normalize_timestamp (VStr ts) = Ok (se_timestamp e) /\
  validate_identifier (VStr node) = Ok node /\ validate_sequence (VInt n) = Ok n /\ validate_hash (VStr p) = Ok p /\
  validate_event (VDict event) = Ok event /\ validate_identifier (VStr key) = Ok key /\
  e = {| se_format_version := version; se_node_id := node; se_sequence := n; se_timestamp := se_timestamp e;
         se_previous_event_hash := p; se_event_hash := ZERO_HASH; se_event := event; se_signature_algorithm := alg;
         se_hash_algorithm := halg; se_key_id := key; se_signature := []; se_signature_bytes := [] |}.
Proof.
  unfold build_unsigned. intros H. unfold require_as, require in H.
  destruct (str_in version _); [|discriminate H]. destruct (str_in alg _); [|discriminate H].
  destruct (str_in halg _); [|discriminate H]. cbn [mbind res_bind] in H.
  apply bind_ok in H as (t & Ht & (n1 & H1 & (n2 & H2 & (n3 & H3 & (n4 & H4 & (n5 & H5 & [= <-])%bind_ok)%bind_ok)%bind_ok)%bind_ok)%bind_ok).
  apply (proj1 (recanon_ok _ _)) in Ht. pose proof (validate_identifier_inv _ _ H1) as [[= <-] _]. pose proof (validate_sequence_inv _ _ H2) as [[= <-] _].
  pose proof (validate_hash_inv _ _ H3) as [[= <-] _]. pose proof (validate_event_inv _ _ H4) as [[= <-] _].
  pose proof (validate_identifier_inv _ _ H5) as [[= <-] _]. split_and!; first [reflexivity | assumption].
Qed.

Lemma build_and_sign_inv s event ts n p e : build_and_sign s event ts n p = Ok e ->
  signed_as s event n p e /\ normalize_timestamp (VStr ts) = Ok (se_timestamp e) /\
  str_in (se_format_version e) SUPPORTED_FORMAT_VERSIONS = true /\
  str_in (se_signature_algorithm e) SUPPORTED_SIGNATURE_ALGORITHMS = true /\
  str_in (se_hash_algorithm e) SUPPORTED_HASH_ALGORITHMS = true /\
  validate_identifier (VStr (se_node_id e)) = Ok (se_node_id e) /\ validate_sequence (VInt n) = Ok n /\
  validate_hash (VStr p) = Ok p /\ validate_event (VDict event) = Ok event /\
  validate_identifier (VStr (se_key_id e)) = Ok (se_key_id e) /\
  se_signature e = b64encode (se_signature_bytes e) /\ se_signature_bytes e <> [] /\
  exists m, se_event_hash e = hash_hex m.
Proof.
  unfold build_and_sign. intros H. apply bind_ok in H as (u & Hb & H).
  apply build_unsigned_inv in Hb as (V1 & V2 & V3 & Ht & V4 & V5 & V6 & V7 & V8 & E).
  apply bind_ok in H as (h & Hh & H). cbv zeta in H. apply bind_ok in H as (raw & Hs & H).
  apply (proj1 (as_signer_error_ok _ _)), bind_ok in Hs as (payload & Hp & Hs). apply bind_ok in H as ([] & Hr & [= <-]).
  unfold require in Hr. case_bool_decide as Hne; [discriminate Hr|]. clear Hr. rewrite E in Hh, Hp |- *. cbn in V1, V2, V3, V4, V8 |- *.
  assert (exists m, h = hash_hex m) as Hm by (unfold compute_event_hash in Hh; apply bind_ok in Hh as (m & _ & [= <-]); by exists m).
  split; [split; [reflexivity.. | exact Hh | exists payload; split; [exact Hp | exact Hs]]|]. by split_and!.
Qed.

Section SignerFacts.
Context (s : EvidenceSigner) (Hnode : name_ok (sn_node_id s) = true) (Hkey : name_ok (sn_key_id s) = true).

Lemma signed_event_ok event ts n p e : build_and_sign s event ts n p = Ok e ->
  length (se_timestamp e) = 27%nat -> Bytes (se_signature_bytes e) -> event_ok e.
Proof.
  intros (A & Ht & V1 & V2 & V3 & V4 & V5 & V6 & V7 & V8 & Es & Hne & m & Hm)%build_and_sign_inv L B.
  pose proof (normalize_strftime _ _ Ht) as (u & Hu & Eu).
  split; try done.
  - by rewrite (sa_sequence _ _ _ _ _ A).
  - rewrite Eu in *. by apply normalize_text.
  - by rewrite (sa_previous _ _ _ _ _ A).
  - rewrite Hm. apply hash_hex_valid.
  - by rewrite (sa_event _ _ _ _ _ A).
  - pose proof (b64decode_encode _ B) as D. assert (b64encode (se_signature_bytes e) <> []) as N
      by (intros E; rewrite E in D; assert (b64decode [] = Ok []) by done; congruence).
    rewrite Es. unfold validate_signature, require_, require. rewrite bool_decide_eq_false_2 by done.
    cbn [negb mbind res_bind]. rewrite D. cbn [try_with mbind res_bind]. by rewrite bool_decide_eq_false_2.
Qed.

Lemma signed_bounded event ts n p e : build_and_sign s event ts n p = Ok e -> pyval (VDict event) = true ->
  length (se_timestamp e) = 27%nat -> Bytes (se_signature_bytes e) -> zlen (se_signature_bytes e) <= 4700 -> bounded e.
Proof.
  intros (A & Ht & V1 & V2 & V3 & V4 & V5 & V6 & V7 & V8 & Es & Hne & m & Hm)%build_and_sign_inv Hp L B Hz.
  pose proof (normalize_strftime _ _ Ht) as (u & Hu & Eu). apply validate_hash_inv in V6 as [_ V6]. apply validate_sequence_inv in V5 as [_ V5].
  split.
  - unfold without, to_items. cbn [List.filter]. cbn [str_in existsb negb fst].
    repeat match goal with |- context [if ?b then _ else _] => let x := eval vm_compute in b in change b with x; cbv iota end.
    repeat apply Forall_cons_2; [..|constructor]; cbn [snd].
    + by apply (str_in_small _ _ V1).
    + by apply (identifier_small _ _ V4).
    + by rewrite (sa_sequence _ _ _ _ _ A).
    + split; [rewrite Eu in *; by apply strftime_ascii | unfold zlen; rewrite L; lia].
    + rewrite (sa_previous _ _ _ _ _ A). split; [by apply hash_match_ascii | apply hash_match_len in V6; lia].
    + rewrite Hm. destruct (hash_hex_spec m) as [Lh Fh]. split; [by apply hex_ascii | unfold zlen; rewrite Lh; lia].
    + by apply (str_in_small _ _ V2).
    + by apply (str_in_small _ _ V3).
    + by apply (identifier_small _ _ V8).
  - rewrite Es. split; [by apply b64encode_plain|]. pose proof (b64_len (se_signature_bytes e)). lia.
  - rewrite (sa_event _ _ _ _ _ A). apply validate_event_inv in V7 as (_ & b & Hb & Hs & Hd). rewrite depth_height in Hd.
    split; [by apply (canonical_bytes_inv _ b)|]. unfold MAX_EVENT_DEPTH in Hd. split; [lia | by exists b].
Qed.


Lemma line_logged lim event ts n p e b : build_and_sign s event ts n p = Ok e -> pyval (to_dict e) = true ->
  canonical_bytes (to_dict e) = Ok b -> (S MAX_DEPTH <= lim)%nat -> logged lim (sn_node_id s) n (entry_of e).
Proof.
  intros Hb Hp Hc Hl. destruct (json_line_text e b Hp Hc) as (Hw & Hn & _ & U & D).
  apply build_and_sign_inv in Hb as (A & Hb). split; cbn [le_line le_hash entry_of].
  - by apply dump_str_ok.
  - pose proof (dump_printable _ Hw 0) as P. unfold one_line, line_of. rewrite forallb_forall in *. intros x Hx.
    specialize (P x Hx). bool_prop. apply negb_true_iff, orb_false_iff. rewrite !Z.eqb_neq. lia.
  - rewrite line_strip. by destruct (line_shape e) as [l ->].
  - destruct Hb as (_ & _ & _ & _ & _ & _ & _ & _ & _ & _ & _ & m & ->). destruct (hash_hex_spec m) as [L F]. split; [|done].
    unfold zlen. by rewrite L.
  - exists (normal true (to_dict e)), (as_dict (sorted_items e (normal true (VDict (se_event e))))).
    rewrite line_strip. unfold line_of. rewrite (loads_dump canonical_cfg default_hooks) by (done || lia).
    split; [done|]. rewrite normal_to_dict. split; [|split].
    + unfold log_record.
      change (get_or (as_dict (sorted_items e (normal true (VDict (se_event e))))) "node_id" VNone) with (VStr (se_node_id e)).
      rewrite (sa_node _ _ _ _ _ A). cbv iota.
      change (get_or (as_dict (sorted_items e (normal true (VDict (se_event e))))) "sequence" VNone) with (VInt (se_sequence e)).
      change (get_or (as_dict (sorted_items e (normal true (VDict (se_event e))))) "event_hash" VNone) with (VStr (se_event_hash e)).
      cbv iota. by rewrite str_eqb_refl.
    + change (VInt (se_sequence e) = VInt n). by rewrite (sa_sequence _ _ _ _ _ A).
    + reflexivity.
Qed.

(** *** The verifier's side *)
Section Trusted.
Context (env : Environ) (backends : list (str * CryptoBackend)) (v : EvidenceVerifier).

(** The registry holds the signer's public key, and signatures made with the private key
    verify under it: the backend's documented behaviour. *)
Record trusted : Prop := {
  tr_pair : exists record public_key backend,
    get (ev_registry v) (sn_key_id s) = Some record /\ public_key_bytes record = Ok public_key /\
    backend_for env backends v (sn_algorithm s) = Ok backend /\
    forall message signature, bk_sign (sn_backend s) (sn_private_key s) message (sn_algorithm s) = Ok signature ->
      Bytes signature /\ zlen signature <= 4700 /\ bk_verify backend public_key message signature (sn_algorithm s) = Ok true;
}.

(** The registry lets the key sign at the record's time; the time has a four-digit year. *)
Record fine (e : SignedEvent) : Prop := {
  fi_usable : check_usable (ev_registry v) (sn_key_id s) (sn_node_id s) (se_timestamp e) (sn_algorithm s) =
    Ok {| usable := true; problems := [] |};
  fi_year : length (se_timestamp e) = 27%nat;
}.

(** A signed record has a printed form, within every limit. *)
Lemma signed_prints event ts n p e : trusted -> build_and_sign s event ts n p = Ok e -> fine e -> pyval (VDict event) = true ->
  Bytes (se_signature_bytes e) /\ pyval (to_dict e) = true /\ exists b, canonical_bytes (to_dict e) = Ok b /\ zlen b <= 86000.
Proof.
  intros [(rec & pk & b & _ & _ & _ & H)] Hb F Hp. pose proof (build_and_sign_inv _ _ _ _ _ _ Hb) as (A & _).
  destruct (sa_signature _ _ _ _ _ A) as (m & _ & Hs). destruct (H m _ Hs) as (B & Hz & _).
  pose proof (signed_bounded event ts n p e Hb Hp (fi_year e F) B Hz) as K. pose proof (bounded_acceptable e K) as Ha.
  split; [done|]. split; [apply acceptable_spec in Ha as [W _]; by apply wf_pyval|].
  eexists. split; [by apply canonical_bytes_acceptable | by apply record_size].
Qed.

Lemma signed_sound event ts n p e : trusted -> build_and_sign s event ts n p = Ok e -> fine e ->
  pyval (VDict event) = true -> record_sound env backends v (normed e).
Proof.
  intros T Hb F Hp. destruct (signed_prints event ts n p e T Hb F Hp) as (B & Hpe & _).
  apply build_and_sign_inv in Hb as (A & _). destruct T as [(rec & pk & b & G & P & K & V)].
  destruct (sa_signature _ _ _ _ _ A) as (m & Hm & Hs). destruct (V m _ Hs) as (_ & _ & Hv).
  pose proof (sa_hash _ _ _ _ _ A) as Hh. unfold compute_event_hash, hash_payload in Hh. apply bind_ok in Hh as (x & Hx & Hh).
  split; cbn [normed with_event se_event_hash se_key_id se_node_id se_timestamp se_signature_algorithm se_signature_bytes].
  - unfold compute_event_hash, hash_payload. by rewrite (payload_normed _ e x Hpe Hx).
  - rewrite (sa_key _ _ _ _ _ A), (sa_node _ _ _ _ _ A), (sa_algorithm _ _ _ _ _ A). apply F.
  - exists rec, pk, b, m. rewrite (sa_key _ _ _ _ _ A), (sa_algorithm _ _ _ _ _ A). split_and!; try done.
    by apply payload_normed.
Qed.

Lemma signed_reads lim max_bytes event ts n p e : trusted -> build_and_sign s event ts n p = Ok e -> fine e ->
  pyval (VDict event) = true -> (S MAX_DEPTH <= lim)%nat -> 86000 <= max_bytes ->
  parse_signed_event_json lim (TStr (line_of e)) max_bytes true = Ok (normed e).
Proof.
  intros T Hb F Hp Hl Hm. destruct (signed_prints event ts n p e T Hb F Hp) as (B & Hpe & b & Hc & Hz).
  apply (line_parses e b); [|done..|lia|done].
  apply (signed_event_ok event ts n p e Hb); [apply F | done].
Qed.

(** *** The log a signer leaves *)
Context (lim : nat) (py_str : value -> str) (py_int : value -> res Z) (Hlim : (S MAX_DEPTH <= lim)%nat).

(** The records of a log, oldest first: each built by this signer, all of them one chain. *)
Record sealed (es : list SignedEvent) : Prop := {
  sl_built : Forall (fun e => exists event ts n p, build_and_sign s event ts n p = Ok e /\
    pyval (VDict event) = true /\ fine e) es;
  sl_chain : exists g, genesis_previous_hash (sn_node_id s) = Ok g /\ chain FIRST_SEQUENCE g es;
}.

Notation entries es := (map entry_of es).

Lemma entries_length es : zlen (entries es) = zlen es.
Proof. unfold zlen. by rewrite length_map. Qed.

Lemma sealed_nil : sealed [].
Proof.
  split; [constructor|]. apply name_ok_inv in Hnode as [N _]. unfold genesis_previous_hash.
  rewrite (utf8_encode_enc _ N). eexists. split; [reflexivity | done].
Qed.

Lemma sealed_bytes es : sealed es -> trusted -> zlen (log_bytes (entries es)) <= 86001 * zlen es.
Proof.
  intros [F _] T. induction F as [|e es (ev & ts & n & p & Hb & Hp & Hf) F IH]; [done|].
  assert (log_bytes (entries (e :: es)) = enc (line_of e ++ [10]) ++ log_bytes (entries es)) as ->
    by (unfold log_bytes, log_text; cbn [map concat le_line entry_of]; by rewrite enc_app).
  rewrite enc_app, !zlen_app, zlen_cons. change (zlen (enc [10])) with 1.
  destruct (signed_prints ev ts n p e T Hb Hf Hp) as (B & Hpe & b & Hc & Hz).
  destruct (json_line_text e b Hpe Hc) as (_ & _ & _ & U & _). apply utf8_encode_ok in U as [_ U].
  assert (zlen (enc (line_of e)) = zlen b) by (by rewrite U). lia.
Qed.

Lemma sealed_log es : sealed es -> trusted -> log_from lim (sn_node_id s) 1 (entries es).
Proof.
  intros [F (g & _ & C)] T. revert C. change FIRST_SEQUENCE with 1. generalize 1 g.
  induction F as [|e es (ev & ts & n & p & Hb & Hp & Hf) F IH]; intros k g' C; [done|]. cbn [chain] in C.
  destruct C as (E & _ & _ & C). split; [|by apply (IH _ (se_event_hash e))].
  destruct (signed_prints ev ts n p e T Hb Hf Hp) as (B & Hpe & b & Hc & _).
  pose proof (build_and_sign_inv _ _ _ _ _ _ Hb) as (A & _). rewrite <- E, (sa_sequence _ _ _ _ _ A).
  by apply (line_logged lim ev ts n p e b).
Qed.

(** One more record, built for the position the log is at. *)
Lemma sealed_snoc es event ts p e : sealed es -> build_and_sign s event ts (zlen es + 1) p = Ok e ->
  expected_previous_hash (sn_node_id s) (zlen es + 1) (le_hash <$> last (entries es)) = Ok p ->
  pyval (VDict event) = true -> fine e -> sealed (es ++ [e]).
Proof.
  intros [F (g & Hg & C)] Hb Hp Hpv Hf. pose proof (build_and_sign_inv _ _ _ _ _ _ Hb) as (A & _). split.
  - apply Forall_app. split; [done|]. apply Forall_singleton. by exists event, ts, (zlen es + 1), p.
  - exists g. split; [done|]. apply chain_snoc. split_and!; [done | | | apply A].
    + rewrite (sa_sequence _ _ _ _ _ A). unfold FIRST_SEQUENCE. lia.
    + rewrite (sa_previous _ _ _ _ _ A). unfold expected_previous_hash, FIRST_SEQUENCE in Hp. pose proof (zlen_nonneg es).
      unfold tip. destruct (Z.eqb_spec (zlen es + 1) 1) as [E|E].
      * assert (es = []) as -> by (destruct es; [done | rewrite zlen_cons in E; pose proof (zlen_nonneg es); lia]). cbn. congruence.
      * rewrite fmap_last in Hp. destruct (last es); [by injection Hp | discriminate Hp].
Qed.

Definition recovers (es : list SignedEvent) (d : Disk) : Prop :=
  recoverable lim py_str py_int (sn_node_id s) (sn_key_id s) (entries es) d.

(** Why the store's conditions hold of the next record. *)
Lemma next_record now es event ts p e : trusted -> sealed es -> name_ok now = true -> zlen now <= 100 ->
  build_and_sign s event ts (zlen es + 1) p = Ok e -> pyval (VDict event) = true -> fine e ->
  to_json_line e = Ok (line_of e) /\ logged lim (sn_node_id s) (zlen (entries es) + 1) (entry_of e) /\
  zlen (entries es) + 1 < INT_LIMIT /\ zlen (log_bytes (entries es)) < INT_LIMIT /\
  zlen (journal_text (sn_node_id s) now (entries es) (entry_of e) (sn_key_id s)) <= MAX_JOURNAL_BYTES.
Proof.
  intros T S Hnow Hw Hb Hp Hf. pose proof (sealed_bytes es S T) as Z1. rewrite entries_length.
  destruct (signed_prints event ts _ p e T Hb Hf Hp) as (B & Hpe & b & Hc & Hz).
  destruct (json_line_text e b Hpe Hc) as (_ & _ & J & U & _).
  pose proof (build_and_sign_inv _ _ _ _ _ _ Hb) as (A & _ & _ & _ & _ & V1 & V2 & _ & _ & V3 & _ & _ & m & Hm).
  apply validate_sequence_inv in V2 as [_ V2]. apply validate_identifier_inv in V1 as (_ & _ & V1), V3 as (_ & _ & V3).
  rewrite (sa_node _ _ _ _ _ A) in V1. rewrite (sa_key _ _ _ _ _ A) in V3.
  pose proof limit_large as L.
  assert (zlen es + 1 < INT_LIMIT /\ zlen (log_bytes (entries es)) < INT_LIMIT) as [? ?] by (unfold MAX_SEQUENCE in V2; lia).
  split; [exact J|]. split; [by apply (line_logged lim event ts _ p e b)|]. split; [assumption|]. split; [assumption|].
  apply journal_fits; rewrite ?entries_length; [assumption.. | | | assumption | assumption].
  - cbn [entry_of le_hash]. rewrite Hm. unfold zlen. by rewrite (proj1 (hash_hex_spec m)).
  - apply utf8_encode_length in U. cbn [entry_of le_line]. unfold line_of. lia.
Qed.

(** Whatever stops one signing attempt, the disk recovers to the old records or to the old
    records and the new one, and a record that was returned is one of them. *)
Lemma attempt now freed event ts f es d : trusted -> sealed es -> recovers es d -> name_ok now = true -> zlen now <= 100 ->
  pyval (VDict event) = true -> (forall n p e, build_and_sign s event ts n p = Ok e -> fine e) ->
  exists d' o' x, with_store lim py_str py_int now freed (transact lim py_str now s event ts f) (d, signer_store s) = ((d', o'), x) /\
    ((exists err, x = Err err /\ recovers es d') \/
     exists e, sealed (es ++ [e]) /\ recovers (es ++ [e]) d' /\ (x = Ok e \/ exists err, x = Err err)).
Proof.
  intros T S R Hnow Hw Hp Hfine. assert (1 <= lim)%nat as Hl by lia.
  destruct R as [_ R]. destruct (R now freed Hnow) as ([d0 o0] & rep & E & R0 & L0 & N0 & st & C0 & P0).
  cbn [fst snd] in *. unfold with_store, signer_store. rewrite (se_bind_eq _ _ _ _ _ E). unfold finally_release.
  assert (transact lim py_str now s event ts f (d0, o0) =
    ('(sequence, _) ← append_signed lim py_str now (produce s event ts) (sn_key_id s) f;
     previous ← lift (expected_previous_hash (sn_node_id s) sequence (ns_last_event_hash st));
     lift (build_and_sign s event ts sequence previous)) (d0, o0)) as -> by
    (unfold transact; rewrite (se_bind_eq _ _ _ _ _ (read_state_cached lim py_str d0 o0 st L0 C0)); by rewrite (se_bind_eq (gets snd) _ _ (d0, o0) o0), N0).
  assert (forall d' o', es_locked o' = true -> (release (d', o')).1 = (put_lock false d', hold false o')) as Rel
    by (intros d' o' L'; unfold release; se; by rewrite L').
  destruct (previous_total (sn_node_id s) Hnode (entries es) st P0) as [p Ep].
  pose proof Ep as Ep'. rewrite (po_hash _ _ _ P0) in Ep'. rewrite entries_length in Ep, Ep'.
  destruct (build_and_sign s event ts (zlen es + 1) p) as [e|err] eqn:Hb.
  - destruct (next_record now es event ts p e T S Hnow Hw Hb Hp (Hfine _ _ _ Hb)) as (J & Lg & B1 & B2 & B3).
    destruct (append_lands lim py_str (sn_node_id s) Hl Hnode now (entries es) (entry_of e) (sn_key_id s) Hnow Hkey (sealed_log es S T) Lg B1 B2
      (produce s event ts) f d0 o0 st) as (d1 & o1 & x & Ea & F & L1 & Y); try done.
    { intros q Hq. rewrite entries_length in *. unfold produce. assert (q = p) as -> by congruence. by rewrite Hb; simpl; rewrite J. }
    pose proof (flight_recoverable lim py_str py_int (sn_node_id s) (sn_key_id s) Hl Hnode now (entries es) (entry_of e) (sn_key_id s) _ d1 Hnow Hkey (sealed_log es S T) Lg B1 B2 B3 F) as K.
    pose proof (sealed_snoc es event ts p e S Hb Ep' Hp (Hfine _ _ _ Hb)) as S'.
    assert (recovers (if landed (entry_of e) f then es ++ [e] else es) (put_lock false d1)) as K'
      by (unfold recovers; destruct (landed (entry_of e) f); [by rewrite map_app | exact K]).
    destruct x as [[n h]|err].
    + destruct (Y _ eq_refl) as [Ld [= -> ->]]. rewrite Ld in K'. rewrite entries_length in *.
      rewrite (se_bind_eq _ _ _ _ _ Ea). unfold lift. cbv beta iota. unfold mbind, se_bind. rewrite Ep, Hb, Rel by done.
      eexists _, _, _. split; [reflexivity|]. right. exists e. eauto.
    + rewrite (se_bind_err _ _ _ _ _ Ea), Rel by done. eexists _, _, _. split; [reflexivity|].
      destruct (landed (entry_of e) f); [right; exists e; eauto | left; eauto].
  - destruct (append_refused lim py_str (sn_node_id s) Hnode now (entries es) (produce s event ts) (sn_key_id s) f d0 o0 st L0 N0 C0 P0) as [x Ea].
    { intros q Hq. rewrite entries_length in *. exists err. unfold produce. assert (q = p) as -> by congruence. by rewrite Hb. }
    rewrite (se_bind_err _ _ _ _ _ Ea), Rel by done. eexists _, _, _. split; [reflexivity|]. left. exists x. split; [done|].
    apply rest_recoverable; [done | by apply lock_rest | done].
Qed.

(** *** The log verifies *)
Lemma built_facts es : trusted -> sealed es ->
  Forall (fun e => record_sound env backends v (normed e) /\ pyval (to_dict (normed e)) = true /\
    se_node_id e = sn_node_id s /\
    forall max_bytes, 86000 <= max_bytes -> parse_signed_event_json lim (TStr (line_of e)) max_bytes true = Ok (normed e)) es.
Proof.
  intros T [F _]. eapply Forall_impl; [exact F|]. intros e (ev & ts & n & p & Hb & Hp & Hf). cbv beta. split_and!.
  - by apply (signed_sound ev ts n p e).
  - destruct (signed_prints ev ts n p e T Hb Hf Hp) as (B & Hpe & b & Hc & _).
    apply canonical_bytes_inv in Hc; [|done]. apply acceptable_shallow, acceptable_spec in Hc as [W _].
    apply wf_pyval. unfold to_dict. rewrite to_items_normed. unfold shallow, as_dict in *. rewrite map_map in *. exact W.
  - apply build_and_sign_inv in Hb as (A & _). apply A.
  - intros max_bytes Hm. by apply (signed_reads lim max_bytes ev ts n p).
Qed.

Lemma chain_normed n g es : Forall (fun e => record_sound env backends v (normed e)) es -> chain n g es -> chain n g (map normed es).
Proof.
  intros F. revert n g. induction F as [|e es He F IH]; intros n g C; [done|]. cbn [map chain] in *. destruct C as (C1 & C2 & _ & C4).
  split_and!; [exact C1 | exact C2 | exact (rs_hash _ _ _ _ He) | by apply IH].
Qed.

Lemma sealed_chained es : trusted -> sealed es -> chained (map normed es).
Proof.
  intros T S n Hn. pose proof (built_facts es T S) as F.
  assert (events_of n (map normed es) = map normed es /\ n = sn_node_id s \/ events_of n (map normed es) = []) as [[E ->]|E].
  - clear S Hn. destruct (str_eqb (sn_node_id s) n) eqn:Q.
    + apply str_eqb_eq in Q as <-. left. split; [|done]. unfold events_of.
      induction F as [|e es (_ & _ & N & _) F IH]; [done|]. cbn [map List.filter]. change (se_node_id (normed e)) with (se_node_id e).
      by rewrite N, str_eqb_refl, IH.
    + right. unfold events_of. induction F as [|e es (_ & _ & N & _) F IH]; [done|]. cbn [map List.filter].
      change (se_node_id (normed e)) with (se_node_id e). by rewrite N, Q.
  - rewrite E. destruct S as [_ (g & Hg & C)]. exists g. split; [done|]. apply chain_normed; [|done].
    eapply Forall_impl; [exact F|]. by intros e [? _].
  - by rewrite E in Hn.
Qed.

(** No line of a log is blank. *)
Lemma nonblank_lines es : nonblank (map (fun e => TStr (line_of e)) es) = map (fun e => TStr (line_of e)) es.
Proof.
  unfold nonblank. induction es as [|e es IH]; [done|]. cbn [map List.filter]. rewrite IH.
  unfold blank. cbn [strip_text text_len]. rewrite line_strip. destruct (line_shape e) as [l E]. rewrite E at 1. rewrite zlen_cons.
  pose proof (zlen_nonneg (l ++ [125])). by replace (1 + zlen (l ++ [125]) =? 0) with false by (symmetry; apply Z.eqb_neq; lia).
Qed.

Lemma sealed_stream c es : trusted -> sealed es -> co_verifier c = v -> co_max_record_bytes c = ev_max_record_bytes v ->
  86000 <= ev_max_record_bytes v -> zlen es <= MAX_TRACKED_HASHES ->
  (exists rep, verify_stream env backends lim c (map (fun e => TStr (line_of e)) es) = Ok rep /\ sr_valid rep = true) \/ collision.
Proof.
  intros T S Hc Hm Hb Hz. pose proof (built_facts es T S) as F.
  assert (Forall (record_sound env backends v) (map normed es)) as Fs
    by (apply Forall_map; eapply Forall_impl; [exact F|]; by intros e [? _]).
  assert (pyvals (map normed es)) as Fp by (apply Forall_map; eapply Forall_impl; [exact F|]; by intros e (_ & ? & _)).
  assert (Forall2 (reads lim c) (nonblank (map (fun e => TStr (line_of e)) es)) (map normed es)) as Fr.
  { rewrite nonblank_lines. clear Fs Fp Hz S. induction F as [|e es (_ & _ & _ & R) F IH]; [constructor|]. cbn [map].
    constructor; [|exact IH]. unfold reads. cbn [strip_text]. rewrite line_strip, Hc. by apply R. }
  destruct (fold_complete env backends lim c (map (fun e => TStr (line_of e)) es) empty_report ∅ [] (map normed es))
    as [(p & ts & H & Hv)|C]; cbn [app]; rewrite ?Hc; try done; [apply tracked_empty | by apply sealed_chained | unfold zlen in *; by rewrite length_map | left | by right].
  exists (set_nodes p (summary <$> ts)). unfold verify_stream. by rewrite H.
Qed.

Lemma sealed_verifies c es : trusted -> sealed es -> co_verifier c = v -> co_max_record_bytes c = ev_max_record_bytes v ->
  86000 <= ev_max_record_bytes v -> zlen es <= MAX_TRACKED_HASHES ->
  (exists rep, verify_file env backends lim c (Content (log_bytes (entries es))) = Ok rep /\ sr_valid rep = true) \/ collision.
Proof.
  intros T S Hc Hm Hb Hz. pose proof (sealed_log es S T) as L. unfold verify_file, log_bytes.
  rewrite (proj2 (decode_enc _ (log_str_ok _ _ _ _ L))), (log_lines _ _ _ _ L), !map_map. cbn [entry_of le_line].
  by apply (sealed_stream c es).
Qed.

(** *** Any number of attempts *)

(** One attempt to sign an event, by a process of its own, and what befalls it. *)
Record Attempt := {
  at_event : dict;
  at_timestamp : str;
  at_now : str;
  at_freed : list bool;
  at_faults : Faults;
}.

(** The event is a value; its time has a four-digit year and lies in the key's validity. *)
Record attempt_ok (a : Attempt) : Prop := {
  ao_event : pyval (VDict (at_event a)) = true;
  ao_time : exists t, normalize_timestamp (VStr (at_timestamp a)) = Ok t /\ length t = 27%nat /\
    check_usable (ev_registry v) (sn_key_id s) (sn_node_id s) t (sn_algorithm s) = Ok {| usable := true; problems := [] |};
  ao_now : name_ok (at_now a) = true /\ zlen (at_now a) <= 100;
}.

Fixpoint sign_attempts (l : list Attempt) (d : Disk) : Disk * list (res SignedEvent) :=
  match l with
  | [] => (d, [])
  | a :: l =>
    let '(d, r) := sign_event lim py_str py_int (at_now a) (at_freed a) s (at_event a) (Some (at_timestamp a)) (at_timestamp a) (at_faults a) d in
    let '(d, rs) := sign_attempts l d in (d, r :: rs)
  end.

(** The records that were returned to the caller. *)
Definition returned (rs : list (res SignedEvent)) : list SignedEvent :=
  omap (fun r => match r with Ok e => Some e | Err _ => None end) rs.

Lemma sign_event_attempt a d : sign_event lim py_str py_int (at_now a) (at_freed a) s (at_event a) (Some (at_timestamp a)) (at_timestamp a) (at_faults a) d =
  let '((d', _), r) := with_store lim py_str py_int (at_now a) (at_freed a)
    (transact lim py_str (at_now a) s (at_event a) (at_timestamp a) (at_faults a)) (d, signer_store s) in (d', r).
Proof. unfold sign_event. destruct (at_timestamp a); done. Qed.

Lemma attempt_fine a n p e : attempt_ok a -> build_and_sign s (at_event a) (at_timestamp a) n p = Ok e -> fine e.
Proof.
  intros [_ (t & Ht & L & U) _] (_ & Ht' & _)%build_and_sign_inv. rewrite Ht in Ht'. injection Ht' as ->. by split.
Qed.

Lemma attempts_seal l : trusted -> Forall attempt_ok l -> forall es d d' rs, sealed es -> recovers es d ->
  sign_attempts l d = (d', rs) -> exists es', sealed (es ++ es') /\ recovers (es ++ es') d' /\
    sublist (returned rs) es' /\ zlen es' <= zlen l.
Proof.
  intros T F. induction F as [|a l Ha F IH]; intros es d d' rs S R E; cbn [sign_attempts] in E.
  { injection E as <- <-. exists []. rewrite app_nil_r. split_and!; done. }
  rewrite sign_event_attempt in E. pose proof Ha as [Hp _ [Hnow Hw]].
  destruct (attempt (at_now a) (at_freed a) (at_event a) (at_timestamp a) (at_faults a) es d T S R Hnow Hw Hp
    (fun n p e => attempt_fine a n p e Ha)) as (d1 & o1 & x & A & O). rewrite A in E.
  destruct (sign_attempts l d1) as [d2 rs2] eqn:E2. injection E as <- <-. rewrite zlen_cons.
  destruct O as [(err & -> & R1)|(e & S1 & R1 & X)].
  - destruct (IH es d1 d2 rs2 S R1 E2) as (es' & S' & R' & Sub & Z). exists es'. split_and!; [done.. | lia].
  - destruct (IH (es ++ [e]) d1 d2 rs2 S1 R1 E2) as (es' & S' & R' & Sub & Z). rewrite <- app_assoc in S', R'.
    exists (e :: es'). split_and!; [done | done | | rewrite zlen_cons; lia].
    destruct X as [-> | (err & ->)]; cbn [returned omap list_omap]; by constructor.
Qed.

End Trusted.
End SignerFacts.

(** ** Witnesses *)
Definition sample_signer : EvidenceSigner := {|
  sn_node_id := lit "n1"; sn_key_id := lit "k1"; sn_private_key := sample_key;
  sn_algorithm := DEFAULT_SIGNATURE_ALGORITHM; sn_hash_algorithm := DEFAULT_HASH_ALGORITHM;
  sn_backend := InsecureTestBackend test_env; sn_real_pqc := false |}.

Definition sample_attempt (what : string) (f : Faults) : Attempt := {|
  at_event := [(KStr (lit "what"), VStr (lit what))]; at_timestamp := sample_now; at_now := sample_now;
  at_freed := []; at_faults := f |}.

(** Two records, and between them a process that dies five bytes into the second line. *)
Definition sample_attempts : list Attempt :=
  [sample_attempt "boot" no_faults; sample_attempt "scan" torn; sample_attempt "alarm" no_faults].

Lemma sample_trusted : trusted sample_signer test_env [] sample_verifier.
Proof.
  split. exists (sample_record "k1" sample_key ACTIVE), sample_key, (InsecureTestBackend test_env).
  split; [reflexivity|]. split; [vm_compute; reflexivity|]. split; [reflexivity|].
  intros m sg H. change (Ok (hmac_sha3_256 sample_key m) = Ok sg) in H. injection H as <-.
  assert (exists x, hmac_sha3_256 sample_key m = sha3_256 x) as [x Hx] by (unfold hmac_sha3_256, hmac; eexists; reflexivity).
  destruct (sha3_256_spec x) as [L B]. rewrite <- Hx in L, B.
  split; [exact B|]. split; [unfold zlen; rewrite L; lia|].
  change (Ok (str_eqb (hmac_sha3_256 sample_key m) (hmac_sha3_256 sample_key m)) = Ok true). by rewrite str_eqb_refl.
Qed.

Lemma sample_attempts_ok : Forall (attempt_ok sample_signer sample_verifier) sample_attempts.
Proof.
  repeat apply Forall_cons_2; [..|constructor];
    (split; [vm_compute; reflexivity | exists sample_now; split; [vm_compute; reflexivity | split; vm_compute; reflexivity] | split; [reflexivity | by compute]]).
Qed.


(** One event that cannot be signed ends a batch: [sign_log] counts and skips lines that
    are not JSON objects, "so one corrupt line does not lose the rest", but a JSON object
    whose values the canonical form refuses - a float - raises out of the loop, and the
    lines behind it are not signed. *)
Theorem sign_log_stops_at_float :
  let run source := sign_log 50 no_str no_int sample_now [] (fun _ => sample_now) sample_signer source None None empty_disk in
  let good := jlit "{'b':1}" in
  (exists d r, run [jlit "{'a':1.5"; good] = (d, Ok r) /\ sg_signed r = 1 /\ sg_errors r = 1) /\
  (exists d, run [jlit "{'a':1.5}"; good] = (d, Err (malformed "event is not canonicalizable")) /\ d_evidence d = None).
Proof.
  split.
  - destruct (sign_log 50 no_str no_int sample_now [] (fun _ => sample_now) sample_signer [jlit "{'a':1.5"; jlit "{'b':1}"] None None empty_disk) as [d x] eqn:E.
    assert (match x with Ok r => (sg_signed r =? 1) && (sg_errors r =? 1) | Err _ => false end = true) as V
      by (apply (f_equal snd) in E; cbn [snd] in E; rewrite <- E; vm_compute; reflexivity).
    destruct x as [r|]; [|discriminate V]. apply andb_true_iff in V as [V1 V2]. exists d, r. split; [reflexivity|].
    split; [exact (proj1 (Z.eqb_eq _ _) V1) | exact (proj1 (Z.eqb_eq _ _) V2)].
  - destruct (sign_log 50 no_str no_int sample_now [] (fun _ => sample_now) sample_signer [jlit "{'a':1.5}"; jlit "{'b':1}"] None None empty_disk) as [d x] eqn:E.
    exists d. pose proof E as E'. apply (f_equal fst) in E'. apply (f_equal snd) in E. cbn [fst snd] in E, E'. split.
    + f_equal. rewrite <- E. vm_compute. reflexivity.
    + rewrite <- E'. vm_compute. reflexivity.
Qed.

(** A key file is written once and read back: writing a new key and loading it gives the
    key, whatever the permission check; an existing file is never overwritten; and a file
    any group or other permission bit is set on is refused. *)
Theorem private_key_file (k : KeyPair) (strict : bool) :
  (kp_private k <> [] ->
   load_private_key (write_private_key None k IoOk).1 strict = Ok (kp_private k)) /\
  (forall f o, write_private_key (Some f) k o =
     (Some f, Err (SignerError "refusing to overwrite the existing private key"))) /\
  (forall mode data, load_private_key (Some (mode, data)) true = Ok data -> Z.land mode 0x3F = 0).
Proof.
  split_and!.
  - intros H. unfold load_private_key, write_private_key. cbn [fst written app]. change (Z.land 0x180 0x3F =? 0) with true.
    rewrite andb_false_r. by rewrite bool_decide_eq_false_2.
  - done.
  - intros mode data. unfold load_private_key. destruct (Z.eqb_spec (Z.land mode 0x3F) 0); [done|]. simpl. discriminate.
Qed.
