(* ===== verification/SigningRun.v ===== *)
(** What [sign_log] does when nothing fails: every event of the source is signed, in order.

    [Signer] shows that whatever was signed is safe; here the signer is shown to make progress.
    A line of the source is blank, no JSON object, or an event; the report counts all three. *)
From S2P Require Import Prelude PyText Json JsonFacts JsonScan Hashes IsoTime Canonicalizer Models CryptoBackend EventChain KeyRegistry Verifier Collector StateStore EvidenceStore RecordFacts Signer.

(** ** A record can be built *)

(** Leaving fields out of an acceptable object leaves it acceptable. *)
Lemma acceptable_filter (f : str * value -> bool) l : acceptable (VDict (as_dict l)) = true ->
  acceptable (VDict (as_dict (List.filter f l))) = true.
Proof.
  rewrite !acceptable_spec, !wf_dict, !as_dict_keys. cbn [height strings_short]. unfold as_dict.
  rewrite !list_max_le_iff, !forallb_Forall, !Forall_map. intros ((W & N) & H & S). split_and!.
  - exact (incl_Forall (incl_filter f l) W).
  - clear - N. induction l as [|x l IH]; [done|]. cbn [map] in N. apply NoDup_cons in N as [Nx N]. cbn [List.filter].
    destruct (f x); [|by apply IH]. cbn [map]. apply NoDup_cons. split; [|by apply IH].
    intros (y & E & Hy%list_elem_of_In%filter_In)%list_elem_of_fmap. apply Nx, list_elem_of_fmap. exists y. split; [done|]. apply list_elem_of_In, Hy.
  - exact (incl_Forall (incl_filter f l) H).
  - exact (incl_Forall (incl_filter f l) S).
Qed.

Lemma payload_total excluded e : bounded e -> exists b, canonical_bytes (VDict (as_dict (without excluded (to_items e)))) = Ok b.
Proof. intros B%bounded_acceptable. eexists. apply canonical_bytes_acceptable. by apply acceptable_filter. Qed.

(** An envelope before it is signed. *)
Lemma draft_bounded node n ts p event key alg halg version e h :
  build_unsigned (VStr node) (VInt n) (VStr ts) (VStr p) (VDict event) (VStr key) alg halg version = Ok e ->
  pyval (VDict event) = true -> length (se_timestamp e) = 27%nat -> forallb is_hex h = true -> zlen h <= 129 ->
  bounded (with_event_hash e h).
Proof.
  intros (V1 & V2 & V3 & Ht & V4 & V5 & V6 & V7 & V8 & E)%build_unsigned_inv Hp L Hh Hz.
  pose proof (normalize_strftime _ _ Ht) as (u & Hu & Eu). apply validate_hash_inv in V6 as [_ V6]. apply validate_sequence_inv in V5 as [_ V5].
  assert (forallb is_ascii (se_timestamp e) = true) as A by (rewrite Eu in *; by apply strftime_ascii).
  rewrite E. clear E Eu. split.
  - unfold without, to_items. cbn [List.filter]. cbn [str_in existsb negb fst].
    repeat match goal with |- context [if ?b then _ else _] => let x := eval vm_compute in b in change b with x; cbv iota end.
    repeat apply Forall_cons_2; [..|constructor]; cbn [snd].
    + by apply (str_in_small _ _ V1).
    + by apply (identifier_small _ _ V4).
    + exact V5.
    + split; [exact A | cbn [with_event_hash se_timestamp]; unfold zlen; rewrite L; lia].
    + split; [by apply hash_match_ascii | apply hash_match_len in V6; cbn [with_event_hash se_previous_event_hash]; lia].
    + split; [by apply hex_ascii | exact Hz].
    + by apply (str_in_small _ _ V2).
    + by apply (str_in_small _ _ V3).
    + by apply (identifier_small _ _ V8).
  - split; [done | by compute].
  - apply validate_event_inv in V7 as (_ & b & Hb & Hs & Hd). rewrite depth_height in Hd.
    split; [by apply (canonical_bytes_inv _ b)|]. unfold MAX_EVENT_DEPTH in Hd. cbn [with_event_hash se_event]. split; [lia | by exists b].
Qed.

(** A signer whose names and algorithms are supported and whose backend signs every message. *)
Record able (s : EvidenceSigner) : Prop := {
  ab_node : validate_identifier (VStr (sn_node_id s)) = Ok (sn_node_id s);
  ab_key : validate_identifier (VStr (sn_key_id s)) = Ok (sn_key_id s);
  ab_algorithm : str_in (sn_algorithm s) SUPPORTED_SIGNATURE_ALGORITHMS = true;
  ab_hash : str_in (sn_hash_algorithm s) SUPPORTED_HASH_ALGORITHMS = true;
  ab_signs : forall m, exists raw, bk_sign (sn_backend s) (sn_private_key s) m (sn_algorithm s) = Ok raw /\ raw <> [];
}.

(** An event within the limits of an envelope. *)
Definition signable (event : dict) : Prop := pyval (VDict event) = true /\ validate_event (VDict event) = Ok event.

Lemma build_total s event ts t n m : able s -> signable event -> normalize_timestamp (VStr ts) = Ok t -> length t = 27%nat ->
  1 <= n <= MAX_SEQUENCE -> exists e, build_and_sign s event ts n (hash_hex m) = Ok e.
Proof.
  intros [A1 A2 A3 A4 A5] [P V] Ht L Hn. unfold build_and_sign.
  assert (exists e, build_unsigned (VStr (sn_node_id s)) (VInt n) (VStr ts) (VStr (hash_hex m)) (VDict event) (VStr (sn_key_id s))
    (sn_algorithm s) (sn_hash_algorithm s) EVIDENCE_FORMAT_VERSION = Ok e /\ se_timestamp e = t) as (e & He & Et).
  { unfold build_unsigned. rewrite A3, A4, Ht, A1, A2, V, hash_hex_valid.
    assert (validate_sequence (VInt n) = Ok n) as -> by (unfold validate_sequence; by rewrite (proj2 (Z.leb_le 1 n)), (proj2 (Z.leb_le n MAX_SEQUENCE)) by lia).
    eexists. by split. }
  rewrite He. cbn [mbind res_bind].
  assert (e = with_event_hash e ZERO_HASH) as Ez.
  { apply build_unsigned_inv in He as (_ & _ & _ & _ & _ & _ & _ & _ & _ & E). rewrite E. reflexivity. }
  assert (forall h, forallb is_hex h = true -> zlen h <= 129 -> bounded (with_event_hash e h)) as B
    by (intros h H1 H2; apply (draft_bounded _ _ _ _ _ _ _ _ _ _ _ He P); rewrite ?Et; done).
  destruct (payload_total HASH_EXCLUDED e) as [b Hb]; [rewrite Ez; apply B; [by vm_compute | by compute]|].
  unfold compute_event_hash, hash_payload. rewrite Hb. cbn [mbind res_bind]. destruct (hash_hex_spec b) as [Lh Fh].
  destruct (payload_total SIGNATURE_EXCLUDED (with_event_hash e (hash_hex b))) as [c Hc]; [apply B; [done | unfold zlen; rewrite Lh; lia]|].
  unfold signing_payload. rewrite Hc. cbn [mbind res_bind]. destruct (A5 c) as (raw & -> & Hr). cbn [as_signer_error try_with mbind res_bind].
  rewrite bool_decide_eq_false_2 by done. cbn [negb]. eexists. reflexivity.
Qed.

Lemma able_names s : able s -> name_ok (sn_node_id s) = true /\ name_ok (sn_key_id s) = true.
Proof.
  assert (forall x, validate_identifier (VStr x) = Ok x -> name_ok x = true) as N; [|by intros [? ? _ _ _]; auto].
  intros x (_ & H & _)%validate_identifier_inv. pose proof (id_match_ascii x H) as A. unfold name_ok. apply andb_true_iff. split.
  - by apply ascii_scalar.
  - apply negb_true_iff, bool_decide_eq_false_2. by intros ->.
Qed.

(** ** A source of events *)
Inductive Reading := Blank | Junk | Event (event : dict).

Definition reads_line (lim : nat) (line : str) (k : Reading) : Prop :=
  let text := strip line in
  match k with
  | Blank => text = []
  | Junk => text <> [] /\ match loads default_hooks lim text with
            | Ok (VDict _) => False
            | Ok _ | Err (JSONDecodeError | ValueError _) => True
            | Err _ => False
            end
  | Event event => text <> [] /\ loads default_hooks lim text = Ok (VDict event)
  end.
Definition events_in (ks : list Reading) : list dict := omap (fun k => match k with Event d => Some d | _ => None end) ks.

(** The report for a source, the log having [n] records before. *)
Fixpoint tally (n : Z) (ks : list Reading) (r : SigningReport) : SigningReport :=
  match ks with
  | [] => r
  | Blank :: ks => tally n ks (count_skipped r)
  | Junk :: ks => tally n ks (count_error r)
  | Event _ :: ks => tally (n + 1) ks (count_signed (n + 1) r)
  end.

Lemma tally_signed ks : forall n r, sg_signed (tally n ks r) = sg_signed r + zlen (events_in ks).
Proof.
  induction ks as [|[| |d] ks IH]; intros n r; cbn [tally].
  - change (zlen (events_in [])) with 0. lia.
  - rewrite IH. done.
  - rewrite IH. done.
  - rewrite IH. change (events_in (Event d :: ks)) with (d :: events_in ks). rewrite zlen_cons. cbn [count_signed sg_signed]. lia.
Qed.

Definition blanks (ks : list Reading) : Z := zlen (List.filter (fun k => match k with Blank => true | _ => false end) ks).
Definition junk (ks : list Reading) : Z := zlen (List.filter (fun k => match k with Junk => true | _ => false end) ks).

Lemma tally_others ks : forall n r, sg_skipped (tally n ks r) = sg_skipped r + blanks ks /\ sg_errors (tally n ks r) = sg_errors r + junk ks.
Proof.
  unfold blanks, junk. induction ks as [|[| |d] ks IH]; intros n r; cbn [tally List.filter].
  - change (zlen []) with 0. lia.
  - rewrite zlen_cons. destruct (IH n (count_skipped r)) as [-> ->]. cbn [count_skipped sg_skipped sg_errors]. lia.
  - rewrite zlen_cons. destruct (IH n (count_error r)) as [-> ->]. cbn [count_error sg_skipped sg_errors]. lia.
  - apply (IH (n + 1) (count_signed (n + 1) r)).
Qed.

Section Progress.
Context (s : EvidenceSigner) (A : able s) (env : Environ) (backends : list (str * CryptoBackend)) (v : EvidenceVerifier).
Context (T : trusted s env backends v) (lim : nat) (py_str : value -> str) (py_int : value -> res Z) (Hlim : (S MAX_DEPTH <= lim)%nat).
Context (now : str) (Hnow : name_ok now = true) (Hw : zlen now <= 100).

Notation entries es := (map entry_of es).
Let Hnode : name_ok (sn_node_id s) = true := proj1 (able_names s A).
Let Hkey : name_ok (sn_key_id s) = true := proj2 (able_names s A).

(** The store is open and the log holds [es]. *)
Definition open_at (es : list SignedEvent) (st : Disk * EvidenceStore) : Prop :=
  settled lim (sn_node_id s) (entries es) st /\ sealed s v es.

(** A time at which the registry lets the key sign. *)
Definition timely (ts : str) : Prop := exists t, normalize_timestamp (VStr ts) = Ok t /\ length t = 27%nat /\
  check_usable (ev_registry v) (sn_key_id s) (sn_node_id s) t (sn_algorithm s) = Ok {| usable := true; problems := [] |}.

Lemma previous_hash es p : sealed s v es ->
  expected_previous_hash (sn_node_id s) (zlen es + 1) (le_hash <$> last (entries es)) = Ok p -> exists m, p = hash_hex m.
Proof.
  intros [F _]. unfold expected_previous_hash. destruct (_ =? _).
  - unfold genesis_previous_hash. intros (b & _ & [= <-])%bind_ok. eauto.
  - rewrite fmap_last. destruct (last es) as [e|] eqn:E; [|done]. intros [= <-]. apply last_Some_elem_of in E.
    rewrite Forall_forall in F. destruct (F e E) as (ev & ts & n & q & Hb & _). apply build_and_sign_inv in Hb.
    destruct Hb as (_ & _ & _ & _ & _ & _ & _ & _ & _ & _ & _ & _ & m & Hm). eauto.
Qed.

(** One event: a transaction of the open store signs it. *)
Lemma transact_signs es event ts st : open_at es st -> signable event -> timely ts -> zlen es < MAX_SEQUENCE ->
  exists st' e, transact lim py_str now s event ts no_faults st = (st', Ok e) /\ open_at (es ++ [e]) st' /\
    se_event e = event /\ se_sequence e = zlen es + 1 /\ d_locked st'.1 = d_locked st.1.
Proof.
  intros [S Sl] Sg (t & Ht & L & U) Hz. pose proof S as (_ & Hl & Hn & c & Hc & P). destruct st as [d o]. cbn [fst snd] in *.
  destruct (previous_total (sn_node_id s) Hnode (entries es) c P) as [p Ep]. pose proof Ep as Ep'. rewrite (po_hash _ _ _ P) in Ep'.
  rewrite entries_length in Ep, Ep'. destruct (previous_hash es p Sl Ep') as [m ->]. pose proof (zlen_nonneg es).
  destruct (build_total s event ts t (zlen es + 1) m A Sg Ht L ltac:(lia)) as [e Hb].
  pose proof (build_and_sign_inv _ _ _ _ _ _ Hb) as (As & Ht' & _).
  assert (fine s v e) as Hf by (rewrite Ht in Ht'; injection Ht' as ->; by split).
  destruct (next_record s env backends v lim Hlim now es event ts _ e T Sl Hnow Hw Hb (proj1 Sg) Hf) as (J & Lg & B1 & B2 & B3).
  assert (forall q, expected_previous_hash (sn_node_id s) (zlen (entries es) + 1) (le_hash <$> last (entries es)) = Ok q ->
    produce s event ts (zlen (entries es) + 1) q = Ok (le_line (entry_of e), le_hash (entry_of e))) as Sn.
  { intros q Hq. rewrite entries_length in *. unfold produce. assert (q = hash_hex m) as -> by congruence. rewrite Hb. cbn [mbind res_bind]. by rewrite J. }
  destruct (append_succeeds lim py_str (sn_node_id s) ltac:(lia) Hnode now (entries es) (entry_of e) (sn_key_id s) Hnow Hkey
    (sealed_log s env backends v lim Hlim es Sl T) Lg B1 B2 (produce s event ts) (d, o) Sn S) as (st' & Ea & S' & K).
  exists st', e. split; [|split; [|split; [exact (sa_event _ _ _ _ _ As) | split; [exact (sa_sequence _ _ _ _ _ As) | exact K]]]].
  - unfold transact. rewrite (se_bind_eq _ _ _ _ _ (read_state_cached lim py_str d o c Hl Hc)). rewrite (se_bind_eq (gets snd) _ _ (d, o) o) by done.
    rewrite (se_bind_eq _ _ _ _ _ Ea). rewrite entries_length, Hn. rewrite (se_bind_eq (lift _) _ _ st' (hash_hex m)) by (unfold lift; f_equal; exact Ep).
    unfold lift. by rewrite Hb.
  - split; [by rewrite map_app|]. exact (sealed_snoc s v lim Hlim es event ts (hash_hex m) e Sl Hb Ep' (proj1 Sg) Hf).
Qed.

Lemma zlen_snoc {X} (l : list X) x : zlen (l ++ [x]) = zlen l + 1.
Proof. by rewrite zlen_app. Qed.

(** The loop over the source. *)
Lemma lines_signed clock lines ks : Forall2 (reads_line lim) lines ks -> Forall signable (events_in ks) -> (forall i, timely (clock i)) ->
  forall es st count r, open_at es st -> zlen es + zlen (events_in ks) <= MAX_SEQUENCE ->
  exists st' es', sign_lines lim py_str now clock s None lines None count r st = (st', Ok (tally (zlen es) ks r)) /\
    open_at (es ++ es') st' /\ map se_event es' = events_in ks /\ d_locked st'.1 = d_locked st.1.
Proof.
  intros F G Ht. revert G. induction F as [|line k lines ks R F IH]; intros G es st count r O Hz.
  { exists st, []. by rewrite app_nil_r. }
  destruct k as [| |event]; cbn [reads_line] in R.
  - cbn [sign_lines tally]. rewrite bool_decide_eq_true_2 by done. by apply IH.
  - destruct R as [R1 R2]. cbn [sign_lines tally]. rewrite bool_decide_eq_false_2 by done.
    destruct (loads _ _ _) as [[]|[]]; try done; by apply IH.
  - destruct R as [R1 R2]. apply Forall_cons in G as [G1 G]. change (events_in (Event event :: ks)) with (event :: events_in ks) in *.
    rewrite zlen_cons in Hz. pose proof (zlen_nonneg (events_in ks)).
    destruct (transact_signs es event (clock count) st O G1 (Ht count) ltac:(lia)) as (st1 & e & E & O1 & Ee & Es & K).
    destruct (IH G (es ++ [e]) st1 (S count) (count_signed (zlen es + 1) r) O1 ltac:(rewrite zlen_snoc; lia)) as (st2 & es' & E2 & O2 & M & K2).
    exists st2, (e :: es'). rewrite <- app_assoc in O2. split; [|split; [exact O2 | split; [cbn [map]; by rewrite Ee, M | congruence]]].
    cbn [sign_lines tally]. rewrite bool_decide_eq_false_2 by done. rewrite R2, (se_bind_eq _ _ _ _ _ E), Es, E2. by rewrite zlen_snoc.
Qed.

Lemma log_signed freed clock lines ks es d : recovers s lim py_str py_int es d -> sealed s v es ->
  Forall2 (reads_line lim) lines ks -> Forall signable (events_in ks) -> (forall i, timely (clock i)) ->
  zlen es + zlen (events_in ks) <= MAX_SEQUENCE ->
  exists d' es', sign_log lim py_str py_int now freed clock s lines None None d = (d', Ok (tally (zlen es) ks blank_signing)) /\
    sealed s v (es ++ es') /\ map se_event es' = events_in ks /\ evidence_at (entries (es ++ es')) d' /\
    recovers s lim py_str py_int (es ++ es') d'.
Proof.
  intros [_ R] Sl F G Ht Hz. destruct (R now freed Hnow) as (st & rep & E & S).
  destruct (lines_signed clock lines ks F G Ht es st 0 blank_signing (conj S Sl) Hz) as (st' & es' & E' & (S' & Sl') & M & _).
  destruct st' as [d' o']. pose proof S' as (Rest & L & _). cbn [fst snd] in *.
  exists (put_lock false d'), es'. split; [|split; [exact Sl' | split; [exact M | split; [apply Rest|]]]].
  - unfold sign_log, with_store. unfold signer_store. rewrite (se_bind_eq _ _ _ _ _ E). unfold finally_release. rewrite E'.
    unfold release. se. by rewrite L.
  - apply rest_recoverable; [lia | by apply lock_rest | done].
Qed.
End Progress.

(** C2. Signing makes progress: given a source whose lines are blank, no JSON objects, or events
    within the limits of an envelope, a backend that signs, and a clock at which the registry
    lets the key sign, [sign_log] without a fault returns.  It has appended one record per
    event, in the order of the source, to the log the disk recovers to; it reports exactly how
    many lines were signed, blank and unreadable; and the log is again one sealed chain from
    which the next process starts. *)
Theorem sign_log_signs_everything (s : EvidenceSigner) (env : Environ) (backends : list (str * CryptoBackend)) (v : EvidenceVerifier)
  (lim : nat) (py_str : value -> str) (py_int : value -> res Z) (now : str) (freed : list bool) (clock : nat -> str)
  (lines : list str) (ks : list Reading) (es : list SignedEvent) (d : Disk)
  (A : able s) (T : trusted s env backends v) (Hlim : (S MAX_DEPTH <= lim)%nat) (Hnow : name_ok now = true) (Hw : zlen now <= 100)
  (R : recovers s lim py_str py_int es d) (Sl : sealed s v es)
  (F : Forall2 (reads_line lim) lines ks) (G : Forall signable (events_in ks)) (Ht : forall i, timely s v (clock i))
  (Hz : zlen es + zlen (events_in ks) <= MAX_SEQUENCE) :
  exists d' report es', sign_log lim py_str py_int now freed clock s lines None None d = (d', Ok report) /\
    map se_event es' = events_in ks /\ sealed s v (es ++ es') /\
    sg_signed report = zlen (events_in ks) /\ sg_skipped report = blanks ks /\ sg_errors report = junk ks /\
    evidence_at (map entry_of (es ++ es')) d' /\ recovers s lim py_str py_int (es ++ es') d'.
Proof.
  destruct (log_signed s A env backends v T lim py_str py_int Hlim now Hnow Hw freed clock lines ks es d R Sl F G Ht Hz)
    as (d' & es' & E & S' & M & Ev & Rc).
  exists d', (tally (zlen es) ks blank_signing), es'. rewrite tally_signed, !(proj1 (tally_others _ _ _)), !(proj2 (tally_others _ _ _)).
  split_and!; try done; cbn [sg_signed sg_skipped sg_errors blank_signing]; lia.
Qed.
