(* ===== verification/Modbus.v ===== *)
(** Modbus/TCP framing: [src/ics_deception/common/modbus.py]. *)
From S2P Require Import Prelude.

Definition MBAP_HEADER_LEN := 7.
Definition MODBUS_PROTOCOL_ID := 0x0000.
Definition MAX_PDU_LEN := 253.
Definition MAX_ADU_LEN := MBAP_HEADER_LEN + MAX_PDU_LEN.
Definition MIN_MBAP_LENGTH := 2.
Definition MAX_MBAP_LENGTH := MAX_PDU_LEN + 1.

Definition FC_READ_HOLDING_REGISTERS := 0x03.
Definition FC_WRITE_SINGLE_REGISTER := 0x06.
Definition EXC_ILLEGAL_FUNCTION := 0x01.
Definition EXC_ILLEGAL_DATA_ADDRESS := 0x02.
Definition EXC_ILLEGAL_DATA_VALUE := 0x03.

Record MbapHeader := {
  transaction_id : Z;
  protocol_id : Z;
  length_field : Z;
  unit_id : Z;
}.

Definition total_frame_len (h : MbapHeader) : Z := MBAP_HEADER_LEN - 1 + length_field h.
Definition pdu_len (h : MbapHeader) : Z := length_field h - 1.

Definition parse_mbap (data : bytes) : option MbapHeader :=
  if zlen data <? MBAP_HEADER_LEN then None
  else Some {|
    transaction_id := from_be (slice data 0 2);
    protocol_id := from_be (slice data 2 4);
    length_field := from_be (slice data 4 6);
    unit_id := nth 6 data 0;
  |}.

Definition is_valid_mbap (h : MbapHeader) : bool :=
  if negb (protocol_id h =? MODBUS_PROTOCOL_ID) then false
  else (MIN_MBAP_LENGTH <=? length_field h) && (length_field h <=? MAX_MBAP_LENGTH).

Definition build_response (tid uid : Z) (pdu : bytes) : res bytes :=
  let len := zlen pdu + 1 in
  t ← to_be16 tid;
  p ← to_be16 MODBUS_PROTOCOL_ID;
  l ← to_be16 len;
  Ok (t ++ p ++ l ++ [Z.land uid 0xFF] ++ pdu).

Definition build_exception_response (tid uid fc exc : Z) : res bytes :=
  build_response tid uid [Z.land (Z.lor fc 0x80) 0xFF; Z.land exc 0xFF].

Definition build_read_holding_registers_request (tid uid address quantity : Z) : res bytes :=
  a ← to_be16 address;
  q ← to_be16 quantity;
  build_response tid uid ([FC_READ_HOLDING_REGISTERS] ++ a ++ q).

Definition build_write_single_register_request (tid uid address value : Z) : res bytes :=
  a ← to_be16 address;
  v ← to_be16 value;
  build_response tid uid ([FC_WRITE_SINGLE_REGISTER] ++ a ++ v).

(** The unit identifier is masked to one byte. *)
Lemma land_ff z : Z.land z 0xFF = z mod 256.
Proof. change 0xFF with (Z.ones 8). by rewrite Z.land_ones by lia. Qed.

Lemma build_response_spec tid uid pdu :
  0 <= tid < 65536 -> zlen pdu < 65535 ->
  build_response tid uid pdu =
    Ok ([tid / 256; tid mod 256; 0; 0; (zlen pdu + 1) / 256; (zlen pdu + 1) mod 256;
         uid mod 256] ++ pdu).
Proof.
  intros. unfold build_response. pose proof (zlen_nonneg pdu).
  rewrite !to_be16_ok by (unfold MODBUS_PROTOCOL_ID; lia). simpl.
  change 255 with 0xFF. by rewrite land_ff.
Qed.

Lemma build_response_inv tid uid pdu adu :
  build_response tid uid pdu = Ok adu -> 0 <= tid < 65536 /\ zlen pdu < 65535.
Proof.
  unfold build_response. intros. inv_res.
  repeat match goal with H : to_be16 _ = Ok _ |- _ => apply to_be16_inv in H as [? ?] end. lia.
Qed.

(** Parsing a built ADU gives back exactly the header that was asked for:
    the transaction identifier, protocol 0, the unit identifier's low byte and a
    length field counting the unit id plus the PDU; and the ADU is exactly
    [total_frame_len] bytes long with the PDU behind the seven header bytes. *)
Theorem build_response_parse (tid uid : Z) (pdu adu rest : bytes)
  (H : build_response tid uid pdu = Ok adu) :
  parse_mbap (adu ++ rest) =
    Some {| transaction_id := tid; protocol_id := 0; length_field := zlen pdu + 1;
            unit_id := uid mod 256 |}
  /\ zlen adu = MBAP_HEADER_LEN + zlen pdu
  /\ drop (Z.to_nat MBAP_HEADER_LEN) adu = pdu.
Proof.
  pose proof (build_response_inv _ _ _ _ H) as [Ht Hp].
  pose proof (zlen_nonneg pdu). pose proof (zlen_nonneg rest).
  rewrite build_response_spec in H by done. inv_res.
  split; [|split].
  - unfold parse_mbap, MBAP_HEADER_LEN, slice. zlen.
    replace (_ <? 7) with false by (symmetry; lia).
    simpl. by rewrite !from_be16 by lia.
  - unfold MBAP_HEADER_LEN. zlen. lia.
  - done.
Qed.

Lemma build_response_parse_witness :
  parse_mbap ([0; 1; 0; 0; 0; 3; 9; 3; 7] ++ [5]) =
    Some {| transaction_id := 1; protocol_id := 0; length_field := 3; unit_id := 9 |}
  /\ zlen [0; 1; 0; 0; 0; 3; 9; 3; 7] = 9
  /\ drop 7 [0; 1; 0; 0; 0; 3; 9; 3; 7] = [3; 7].
Proof. exact (build_response_parse 1 9 [3; 7] _ [5] eq_refl). Defined.
