(* ===== verification/Sockets.v ===== *)
(** Stream sockets as the decoys use them, and the telemetry their handlers emit.

    A connection is the bytes still to arrive, in the segments the network delivers, the
    outcomes of the coming [send] calls, and the bytes the peer was given.  Nothing more to
    arrive means the peer has closed.  The handlers of [honeypots/modbus_server.py] and
    [honeypots/dnp3_sensor.py] and the poll of [iot_nodes/fake_plc.py] run over it. *)
From S2P Require Import Prelude PyText Json Models.

(** What happens at the socket when it is read: bytes, a timeout, or an error. *)
Inductive arrival :=
| Segment (b : bytes)
| Silence
| Broken (m : string).

(** What [send] does with the bytes offered: takes the first [n], or raises. *)
Inductive send_outcome :=
| Sent (n : Z)
| SendFailed (m : string).

(** The side of a connection a handler reads: what arrives, and the values
    [server.stopping] has each time the loop looks at it (false once the list is used up). *)
Record Incoming := {
  inbox : list arrival;
  stops : list bool;
}.

(** The side it writes: the fate of the coming [send] calls, the bytes the peer was given,
    and the telemetry emitted. *)
Record Outgoing := {
  outcomes : list send_outcome;
  delivered : bytes;
  trace : list (str * dict);
}.

(** What [recv] gives: data, empty at the end of the stream, or an exception. *)
Inductive received :=
| Data (b : bytes)
| TimedOut
| RecvFailed (m : string).

(** [sock.recv(n)], [n > 0]: at most [n] bytes of the segment that is there. *)
Definition receive (n : nat) : SE Incoming received := fun s =>
  let put l := {| inbox := l; stops := stops s |} in
  match inbox s with
  | [] => (s, Ok (Data []))
  | Segment b :: l =>
    if (length b <=? n)%nat then (put l, Ok (Data b))
    else (put (Segment (drop n b) :: l), Ok (Data (take n b)))
  | Silence :: l => (put l, Ok TimedOut)
  | Broken m :: l => (put l, Ok (RecvFailed m))
  end.

Definition stopping : SE Incoming bool := fun s =>
  match stops s with
  | [] => (s, Ok false)
  | b :: l => ({| inbox := inbox s; stops := l |}, Ok b)
  end.

(** The handlers' [_send_all]: [short] is the message of its own error.  When no outcome is
    foretold the kernel takes everything. *)
Fixpoint send_loop (short : string) (view : bytes) (l : list send_outcome) (out : bytes) : list send_outcome * bytes * res unit :=
  match view, l with
  | [], _ => (l, out, Ok tt)
  | _, [] => ([], out ++ view, Ok tt)
  | _, Sent n :: l =>
    if n <=? 0 then (l, out, Err (OSError short))
    else send_loop short (drop (Z.to_nat n) view) l (out ++ take (Z.to_nat n) view)
  | _, SendFailed m :: l => (l, out, Err (OSError m))
  end.

Definition send_all (short : string) (payload : bytes) : SE Outgoing unit := fun s =>
  let '(l, out, r) := send_loop short payload (outcomes s) [] in
  ({| outcomes := l; delivered := delivered s ++ out; trace := trace s |}, r).

(** The extra fields of an event. *)
Abbreviation fields := (list (string * value)).

(** The peer of the connection, and [publisher.emit(event_type, client_ip=..., ...)]. *)
Record Peer := { peer_ip : str; peer_port : Z }.

Definition report (p : Peer) (event_type : string) (details : fields) : str * dict :=
  (lit event_type,
   as_dict ((lit "client_ip", VStr (peer_ip p)) :: (lit "client_port", VInt (peer_port p)) ::
            map (fun kv => (lit kv.1, kv.2)) details)).

Definition emit_event (p : Peer) (event_type : string) (details : fields) : SE Outgoing unit :=
  modify (fun s => {| outcomes := outcomes s; delivered := delivered s;
                      trace := trace s ++ [report p event_type details] |}).

(** [try: m finally: h] where [h] cannot fail. *)
Definition se_finally {S A} (m : SE S A) (h : SE S unit) : SE S A := fun s =>
  let '(s', r) := m s in let '(s'', _) := h s' in (s'', r).

(** Working on one half of the state. *)
Definition on_fst {S T A} (m : SE S A) : SE (S * T) A := fun s =>
  let '(s', r) := m s.1 in ((s', s.2), r).
Definition on_snd {S T A} (m : SE T A) : SE (S * T) A := fun s =>
  let '(t', r) := m s.2 in ((s.1, t'), r).

(** ** How much is left to read: what bounds the handlers' loops. *)
Definition weight (a : arrival) : nat := match a with Segment b => S (length b) | _ => 1 end.
Definition backlog (s : Incoming) : nat := list_sum (map weight (inbox s)).

(** Every [recv] that is not the end of the stream leaves less to read. *)
Lemma receive_ok n s : exists s' r, receive n s = (s', Ok r) /\
  ((0 < n)%nat -> r <> Data [] -> (backlog s' < backlog s)%nat).
Proof.
  unfold receive, backlog. destruct (inbox s) as [|[b| |m] l] eqn:E; simpl; eauto.
  - eexists _, _. split; [done|]. done.
  - case_match eqn:L; eexists _, _; (split; [done|]); simpl; intros.
    + lia.
    + apply Nat.leb_gt in L. rewrite length_drop. lia.
Qed.

Lemma receive_small n s s' b : receive n s = (s', Ok (Data b)) -> (length b <= n)%nat.
Proof.
  unfold receive. destruct (inbox s) as [|[c| |m] l]; [intros [= _ <-]; simpl; lia | | done | done].
  case_match eqn:L; intros [= _ <-].
  - by apply Nat.leb_le.
  - rewrite length_take. lia.
Qed.

Lemma stopping_ok s : exists s' b, stopping s = (s', Ok b) /\ inbox s' = inbox s.
Proof. unfold stopping. destruct (stops s); eauto. Qed.

(** What was delivered is a prefix of what was offered, all of it when nothing failed. *)
Lemma send_loop_spec short l : forall view out l' out' r,
  send_loop short view l out = (l', out', r) ->
  exists sent rest, view = sent ++ rest /\ out' = out ++ sent /\
    match r with Ok _ => rest = [] | Err e => exists m, e = OSError m end.
Proof.
  induction l as [|[n|m] l IH]; intros [|x view] out l' out' r; simpl; intros H.
  all: try (injection H as <- <- <-; exists [], []; rewrite (app_nil_r out); done).
  - injection H as <- <- <-. exists (x :: view), []. by rewrite app_nil_r.
  - case_match.
    + injection H as <- <- <-. exists [], (x :: view). rewrite (app_nil_r out). eauto.
    + apply IH in H as (sent & rest & E & -> & ?).
      exists (take (Z.to_nat n) (x :: view) ++ sent), rest.
      rewrite <- !app_assoc, <- E, take_drop. done.
  - injection H as <- <- <-. exists [], (x :: view). rewrite (app_nil_r out). eauto.
Qed.

Lemma send_all_spec short payload s s' r : send_all short payload s = (s', r) ->
  trace s' = trace s /\ exists sent rest, payload = sent ++ rest /\ delivered s' = delivered s ++ sent /\
    match r with Ok _ => rest = [] | Err e => exists m, e = OSError m end.
Proof.
  unfold send_all. destruct (send_loop _ _ _ _) as [[l out] r'] eqn:E. intros [= <- <-].
  apply send_loop_spec in E as (sent & rest & ? & -> & ?). simpl. split; [done|]. eauto.
Qed.

(** A network that takes whatever it is offered. *)
Lemma send_all_free short payload s : outcomes s = [] ->
  send_all short payload s = ({| outcomes := []; delivered := delivered s ++ payload; trace := trace s |}, Ok tt).
Proof. unfold send_all. intros ->. by destruct payload. Qed.

(** ** Segments: a stream cut into non-empty pieces. *)
Definition segments (l : list bytes) : Incoming := {| inbox := map Segment l; stops := [] |}.
