(* ===== verification/ArchiveEvidence.v ===== *)
(** What an archive says of the evidence in it:
    [summarise_evidence] and the report of [src/ics_deception/pqc_evidence/archive.py].

    The file is read twice - once to fill the manifest, once by the collector - and the two
    readings are separate arguments. *)
From S2P Require Import Prelude PyText PyStr Json JsonFacts JsonScan Hashes IsoTime Canonicalizer Models CryptoBackend EventChain KeyRegistry Verifier Collector.

(** ** The trust report *)

(** [details["verification"]] *)
Record VerificationCounts := {
  vc_total : Z;
  vc_verified : Z;
  vc_failed : Z;
  vc_malformed : Z;
  vc_alerts : gmap string Z;
}.

(** [ArchiveTrust]; an error is its code, the texts of errors and warnings are left out. *)
Record ArchiveTrust := {
  container_authenticated : bool;
  plaintext_hash_verified : bool;
  evidence_format_valid : bool;
  evidence_signatures_verified : bool;
  evidence_chain_verified : bool;
  node_identity_verified : bool;
  errors : list string;
  warnings : nat;
  verification : option VerificationCounts;
  created : option bool;          (* details["created"]["strict"] *)
}.

Definition new_trust : ArchiveTrust := {|
  container_authenticated := false; plaintext_hash_verified := false; evidence_format_valid := false;
  evidence_signatures_verified := false; evidence_chain_verified := false; node_identity_verified := false;
  errors := []; warnings := 0; verification := None; created := None |}.

Definition fully_verified (t : ArchiveTrust) : bool :=
  container_authenticated t && plaintext_hash_verified t && evidence_format_valid t &&
  evidence_signatures_verified t && evidence_chain_verified t && node_identity_verified t.

Definition fail (code : string) (t : ArchiveTrust) : ArchiveTrust := {|
  container_authenticated := container_authenticated t; plaintext_hash_verified := plaintext_hash_verified t;
  evidence_format_valid := evidence_format_valid t; evidence_signatures_verified := evidence_signatures_verified t;
  evidence_chain_verified := evidence_chain_verified t; node_identity_verified := node_identity_verified t;
  errors := errors t ++ [code]; warnings := warnings t; verification := verification t; created := created t |}.

Definition fail_if (c : bool) (code : string) (t : ArchiveTrust) : ArchiveTrust := if c then fail code t else t.

(** ** The first pass *)
Record Summary := {
  sm_first_sequence : Z;
  sm_last_sequence : Z;
  sm_event_count : Z;
  sm_chain_final_hash : str;
  sm_nodes : list str;
  sm_key_ids : list str;
}.

(** The local variables of the loop. *)
Record Scan := {
  sc_first : option Z;
  sc_last : option Z;
  sc_final_hash : str;
  sc_count : Z;
  sc_nodes : gset str;
  sc_keys : gset str;
  sc_trust : ArchiveTrust;
}.

Definition start_scan : Scan := {|
  sc_first := None; sc_last := None; sc_final_hash := []; sc_count := 0;
  sc_nodes := ∅; sc_keys := ∅; sc_trust := new_trust |}.

Definition counted (s : Scan) : Scan := {|
  sc_first := sc_first s; sc_last := sc_last s; sc_final_hash := sc_final_hash s; sc_count := sc_count s + 1;
  sc_nodes := sc_nodes s; sc_keys := sc_keys s; sc_trust := sc_trust s |}.

Definition unparsable (strict : bool) (s : Scan) : Scan := {|
  sc_first := sc_first s; sc_last := sc_last s; sc_final_hash := sc_final_hash s; sc_count := sc_count s;
  sc_nodes := sc_nodes s; sc_keys := sc_keys s;
  sc_trust := fail_if strict "unparsable_record" (sc_trust s) |}.

(** [min]/[max] with [None] for nothing seen. *)
Definition seen_with (f : Z -> Z -> Z) (o : option Z) (n : Z) : option Z :=
  Some (match o with None => n | Some m => f m n end).

Definition add_text (v : value) (s : gset str) : gset str :=
  match v with VStr x => {[x]} ∪ s | _ => s end.

(** What a JSON object adds. *)
Definition note_record (d : dict) (s : Scan) : Scan := {|
  sc_first := match get_or d "sequence" VNone with VInt n => seen_with Z.min (sc_first s) n | _ => sc_first s end;
  sc_last := match get_or d "sequence" VNone with VInt n => seen_with Z.max (sc_last s) n | _ => sc_last s end;
  sc_final_hash := match get_or d "event_hash" VNone with VStr h => h | _ => sc_final_hash s end;
  sc_count := sc_count s;
  sc_nodes := add_text (get_or d "node_id" VNone) (sc_nodes s);
  sc_keys := add_text (get_or d "key_id" VNone) (sc_keys s);
  sc_trust := sc_trust s |}.

(** Text mode, UTF-8 with replacement. *)
Definition open_text (f : registry_file) : res (list str) :=
  match f with
  | Content b => Ok (text_lines (utf8_decode_replace b))
  | _ => Err (OSError "cannot open evidence file")
  end.

Definition sorted_set (s : gset str) : list str := sort_by str_ltb (elements s).

Definition summary_of (s : Scan) : Summary := {|
  sm_first_sequence := default 0 (sc_first s); sm_last_sequence := default 0 (sc_last s);
  sm_event_count := sc_count s; sm_chain_final_hash := sc_final_hash s;
  sm_nodes := sorted_set (sc_nodes s); sm_key_ids := sorted_set (sc_keys s) |}.

Definition signature_alerts : list string :=
  ["pqc_invalid_signature"; "pqc_unknown_key"; "pqc_unknown_node"; "pqc_revoked_key"; "pqc_expired_key";
   "pqc_unsupported_algorithm"]%string.
Definition chain_alerts : list string :=
  ["pqc_sequence_gap"; "pqc_previous_hash_mismatch"; "pqc_duplicate_sequence"; "pqc_replayed_event";
   "pqc_chain_reset"; "pqc_event_hash_mismatch"]%string.

(** [alerts & set(counts)] *)
Definition raised (alerts : list string) (counts : gmap string Z) : bool :=
  existsb (fun a => bool_decide (is_Some (counts !! a))) alerts.

Definition DEFAULT_MAX_RESULTS := 10000.

Section Summarise.
Context (env : Environ) (backends : list (str * CryptoBackend)) (lim : nat).

(** The body of the first loop. *)
Definition scan_line (strict : bool) (s : Scan) (raw : str) : res Scan :=
  let text := strip raw in
  if str_eqb text [] then Ok s
  else
    let s := counted s in
    match loads default_hooks lim text with
    | Ok (VDict d) => Ok (note_record d s)
    | Ok _ | Err (JSONDecodeError | ValueError _) => Ok (unparsable strict s)
    | Err e => Err e
    end.

(** What the collector's report fills in. *)
Definition fill_trust (s : Summary) (report : StreamReport) (t : ArchiveTrust) : ArchiveTrust := {|
  container_authenticated := container_authenticated t; plaintext_hash_verified := plaintext_hash_verified t;
  evidence_format_valid := (sr_malformed report =? 0) && (0 <? sr_total report);
  evidence_signatures_verified := negb (raised signature_alerts (sr_alert_counts report));
  evidence_chain_verified := negb (raised chain_alerts (sr_alert_counts report));
  node_identity_verified := (zlen (sm_nodes s) =? 1) && (1 <=? zlen (sm_key_ids s));
  errors := errors t; warnings := warnings t;
  verification := Some {| vc_total := sr_total report; vc_verified := sr_verified report;
    vc_failed := sr_failed report; vc_malformed := sr_malformed report; vc_alerts := sr_alert_counts report |};
  created := created t |}.

Definition strict_errors (s : Summary) (report : StreamReport) (t : ArchiveTrust) : ArchiveTrust :=
  fail_if (1 <? zlen (sm_nodes s)) "mixed_node_log"
    (fail_if (negb (sr_failed report =? 0)) "invalid_evidence"
      (fail_if (negb (sr_malformed report =? 0)) "malformed_evidence"
        (fail_if (sr_total report =? 0) "empty_evidence" t))).

(** [stream_lines] *)
Definition stream_lines (lines : list str) : list text_input :=
  map TStr (List.filter (fun text => negb (str_eqb text [])) (map strip lines)).

Definition summarise_evidence (first_read second_read : registry_file) (registry : option KeyRegistry)
    (strict : bool) (max_record_bytes : option Z) : res (Summary * ArchiveTrust) :=
  require (negb (strict && bool_decide (registry = None)))
    (ArchiveError "registry_required" "strict mode requires a trusted-node registry") ;;
  collector ← match registry with
              | None => Ok None
              | Some r =>
                c ← new_collector r None DEFAULT_MAX_RESULTS
                  (match max_record_bytes with None | Some 0 => MAX_EVIDENCE_BYTES | Some n => n end) false;
                Ok (Some c)
              end;
  lines ← open_text first_read;
  s ← fold_res (scan_line strict) start_scan lines;
  let summary := summary_of s in
  match collector with
  | None => Ok (summary, sc_trust s)
  | Some c =>
    again ← open_text second_read;
    report ← verify_stream env backends lim c (stream_lines again);
    let t := fill_trust summary report (sc_trust s) in
    Ok (summary, if strict then strict_errors summary report t else t)
  end.
End Summarise.
