(* ===== verification/ArchiveEvidenceFacts.v ===== *)
(** Facts on what an archive says of its evidence: the first pass over a good log sees the
    records the collector sees, so a strict summary and a clean report mean one unbroken,
    signed chain of a single node. *)
From S2P Require Import Prelude PyText PyStr Json JsonFacts JsonScan Hashes IsoTime Canonicalizer Models CryptoBackend EventChain KeyRegistry Verifier Collector ArchiveEvidence.

(** ** Lenient and strict reading agree where the strict one succeeds *)

(** [m] succeeds as [m'] does. *)
Definition refines {A} (m m' : res A) : Prop := forall a, m = Ok a -> m' = Ok a.

Lemma refines_bind {A B} (m m' : res A) (f f' : A -> res B) :
  refines m m' -> (forall a, refines (f a) (f' a)) -> refines (m ≫= f) (m' ≫= f').
Proof. intros Hm Hf b (a & E & F)%bind_ok. apply bind_ok. exists a. split; [by apply Hm | by apply Hf]. Qed.

Lemma refines_refl {A} (m : res A) : refines m m.
Proof. by intros a. Qed.

Lemma pairs_refine ps : refines (h_pairs evidence_hooks ps) (h_pairs default_hooks ps).
Proof.
  intros v. simpl. unfold reject_duplicate_keys. destruct (has_duplicate [] ps) eqn:D; [done|]. intros [= <-].
  apply has_duplicate_spec in D as [N _]. rewrite !dict_of_pairs_nodup by done. done.
Qed.

Lemma const_refine c r : refines (v ← h_const evidence_hooks c; Ok (v, r)) (v ← h_const default_hooks c; Ok (v : value, r : str)).
Proof. done. Qed.

Lemma scan_refines n :
  (forall lim s, refines (scan evidence_hooks n lim s) (scan default_hooks n lim s)) /\
  (forall lim s, refines (scan_elems evidence_hooks n lim s) (scan_elems default_hooks n lim s)) /\
  (forall lim s, refines (scan_members evidence_hooks n lim s) (scan_members default_hooks n lim s)).
Proof.
  induction n as [|n (IHv & IHe & IHm)]; [done|]. split_and!; intros lim s.
  - cbn [scan]. destruct s as [|c r]; [done|]. destruct (c =? 34); [apply refines_refl|].
    destruct (c =? 123).
    { destruct lim as [|lim]; [done|]. destruct (eat 125 (skip_ws r)).
      - apply refines_bind; [apply pairs_refine | intros v; apply refines_refl].
      - apply refines_bind; [apply IHm|]. intros [ps r']. apply refines_bind; [apply pairs_refine | intros v; apply refines_refl]. }
    destruct (c =? 91).
    { destruct lim as [|lim]; [done|]. destruct (eat 93 (skip_ws r)); [apply refines_refl|].
      apply refines_bind; [apply IHe | intros [vs r']; apply refines_refl]. }
    repeat (case_match; [first [apply const_refine | apply refines_refl]|]). apply refines_refl.
  - cbn [scan_elems]. apply refines_bind; [apply IHv|]. intros [v r]. destruct (skip_ws r) as [|c r']; [done|].
    destruct (c =? 93); [apply refines_refl|]. destruct (c =? 44); [|done].
    apply refines_bind; [apply IHe | intros [vs r'']; apply refines_refl].
  - cbn [scan_members]. destruct s as [|q s1]; [done|]. destruct (q =? 34); [|done].
    apply refines_bind; [apply refines_refl|]. intros [k r0]. destruct (skip_ws r0) as [|col r1]; [done|].
    destruct (col =? 58); [|done]. apply refines_bind; [apply IHv|]. intros [v r].
    destruct (skip_ws r) as [|c r']; [done|]. destruct (c =? 125); [apply refines_refl|]. destruct (c =? 44); [|done].
    apply refines_bind; [apply IHm | intros [ps r'']; apply refines_refl].
Qed.

Lemma loads_refines lim s : refines (loads evidence_hooks lim s) (loads default_hooks lim s).
Proof.
  unfold loads. destruct (starts_with [0xFEFF] s); [done|]. apply refines_bind; [apply scan_refines|].
  intros [v r]. apply refines_refl.
Qed.

(** ** The lines of a file *)
Lemma split_lines_range (P : Z -> Prop) n : forall s cur, (length s <= n)%nat -> Forall P s -> Forall P cur ->
  Forall (Forall P) (split_lines_aux s cur).
Proof.
  induction n as [|n IH]; intros s cur Hn Hs Hc; (destruct s as [|c s]; [|simpl in Hn; try lia]).
  1, 2: simpl; destruct cur; constructor; [by apply Forall_rev | constructor].
  apply Forall_cons in Hs as [Hc0 Hs]. cbn [split_lines_aux].
  assert (Forall (Forall P) (split_lines_aux s (c :: cur))) as G by (apply IH; [lia | done | by constructor]).
  assert (Forall (Forall P) (rev cur :: split_lines_aux s [])) as R.
  { constructor; [by apply Forall_rev|]. apply IH; [lia | done | constructor]. }
  assert (match s with 10 :: r => Forall (Forall P) (rev cur :: split_lines_aux r []) | _ => True end) as R2.
  { destruct s as [|d r]; [done|]. assert (Forall (Forall P) (rev cur :: split_lines_aux r [])) as Q.
    { constructor; [by apply Forall_rev|]. apply Forall_cons in Hs as [_ Hs]. apply IH; [simpl in Hn; lia | done | constructor]. }
    repeat case_match; done. }
  repeat case_match; subst; done.
Qed.

Lemma lines_range b : Bytes b -> Forall (fun l => cps l = true) (text_lines (utf8_decode_replace b)).
Proof.
  intros Hb. unfold text_lines. eapply Forall_impl; [|intros l; apply cps_Forall].
  apply (split_lines_range _ _ _ _ (le_n _)); [|constructor]. unfold utf8_decode_replace. apply Forall_map.
  eapply Forall_impl; [apply (utf8_units_range _ _ (le_n _) Hb)|]. intros [c|]; simpl; lia.
Qed.

Lemma drop_while_head p l : match drop_while p l with x :: _ => p x = false | [] => True end.
Proof. induction l as [|x l IH]; [done|]. simpl. by destruct (p x) eqn:E. Qed.

Lemma drop_while_id p l : match l with x :: _ => p x = false | [] => True end -> drop_while p l = l.
Proof. destruct l; [done|]. simpl. by intros ->. Qed.

Lemma drop_while_suffix p l : exists a, l = a ++ drop_while p l.
Proof.
  induction l as [|x l [a IH]]; [by exists []|]. simpl. destruct (p x); [|by exists []]. exists (x :: a). simpl. by rewrite <- IH.
Qed.

Lemma strip_with_idem p l : strip_with p (strip_with p l) = strip_with p l.
Proof.
  unfold strip_with. set (t := drop_while p l). destruct (drop_while_suffix p (rev t)) as [a E].
  pose proof (drop_while_head p (rev t)) as H. set (u := drop_while p (rev t)) in *.
  assert (drop_while p (rev u) = rev u) as ->.
  { apply drop_while_id. pose proof (drop_while_head p l) as Ht. fold t in Ht.
    assert (t = rev u ++ rev a) as Et by (rewrite <- (rev_involutive t), E, rev_app_distr; done).
    destruct (rev u); [done|]. rewrite Et in Ht. done. }
  rewrite rev_involutive. f_equal. by apply drop_while_id.
Qed.

Lemma strip_idem s : strip (strip s) = strip s.
Proof. apply strip_with_idem. Qed.

(** ** The first pass over records *)
Section Pass.
Context (env : Environ) (backends : list (str * CryptoBackend)) (lim : nat) (c : EvidenceCollector).

(** What a record adds to the scan. *)
Definition note_event (s : Scan) (e : SignedEvent) : Scan := {|
  sc_first := seen_with Z.min (sc_first s) (se_sequence e); sc_last := seen_with Z.max (sc_last s) (se_sequence e);
  sc_final_hash := se_event_hash e; sc_count := sc_count s + 1;
  sc_nodes := {[se_node_id e]} ∪ sc_nodes s; sc_keys := {[se_key_id e]} ∪ sc_keys s; sc_trust := sc_trust s |}.

Lemma reads_note strict raw e s : cps raw = true -> strip raw <> [] -> reads lim c (TStr raw) e ->
  scan_line lim strict s raw = Ok (note_event s e).
Proof.
  intros Hr Hn R. unfold reads, parse_signed_event_json in R. cbn [strip_text raw_of] in R.
  apply bind_ok in R as (b & Hb & R). unfold try_with in Hb. destruct (utf8_encode (strip raw)) as [b'|] eqn:Eb; [|done].
  injection Hb as ->. apply bind_ok in R as (u & _ & R). apply bind_ok in R as (decoded & Hd & R).
  rewrite (utf8_decode_encode (strip raw) b) in Hd; [|apply cps_Forall; apply (strip_range (TStr raw) Hr) | done].
  injection Hd as <-. apply bind_ok in R as (data & Hl & R). unfold try_with in Hl.
  destruct (loads evidence_hooks lim (strip raw)) as [v|x] eqn:El; [|by destruct x]. injection Hl as ->.
  destruct (parse_inv _ _ _ R) as (_ & d & b' & -> & _ & G & _). unfold scan_line.
  rewrite (proj2 (str_eqb_neq _ _) Hn), (loads_refines _ _ _ El). cbv zeta. f_equal. unfold note_record, note_event.
  unfold to_items in G. repeat (apply Forall_cons in G as [?G G]). simpl in *. unfold get_or.
  repeat match goal with H : dict_get d (lit ?k) = Some _ |- context [dict_get d (lit ?k)] => rewrite H end. done.
Qed.

(** A file every line of which reads as a record. *)
Lemma scan_good strict lines : forall es s, Forall (fun l => cps l = true) lines ->
  Forall2 (reads lim c) (stream_lines lines) es ->
  fold_res (scan_line lim strict) s lines = Ok (fold_left note_event es s).
Proof.
  induction lines as [|raw lines IH]; intros es s Hc F.
  { unfold stream_lines in F. simpl in F. by inversion F. }
  apply Forall_cons in Hc as [Hr Hc]. unfold stream_lines in F. cbn [map List.filter] in F. cbn [fold_res].
  destruct (str_eqb (strip raw) []) eqn:E; cbn [negb] in F.
  - unfold scan_line. rewrite E. cbn [mbind res_bind]. by apply IH.
  - cbn [map] in F. apply Forall2_cons_inv_l in F as (e & es' & Re & F & ->). apply str_eqb_neq in E.
    rewrite (reads_note strict raw e s Hr E); [cbn [mbind res_bind fold_left]; by apply IH|].
    unfold reads in *. cbn [strip_text] in *. by rewrite strip_idem in Re.
Qed.

Lemma scan_nodes es : forall s n, n ∈ sc_nodes (fold_left note_event es s) <->
  n ∈ sc_nodes s \/ exists e, e ∈ es /\ se_node_id e = n.
Proof.
  induction es as [|e es IH]; intros s n; cbn [fold_left]; [set_solver|]. rewrite IH. unfold note_event. simpl.
  setoid_rewrite elem_of_cons. set_solver.
Qed.

Lemma scan_keys es : forall s k, k ∈ sc_keys s -> k ∈ sc_keys (fold_left note_event es s).
Proof. induction es as [|e es IH]; intros s k H; [done|]. apply IH. simpl. set_solver. Qed.

Lemma scan_rest es : forall s, let s' := fold_left note_event es s in
  sc_count s' = sc_count s + zlen es /\ sc_trust s' = sc_trust s /\
  sc_final_hash s' = match last es with Some e => se_event_hash e | None => sc_final_hash s end.
Proof.
  induction es as [|e es IH]; intros s; cbv zeta in *; cbn [fold_left]; [rewrite (@zlen_nil SignedEvent); split_and!; [lia | done..]|].
  destruct (IH (note_event s e)) as (-> & -> & ->). rewrite last_cons, zlen_cons. simpl. split_and!; [lia | done|].
  by destruct (last es).
Qed.

(** Over a chain from number [n] on, the range of the sequence numbers is the chain's. *)
Lemma scan_range es : forall n p s, chain n p es -> es <> [] ->
  sc_first (fold_left note_event es s) = Some (match sc_first s with Some m => Z.min m n | None => n end) /\
  sc_last (fold_left note_event es s) = Some (match sc_last s with Some m => Z.max m (n + zlen es - 1) | None => n + zlen es - 1 end).
Proof.
  induction es as [|e es IH]; intros n p s H N; [done|]. clear N. destruct H as (E & _ & _ & C). cbn [fold_left]. rewrite zlen_cons.
  destruct es as [|f es].
  - simpl. rewrite E. rewrite (@zlen_nil SignedEvent). replace (n + (1 + 0) - 1) with n by lia. done.
  - destruct (IH (n + 1) _ (note_event s e) C ltac:(done)) as [-> ->]. unfold note_event. cbn [sc_first sc_last]. rewrite E.
    pose proof (zlen_nonneg (f :: es)). unfold seen_with.
    split; f_equal; [destruct (sc_first s) | destruct (sc_last s)]; lia.
Qed.
End Pass.

(** ** Clean reports *)
Section Reports.
Context (env : Environ) (backends : list (str * CryptoBackend)) (lim : nat) (c : EvidenceCollector).
Notation step := (stream_step env backends lim c).

(** No failure counted, none reported. *)
Definition tallied (p : StreamReport) : Prop :=
  0 <= sr_failed p /\ 0 <= sr_malformed p /\ (sr_valid p = true <-> sr_failed p = 0).

Lemma tallied_failed m p : tallied p -> tallied (count_failed m p).
Proof. intros (A & B & C). split_and!; simpl; [lia | destruct m; lia | split; [done | lia]]. Qed.

Lemma step_tallied p ts raw p' ts' : step (p, ts) raw = Ok (p', ts') -> tallied p -> tallied p'.
Proof.
  intros H T. unfold stream_step in H. destruct (blank (strip_text raw)); [by injection H as <- <-|].
  destruct (_ <? _); [injection H as <- <-; by apply (tallied_failed true (count_line p))|].
  apply bind_ok in H as ([r o] & _ & H). destruct o as [e|]; [|injection H as <- <-; by apply (tallied_failed true (count_line p))].
  unfold stream_event in H. cbv zeta in H. apply bind_ok in H as (r1 & _ & H). destruct (note _ e) as [noted alerts].
  apply bind_ok in H as (moved & _ & [= <- <-]).
  assert (tallied (if vr_valid (fold_left add_error alerts r1) then count_verified (count_line p)
    else count_failed false (count_line p))) as G by (case_match; [done | by apply (tallied_failed false (count_line p))]).
  exact G.
Qed.

Lemma fold_tallied lines : forall p ts p' ts', fold_res step (p, ts) lines = Ok (p', ts') -> tallied p -> tallied p'.
Proof.
  induction lines as [|raw lines IH]; intros p ts p' ts' H T; [by injection H as <- <-|].
  apply bind_ok in H as ([p1 ts1] & H1 & H). eapply IH; [exact H | by eapply step_tallied].
Qed.

Lemma report_tallied lines rep : verify_stream env backends lim c lines = Ok rep -> tallied rep.
Proof. intros ([p ts] & H & [= <-])%bind_ok. by apply (fold_tallied _ _ _ _ _ H). Qed.

(** A verified record raises no alert. *)
Lemma step_quiet p ts raw p' ts' : step (p, ts) raw = Ok (p', ts') -> sr_valid p' = true ->
  sr_valid p = true /\ sr_alert_counts p' = sr_alert_counts p.
Proof.
  unfold stream_step. intros H Hv. destruct (blank (strip_text raw)); [by injection H as <- <-|].
  destruct (_ <? _); [by injection H as <- <-|].
  apply bind_ok in H as ([r o] & Hl & H). destruct o as [e|]; [|by injection H as <- <-].
  apply verify_line_some in Hl as [Hp Hr].
  destruct (stream_event_valid _ _ _ _ _ _ _ _ _ Hr H Hv) as (V & S & L & Ra & _). split; [exact V|].
  rewrite (verify_event_complete _ _ _ _ S) in Hr. injection Hr as <-.
  unfold stream_event in H. cbv zeta in H. rewrite (check_chain_links _ _ _ L) in H. cbn [mbind res_bind] in H.
  destruct (note _ e) as [noted alerts]. apply bind_ok in H as (moved & _ & [= <- <-]). revert Hv.
  destruct (vr_valid (fold_left add_error alerts (event_result e))) eqn:E; [|done]. intros _.
  apply add_errors_valid in E as [-> _]. done.
Qed.

Lemma report_quiet lines rep : verify_stream env backends lim c lines = Ok rep -> sr_valid rep = true ->
  sr_alert_counts rep = ∅.
Proof.
  intros ([p ts] & H & [= <-])%bind_ok Hv. simpl in *.
  enough (forall p0 ts0, fold_res step (p0, ts0) lines = Ok (p, ts) -> sr_valid p0 = true /\ sr_alert_counts p = sr_alert_counts p0) as G
    by (by apply (G empty_report ∅)).
  clear H. induction lines as [|raw lines IH]; intros p0 ts0 H; [by injection H as <- <-|].
  apply bind_ok in H as ([p1 ts1] & H1 & H). destruct (IH _ _ H) as [V1 ->]. by eapply step_quiet.
Qed.

Lemma raised_empty l : raised l ∅ = false.
Proof. induction l as [|a l IH]; [done|]. unfold raised in *. cbn [existsb]. by rewrite IH, lookup_empty. Qed.
End Reports.

Lemma sorted_set_size (X : gset str) : zlen (sorted_set X) = Z.of_nat (size X).
Proof. unfold sorted_set, zlen. by rewrite sort_by_perm. Qed.
Lemma sorted_set_elem (X : gset str) n : n ∈ sorted_set X <-> n ∈ X.
Proof. unfold sorted_set. rewrite sort_by_perm. apply elem_of_elements. Qed.

Lemma size_le_1_elem (X : gset str) x y : Z.of_nat (size X) <= 1 -> x ∈ X -> y ∈ X -> x = y.
Proof. intros L Hx Hy. apply (size_singleton_inv X); [|done..].
  assert (size X <> 0%nat) by (intros E; apply size_empty_inv in E; set_solver). lia. Qed.

Lemma sorted_set_singleton (X : gset str) n : (forall x, x ∈ X <-> x = n) -> sorted_set X = [n].
Proof. intros H. assert (X = {[n]}) as -> by set_solver. unfold sorted_set. by rewrite elements_singleton. Qed.

(** ** Clean evidence of one node *)

(** The evidence file is one node's whole chain, every record of it sound. *)
Record clean_evidence (env : Environ) (backends : list (str * CryptoBackend)) (lim : nat) (c : EvidenceCollector)
    (b : bytes) (node_id : str) (es : list SignedEvent) : Prop := {
  ce_log : good_log env backends lim c (stream_lines (text_lines (utf8_decode_replace b))) es;
  ce_some : es <> [];
  ce_node : Forall (fun e => se_node_id e = node_id) es;
  ce_chain : valid_chain node_id es;
}.

(** What the manifest of such a file says. *)
Record describes (node_id : str) (es : list SignedEvent) (s : Summary) : Prop := {
  ds_first : sm_first_sequence s = FIRST_SEQUENCE;
  ds_last : sm_last_sequence s = zlen es;
  ds_count : sm_event_count s = zlen es;
  ds_hash : Some (sm_chain_final_hash s) = se_event_hash <$> last es;
  ds_nodes : sm_nodes s = [node_id];
}.

Section Clean.
Context (env : Environ) (backends : list (str * CryptoBackend)) (lim : nat).

Lemma stream_lines_nonblank l : nonblank (stream_lines l) = stream_lines l.
Proof.
  induction l as [|x l IH]; [done|]. unfold stream_lines, nonblank in *. cbn [map List.filter].
  destruct (str_eqb (strip x) []) eqn:E; cbn [negb map List.filter]; [done|]. rewrite IH.
  unfold blank. cbn [strip_text text_len]. rewrite strip_idem. apply str_eqb_neq in E.
  destruct (strip x) as [|y s]; [done|]. rewrite zlen_cons. pose proof (zlen_nonneg s). by rewrite (proj2 (Z.eqb_neq _ _)) by lia.
Qed.

(** One pass of the collector without a failure, and the first pass agrees with it. *)
Lemma clean_summary c strict b rep s : Bytes b ->
  verify_stream env backends lim c (stream_lines (text_lines (utf8_decode_replace b))) = Ok rep ->
  sr_failed rep = 0 -> 0 < sr_total rep ->
  fold_res (scan_line lim strict) start_scan (text_lines (utf8_decode_replace b)) = Ok s ->
  zlen (sm_nodes (summary_of s)) <= 1 ->
  exists n es, clean_evidence env backends lim c b n es /\ describes n es (summary_of s) /\
    sc_trust s = new_trust /\ sr_malformed rep = 0 /\ sr_alert_counts rep = ∅ /\ sm_key_ids (summary_of s) <> [].
Proof.
  intros Hb V F P Sc N. destruct (report_tallied _ _ _ _ _ _ V) as (_ & _ & [_ Tv]). specialize (Tv F).
  destruct (stream_sound _ _ _ _ _ _ V Tv) as (es & G & T & _ & _ & M).
  pose proof (gl_reads _ _ _ _ _ _ G) as R. rewrite stream_lines_nonblank in R.
  rewrite (scan_good lim c strict _ es start_scan (lines_range b Hb) R) in Sc. injection Sc as <-.
  destruct (scan_rest es start_scan) as (C1 & C2 & C3). cbv zeta in C1, C2, C3.
  destruct es as [|e es]; [rewrite T, (@zlen_nil SignedEvent) in P; lia|]. set (n := se_node_id e).
  set (all := e :: es) in *. set (s := fold_left note_event all start_scan) in *.
  assert (forall f, f ∈ all -> se_node_id f = n) as Hn.
  { intros f Hf. unfold summary_of in N. cbn [sm_nodes] in N. rewrite sorted_set_size in N.
    apply (size_le_1_elem (sc_nodes s)); [done| |].
    - apply scan_nodes. right. eauto.
    - apply scan_nodes. right. exists e. split; [left | done]. }
  assert (events_of n all = all) as En.
  { unfold events_of. clear -Hn. induction all as [|x l IH]; [done|]. cbn [List.filter].
    rewrite (Hn x ltac:(left)), str_eqb_refl. f_equal. apply IH. intros f Hf. apply Hn. by right. }
  pose proof (gl_chained _ _ _ _ _ _ G n) as Ch. rewrite En in Ch. specialize (Ch ltac:(done)).
  exists n, all. split; [split; [done | done | by apply Forall_forall | done]|].
  destruct Ch as (g & Hg & Ch). destruct (scan_range all _ _ start_scan Ch ltac:(done)) as [R1 R2]. fold s in R1, R2.
  split_and!; [| done | done | by apply (report_quiet _ _ _ _ _ _ V) |].
  - split; unfold summary_of; cbn [sm_first_sequence sm_last_sequence sm_event_count sm_chain_final_hash sm_nodes].
    + by rewrite R1.
    + rewrite R2. simpl. unfold FIRST_SEQUENCE. lia.
    + rewrite C1. simpl. lia.
    + rewrite C3. destruct (last all) eqn:El; [done|]. by apply last_None in El.
    + apply sorted_set_singleton. intros x. unfold s. rewrite scan_nodes. simpl. split.
      * intros [?|(f & Hf & <-)]; [set_solver | by apply Hn].
      * intros ->. right. exists e. split; [left | done].
  - intros E. assert (se_key_id e ∈ sm_key_ids (summary_of s)) as K; [|rewrite E in K; by apply elem_of_nil in K].
    unfold summary_of. cbn [sm_key_ids]. apply sorted_set_elem. unfold s, all. cbn [fold_left]. apply scan_keys. set_solver.
Qed.
End Clean.

Lemma errors_fail_if c k t : errors (fail_if c k t) = errors t ++ (if c then [k] else []).
Proof. destruct c; simpl; [done | by rewrite app_nil_r]. Qed.

Section Summaries.
Context (env : Environ) (backends : list (str * CryptoBackend)) (lim : nat).

(** The collector [summarise_evidence] makes. *)
Definition own_collector (R : KeyRegistry) : res EvidenceCollector :=
  new_collector R None DEFAULT_MAX_RESULTS MAX_EVIDENCE_BYTES false.

Notation file_lines b := (text_lines (utf8_decode_replace b)).

Lemma summarise_inv b b' R strict s t :
  summarise_evidence env backends lim (Content b) (Content b') (Some R) strict None = Ok (s, t) <->
  exists c sc rep, own_collector R = Ok c /\
    fold_res (scan_line lim strict) start_scan (file_lines b) = Ok sc /\
    verify_stream env backends lim c (stream_lines (file_lines b')) = Ok rep /\ s = summary_of sc /\
    t = (if strict then strict_errors (summary_of sc) rep else id) (fill_trust (summary_of sc) rep (sc_trust sc)).
Proof.
  unfold summarise_evidence. rewrite andb_false_r. cbn [negb require mbind res_bind open_text]. fold (own_collector R).
  destruct (own_collector R) as [c|e]; cbn [mbind res_bind]; [|split; [done | by intros (? & ? & ? & ? & _)]].
  destruct (fold_res _ _ _) as [sc|e]; cbn [mbind res_bind]; [|split; [done | by intros (? & ? & ? & _ & ? & _)]].
  destruct (verify_stream _ _ _ _ _) as [rep|e] eqn:V; cbn [mbind res_bind].
  - split.
    + intros [= <- <-]. exists c, sc, rep. split_and!; try done. by destruct strict.
    + intros (c' & sc' & rep' & [= <-] & [= <-] & V' & -> & ->). rewrite V in V'. injection V' as <-. by destruct strict.
  - split; [done|]. intros (c' & sc' & rep' & [= <-] & _ & V' & _). by rewrite V in V'.
Qed.

(** What a strict summary without errors has seen, and what a later look at the same bytes
    reports. *)
Lemma strict_clean b R s t : Bytes b ->
  summarise_evidence env backends lim (Content b) (Content b) (Some R) true None = Ok (s, t) -> errors t = [] ->
  exists c n es, own_collector R = Ok c /\ clean_evidence env backends lim c b n es /\ describes n es s /\
    exists t', summarise_evidence env backends lim (Content b) (Content b) (Some R) false None = Ok (s, t') /\
      errors t' = [] /\ evidence_format_valid t' = true /\ evidence_signatures_verified t' = true /\
      evidence_chain_verified t' = true.
Proof.
  intros Hb (c & sc & rep & Hc & Sc & V & -> & ->)%summarise_inv He. unfold strict_errors in He.
  rewrite !errors_fail_if in He.
  apply app_nil in He as [He H1]. apply app_nil in He as [He H2]. apply app_nil in He as [He H3]. apply app_nil in He as [He H4].
  destruct (Z.ltb_spec 1 (zlen (sm_nodes (summary_of sc)))) as [|N]; [done|].
  destruct (Z.eqb_spec (sr_failed rep) 0) as [F|]; [|done]. destruct (Z.eqb_spec (sr_total rep) 0) as [|T]; [done|].
  assert (0 < sr_total rep) as P.
  { destruct (report_tallied _ _ _ _ _ _ V) as (_ & _ & [_ Tv]).
    destruct (stream_sound _ _ _ _ _ _ V (Tv F)) as (es & _ & Te & _). pose proof (zlen_nonneg es). lia. }
  destruct (clean_summary _ _ _ _ _ _ _ _ Hb V F P Sc N) as (n & es & C & D & Tr & M & A & K).
  exists c, n, es. split_and!; try done.
  assert (fold_res (scan_line lim false) start_scan (file_lines b) = Ok sc) as Sc'.
  { pose proof (gl_reads _ _ _ _ _ _ (ce_log _ _ _ _ _ _ _ C)) as G. rewrite stream_lines_nonblank in G.
    rewrite (scan_good lim c true _ _ _ (lines_range b Hb) G) in Sc. by rewrite (scan_good lim c false _ _ _ (lines_range b Hb) G). }
  eexists. split; [apply summarise_inv; by exists c, sc, rep|]. unfold id, fill_trust.
  cbn [errors evidence_format_valid evidence_signatures_verified evidence_chain_verified]. rewrite Tr, A, M, !raised_empty.
  by rewrite (proj2 (Z.ltb_lt _ _) P).
Qed.

(** A summary that counts no failed record, format valid, one node. *)
Lemma counted_clean b R s t v n : Bytes b ->
  summarise_evidence env backends lim (Content b) (Content b) (Some R) false None = Ok (s, t) ->
  evidence_format_valid t = true -> verification t = Some v -> vc_failed v = 0 -> sm_nodes s = [n] ->
  exists c es, own_collector R = Ok c /\ clean_evidence env backends lim c b n es /\ describes n es s.
Proof.
  intros Hb (c & sc & rep & Hc & Sc & V & -> & ->)%summarise_inv Hf [= <-] F N. simpl in F. unfold id, fill_trust in Hf.
  cbn [evidence_format_valid] in Hf. apply andb_true_iff in Hf as [_ P%Z.ltb_lt].
  destruct (clean_summary _ _ _ _ _ _ _ _ Hb V F P Sc) as (n' & es & C & D & _); [by rewrite N|].
  exists c, es. rewrite (ds_nodes _ _ _ D) in N. injection N as ->. done.
Qed.
End Summaries.
