(* ===== verification/ArchiveStream.v ===== *)
(** The streams of an archive: key derivation, AES-GCM and gzip, chunk by chunk
    ([_hkdf_sha256], [_aesgcm_streaming], [_stream_decrypt] and the two passes of
    [create_archive] in [src/ics_deception/pqc_evidence/archive.py]).

    AES-GCM is the third-party package [cryptography], gzip the C library behind [zlib]:
    both are interfaces here, their laws separate classes that only the theorems which rest
    on them assume. *)
From S2P Require Import Prelude PyText Json Hashes Models EventChain.

Definition CHUNK_BYTES := 1024 * 1024.
Definition GCM_TAG_BYTES := 16.
Definition GCM_NONCE_BYTES := 12.
Definition HKDF_SALT_BYTES := 32.
Definition HKDF_INFO : bytes := lit "ics-deception/pqc-evidence/archive/v2".

(** ** HKDF (RFC 5869) *)

(** The loop: [bytes([counter])] raises above 255. *)
Fixpoint hkdf_loop (fuel : nat) (prk info block okm : bytes) (counter length_ : Z) : res bytes :=
  if zlen okm <? length_ then
    match fuel with
    | O => Err OutOfFuel
    | S fuel =>
      require (counter <? 256) (ValueError "bytes must be in range(0, 256)") ;;
      let block := hmac_sha256 prk (block ++ info ++ [counter]) in
      hkdf_loop fuel prk info block (okm ++ block) (counter + 1) length_
    end
  else Ok okm.

Definition hkdf_sha256 (shared_secret salt info : bytes) (length_ : Z) : res bytes :=
  require (length_ <=? 255 * 32) (ArchiveError "internal_error" "HKDF output length is too large") ;;
  let prk := hmac_sha256 salt shared_secret in
  okm ← hkdf_loop (Z.to_nat length_) prk info [] [] 1 length_;
  Ok (slice okm 0 length_).

(** ** Interfaces *)

(** A [Cipher] context in GCM mode. *)
Class Aead := {
  aead_ctx : Type;
  aead_start : bytes -> bytes -> bytes -> bool -> res aead_ctx;      (* key, nonce, aad, encrypt *)
  aead_update : aead_ctx -> bytes -> res (aead_ctx * bytes);
  aead_finalize : aead_ctx -> res (bytes * bytes);                   (* last bytes, tag *)
  aead_finalize_with_tag : aead_ctx -> bytes -> option bytes;        (* [None]: InvalidTag *)
}.

(** [GzipFile] with [mtime=0], fed chunk by chunk, and a [decompressobj(16 + MAX_WBITS)];
    [None] is [zlib.error]. *)
Class Zlib := {
  gzip : list bytes -> bytes;
  zctx : Type;
  z_start : zctx;
  z_decompress : zctx -> bytes -> Z -> option (zctx * bytes * bytes);  (* data, unconsumed_tail *)
  z_flush : zctx -> option bytes;
}.

(** ** Reading in chunks: [while True: chunk = reader.read(CHUNK_BYTES); if not chunk: break] *)
Fixpoint chunks_of (fuel : nat) (b : bytes) : list bytes :=
  match fuel, b with
  | O, _ | _, [] => []
  | S fuel, _ => slice b 0 CHUNK_BYTES :: chunks_of fuel (drop (Z.to_nat CHUNK_BYTES) b)
  end.
Definition chunks (b : bytes) : list bytes := chunks_of (length b) b.

(** ** A member of a ZIP file, as [zipfile] reads it *)

(** The declared size, whether it opens, the bytes it gives, and what reading past them
    raises (a failed CRC, a truncated file). *)
Record ZipInfo := {
  zi_name : str;
  zi_file_size : Z;
  zi_open : option exn;
  zi_data : bytes;
  zi_end : option exn;
}.

Definition entry (name : str) (data : bytes) : ZipInfo :=
  {| zi_name := name; zi_file_size := zlen data; zi_open := None; zi_data := data; zi_end := None |}.

Definition open_entry (i : ZipInfo) : res unit := match zi_open i with Some e => Err e | None => Ok tt end.

(** [reader.read(n)]: the bytes, and what is left. *)
Definition zread (i : ZipInfo) (n : Z) (rest : bytes) : res (bytes * bytes) :=
  match zi_end i with
  | Some e => if zlen rest <=? n then Err e else Ok (slice rest 0 n, drop (Z.to_nat n) rest)
  | None => Ok (slice rest 0 n, drop (Z.to_nat n) rest)
  end.

(** [archive.read(name)] *)
Definition read_entry (i : ZipInfo) : res bytes :=
  open_entry i ;; match zi_end i with Some e => Err e | None => Ok (zi_data i) end.

Section Streams.
Context `{Aead, Zlib}.

(** ** Creation: the two passes *)

(** Pass one: measure, hash and compress, under the limit. *)
Definition seal_step (max : Z) (st : Z * list bytes) (chunk : bytes) : res (Z * list bytes) :=
  let '(plaintext_length, fed) := st in
  let plaintext_length := plaintext_length + zlen chunk in
  require (plaintext_length <=? max) (ArchiveError "oversized" "evidence exceeded the limit while reading") ;;
  Ok (plaintext_length, fed ++ [chunk]).

Definition seal_pass (max : Z) (source : bytes) : res (Z * str * bytes) :=
  '(plaintext_length, fed) ← fold_res (seal_step max) (0, []) (chunks source);
  Ok (plaintext_length, hash_hex (concat fed), gzip fed).

(** Pass two: encrypt what pass one compressed; the tag goes behind the ciphertext. *)
Definition update_step (st : aead_ctx * bytes) (chunk : bytes) : res (aead_ctx * bytes) :=
  let '(ctx, out) := st in
  '(ctx, o) ← aead_update ctx chunk; Ok (ctx, out ++ o).

Definition encrypt_pass (aes_key nonce aad compressed : bytes) : res bytes :=
  ctx ← aead_start aes_key nonce aad true;
  '(ctx, out) ← fold_res update_step (ctx, []) (chunks compressed);
  '(last, tag) ← aead_finalize ctx;
  Ok (out ++ last ++ tag).

(** ** [_stream_decrypt] *)

(** Pass one: decrypt the body - every read gives at least a byte - then authenticate. *)
Fixpoint decrypt_body (fuel : nat) (i : ZipInfo) (remaining : Z) (rest : bytes) (ctx : aead_ctx) (out : bytes)
    : res (bytes * aead_ctx * bytes) :=
  if 0 <? remaining then
    match fuel with
    | O => Err OutOfFuel
    | S fuel =>
      '(chunk, rest) ← zread i (Z.min CHUNK_BYTES remaining) rest;
      require (negb (str_eqb chunk [])) (ArchiveError "truncated" "archive payload ended early") ;;
      '(ctx, o) ← aead_update ctx chunk;
      decrypt_body fuel i (remaining - zlen chunk) rest ctx (out ++ o)
    end
  else Ok (rest, ctx, out).

Definition authenticate (i : ZipInfo) (ctx : aead_ctx) : res bytes :=
  open_entry i ;;
  '(rest, ctx, out) ← decrypt_body (length (zi_data i)) i (zi_file_size i - GCM_TAG_BYTES) (zi_data i) ctx [];
  '(tag, _) ← zread i GCM_TAG_BYTES rest;
  require (zlen tag =? GCM_TAG_BYTES) (ArchiveError "truncated" "archive is missing its authentication tag") ;;
  match aead_finalize_with_tag ctx tag with
  | Some last => Ok (out ++ last)
  | None => Err (ArchiveError "authentication_failed" "archive authentication failed")
  end.

(** Pass two writes to the caller's file: the state is what the file holds. *)
Notation Writer := (SE bytes).
Definition write (data : bytes) : Writer unit := modify (fun w => w ++ data).

Definition corrupt : exn := ArchiveError "corrupt" "archive payload is not valid gzip data".
Definition bomb : exn := ArchiveError "decompression_bomb" "decompressed evidence exceeds the limit".

(** [if data: ...]: count, check the limit, hash and write. *)
Definition emit_data (max : Z) (data seen : bytes) : Writer bytes :=
  if str_eqb data [] then mret seen
  else
    let seen := seen ++ data in
    if max <? zlen seen then raise bomb
    else write data ;; mret seen.

(** [while pending is not None] *)
Fixpoint drain_pending (fuel : nat) (max : Z) (ctx : zctx) (pending seen : bytes) : Writer (zctx * bytes) :=
  match fuel with
  | O => raise OutOfFuel
  | S fuel =>
    match z_decompress ctx pending CHUNK_BYTES with
    | None => raise corrupt
    | Some (ctx, data, tail) =>
      seen ← emit_data max data seen;
      match tail with
      | [] => mret (ctx, seen)
      | _ => drain_pending fuel max ctx tail seen
      end
    end
  end.

(** Every round but the last yields a whole chunk, and the limit stops them. *)
Definition pending_fuel (max : Z) : nat := Z.to_nat (max / CHUNK_BYTES) + 3.

Fixpoint inflate_chunks (max : Z) (ctx : zctx) (seen : bytes) (l : list bytes) : Writer (zctx * bytes) :=
  match l with
  | [] => mret (ctx, seen)
  | chunk :: l =>
    '(ctx, seen) ← drain_pending (pending_fuel max) max ctx chunk seen;
    inflate_chunks max ctx seen l
  end.

Definition inflate (max : Z) (compressed : bytes) : Writer bytes :=
  '(ctx, seen) ← inflate_chunks max z_start [] (chunks compressed);
  match z_flush ctx with
  | None => raise corrupt
  | Some tail => emit_data max tail seen
  end.

(** The whole routine; [wrote_ct] is the outcome of writing the temporary ciphertext file. *)
Definition stream_decrypt (i : ZipInfo) (aad : res bytes) (aes_key nonce : bytes) (wrote_ct : res unit) (max : Z)
    : Writer (Z * str) :=
  aad ← lift aad;
  ctx ← lift (aead_start aes_key nonce aad false);
  lift wrote_ct ;;
  compressed ← lift (authenticate i ctx);
  seen ← inflate max compressed;
  mret (zlen seen, hash_hex seen).
End Streams.
