(* ===== verification/ArchiveStreamFacts.v ===== *)
(** Facts on the streams of an archive: chunked reading loses nothing, HKDF gives the
    length asked for, decompression is bounded and ends whatever the input, nothing is
    written before authentication, and what was sealed opens. *)
From S2P Require Import Prelude PyText Json Hashes Models EventChain ArchiveStream.

(** ** The laws of the interfaces *)

(** What a context opened for encryption made of [chunks]: the ciphertext and the tag. *)
Definition seals `{Aead} (key nonce aad : bytes) (cs : list bytes) (ciphertext tag : bytes) : Prop :=
  exists ctx ctx' out last, aead_start key nonce aad true = Ok ctx /\
    fold_res update_step (ctx, []) cs = Ok (ctx', out) /\ aead_finalize ctx' = Ok (last, tag) /\
    ciphertext = out ++ last.

(** A context opened for decryption accepts this ciphertext, in these chunks, under this tag. *)
Definition opens_as `{Aead} (key nonce aad : bytes) (ds : list bytes) (tag plain : bytes) : Prop :=
  exists ctx ctx' out last, aead_start key nonce aad false = Ok ctx /\
    fold_res update_step (ctx, []) ds = Ok (ctx', out) /\ aead_finalize_with_tag ctx' tag = Some last /\
    plain = out ++ last.

(** GCM keeps the length, has a 16-byte tag, and opens what it sealed, however it is cut. *)
Class AeadLaws `{Aead} := {
  aead_lengths key nonce aad cs ciphertext tag : seals key nonce aad cs ciphertext tag ->
    zlen tag = GCM_TAG_BYTES /\ zlen ciphertext = zlen (concat cs);
  aead_opens key nonce aad cs ciphertext tag ds : seals key nonce aad cs ciphertext tag ->
    concat ds = ciphertext -> opens_as key nonce aad ds tag (concat cs);
}.

(** [max_length] caps the data, and input is left over only when the cap was reached. *)
Class ZlibCap `{Zlib} :=
  z_capped ctx p cap ctx' data tail : 0 < cap -> z_decompress ctx p cap = Some (ctx', data, tail) ->
    zlen data <= cap /\ (tail <> [] -> zlen data = cap).

(** [inflating ctx rest plain]: fed [rest], the context has [plain] still to give. *)
Class ZlibLaws `{Zlib} := {
  inflating : zctx -> bytes -> bytes -> Prop;
  z_begins cs : inflating z_start (gzip cs) (concat cs);
  z_goes_on ctx p rest plain cap : inflating ctx (p ++ rest) plain -> p <> [] -> 0 < cap ->
    exists ctx' data tail plain', z_decompress ctx p cap = Some (ctx', data, tail) /\
      plain = data ++ plain' /\ inflating ctx' (tail ++ rest) plain';
  z_ends ctx plain : inflating ctx [] plain -> z_flush ctx = Some plain;
}.

(** ** Chunks *)
Lemma CHUNK_pos : 0 < CHUNK_BYTES.
Proof. done. Qed.
#[local] Opaque CHUNK_BYTES.


Lemma slice_drop {A} (l : list A) n : 0 <= n -> slice l 0 n ++ drop (Z.to_nat n) l = l.
Proof. intros. unfold slice. rewrite Z.sub_0_r, drop_0. apply take_drop. Qed.

Lemma slice_nil {A} (l : list A) n : 0 < n -> slice l 0 n = [] -> l = [].
Proof.
  intros Hn. unfold slice. rewrite Z.sub_0_r, drop_0. destruct l; [done|].
  destruct (Z.to_nat n) eqn:E; [lia | done].
Qed.

Lemma zlen_take0 {A} (l : list A) n : 0 <= n -> zlen (slice l 0 n) = Z.min n (zlen l).
Proof. intros. unfold slice, zlen. rewrite Z.sub_0_r, drop_0, length_take. lia. Qed.

Lemma chunks_of_spec fuel : forall b, (length b <= fuel)%nat ->
  concat (chunks_of fuel b) = b /\ Forall (fun c => c <> [] /\ zlen c <= CHUNK_BYTES) (chunks_of fuel b).
Proof.
  pose proof CHUNK_pos as P. induction fuel as [|fuel IH]; intros b Hb; [by destruct b; [|simpl in Hb; lia]|].
  destruct b as [|x b]; [done|]. cbn [chunks_of]. remember (x :: b) as l.
  destruct (IH (drop (Z.to_nat CHUNK_BYTES) l)) as [C F].
  { rewrite length_drop. subst l. simpl in *. lia. }
  cbn [concat]. rewrite C, slice_drop by lia. split; [done|]. constructor; [|done]. split.
  - intros E. apply slice_nil in E; [by subst l | done].
  - rewrite zlen_take0 by lia. lia.
Qed.

Lemma chunks_concat b : concat (chunks b) = b.
Proof. by apply chunks_of_spec. Qed.
Lemma chunks_nonempty b : Forall (fun c => c <> []) (chunks b).
Proof. eapply Forall_impl; [by apply (chunks_of_spec (length b) b)|]. by intros c [? _]. Qed.

(** ** HKDF *)
Lemma sha256_blocks_length n : forall st m, length st = 8%nat -> length (sha256_blocks n st m) = 8%nat.
Proof.
  assert (forall l st, length st = 8%nat -> length (fold_left sha256_step l st) = 8%nat) as F.
  { induction l as [|kw l IH]; intros st H; [done|]. simpl. apply IH.
    do 9 (destruct st as [|? st]; [done|]); done. }
  induction n as [|n IH]; intros st m H; [done|]. cbn [sha256_blocks]. apply IH. unfold sha256_block. cbv zeta.
  rewrite length_map, length_combine, F by done. lia.
Qed.


Lemma concat_length {A} (k : nat) (l : list (list A)) : Forall (fun x => length x = k) l ->
  length (concat l) = (k * length l)%nat.
Proof. induction 1 as [|x l Hx _ IH]; [simpl; lia|]. simpl. rewrite length_app, IH, Hx. lia. Qed.

Lemma sha256_length m : length (sha256 m) = 32%nat.
Proof.
  unfold sha256. cbv zeta. rewrite (concat_length 4).
  - by rewrite length_map, sha256_blocks_length.
  - apply Forall_map, Forall_true. intros w. rewrite length_rev. apply to_le_spec.
Qed.

Lemma hmac_sha256_length k m : zlen (hmac_sha256 k m) = 32.
Proof. unfold hmac_sha256, hmac, zlen. cbv zeta. by rewrite sha256_length. Qed.

(** RFC 5869, section 2.3: [T(0)] is empty, [T(n) = HMAC(PRK, T(n-1) | info | n)]. *)
Fixpoint rfc_block (prk info : bytes) (n : nat) : bytes :=
  match n with
  | O => []
  | S n' => hmac_sha256 prk (rfc_block prk info n' ++ info ++ [Z.of_nat n])
  end.

(** [T = T(1) | ... | T(n)] *)
Definition rfc_blocks (prk info : bytes) (n : nat) : bytes := concat (map (rfc_block prk info) (seq 1 n)).

(** The first [length_] bytes of as many blocks as they need. *)
Definition rfc_expand (prk info : bytes) (length_ : Z) : bytes :=
  take (Z.to_nat length_) (rfc_blocks prk info (Z.to_nat ((length_ + 31) / 32))).

Lemma rfc_blocks_S prk info n : rfc_blocks prk info (S n) = rfc_blocks prk info n ++ rfc_block prk info (S n).
Proof. unfold rfc_blocks. rewrite seq_S, map_app, concat_app. cbn [map concat]. by rewrite app_nil_r. Qed.

Lemma rfc_blocks_length prk info n : zlen (rfc_blocks prk info n) = 32 * Z.of_nat n.
Proof.
  induction n as [|n IH]; [done|]. rewrite rfc_blocks_S, zlen_app, IH. cbn [rfc_block]. rewrite hmac_sha256_length. lia.
Qed.

(** The loop, [n] blocks in, stops at the last block needed while the counter fits a byte. *)
Lemma hkdf_loop_spec prk info length_ : 0 <= length_ <= 255 * 32 -> forall fuel n,
  (n <= Z.to_nat ((length_ + 31) / 32))%nat -> (Z.to_nat ((length_ + 31) / 32) - n <= fuel)%nat ->
  hkdf_loop fuel prk info (rfc_block prk info n) (rfc_blocks prk info n) (Z.of_nat n + 1) length_ =
    Ok (rfc_blocks prk info (Z.to_nat ((length_ + 31) / 32))).
Proof.
  intros Hl. pose proof (Z.div_mod (length_ + 31) 32 ltac:(lia)) as D. pose proof (Z.mod_pos_bound (length_ + 31) 32 ltac:(lia)).
  set (k := (length_ + 31) / 32) in *.
  induction fuel as [|fuel IH]; intros n Hn Hf; cbn [hkdf_loop]; rewrite rfc_blocks_length;
    destruct (Z.ltb_spec (32 * Z.of_nat n) length_) as [L|L].
  2, 4: replace (Z.to_nat k) with n by lia; done.
  - lia.
  - rewrite (proj2 (Z.ltb_lt _ 256)) by lia. cbn [require mbind res_bind]. cbv zeta.
    replace (Z.of_nat n + 1) with (Z.of_nat (S n)) by lia.
    change (hmac_sha256 prk (rfc_block prk info n ++ info ++ [Z.of_nat (S n)])) with (rfc_block prk info (S n)).
    rewrite <- rfc_blocks_S. apply IH; lia.
Qed.

Lemma hkdf_expand shared salt info length_ : 0 <= length_ <= 255 * 32 ->
  hkdf_sha256 shared salt info length_ = Ok (rfc_expand (hmac_sha256 salt shared) info length_).
Proof.
  intros Hl. unfold hkdf_sha256. rewrite (proj2 (Z.leb_le length_ (255 * 32))) by lia. cbn [require mbind res_bind]. cbv zeta.
  pose proof (hkdf_loop_spec (hmac_sha256 salt shared) info length_ Hl (Z.to_nat length_) 0 ltac:(lia)) as L.
  cbn [rfc_block] in L. change (rfc_blocks _ _ 0) with (@nil Z) in L. change (Z.of_nat 0 + 1) with 1 in L.
  rewrite L.
  - cbn [mbind res_bind]. unfold slice, rfc_expand. by rewrite Z.sub_0_r, drop_0.
  - pose proof (Z.div_mod (length_ + 31) 32 ltac:(lia)). pose proof (Z.mod_pos_bound (length_ + 31) 32 ltac:(lia)). lia.
Qed.

Lemma rfc_expand_length prk info length_ : 0 <= length_ -> zlen (rfc_expand prk info length_) = length_.
Proof.
  intros Hl. pose proof (rfc_blocks_length prk info (Z.to_nat ((length_ + 31) / 32))) as B. unfold rfc_expand, zlen in *.
  pose proof (Z.div_mod (length_ + 31) 32 ltac:(lia)). pose proof (Z.mod_pos_bound (length_ + 31) 32 ltac:(lia)).
  rewrite length_take. lia.
Qed.

(** Key derivation is HKDF-SHA-256 of RFC 5869: extract with the salt, then the first
    [length_] bytes of the counter-chained blocks, of exactly that length; more than 255
    blocks are refused. *)
Theorem hkdf_rfc5869 shared salt info length_ : 0 <= length_ ->
  hkdf_sha256 shared salt info length_ =
    (if length_ <=? 255 * 32 then Ok (rfc_expand (hmac_sha256 salt shared) info length_)
     else Err (ArchiveError "internal_error" "HKDF output length is too large")) /\
  zlen (rfc_expand (hmac_sha256 salt shared) info length_) = length_.
Proof.
  intros Hl. split; [|by apply rfc_expand_length]. destruct (Z.leb_spec length_ (255 * 32)) as [L|L]; [by apply hkdf_expand|].
  unfold hkdf_sha256. by rewrite (proj2 (Z.leb_gt _ _)) by done.
Qed.

(** RFC 5869, appendix A.1. *)
Definition rfc_A1 : bytes :=
  [60; 178; 95; 37; 250; 172; 213; 122; 144; 67; 79; 100; 208; 54; 47; 42; 45; 45; 10; 144; 207; 26; 90; 76; 93; 176; 45; 86;
   236; 196; 197; 191; 52; 0; 114; 8; 213; 184; 135; 24; 88; 101].
Example hkdf_rfc5869_witness : 0 <= 42 /\
  hkdf_sha256 (replicate 22 11) (seqZ 0 13) (seqZ 240 10) 42 = Ok rfc_A1.
Proof.
  split; [done|]. rewrite (proj1 (hkdf_rfc5869 (replicate 22 11) (seqZ 0 13) (seqZ 240 10) 42 ltac:(done))).
  vm_compute. reflexivity.
Defined.

(** ** Decompression *)
Section Inflate.
Context `{Zlib}.

(** What a writing routine may do from [seen] on, whatever the compressed bytes are. *)
Definition drained {A} (max : Z) (seen w : bytes) (after : A -> bytes) (r : bytes * res A) : Prop :=
  exists data, r.1 = w ++ data /\ zlen (seen ++ data) <= max /\
    match r.2 with Ok a => after a = seen ++ data | Err e => e = corrupt \/ e = bomb end.

Lemma drained_stop {A} max seen w (after : A -> bytes) e : zlen seen <= max -> e = corrupt \/ e = bomb ->
  drained max seen w after (w, Err e).
Proof. intros. exists []. rewrite !app_nil_r. done. Qed.

Lemma drained_seq {A B} max seen w (after : A -> bytes) (after' : B -> bytes) (m : SE bytes A) (f : A -> SE bytes B) :
  drained max seen w after (m w) ->
  (forall a w', zlen (after a) <= max -> drained max (after a) w' after' (f a w')) ->
  drained max seen w after' ((m ≫= f) w).
Proof.
  intros (data & E & L & R) F. unfold mbind, se_bind. destruct (m w) as [w1 [a|e]]; simpl in *; subst.
  - destruct (F a (w ++ data)) as (more & E2 & L2 & R2); [by rewrite R|]. exists (data ++ more).
    rewrite R in L2, R2. rewrite <- app_assoc in E2. rewrite <- !app_assoc in L2. split_and!; [done..|].
    by destruct (f a (w ++ data)) as [? [?|?]]; simpl in *; [rewrite R2, <- app_assoc|].
  - exists data. done.
Qed.

Lemma emit_data_drained max data seen w : zlen seen <= max -> drained max seen w id (emit_data max data seen w).
Proof.
  intros L. unfold emit_data. destruct (str_eqb data []) eqn:E; [exists []; by rewrite !app_nil_r|].
  destruct (Z.ltb_spec max (zlen (seen ++ data))); [apply drained_stop; [done | by right]|].
  exists data. done.
Qed.

Context `{!ZlibCap}.

(** The rounds on one chunk: each that leaves input behind has written a whole chunk. *)
Lemma drain_drained max : forall fuel ctx pending seen w, zlen seen <= max ->
  (max - zlen seen) / CHUNK_BYTES + 1 < Z.of_nat fuel ->
  drained max seen w snd (drain_pending fuel max ctx pending seen w).
Proof.
  pose proof CHUNK_pos as P. induction fuel as [|fuel IH]; intros ctx pending seen w L F.
  { pose proof (Z.div_pos (max - zlen seen) CHUNK_BYTES ltac:(lia) P). lia. }
  cbn [drain_pending]. destruct (z_decompress ctx pending CHUNK_BYTES) as [[[ctx' data] tail]|] eqn:E;
    [|apply drained_stop; [done | by left]].
  apply z_capped in E as [_ Ht]; [|done].
  destruct tail as [|x tail].
  - apply (drained_seq _ _ _ id); [by apply emit_data_drained|]. intros s w' Hs. exists []. rewrite !app_nil_r. done.
  - specialize (Ht ltac:(done)). unfold emit_data.
    assert (str_eqb data [] = false) as -> by (apply str_eqb_neq; intros ->; rewrite zlen_nil in Ht; lia).
    unfold mbind at 1, se_bind at 1. destruct (Z.ltb_spec max (zlen (seen ++ data))) as [B|B].
    + apply drained_stop; [done | by right].
    + change (drained max seen w snd (drain_pending fuel max ctx' (x :: tail) (seen ++ data) (w ++ data))).
      destruct (IH ctx' (x :: tail) (seen ++ data) (w ++ data)) as (more & E1 & E2 & E3); [done| |].
      { rewrite zlen_app, Ht. replace (max - (zlen seen + CHUNK_BYTES)) with (max - zlen seen + (-1) * CHUNK_BYTES) by lia.
        rewrite Z.div_add by lia. lia. }
      exists (data ++ more). rewrite !app_assoc. done.
Qed.

Lemma pending_fuel_enough max (seen : bytes) : 0 <= zlen seen <= max ->
  (max - zlen seen) / CHUNK_BYTES + 1 < Z.of_nat (pending_fuel max).
Proof.
  intros L. pose proof CHUNK_pos. unfold pending_fuel. pose proof (Z.div_pos max CHUNK_BYTES ltac:(lia) CHUNK_pos).
  pose proof (Z.div_le_mono (max - zlen seen) max CHUNK_BYTES CHUNK_pos ltac:(lia)). lia.
Qed.

Lemma inflate_chunks_drained max l : forall ctx seen w, zlen seen <= max ->
  drained max seen w snd (inflate_chunks max ctx seen l w).
Proof.
  induction l as [|chunk l IH]; intros ctx seen w L; cbn [inflate_chunks]; [exists []; by rewrite !app_nil_r|].
  apply (drained_seq _ _ _ snd).
  - apply drain_drained; [done|]. apply pending_fuel_enough. pose proof (zlen_nonneg seen). lia.
  - intros [ctx' seen'] w' L'. by apply IH.
Qed.

Lemma inflate_drained max b w : 0 <= max -> drained max [] w id (inflate max b w).
Proof.
  intros L. unfold inflate. apply (drained_seq _ _ _ snd); [by apply inflate_chunks_drained|].
  intros [ctx seen] w' L'. cbn [snd] in *. destruct (z_flush ctx); [by apply emit_data_drained | apply drained_stop; [done | by left]].
Qed.

(** C27. Decompression is bounded and ends, whatever the compressed bytes are: nothing beyond
    the limit is ever written, and the routine returns what it wrote, or reports corrupt data
    or a decompression bomb; the fuel of its loop never runs out. *)
Theorem inflate_bounded max b w : 0 <= max ->
  exists data, (inflate max b w).1 = w ++ data /\ zlen data <= max /\
    ((inflate max b w).2 = Ok data \/ (inflate max b w).2 = Err corrupt \/ (inflate max b w).2 = Err bomb).
Proof.
  intros L. pose proof (inflate_drained max b w L) as (data & E & B & R). exists data. split_and!; [done..|].
  destruct (inflate max b w).2 as [a|x]; [left; unfold id in R; by subst|]. by destruct R as [-> | ->]; right; [left | right].
Qed.
End Inflate.

Section InflateBack.
Context `{Zlib, !ZlibCap, !ZlibLaws}.

Lemma emit_data_fits max data seen w : zlen (seen ++ data) <= max ->
  emit_data max data seen w = (w ++ data, Ok (seen ++ data)).
Proof.
  intros L. unfold emit_data. destruct (str_eqb data []) eqn:E.
  - apply str_eqb_eq in E as ->. by rewrite !app_nil_r.
  - cbv zeta. rewrite (proj2 (Z.ltb_ge _ _)) by done. done.
Qed.

(** What a context holding [plain] gives for a chunk, if the fuel lasts. *)
Lemma drain_gives max rest : forall fuel ctx p seen w plain, inflating ctx (p ++ rest) plain -> p <> [] ->
  zlen (seen ++ plain) <= max ->
  match drain_pending fuel max ctx p seen w with
  | (w', Ok (ctx', seen')) => exists data plain', w' = w ++ data /\ seen' = seen ++ data /\ plain = data ++ plain' /\
      inflating ctx' rest plain'
  | (_, Err e) => e = OutOfFuel
  end.
Proof.
  induction fuel as [|fuel IH]; intros ctx p seen w plain I N L; [done|]. cbn [drain_pending].
  destruct (z_goes_on ctx p rest plain CHUNK_BYTES I N CHUNK_pos) as (ctx' & data & tail & plain' & -> & -> & I').
  rewrite app_assoc in L. rewrite zlen_app in L. pose proof (zlen_nonneg plain').
  rewrite (se_bind_eq _ _ _ _ _ (emit_data_fits max data seen w ltac:(lia))).
  destruct tail as [|x tail]; [exists data, plain'; done|].
  specialize (IH ctx' (x :: tail) (seen ++ data) (w ++ data) plain' I' ltac:(done) ltac:(rewrite zlen_app; lia)).
  destruct (drain_pending _ _ _ _ _ _) as [w' [[c s]|e]]; [|done].
  destruct IH as (more & q & -> & -> & -> & I2). exists (data ++ more), q. by rewrite !app_assoc.
Qed.

Lemma chunks_give max l : forall ctx seen w plain, inflating ctx (concat l) plain -> Forall (fun c => c <> []) l ->
  zlen (seen ++ plain) <= max ->
  exists ctx' data plain', inflate_chunks max ctx seen l w = (w ++ data, Ok (ctx', seen ++ data)) /\
    plain = data ++ plain' /\ inflating ctx' [] plain'.
Proof.
  induction l as [|p l IH]; intros ctx seen w plain I F L; cbn [inflate_chunks].
  { exists ctx, [], plain. by rewrite !app_nil_r. }
  apply Forall_cons in F as [N F]. rewrite zlen_app in L. pose proof (zlen_nonneg plain). pose proof (zlen_nonneg seen).
  pose proof (drain_gives max (concat l) (pending_fuel max) ctx p seen w plain I N ltac:(rewrite zlen_app; lia)) as G.
  destruct (drain_drained max (pending_fuel max) ctx p seen w ltac:(lia) (pending_fuel_enough max seen ltac:(lia))) as (data0 & _ & _ & R).
  destruct (drain_pending (pending_fuel max) max ctx p seen w) as [w' [[c s]|e]] eqn:E; simpl in R; [|rewrite G in R; by destruct R].
  destruct G as (data & q & -> & -> & -> & I2). rewrite (se_bind_eq _ _ _ _ _ E).
  destruct (IH c (seen ++ data) (w ++ data) q I2 F) as (c' & more & q' & -> & -> & I3).
  { rewrite !zlen_app in *. lia. }
  exists c', (data ++ more), q'. by rewrite !app_assoc.
Qed.

Lemma inflate_gzip max cs w : zlen (concat cs) <= max -> inflate max (gzip cs) w = (w ++ concat cs, Ok (concat cs)).
Proof.
  intros L. unfold inflate. destruct (chunks_give max (chunks (gzip cs)) z_start [] w (concat cs)) as (c & data & q & E & Hq & I).
  { rewrite chunks_concat. apply z_begins. }
  { apply chunks_nonempty. }
  { done. }
  rewrite (se_bind_eq _ _ _ _ _ E). rewrite (z_ends _ _ I). rewrite emit_data_fits by (cbn [app]; by rewrite <- Hq).
  cbn [app]. by rewrite <- app_assoc, <- Hq.
Qed.
End InflateBack.

(** ** Authentication *)
Section Authenticate.
Context `{Aead}.

Lemma update_step_eq ctx out p c o : aead_update ctx p = Ok (c, o) -> update_step (ctx, out) p = Ok (c, out ++ o).
Proof. intros E. unfold update_step. by rewrite E. Qed.

(** The reads of a body: in order, whole. *)
Lemma decrypt_body_inv i : forall fuel remaining rest ctx out rest' ctx' out',
  decrypt_body fuel i remaining rest ctx out = Ok (rest', ctx', out') ->
  exists ds, fold_res update_step (ctx, out) ds = Ok (ctx', out') /\ rest = concat ds ++ rest' /\
    zlen (concat ds) = Z.max 0 remaining.
Proof.
  pose proof CHUNK_pos as P. induction fuel as [|fuel IH]; intros remaining rest ctx out rest' ctx' out' E; cbn [decrypt_body] in E;
    destruct (Z.ltb_spec 0 remaining) as [R|R]; try done; [injection E as <- <- <-; exists []; simpl; split_and!; [done..|rewrite zlen_nil; lia]| |
      injection E as <- <- <-; exists []; simpl; split_and!; [done..|rewrite zlen_nil; lia]].
  apply bind_ok in E as ([chunk more] & Z & E). apply bind_ok in E as (u & Hc & E). apply require_ok in Hc.
  apply bind_ok in E as ([c o] & U & E). destruct (IH _ _ _ _ _ _ _ E) as (ds & F & -> & L).
  assert (chunk = slice rest 0 (Z.min CHUNK_BYTES remaining) /\ concat ds ++ rest' = drop (Z.to_nat (Z.min CHUNK_BYTES remaining)) rest) as [-> D].
  { unfold zread in Z. destruct (zi_end i); [destruct (zlen rest <=? _); [done|]|]; injection Z as <- <-; done. }
  exists (slice rest 0 (Z.min CHUNK_BYTES remaining) :: ds). cbn [fold_res concat]. rewrite (update_step_eq _ _ _ _ _ U). cbn [mbind res_bind].
  split; [done|]. split.
  - rewrite <- app_assoc, D. symmetry. apply slice_drop. lia.
  - rewrite zlen_app, L, zlen_take0 by lia. lia.
Qed.

Lemma zlen_pair_split (a b : bytes) n : zlen (a ++ b) = n + zlen b -> zlen a = n.
Proof. rewrite zlen_app. lia. Qed.

(** What authenticates is what stands in the archive, the tag behind it. *)
Lemma authenticate_inv i key nonce aad ctx plain : aead_start key nonce aad false = Ok ctx ->
  authenticate i ctx = Ok plain -> GCM_TAG_BYTES <= zi_file_size i ->
  exists ds tag rest, zi_data i = concat ds ++ tag ++ rest /\ zlen (concat ds ++ tag) = zi_file_size i /\
    zlen tag = GCM_TAG_BYTES /\ opens_as key nonce aad ds tag plain.
Proof.
  intros S E L. unfold authenticate in E. apply bind_ok in E as (u & _ & E).
  apply bind_ok in E as ([[rest ctx'] out] & B & E). apply decrypt_body_inv in B as (ds & F & D & Ln).
  apply bind_ok in E as ([tag rest'] & Z & E). apply bind_ok in E as (u' & T & E). apply require_ok, Z.eqb_eq in T.
  destruct (aead_finalize_with_tag ctx' tag) as [last|] eqn:V; [|done]. injection E as <-.
  assert (rest = tag ++ rest') as ->.
  { unfold zread in Z. assert (0 <= GCM_TAG_BYTES) by done.
    destruct (zi_end i); [destruct (zlen rest <=? _); [done|]|]; injection Z as <- <-; by rewrite slice_drop. }
  exists ds, tag, rest'. split; [done|]. rewrite zlen_app. split; [lia|]. split; [done|]. by exists ctx, ctx', out, last.
Qed.

Lemma zread_chunk i r tag : zi_end i = None -> 0 < zlen r ->
  zread i (Z.min CHUNK_BYTES (zlen r)) (r ++ tag) =
  Ok (slice r 0 CHUNK_BYTES, drop (Z.to_nat CHUNK_BYTES) r ++ tag).
Proof.
  pose proof CHUNK_pos as P. intros Hi Hr. unfold zread. rewrite Hi. revert P. generalize CHUNK_BYTES as n. intros n P.
  unfold slice. rewrite !Z.sub_0_r, !drop_0. f_equal. f_equal.
  - rewrite take_app_le by (unfold zlen; lia).
    destruct (Z.le_ge_cases n (zlen r)); [by rewrite Z.min_l by lia|].
    rewrite Z.min_r by lia. rewrite !take_ge; [done | unfold zlen in *; lia..].
  - rewrite drop_app_le by (unfold zlen; lia). f_equal.
    destruct (Z.le_ge_cases n (zlen r)); [by rewrite Z.min_l by lia|].
    rewrite Z.min_r by lia. rewrite !drop_ge; [done | unfold zlen in *; lia..].
Qed.

Lemma decrypt_body_step fuel i remaining rest ctx out chunk more c o : 0 < remaining ->
  zread i (Z.min CHUNK_BYTES remaining) rest = Ok (chunk, more) -> chunk <> [] -> aead_update ctx chunk = Ok (c, o) ->
  decrypt_body (S fuel) i remaining rest ctx out = decrypt_body fuel i (remaining - zlen chunk) more c (out ++ o).
Proof.
  intros R Z N U. cbn [decrypt_body]. rewrite (proj2 (Z.ltb_lt _ _)) by done. rewrite Z. cbn [mbind res_bind].
  rewrite (proj2 (str_eqb_neq _ _) N). cbn [negb require mbind res_bind]. by rewrite U.
Qed.

(** Reading a faultless member up to its tag. *)
Lemma decrypt_body_all i tag : zi_end i = None -> forall fuel rest ctx out ctx' o, (length rest <= fuel)%nat ->
  fold_res update_step (ctx, out) (chunks_of fuel rest) = Ok (ctx', o) ->
  forall fuel', (fuel <= fuel')%nat -> decrypt_body fuel' i (zlen rest) (rest ++ tag) ctx out = Ok (tag, ctx', o).
Proof.
  pose proof CHUNK_pos as P. intros Hi. induction fuel as [|fuel IH]; intros rest ctx out ctx' o Hf E fuel' Hf'.
  { destruct rest; [|simpl in Hf; lia]. injection E as <- <-. by destruct fuel'. }
  destruct rest as [|x rest]; [injection E as <- <-; by destruct fuel'|].
  destruct fuel' as [|fuel']; [lia|]. cbn [chunks_of fold_res] in E. remember (x :: rest) as r.
  assert (0 < zlen r) as Hr by (subst r; rewrite zlen_cons; pose proof (zlen_nonneg rest); lia).
  assert (slice r 0 CHUNK_BYTES <> []) as S3 by (intros S; apply slice_nil in S; [by subst r | lia]).
  apply bind_ok in E as ([c o1] & U & E). unfold update_step in U. apply bind_ok in U as ([c' o2] & U & [= -> <-]).
  rewrite (decrypt_body_step fuel' i _ _ _ _ _ _ c o2 Hr (zread_chunk i r tag Hi Hr) S3 U).
  replace (zlen r - zlen (slice r 0 CHUNK_BYTES)) with (zlen (drop (Z.to_nat CHUNK_BYTES) r)).
  2: { pose proof (f_equal zlen (slice_drop r CHUNK_BYTES ltac:(lia))) as S. rewrite zlen_app in S. lia. }
  clear - IH Hf Hf' P E. apply IH; [rewrite length_drop; lia | done | lia].
Qed.

Lemma chunks_of_more fuel b : (length b <= fuel)%nat -> chunks_of fuel b = chunks b.
Proof.
  unfold chunks. enough (forall f g b, (length b <= f)%nat -> (length b <= g)%nat -> chunks_of f b = chunks_of g b) as G by auto.
  pose proof CHUNK_pos as P. induction f as [|f IH]; intros [|g] [|x l] Hf Hg; simpl in Hf, Hg; try lia; try done.
  cbn [chunks_of]. f_equal. apply IH; rewrite length_drop; simpl; lia.
Qed.

Lemma authenticate_entry name ciphertext tag key nonce aad ctx plain :
  aead_start key nonce aad false = Ok ctx -> zlen tag = GCM_TAG_BYTES ->
  (forall ctx' out last, fold_res update_step (ctx, []) (chunks ciphertext) = Ok (ctx', out) ->
    aead_finalize_with_tag ctx' tag = Some last -> plain = out ++ last ->
    authenticate (entry name (ciphertext ++ tag)) ctx = Ok plain).
Proof.
  intros S Ht ctx' out last F V ->. unfold authenticate. cbn [open_entry entry zi_open mbind res_bind zi_file_size zi_data].
  replace (zlen (ciphertext ++ tag) - GCM_TAG_BYTES) with (zlen ciphertext) by (rewrite zlen_app; lia).
  rewrite (decrypt_body_all (entry name (ciphertext ++ tag)) tag eq_refl (length ciphertext) ciphertext ctx [] ctx' out (le_n _) F) by (rewrite length_app; lia).
  cbn [mbind res_bind]. unfold zread. cbn [entry zi_end mbind res_bind].
  assert (slice tag 0 GCM_TAG_BYTES = tag) as ->.
  { unfold slice. rewrite Z.sub_0_r, drop_0, take_ge; [done|]. rewrite <- Ht. unfold zlen. lia. }
  by rewrite (proj2 (Z.eqb_eq _ _) Ht), V.
Qed.
End Authenticate.

(** ** The whole routine *)
Section Whole.
Context `{Aead, Zlib}.

(** The member holds a ciphertext and its tag that open under this key, nonce and data. *)
Definition authentic (i : ZipInfo) (key nonce aad compressed : bytes) : Prop :=
  exists ds tag rest, zi_data i = concat ds ++ tag ++ rest /\ zlen (concat ds ++ tag) = zi_file_size i /\
    zlen tag = GCM_TAG_BYTES /\ opens_as key nonce aad ds tag compressed.

(** The decompressor's share of an outcome: what was written is bounded and what is
    reported is what was written. *)
Definition released (max : Z) (w w' : bytes) (r : res (Z * str)) : Prop :=
  exists data, w' = w ++ data /\ zlen data <= max /\
    match r with Ok (n, digest) => n = zlen data /\ digest = hash_hex data | Err e => e = corrupt \/ e = bomb end.

Lemma stream_decrypt_inv `{!ZlibCap} i aad key nonce wrote max w w' r : GCM_TAG_BYTES <= zi_file_size i -> 0 <= max ->
  stream_decrypt i aad key nonce wrote max w = (w', r) ->
  (w' = w /\ exists e, r = Err e) \/
  (exists a compressed, aad = Ok a /\ authentic i key nonce a compressed /\ released max w w' r).
Proof.
  intros L M E. unfold stream_decrypt, lift, mbind, se_bind in E. cbv beta iota in E. destruct aad as [a|e]; [|injection E as <- <-; left; eauto].
  destruct (aead_start key nonce a false) as [ctx|e] eqn:S; [|injection E as <- <-; left; eauto].
  destruct wrote as [u|e]; [|injection E as <- <-; left; eauto].
  destruct (authenticate i ctx) as [compressed|e] eqn:V; [|injection E as <- <-; left; eauto].
  right. exists a, compressed. split; [done|]. destruct (authenticate_inv _ _ _ _ _ _ S V L) as (ds & tag & rest & ?).
  split; [by exists ds, tag, rest|]. destruct (inflate_drained max compressed w M) as (data & D1 & D2 & D3). exists data.
  destruct (inflate max compressed w) as [w1 [seen|e]]; simpl in D1, D3, E; injection E as <- <-; [|done].
  unfold id in D3. subst seen. done.
Qed.

Lemma stream_decrypt_ok `{!ZlibCap} i aad key nonce wrote max w w' n digest : GCM_TAG_BYTES <= zi_file_size i -> 0 <= max ->
  stream_decrypt i aad key nonce wrote max w = (w', Ok (n, digest)) ->
  exists a compressed data, aad = Ok a /\ authentic i key nonce a compressed /\
    inflate max compressed w = (w', Ok data) /\ w' = w ++ data /\ zlen data <= max /\ n = zlen data /\ digest = hash_hex data.
Proof.
  intros L M E. unfold stream_decrypt, lift, mbind, se_bind in E. cbv beta iota in E. destruct aad as [a|e]; [|done].
  destruct (aead_start key nonce a false) as [ctx|e] eqn:S; [|done]. destruct wrote as [u|e]; [|done].
  destruct (authenticate i ctx) as [compressed|e] eqn:V; [|done]. exists a, compressed.
  destruct (authenticate_inv _ _ _ _ _ _ S V L) as (ds & tag & rest & A).
  destruct (inflate_drained max compressed w M) as (data & D1 & D2 & D3).
  destruct (inflate max compressed w) as [w1 [seen|e]]; [|done]. simpl in D1, D3. injection E as -> <- <-.
  unfold id in D3. subst seen. exists data. split_and!; try done. by exists ds, tag, rest.
Qed.

Lemma encrypt_pass_inv key nonce aad compressed sealed : encrypt_pass key nonce aad compressed = Ok sealed ->
  exists ciphertext tag, sealed = ciphertext ++ tag /\ seals key nonce aad (chunks compressed) ciphertext tag.
Proof.
  unfold encrypt_pass. intros (ctx & S & E)%bind_ok. apply bind_ok in E as ([ctx' out] & F & E).
  apply bind_ok in E as ([last tag] & Fi & [= <-]). exists (out ++ last), tag. rewrite app_assoc. split; [done|].
  by exists ctx, ctx', out, last.
Qed.

Context `{!ZlibCap, !ZlibLaws, !AeadLaws}.

Lemma encrypt_pass_length key nonce aad compressed sealed : encrypt_pass key nonce aad compressed = Ok sealed ->
  zlen sealed = zlen compressed + GCM_TAG_BYTES.
Proof.
  intros (ciphertext & tag & -> & S)%encrypt_pass_inv. apply aead_lengths in S as [T C].
  rewrite chunks_concat in C. rewrite zlen_app. lia.
Qed.

Lemma stream_roundtrip name key nonce aad cs sealed max w : encrypt_pass key nonce aad (gzip cs) = Ok sealed ->
  zlen (concat cs) <= max ->
  stream_decrypt (entry name sealed) (Ok aad) key nonce (Ok tt) max w =
    (w ++ concat cs, Ok (zlen (concat cs), hash_hex (concat cs))).
Proof.
  intros (ciphertext & tag & -> & S)%encrypt_pass_inv L. pose proof (aead_lengths _ _ _ _ _ _ S) as [T _].
  destruct (aead_opens _ _ _ _ _ _ (chunks ciphertext) S (chunks_concat _)) as (ctx & ctx' & out & last & St & F & V & P).
  rewrite chunks_concat in P. unfold stream_decrypt, lift, mbind, se_bind. cbv beta iota. rewrite St.
  rewrite (authenticate_entry name ciphertext tag key nonce aad ctx (gzip cs) St T ctx' out last F V P).
  by rewrite (inflate_gzip max cs w L).
Qed.

Lemma seal_fold max l : forall n fed n' fed', fold_res (seal_step max) (n, fed) l = Ok (n', fed') ->
  n' = n + zlen (concat l) /\ fed' = fed ++ l /\ (l = [] \/ n' <= max).
Proof.
  induction l as [|c l IH]; intros n fed n' fed' E; cbn [fold_res] in E.
  - injection E as <- <-. rewrite app_nil_r. cbn [concat]. rewrite (@zlen_nil Z). split_and!; [lia | done | by left].
  - unfold seal_step at 1 in E. apply bind_ok in E as ([n1 f1] & E1 & E). apply bind_ok in E1 as (u & R & [= <- <-]).
    apply require_ok, Z.leb_le in R. destruct (IH _ _ _ _ E) as (-> & -> & B). cbn [concat]. rewrite zlen_app, <- app_assoc.
    split_and!; [lia | done|]. right. destruct B as [-> |?]; [cbn [concat] in *; rewrite (@zlen_nil Z) in *|]; lia.
Qed.

Lemma seal_pass_inv max source n digest compressed : 0 <= max -> seal_pass max source = Ok (n, digest, compressed) ->
  n = zlen source /\ n <= max /\ digest = hash_hex source /\ compressed = gzip (chunks source).
Proof.
  intros M. unfold seal_pass. intros ([n' fed] & E & [= <- <- <-])%bind_ok. apply seal_fold in E as (-> & -> & B).
  cbn [app]. rewrite chunks_concat. split_and!; [lia | | done..]. destruct B as [B|B]; [|by rewrite chunks_concat in B].
  pose proof (chunks_concat source) as C. rewrite B in C. simpl in C. subst source. rewrite (@zlen_nil Z). lia.
Qed.

Lemma seal_step_ok max n fed c : n + zlen c <= max -> seal_step max (n, fed) c = Ok (n + zlen c, fed ++ [c]).
Proof. intros L. unfold seal_step. by rewrite (proj2 (Z.leb_le _ _)) by lia. Qed.

Lemma seal_pass_ok max source : zlen source <= max ->
  seal_pass max source = Ok (zlen source, hash_hex source, gzip (chunks source)).
Proof.
  intros L. unfold seal_pass.
  enough (forall l n fed, n + zlen (concat l) <= max ->
    fold_res (seal_step max) (n, fed) l = Ok (n + zlen (concat l), fed ++ l)) as F.
  { rewrite F by (rewrite chunks_concat; lia). cbn [mbind res_bind app]. by rewrite chunks_concat. }
  induction l as [|c l IH]; intros n fed B; cbn [fold_res concat].
  - rewrite (@zlen_nil Z), app_nil_r. f_equal. f_equal. lia.
  - cbn [concat] in B. rewrite zlen_app in B. pose proof (zlen_nonneg (concat l)).
    rewrite seal_step_ok by lia. cbn [mbind res_bind]. rewrite IH by lia. rewrite zlen_app, <- app_assoc.
    f_equal. f_equal. lia.
Qed.
End Whole.
