(* ===== verification/Archive.v ===== *)
(** Encrypted archives: the manifest, the container, creation, decryption and the trust
    report of [src/ics_deception/pqc_evidence/archive.py], over [ArchiveEvidence] (what the
    evidence in it is worth) and [ArchiveStream] (the ciphers and codecs).

    A ZIP file is what [zipfile] shows of it: unreadable, not a ZIP, or its list of members.
    [os.urandom], the clock and the outcomes of file operations are arguments. *)
From S2P Require Import Prelude PyText Json JsonFacts JsonScan Hashes IsoTime Canonicalizer Models CryptoBackend EventChain KeyRegistry Verifier Collector StateStore EvidenceStore Sockets ArchiveEvidence ArchiveStream.

Definition ARCHIVE_FORMAT_VERSION : str := lit "2.0".
Definition KEM_ALGORITHM : str := lit "ML-KEM-768".
Definition KDF_ALGORITHM : str := lit "HKDF-SHA-256".
Definition AEAD_ALGORITHM : str := lit "AES-256-GCM".
Definition MANIFEST_ENTRY : str := lit "manifest.json".
Definition CIPHERTEXT_ENTRY : str := lit "evidence.bin".
Definition EXPECTED_ENTRIES : list str := [MANIFEST_ENTRY; CIPHERTEXT_ENTRY].
Definition MAX_MANIFEST_BYTES := 64 * 1024.

Definition archive_error {A} (code m : string) : res A := Err (ArchiveError code m).
Definition refuse_unless (c : bool) (code m : string) : res unit := require c (ArchiveError code m).

Definition unb64 (v : value) : res bytes :=
  match v with
  | VStr ((_ :: _) as text) =>
    try_with (b64decode text) (fun e =>
      match e with ValueError _ => archive_error "bad_manifest" "not valid base64" | e => Err e end)
  | _ => archive_error "bad_manifest" "must be a base64 string"
  end.

(** On an [int] argument; a [bool] or another type is refused alike. *)
Definition positive (value : Z) : res unit := refuse_unless (0 <? value) "bad_limit" "must be a positive integer".

(** ** The manifest *)

(** [from_dict] checks the types of the integers, of [metadata] and of the flag only: the other
    fields of an untrusted manifest are any JSON values. *)
Record ArchiveManifest := {
  am_node_id : value;
  am_key_id : value;
  am_first_sequence : Z;
  am_last_sequence : Z;
  am_event_count : Z;
  am_created_at : value;
  am_chain_final_hash : value;
  am_plaintext_sha3_256 : value;
  am_plaintext_length : Z;
  am_encapsulated_key : value;
  am_hkdf_salt : value;
  am_nonce : value;
  am_ciphertext_length : Z;
  am_evidence_strictly_verified : bool;
  am_metadata : dict;
}.

(** [asdict]; the version and the algorithms are constants of every manifest that exists. *)
Definition manifest_items (m : ArchiveManifest) : list (str * value) :=
  map (fun kv => (lit kv.1, kv.2)) [
    ("archive_format_version", VStr ARCHIVE_FORMAT_VERSION); ("node_id", am_node_id m); ("key_id", am_key_id m);
    ("first_sequence", VInt (am_first_sequence m)); ("last_sequence", VInt (am_last_sequence m));
    ("event_count", VInt (am_event_count m)); ("created_at", am_created_at m);
    ("chain_final_hash", am_chain_final_hash m); ("plaintext_sha3_256", am_plaintext_sha3_256 m);
    ("plaintext_length", VInt (am_plaintext_length m)); ("kem_algorithm", VStr KEM_ALGORITHM);
    ("kdf_algorithm", VStr KDF_ALGORITHM); ("aead_algorithm", VStr AEAD_ALGORITHM);
    ("encapsulated_key", am_encapsulated_key m); ("hkdf_salt", am_hkdf_salt m); ("nonce", am_nonce m);
    ("ciphertext_length", VInt (am_ciphertext_length m));
    ("evidence_strictly_verified", VBool (am_evidence_strictly_verified m)); ("metadata", VDict (am_metadata m))]%string.

Definition manifest_to_dict (m : ArchiveManifest) : value := VDict (as_dict (manifest_items m)).

Definition authenticated_data (m : ArchiveManifest) : res bytes := canonical_bytes (manifest_to_dict m).

Definition MANIFEST_FIELDS : list str :=
  map lit ["archive_format_version"; "node_id"; "key_id"; "first_sequence"; "last_sequence"; "event_count";
    "created_at"; "chain_final_hash"; "plaintext_sha3_256"; "plaintext_length"; "kem_algorithm"; "kdf_algorithm";
    "aead_algorithm"; "encapsulated_key"; "hkdf_salt"; "nonce"; "ciphertext_length"; "evidence_strictly_verified";
    "metadata"]%string.
Definition OPTIONAL_FIELDS : list str := map lit ["metadata"; "evidence_strictly_verified"]%string.

Definition is_str (v : value) (s : str) : bool := match v with VStr x => str_eqb x s | _ => false end.

Definition non_negative (d : dict) (k : string) : res Z :=
  match get_or d k VNone with
  | VInt z => refuse_unless (0 <=? z) "bad_manifest" "must be a non-negative integer" ;; Ok z
  | _ => archive_error "bad_manifest" "must be a non-negative integer"
  end.

(** Its keys come from JSON text, so they are strings. *)
Definition manifest_of_dict (data : value) : res ArchiveManifest :=
  match data with
  | VDict d =>
    refuse_unless (forallb (fun kv => match kv.1 with KStr k => str_in k MANIFEST_FIELDS | KOther _ => false end) d)
      "bad_manifest" "manifest has unknown field(s)" ;;
    refuse_unless (forallb (fun k => str_in k OPTIONAL_FIELDS || bool_decide (is_Some (dict_get d k))) MANIFEST_FIELDS)
      "bad_manifest" "manifest is missing field(s)" ;;
    refuse_unless (is_str (get_or d "archive_format_version" VNone) ARCHIVE_FORMAT_VERSION)
      "unsupported_version" "unsupported archive_format_version" ;;
    refuse_unless (is_str (get_or d "kem_algorithm" VNone) KEM_ALGORITHM) "unsupported_algorithm" "unsupported kem_algorithm" ;;
    refuse_unless (is_str (get_or d "kdf_algorithm" VNone) KDF_ALGORITHM) "unsupported_algorithm" "unsupported kdf_algorithm" ;;
    refuse_unless (is_str (get_or d "aead_algorithm" VNone) AEAD_ALGORITHM) "unsupported_algorithm" "unsupported aead_algorithm" ;;
    first_sequence ← non_negative d "first_sequence";
    last_sequence ← non_negative d "last_sequence";
    event_count ← non_negative d "event_count";
    ciphertext_length ← non_negative d "ciphertext_length";
    plaintext_length ← non_negative d "plaintext_length";
    metadata ← (let v := get_or d "metadata" VNone in
                if truthy v then match v with VDict m => Ok m | _ => archive_error "bad_manifest" "metadata must be an object" end
                else Ok []);
    strict ← match get_or d "evidence_strictly_verified" (VBool false) with
             | VBool b => Ok b
             | _ => archive_error "bad_manifest" "evidence_strictly_verified must be a boolean"
             end;
    Ok {| am_node_id := get_or d "node_id" VNone; am_key_id := get_or d "key_id" VNone;
          am_first_sequence := first_sequence; am_last_sequence := last_sequence; am_event_count := event_count;
          am_created_at := get_or d "created_at" VNone; am_chain_final_hash := get_or d "chain_final_hash" VNone;
          am_plaintext_sha3_256 := get_or d "plaintext_sha3_256" VNone; am_plaintext_length := plaintext_length;
          am_encapsulated_key := get_or d "encapsulated_key" VNone; am_hkdf_salt := get_or d "hkdf_salt" VNone;
          am_nonce := get_or d "nonce" VNone; am_ciphertext_length := ciphertext_length;
          am_evidence_strictly_verified := strict; am_metadata := metadata |}
  | _ => archive_error "bad_manifest" "manifest must be a JSON object"
  end.

(** ** The container *)

(** What is at a path: its size and what [zipfile] makes of it. *)
Inductive zip_content :=
| Denied                              (* opening it raises OSError *)
| NotZip                              (* BadZipFile *)
| Members (l : list ZipInfo).
Inductive zip_file := NoFile | File (size : Z) (content : zip_content).

Definition open_zip (z : zip_file) : res (list ZipInfo) :=
  match z with
  | File _ (Members l) => Ok l
  | File _ NotZip => Err (BadZipFile "File is not a zip file")
  | _ => Err (OSError "cannot open archive")
  end.

Definition find_entry (name : str) (l : list ZipInfo) : res ZipInfo :=
  match List.find (fun i => str_eqb (zi_name i) name) l with Some i => Ok i | None => Err KeyError end.

(** [os.path.basename] *)
Fixpoint basename_aux (s cur : str) : str :=
  match s with [] => cur | c :: r => if c =? 47 then basename_aux r [] else basename_aux r (cur ++ [c]) end.
Definition basename (s : str) : str := basename_aux s [].

Fixpoint has_dotdot (s : str) : bool :=
  match s with 46 :: ((46 :: _) as r) => true | _ :: r => has_dotdot r | [] => false end.

Definition plain_file_name (name : str) : bool :=
  str_eqb name (basename name) && negb (starts_with [47] name) && negb (starts_with [92] name) && negb (has_dotdot name).

Section Archive.
Context (lim : nat).

(** The member names [zipfile] lists must be exactly the two expected. *)
Definition check_names (names : list str) : res unit :=
  refuse_unless (bool_decide (NoDup names)) "duplicate_entry" "archive contains duplicate entries" ;;
  refuse_unless (forallb (fun n => str_in n EXPECTED_ENTRIES) names) "unexpected_entry" "archive contains unexpected entries" ;;
  refuse_unless (forallb (fun n => str_in n names) EXPECTED_ENTRIES) "truncated" "archive is missing entries" ;;
  iter_res (fun n => refuse_unless (plain_file_name n) "path_traversal" "archive entry is not a plain file name") names.

Definition read_manifest (members : list ZipInfo) (max_archive_bytes : Z) : res (ArchiveManifest * ZipInfo) :=
  check_names (map zi_name members) ;;
  manifest_info ← find_entry MANIFEST_ENTRY members;
  refuse_unless (zi_file_size manifest_info <=? MAX_MANIFEST_BYTES) "oversized" "archive manifest is implausibly large" ;;
  manifest_raw ← read_entry manifest_info;
  manifest_data ← try_with (text ← utf8_decode manifest_raw; loads default_hooks lim text) (fun e =>
    match e with
    | UnicodeError | JSONDecodeError => archive_error "bad_manifest" "archive manifest is not valid JSON"
    | e => Err e
    end);
  manifest ← manifest_of_dict manifest_data;
  info ← find_entry CIPHERTEXT_ENTRY members;
  refuse_unless (zi_file_size info <=? max_archive_bytes) "oversized" "archive payload exceeds the configured limit" ;;
  refuse_unless (zi_file_size info =? am_ciphertext_length manifest) "truncated" "it was truncated or altered" ;;
  refuse_unless (GCM_TAG_BYTES <=? zi_file_size info) "truncated" "archive payload is shorter than an AES-GCM tag" ;;
  Ok (manifest, info).

Context (env : Environ) (backends : list (str * CryptoBackend)).
Context `{Aead, Zlib}.

(** [backend] or the selected one. *)
Definition kem_backend (backend : option CryptoBackend) (for_private_key : option bytes) : res CryptoBackend :=
  match backend with
  | Some b => Ok b
  | None => select_backend env backends None DEFAULT_SIGNATURE_ALGORITHM false (Some KEM_ALGORITHM) for_private_key
  end.

(** A [finally]: a dead process runs none. *)
Definition on_exit {S A} (m : SE S A) (h : S -> S) : SE S A := fun s =>
  match m s with
  | (s', Err (Crash e)) => (s', Err (Crash e))
  | (s', r) => (h s', r)
  end.

(** ** Creation *)
Record CreateArgs := {
  ca_recipient_public_key : bytes;
  ca_node_id : str;
  ca_key_id : str;
  ca_backend : option CryptoBackend;
  ca_registry : option KeyRegistry;
  ca_require_valid_evidence : bool;
  ca_max_plaintext_bytes : Z;
  ca_overwrite : bool;
  ca_metadata : dict;
}.

(** The evidence file as the calls meet it, one after the other: [is_file], [stat], the two
    readings of [summarise_evidence] and the one that is sealed. *)
Record Source := {
  src_is_file : bool;
  src_size : Z;
  src_scan : registry_file;
  src_verify : registry_file;
  src_seal : registry_file;
}.

Record Entropy := { en_kem : bytes; en_salt : bytes; en_nonce : bytes }.

Record CreateFaults := {
  cf_workdir : io;     (* making the work directory *)
  cf_work : io;        (* writing the two intermediate files *)
  cf_zip : io;         (* writing the container *)
  cf_replace : io;
  cf_unlink : bool;    (* a failed container is removed *)
  cf_cleanup : bool;   (* the work directory is removed *)
}.

(** The archive's path, the temporary next to it, and whether the work directory exists. *)
Record Place := { pl_target : zip_file; pl_temporary : zip_file; pl_workdir : bool }.
Definition set_temporary (z : zip_file) (p : Place) : Place :=
  {| pl_target := pl_target p; pl_temporary := z; pl_workdir := pl_workdir p |}.
Definition set_workdir (b : bool) (p : Place) : Place :=
  {| pl_target := pl_target p; pl_temporary := pl_temporary p; pl_workdir := b |}.
Definition install (p : Place) : Place :=
  {| pl_target := pl_temporary p; pl_temporary := NoFile; pl_workdir := pl_workdir p |}.

Definition exists_ (z : zip_file) : bool := match z with NoFile => false | _ => true end.

Definition open_binary (f : registry_file) : res bytes :=
  match f with Content b => Ok b | _ => Err (OSError "cannot open evidence file") end.

Definition manifest_cfg : cfg := {|
  c_ascii := true; c_sort := true; c_isep := [44]; c_ksep := [58; 32]; c_indent := Some 2%nat;
  c_float := fun _ => [] |}.      (* no floats: [authenticated_data] has refused them *)

(** Two stored members: local headers, central directory, end record. *)
Definition stored_size (l : list ZipInfo) : Z :=
  fold_right (fun i n => 76 + 2 * zlen (zi_name i) + zlen (zi_data i) + n) 22 l.
Definition stored (l : list ZipInfo) : zip_file := File (stored_size l) (Members l).

(** The container is written next to its place and renamed. *)
Definition write_members (f : CreateFaults) (m : ArchiveManifest) (ciphertext : bytes) : SE Place unit :=
  modify (set_temporary (File 0 NotZip)) ;;
  text ← lift (dumps manifest_cfg (manifest_to_dict m));
  manifest_json ← lift (utf8_encode text);
  lift (io_result (cf_zip f) "archive") ;;
  modify (set_temporary (stored [entry MANIFEST_ENTRY manifest_json; entry CIPHERTEXT_ENTRY ciphertext])) ;;
  (if replaced (cf_replace f) then modify install else mret tt) ;;
  lift (io_result (cf_replace f) "replace").

(** [except BaseException: unlink, raise] *)
Definition write_container (f : CreateFaults) (m : ArchiveManifest) (ciphertext : bytes) : SE Place unit :=
  se_try (write_members f m ciphertext) (fun e =>
    match e with
    | Crash _ => raise e
    | _ => (if cf_unlink f then modify (set_temporary NoFile) else mret tt) ;; raise e
    end).

Definition mark_created (strict : bool) (t : ArchiveTrust) : ArchiveTrust := {|
  container_authenticated := container_authenticated t; plaintext_hash_verified := plaintext_hash_verified t;
  evidence_format_valid := evidence_format_valid t; evidence_signatures_verified := evidence_signatures_verified t;
  evidence_chain_verified := evidence_chain_verified t; node_identity_verified := node_identity_verified t;
  errors := errors t; warnings := warnings t; verification := verification t; created := Some strict |}.

Definition new_manifest (a : CreateArgs) (e : Entropy) (created_at : str) (summary : Summary) (encapsulated : bytes)
    (plaintext_length : Z) (digest : str) (compressed : bytes) : ArchiveManifest := {|
  am_node_id := VStr (ca_node_id a); am_key_id := VStr (ca_key_id a);
  am_first_sequence := sm_first_sequence summary; am_last_sequence := sm_last_sequence summary;
  am_event_count := sm_event_count summary; am_created_at := VStr created_at;
  am_chain_final_hash := VStr (sm_chain_final_hash summary); am_plaintext_sha3_256 := VStr digest;
  am_plaintext_length := plaintext_length; am_encapsulated_key := VStr (b64encode encapsulated);
  am_hkdf_salt := VStr (b64encode (en_salt e)); am_nonce := VStr (b64encode (en_nonce e));
  am_ciphertext_length := zlen compressed + GCM_TAG_BYTES;
  am_evidence_strictly_verified := ca_require_valid_evidence a; am_metadata := ca_metadata a |}.

(** Inside the work directory: compress, encrypt, write the container. *)
Definition seal (a : CreateArgs) (src : Source) (e : Entropy) (created_at : str) (f : CreateFaults)
    (summary : Summary) (aes_key encapsulated : bytes) : SE Place ArchiveManifest :=
  content ← lift (open_binary (src_seal src));
  lift (io_result (cf_work f) "work file") ;;
  '(plaintext_length, digest, compressed) ← lift (seal_pass (ca_max_plaintext_bytes a) content);
  let manifest := new_manifest a e created_at summary encapsulated plaintext_length digest compressed in
  aad ← lift (authenticated_data manifest);
  ciphertext ← lift (encrypt_pass aes_key (en_nonce e) aad compressed);
  write_container f manifest ciphertext ;;
  mret manifest.

Definition create_archive (a : CreateArgs) (src : Source) (e : Entropy) (created_at : str) (f : CreateFaults)
    : SE Place (ArchiveManifest * ArchiveTrust) :=
  let strict := ca_require_valid_evidence a in
  lift (positive (ca_max_plaintext_bytes a)) ;;
  lift (refuse_unless (src_is_file src) "not_found" "evidence file not found") ;;
  target ← gets pl_target;
  lift (refuse_unless (negb (exists_ target) || ca_overwrite a) "exists" "refusing to overwrite") ;;
  lift (refuse_unless (src_size src <=? ca_max_plaintext_bytes a) "oversized" "evidence file exceeds the limit") ;;
  '(summary, trust) ← lift (summarise_evidence env backends lim (src_scan src) (src_verify src) (ca_registry a) strict None);
  lift (refuse_unless (negb strict || bool_decide (errors trust = [])) "evidence_rejected" "strict mode refused this evidence") ;;
  lift (refuse_unless (negb strict || match sm_nodes summary with [] => true | n :: _ => str_eqb n (ca_node_id a) end)
    "node_mismatch" "--node-id does not match the evidence") ;;
  kem ← lift (kem_backend (ca_backend a) None);
  '(shared_secret, encapsulated) ← lift (bk_kem_encapsulate kem (en_kem e) (ca_recipient_public_key a) KEM_ALGORITHM);
  aes_key ← lift (hkdf_sha256 shared_secret (en_salt e) HKDF_INFO 32);
  lift (io_result (cf_workdir f) "mkdtemp") ;;
  modify (set_workdir true) ;;
  manifest ← on_exit (seal a src e created_at f summary aes_key encapsulated)
    (fun p => if cf_cleanup f then set_workdir false p else p);
  mret (manifest, mark_created strict trust).

(** ** Decryption *)
Record DecryptArgs := {
  da_private_key : bytes;
  da_output : bool;              (* an output path is given *)
  da_backend : option CryptoBackend;
  da_max_archive_bytes : Z;
  da_max_plaintext_bytes : Z;
  da_overwrite : bool;
}.

Record DecryptFaults := {
  df_scratch : io;     (* making the scratch file *)
  df_ciphertext : io;  (* writing the decrypted, still compressed file *)
  df_sync : io;
  df_replace : io;
  df_chmod : io;
  df_unlink : bool;    (* the scratch file is removed *)
}.

(** The caller's destination and the scratch file next to it. *)
Record Restore := { rs_destination : option bytes; rs_scratch : option bytes }.
Definition set_scratch (b : option bytes) (r : Restore) : Restore :=
  {| rs_destination := rs_destination r; rs_scratch := b |}.
Definition publish (r : Restore) : Restore := {| rs_destination := rs_scratch r; rs_scratch := None |}.

(** A routine that writes the scratch file, opened anew. *)
Definition to_scratch {A} (m : SE bytes A) : SE Restore A := fun r =>
  match m [] with (w, x) => (set_scratch (Some w) r, x) end.

Definition authenticated (t : ArchiveTrust) (digest_too : bool) : ArchiveTrust := {|
  container_authenticated := true; plaintext_hash_verified := digest_too;
  evidence_format_valid := evidence_format_valid t; evidence_signatures_verified := evidence_signatures_verified t;
  evidence_chain_verified := evidence_chain_verified t; node_identity_verified := node_identity_verified t;
  errors := errors t; warnings := warnings t; verification := verification t; created := created t |}.

(** The [try] block. *)
Definition restore (a : DecryptArgs) (z : zip_file) (f : DecryptFaults) : SE Restore (ArchiveManifest * bool * ArchiveTrust) :=
  members ← lift (open_zip z);
  '(manifest, info) ← lift (read_manifest members (da_max_archive_bytes a));
  kem ← lift (kem_backend (da_backend a) (Some (da_private_key a)));
  encapsulated ← lift (unb64 (am_encapsulated_key manifest));
  salt ← lift (unb64 (am_hkdf_salt manifest));
  nonce ← lift (unb64 (am_nonce manifest));
  lift (refuse_unless (zlen nonce =? GCM_NONCE_BYTES) "bad_manifest" "nonce must be 12 bytes") ;;
  lift (refuse_unless (zlen salt =? HKDF_SALT_BYTES) "bad_manifest" "hkdf_salt must be 32 bytes") ;;
  shared_secret ← lift (bk_kem_decapsulate kem (da_private_key a) encapsulated KEM_ALGORITHM);
  aes_key ← lift (hkdf_sha256 shared_secret salt HKDF_INFO 32);
  '(written, digest) ← to_scratch (stream_decrypt info (authenticated_data manifest) aes_key nonce
    (io_result (df_ciphertext f) "ciphertext") (da_max_plaintext_bytes a));
  lift (io_result (df_sync f) "fsync") ;;
  lift (refuse_unless (is_str (am_plaintext_sha3_256 manifest) digest && (written =? am_plaintext_length manifest))
    "digest_mismatch" "decrypted evidence does not match the manifest digest or length") ;;
  let trust := authenticated new_trust true in
  if da_output a then
    (if replaced (df_replace f) then modify publish else mret tt) ;;
    lift (io_result (df_replace f) "replace") ;;
    lift (io_result (df_chmod f) "chmod") ;;
    mret (manifest, true, trust)
  else mret (manifest, false, trust).

(** [except zipfile.BadZipFile] *)
Definition as_truncated {S A} (m : SE S A) : SE S A :=
  se_try m (fun e => match e with
    | BadZipFile _ => raise (ArchiveError "truncated" "archive is corrupt or truncated")
    | e => raise e
    end).

Definition decrypt_archive (a : DecryptArgs) (z : zip_file) (f : DecryptFaults)
    : SE Restore (ArchiveManifest * bool * ArchiveTrust) :=
  lift (positive (da_max_archive_bytes a)) ;;
  lift (positive (da_max_plaintext_bytes a)) ;;
  lift (match z with
        | NoFile => archive_error "not_found" "archive not found"
        | File size _ => refuse_unless (size <=? da_max_archive_bytes a) "oversized" "archive exceeds the limit"
        end) ;;
  destination ← gets rs_destination;
  lift (refuse_unless (negb (da_output a) || bool_decide (destination = None) || da_overwrite a)
    "exists" "refusing to overwrite") ;;
  lift (io_result (df_scratch f) "mkstemp") ;;
  modify (set_scratch (Some [])) ;;
  on_exit (as_truncated (restore a z f)) (fun r => if df_unlink f then set_scratch None r else r).

(** ** Verification *)
Record ArchiveReport := {
  ar_structure_valid : bool;
  ar_manifest : option ArchiveManifest;
  ar_trust : ArchiveTrust;
}.

Definition warn (t : ArchiveTrust) : ArchiveTrust := {|
  container_authenticated := container_authenticated t; plaintext_hash_verified := plaintext_hash_verified t;
  evidence_format_valid := evidence_format_valid t; evidence_signatures_verified := evidence_signatures_verified t;
  evidence_chain_verified := evidence_chain_verified t; node_identity_verified := node_identity_verified t;
  errors := errors t; warnings := S (warnings t); verification := verification t; created := created t |}.

(** Does the manifest describe the evidence?  The differences found. *)
Definition mismatches (m : ArchiveManifest) (s : Summary) : nat :=
  length (List.filter (fun b : bool => b) [
    match sm_nodes s with [] => false | [n] => negb (is_str (am_node_id m) n) | _ => true end;
    negb (sm_event_count s =? am_event_count m);
    negb (sm_first_sequence s =? am_first_sequence m);
    negb (sm_last_sequence s =? am_last_sequence m);
    negb (is_str (am_chain_final_hash m) (sm_chain_final_hash s))]).

(** What the enclosed records add to the report. *)
Definition judge_evidence (m : ArchiveManifest) (s : Summary) (evidence t : ArchiveTrust) : ArchiveTrust :=
  let differs := negb (mismatches m s =? 0)%nat in
  fail_if differs "manifest_content_mismatch" {|
    container_authenticated := container_authenticated t; plaintext_hash_verified := plaintext_hash_verified t;
    evidence_format_valid := evidence_format_valid evidence;
    evidence_signatures_verified := evidence_signatures_verified evidence;
    evidence_chain_verified := evidence_chain_verified evidence;
    node_identity_verified := if differs then false
      else match sm_nodes s with [n] => is_str (am_node_id m) n | _ => false end;
    errors := errors t; warnings := warnings t; verification := verification evidence; created := created t |}.

Record VerifyArgs := {
  va_private_key : option bytes;
  va_registry : option KeyRegistry;
  va_backend : option CryptoBackend;
  va_max_archive_bytes : Z;
  va_max_plaintext_bytes : Z;
}.

(** The [try] block: decrypt into the work directory, then look at the records. *)
Definition examine (a : VerifyArgs) (key : bytes) (z : zip_file) (f : DecryptFaults) : SE Restore ArchiveTrust :=
  '(manifest, _, decrypted) ← decrypt_archive {|
    da_private_key := key; da_output := true; da_backend := va_backend a;
    da_max_archive_bytes := va_max_archive_bytes a; da_max_plaintext_bytes := va_max_plaintext_bytes a;
    da_overwrite := true |} z f;
  match va_registry a with
  | None => mret (warn decrypted)
  | Some _ =>
    plaintext ← gets rs_destination;
    let file := match plaintext with Some b => Content b | None => Missing end in
    '(summary, evidence) ← lift (summarise_evidence env backends lim file file (va_registry a) false None);
    mret (judge_evidence manifest summary evidence decrypted)
  end.

(** The caught error keeps what was established before it: nothing, since only the decryption
    raises one. *)
Definition verify_archive (a : VerifyArgs) (z : zip_file) (workdir : io) (f : DecryptFaults) (unlinked : bool)
    : SE Restore ArchiveReport :=
  match (members ← open_zip z; read_manifest members (va_max_archive_bytes a)) with
  | Err (ArchiveError code _) =>
    mret {| ar_structure_valid := false; ar_manifest := None; ar_trust := fail code new_trust |}
  | Err (BadZipFile _ | OSError _) =>
    mret {| ar_structure_valid := false; ar_manifest := None; ar_trust := fail "truncated" new_trust |}
  | Err e => raise e
  | Ok (manifest, _) =>
    match va_private_key a with
    | None => mret {| ar_structure_valid := true; ar_manifest := Some manifest; ar_trust := warn new_trust |}
    | Some key =>
      lift (io_result workdir "mkdtemp") ;;
      trust ← on_exit
        (se_try (examine a key z f) (fun e =>
           match e with ArchiveError code _ => mret (fail code new_trust) | e => raise e end))
        (fun r => if unlinked then {| rs_destination := None; rs_scratch := rs_scratch r |} else r);
      mret {| ar_structure_valid := true; ar_manifest := Some manifest; ar_trust := trust |}
    end
  end.
End Archive.
