(* ===== verification/ArchiveFacts.v ===== *)
(** Facts on archives: the manifest survives its JSON text and keeps its authenticated
    bytes, and the reader accepts what the writer stores. *)
From S2P Require Import Prelude PyText Json JsonFacts JsonScan Hashes IsoTime Canonicalizer Models CryptoBackend EventChain KeyRegistry Verifier Collector StateStore EvidenceStore RecordFacts Sockets ArchiveEvidence ArchiveStream ArchiveStreamFacts Archive.

#[export] Instance manifest_layout : Layout manifest_cfg.
Proof. split; [by exists [] | exists [32]; split; [done | by constructor]]. Qed.

(** ** The manifest through its text *)
Definition normal_manifest (m : ArchiveManifest) : ArchiveManifest := {|
  am_node_id := normal true (am_node_id m); am_key_id := normal true (am_key_id m);
  am_first_sequence := am_first_sequence m; am_last_sequence := am_last_sequence m; am_event_count := am_event_count m;
  am_created_at := normal true (am_created_at m); am_chain_final_hash := normal true (am_chain_final_hash m);
  am_plaintext_sha3_256 := normal true (am_plaintext_sha3_256 m); am_plaintext_length := am_plaintext_length m;
  am_encapsulated_key := normal true (am_encapsulated_key m); am_hkdf_salt := normal true (am_hkdf_salt m);
  am_nonce := normal true (am_nonce m); am_ciphertext_length := am_ciphertext_length m;
  am_evidence_strictly_verified := am_evidence_strictly_verified m; am_metadata := normal_event (am_metadata m) |}.

Record counts_ok (m : ArchiveManifest) : Prop := {
  ok_first : 0 <= am_first_sequence m;
  ok_last : 0 <= am_last_sequence m;
  ok_count : 0 <= am_event_count m;
  ok_plaintext : 0 <= am_plaintext_length m;
  ok_ciphertext : 0 <= am_ciphertext_length m;
}.

Lemma manifest_shallow m : manifest_to_dict (normal_manifest m) = VDict (shallow (as_dict (manifest_items m))).
Proof. reflexivity. Qed.

Lemma manifest_keys m : map fst (manifest_items m) = MANIFEST_FIELDS.
Proof. reflexivity. Qed.

Lemma manifest_fields_nodup : NoDup MANIFEST_FIELDS.
Proof. apply (bool_decide_eq_true_1 _). vm_compute. reflexivity. Qed.

Lemma shallow_keys m : keys (shallow (as_dict (manifest_items m))) = MANIFEST_FIELDS.
Proof. rewrite keys_shallow, <- (manifest_keys m). unfold keys, as_dict. by rewrite map_map. Qed.

Section Reading.
Context (m : ArchiveManifest) (d : dict) (Hd : d ≡ₚ shallow (as_dict (manifest_items m))).

Lemma manifest_get (i : nat) k v : manifest_items m !! i = Some (k, v) -> dict_get d k = Some (normal true v).
Proof.
  intros H. assert (NoDup (keys d)) as N by (unfold keys; rewrite Hd; fold (keys (shallow (as_dict (manifest_items m))));
    rewrite shallow_keys; apply manifest_fields_nodup).
  apply dict_get_Some; [done|]. rewrite Hd. apply list_elem_of_lookup_2 in H. unfold shallow, as_dict. rewrite map_map.
  apply (list_elem_of_fmap_2 (fun x : str * value => (KStr x.1, normal true x.2)) _ _ H).
Qed.

Lemma known_fields :
  forallb (fun kv : key * value => match kv.1 with KStr k => str_in k MANIFEST_FIELDS | KOther _ => false end) d = true.
Proof.
  apply forallb_Forall. rewrite Hd. unfold shallow, as_dict. rewrite map_map. apply Forall_map, Forall_forall.
  intros [k v] H. cbn [fst]. apply str_in_elem. rewrite <- (manifest_keys m). by apply (list_elem_of_fmap_2 fst) in H.
Qed.

Lemma all_fields :
  forallb (fun k => str_in k OPTIONAL_FIELDS || bool_decide (is_Some (dict_get d k))) MANIFEST_FIELDS = true.
Proof.
  apply forallb_Forall, Forall_forall. intros k H. rewrite <- (manifest_keys m) in H.
  apply list_elem_of_fmap in H as ([k' v] & -> & H). apply list_elem_of_lookup in H as [i H].
  apply orb_true_iff. right. apply bool_decide_eq_true. cbn [fst]. by rewrite (manifest_get i _ _ H).
Qed.

Lemma non_negative_get (i : nat) k z : manifest_items m !! i = Some (lit k, VInt z) -> 0 <= z -> non_negative d k = Ok z.
Proof.
  intros H L. unfold non_negative, get_or. rewrite (manifest_get i _ _ H). cbn [default normal id].
  unfold refuse_unless. by rewrite (proj2 (Z.leb_le _ _)) by done.
Qed.

Lemma manifest_reads : counts_ok m -> manifest_of_dict (VDict d) = Ok (normal_manifest m).
Proof.
  intros [F L C P T]. unfold manifest_of_dict. rewrite known_fields, all_fields.
  rewrite (non_negative_get 3 "first_sequence" _ eq_refl F), (non_negative_get 4 "last_sequence" _ eq_refl L),
    (non_negative_get 5 "event_count" _ eq_refl C), (non_negative_get 16 "ciphertext_length" _ eq_refl T),
    (non_negative_get 9 "plaintext_length" _ eq_refl P). unfold get_or.
  rewrite (manifest_get 0 (lit "archive_format_version") _ eq_refl), (manifest_get 10 (lit "kem_algorithm") _ eq_refl),
    (manifest_get 11 (lit "kdf_algorithm") _ eq_refl), (manifest_get 12 (lit "aead_algorithm") _ eq_refl),
    (manifest_get 1 (lit "node_id") _ eq_refl), (manifest_get 2 (lit "key_id") _ eq_refl),
    (manifest_get 6 (lit "created_at") _ eq_refl), (manifest_get 7 (lit "chain_final_hash") _ eq_refl),
    (manifest_get 8 (lit "plaintext_sha3_256") _ eq_refl), (manifest_get 13 (lit "encapsulated_key") _ eq_refl),
    (manifest_get 14 (lit "hkdf_salt") _ eq_refl), (manifest_get 15 (lit "nonce") _ eq_refl),
    (manifest_get 17 (lit "evidence_strictly_verified") (VBool (am_evidence_strictly_verified m)) eq_refl),
    (manifest_get 18 (lit "metadata") (VDict (am_metadata m)) eq_refl).
  cbn [default id]. rewrite normal_event_eq. unfold refuse_unless. cbn [fst snd normal is_str].
  rewrite !str_eqb_refl. cbn [require mbind res_bind truthy].
  unfold normal_manifest. destruct (normal_event (am_metadata m)); reflexivity.
Qed.
End Reading.

(** The text of a manifest whose authenticated bytes exist reads back as the manifest, and
    the authenticated bytes stay the same. *)
Lemma manifest_text_reads m aad lim : pyval (manifest_to_dict m) = true -> authenticated_data m = Ok aad ->
  (S MAX_DEPTH <= lim)%nat -> counts_ok m ->
  exists text, dumps manifest_cfg (manifest_to_dict m) = Ok text /\ utf8_encode text = Ok text /\ utf8_decode text = Ok text /\
    (v ← loads default_hooks lim text; manifest_of_dict v) = Ok (normal_manifest m) /\
    authenticated_data (normal_manifest m) = Ok aad.
Proof.
  intros Hp Ha Hl Hc. pose proof (canonical_bytes_inv _ _ Hp Ha) as A. destruct (acceptable_nesting _ Hp A) as [W N].
  pose proof (dump_ascii manifest_cfg eq_refl eq_refl eq_refl _ W 0) as Asc.
  exists (dump manifest_cfg 0 (manifest_to_dict m)). split_and!.
  - unfold dumps. by rewrite (wf_dump_check _ W).
  - by apply utf8_encode_ascii.
  - by apply (ascii_decode 1).
  - rewrite (loads_dump manifest_cfg default_hooks lim 0 _ W) by lia. cbn [mbind res_bind].
    destruct (normal_dict (as_dict (manifest_items m))) as (d & E & P). change (c_sort manifest_cfg) with true.
    unfold manifest_to_dict. rewrite E. apply manifest_reads; [|done]. rewrite P.
    unfold shallow, as_dict. rewrite !map_map. cbn [kstr fst snd]. done.
  - unfold authenticated_data. rewrite manifest_shallow. by apply canonical_shallow.
Qed.

(** Every field is bound: two manifests, their numbers not negative, have the same
    additional authenticated data only if they agree on every field - up to what a JSON text
    cannot tell apart, the order of keys and tuples against lists. *)
Theorem manifest_bound m1 m2 aad : pyval (manifest_to_dict m1) = true -> pyval (manifest_to_dict m2) = true ->
  counts_ok m1 -> counts_ok m2 -> authenticated_data m1 = Ok aad -> authenticated_data m2 = Ok aad ->
  normal_manifest m1 = normal_manifest m2.
Proof.
  intros P1 P2 C1 C2 A1 A2. pose proof (proj1 (same_bytes_iff _ _ _ _ P1 P2 A1 A2) eq_refl) as N. unfold manifest_to_dict in N.
  destruct (normal_dict (as_dict (manifest_items m1))) as (d1 & E1 & H1), (normal_dict (as_dict (manifest_items m2))) as (d2 & E2 & H2).
  rewrite E1, E2 in N. injection N as ->.
  assert (forall m, d2 ≡ₚ map (fun kv => (KStr (kstr kv.1), normal true kv.2)) (as_dict (manifest_items m)) ->
    d2 ≡ₚ shallow (as_dict (manifest_items m))) as S.
  { intros m ->. unfold shallow, as_dict. rewrite !map_map. cbn [kstr fst snd]. done. }
  pose proof (manifest_reads m1 d2 (S _ H1) C1) as R. rewrite (manifest_reads m2 d2 (S _ H2) C2) in R. congruence.
Qed.

(** ** The container *)
Definition members_of (manifest_json sealed : bytes) : list ZipInfo :=
  [entry MANIFEST_ENTRY manifest_json; entry CIPHERTEXT_ENTRY sealed].

Lemma names_pass : check_names [MANIFEST_ENTRY; CIPHERTEXT_ENTRY] = Ok tt.
Proof. vm_compute. reflexivity. Qed.

Lemma read_stored lim m text sealed max :
  utf8_decode text = Ok text -> (v ← loads default_hooks lim text; manifest_of_dict v) = Ok (normal_manifest m) ->
  zlen text <= MAX_MANIFEST_BYTES -> zlen sealed <= max -> zlen sealed = am_ciphertext_length m ->
  GCM_TAG_BYTES <= zlen sealed ->
  read_manifest lim (members_of text sealed) max = Ok (normal_manifest m, entry CIPHERTEXT_ENTRY sealed).
Proof.
  intros Hd Hv L1 L2 L3 L4. unfold read_manifest, members_of. cbn [map zi_name entry]. rewrite names_pass. cbn [mbind res_bind].
  change (find_entry MANIFEST_ENTRY _) with (Ok (entry MANIFEST_ENTRY text)). cbn [mbind res_bind entry zi_file_size].
  unfold refuse_unless. rewrite (proj2 (Z.leb_le _ _) L1). cbn [require mbind res_bind].
  change (read_entry _) with (Ok text). cbn [mbind res_bind]. rewrite Hd. cbn [mbind res_bind]. apply bind_ok in Hv as (v & -> & Hv). cbn [try_with mbind res_bind]. rewrite Hv.
  cbn [mbind res_bind]. change (find_entry CIPHERTEXT_ENTRY _) with (Ok (entry CIPHERTEXT_ENTRY sealed)).
  cbn [mbind res_bind entry zi_file_size]. cbn [normal_manifest am_ciphertext_length].
  by rewrite (proj2 (Z.leb_le _ _) L2), (proj2 (Z.eqb_eq _ _) L3), (proj2 (Z.leb_le _ _) L4).
Qed.

Lemma nodup_two {A} (l : list A) x y : NoDup l -> x ∈ l -> y ∈ l -> x <> y -> (forall z, z ∈ l -> z = x \/ z = y) ->
  l ≡ₚ [x; y].
Proof.
  intros N Hx Hy D H. apply NoDup_Permutation; [done | |].
  - constructor; [by intros ->%list_elem_of_singleton | apply NoDup_singleton].
  - intros z. rewrite !elem_of_cons. split; [naive_solver|]. intros [->|[->|[]%elem_of_nil]]; done.
Qed.

Lemma check_names_inv names : check_names names = Ok tt -> names ≡ₚ EXPECTED_ENTRIES.
Proof.
  unfold check_names, refuse_unless. intros (u1 & N & E)%bind_ok. apply require_ok, bool_decide_eq_true in N.
  apply bind_ok in E as (u2 & U & E). apply require_ok in U. apply bind_ok in E as (u3 & M & _). apply require_ok in M.
  rewrite forallb_Forall, Forall_forall in U. rewrite forallb_Forall in M. inversion M as [|? ? M1 M2]; subst.
  inversion M2 as [|? ? M3 _]; subst. apply str_in_elem in M1, M3. apply nodup_two; [done.. | |].
  - apply (bool_decide_eq_true_1 _). vm_compute. reflexivity.
  - intros z Hz. specialize (U z Hz). apply str_in_elem in U. unfold EXPECTED_ENTRIES in U. rewrite !elem_of_cons in U.
    destruct U as [?|[?|[]%elem_of_nil]]; auto.
Qed.

Lemma find_entry_inv name l i : find_entry name l = Ok i -> i ∈ l /\ zi_name i = name.
Proof.
  unfold find_entry. destruct (List.find _ l) eqn:E; [|done]. intros [= ->]. apply find_some in E as [H E].
  apply str_eqb_eq in E. by rewrite list_elem_of_In.
Qed.

Lemma read_manifest_inv lim l max m i : read_manifest lim l max = Ok (m, i) ->
  map zi_name l ≡ₚ EXPECTED_ENTRIES /\ i ∈ l /\ zi_name i = CIPHERTEXT_ENTRY /\
  zi_file_size i = am_ciphertext_length m /\ GCM_TAG_BYTES <= zi_file_size i <= max /\
  exists j, j ∈ l /\ zi_name j = MANIFEST_ENTRY /\ zi_file_size j <= MAX_MANIFEST_BYTES.
Proof.
  unfold read_manifest, refuse_unless. intros (u1 & N & E)%bind_ok. destruct u1.
  apply bind_ok in E as (j & J & E). apply bind_ok in E as (u2 & L & E). apply bind_ok in E as (raw & _ & E).
  apply bind_ok in E as (v & _ & E). apply bind_ok in E as (m' & _ & E). apply bind_ok in E as (i' & I & E).
  apply bind_ok in E as (u3 & B & E). apply bind_ok in E as (u4 & C & E). apply bind_ok in E as (u5 & T & [= <- <-]).
  apply require_ok in L, B, C, T. apply find_entry_inv in I as [I1 I2], J as [J1 J2]. bool_prop.
  split_and!; try done; [by apply check_names_inv|]. by exists j.
Qed.

Lemma non_negative_inv d k z : non_negative d k = Ok z -> 0 <= z.
Proof.
  unfold non_negative. destruct (get_or d k VNone); try done. intros (u & L & [= <-])%bind_ok. apply require_ok in L. by apply Z.leb_le.
Qed.

(** Whatever a manifest claims, its numbers are not negative. *)
Lemma manifest_of_dict_counts v m : manifest_of_dict v = Ok m -> counts_ok m.
Proof.
  destruct v; try done. unfold manifest_of_dict. do 6 (intros (? & _ & E)%bind_ok; revert E).
  intros (n1 & N1 & E)%bind_ok. apply bind_ok in E as (n2 & N2 & E). apply bind_ok in E as (n3 & N3 & E).
  apply bind_ok in E as (n4 & N4 & E). apply bind_ok in E as (n5 & N5 & E). apply bind_ok in E as (md & _ & E).
  apply bind_ok in E as (b & _ & [= <-]). apply non_negative_inv in N1, N2, N3, N4, N5. by split.
Qed.

Lemma read_manifest_counts lim l max m i : read_manifest lim l max = Ok (m, i) -> counts_ok m.
Proof.
  unfold read_manifest. intros (u1 & _ & E)%bind_ok. apply bind_ok in E as (j & _ & E). apply bind_ok in E as (u2 & _ & E).
  apply bind_ok in E as (raw & _ & E). apply bind_ok in E as (v & _ & E). apply bind_ok in E as (m' & M & E).
  apply bind_ok in E as (i' & _ & E). apply bind_ok in E as (u3 & _ & E). apply bind_ok in E as (u4 & _ & E).
  apply bind_ok in E as (u5 & _ & [= <- <-]). by apply (manifest_of_dict_counts v).
Qed.

(** A container is read only if it holds exactly the two expected members, once each;
    then its manifest's numbers are not negative, and its payload has the size the manifest
    names: at least an authentication tag, at most the reader's limit. *)
Theorem container_exact lim l max m i : read_manifest lim l max = Ok (m, i) ->
  map zi_name l ≡ₚ EXPECTED_ENTRIES /\ counts_ok m /\ i ∈ l /\ zi_name i = CIPHERTEXT_ENTRY /\
  zi_file_size i = am_ciphertext_length m /\ GCM_TAG_BYTES <= zi_file_size i <= max.
Proof.
  intros E. pose proof (read_manifest_inv _ _ _ _ _ E) as (? & ? & ? & ? & ? & _). pose proof (read_manifest_counts _ _ _ _ _ E).
  done.
Qed.

(** ** Creation *)
Section Creation.
Context (lim : nat) (env : Environ) (backends : list (str * CryptoBackend)) `{Aead, Zlib}.

(** A complete archive: both members, the manifest's text and the sealed stream. *)
Definition complete (m : ArchiveManifest) (sealed : bytes) (z : zip_file) : Prop :=
  exists text json, dumps manifest_cfg (manifest_to_dict m) = Ok text /\ utf8_encode text = Ok json /\
    z = stored (members_of json sealed).

Definition crash (e : exn) : Prop := exists s, e = Crash s.

Lemma modify_bind {S B} (g : S -> S) (k : unit -> SE S B) s : (modify g ≫= k) s = k tt (g s).
Proof. done. Qed.

Lemma io_not_ok o stage e : io_result o stage = Err e -> crash e \/ replaced o = false.
Proof. destruct o as [|n|[|n]]; [done | by right | by right |]. intros [= <-]. left. by eexists. Qed.

(** How a step may leave the place: the target as it was, or the archive installed whole -
    then only a crash can still be reported. *)
Definition installs {A} (m : ArchiveManifest) (sealed : bytes) (p p' : Place) (r : res A) : Prop :=
  (pl_target p' = pl_target p /\ exists e, r = Err e) \/
  (complete m sealed (pl_target p') /\ pl_temporary p' = NoFile /\ forall e, r = Err e -> crash e).

Lemma write_members_spec f m sealed p p' r : write_members f m sealed p = (p', r) ->
  pl_workdir p' = pl_workdir p /\ installs m sealed p p' r.
Proof.
  unfold write_members. rewrite modify_bind.
  intros [(e & _ & -> & ->)|(text & D & E)]%lift_bind_cases; [split; [done|]; left; split; [done | eauto]|].
  apply lift_bind_cases in E as [(e & _ & -> & ->)|(json & U & E)]; [split; [done|]; left; split; [done | eauto]|].
  apply lift_bind_cases in E as [(e & _ & -> & ->)|(u & _ & E)]; [split; [done|]; left; split; [done | eauto]|].
  rewrite modify_bind in E. destruct (replaced (cf_replace f)) eqn:R.
  - rewrite modify_bind in E. injection E as <- <-. split; [done|]. right. split; [by exists text, json|]. split; [done|].
    intros e [?|?]%io_not_ok; [done | congruence].
  - unfold mbind at 1, se_bind at 1, mret, se_ret, lift in E. injection E as <- <-. split; [done|]. left. split; [done|].
    destruct (cf_replace f) as [|n|[|n]]; try done; eexists; done.
Qed.

Lemma write_container_spec f m sealed p p' r : write_container f m sealed p = (p', r) ->
  pl_workdir p' = pl_workdir p /\ installs m sealed p p' r /\
  (forall e, r = Err e -> ~ crash e -> cf_unlink f = true -> pl_temporary p' = NoFile).
Proof.
  unfold write_container, se_try. destruct (write_members f m sealed p) as [p1 r1] eqn:E.
  apply write_members_spec in E as [W I]. destruct r1 as [u|e]; [intros [= <- <-]; split_and!; done|].
  destruct I as [[T _]|I].
  - intros X. assert (r = Err e /\ pl_workdir p' = pl_workdir p1 /\ pl_target p' = pl_target p1 /\
      (~ crash e -> cf_unlink f = true -> pl_temporary p' = NoFile)) as (-> & Wd & Tg & Tm).
    { destruct (cf_unlink f), e; unfold raise, mbind, se_bind, modify, mret, se_ret in X; injection X as <- <-;
        (split_and!; [done..|]); intros N; try done; destruct N; by eexists. }
    split; [congruence|]. split; [left; split; [congruence | by exists e]|]. intros e' E'. injection E' as <-. exact Tm.
  - pose proof I as (_ & _ & C). destruct (C e eq_refl) as [st ->]. intros [= <- <-]. split; [done|]. split; [by right|].
    intros e' [= <-] N. destruct N. by eexists.
Qed.

(** What was sealed: the content of the file at the third reading, under the limit. *)
Record sealing (a : CreateArgs) (src : Source) (e : Entropy) (created_at : str) (summary : Summary)
    (aes_key encapsulated content aad sealed : bytes) (m : ArchiveManifest) : Prop := {
  sl_content : src_seal src = Content content;
  sl_size : zlen content <= ca_max_plaintext_bytes a;
  sl_manifest : m = new_manifest a e created_at summary encapsulated (zlen content) (hash_hex content) (gzip (chunks content));
  sl_aad : authenticated_data m = Ok aad;
  sl_sealed : encrypt_pass aes_key (en_nonce e) aad (gzip (chunks content)) = Ok sealed;
}.

(** The place after a step that may install an archive of [P]: as [installs], for some manifest. *)
Definition places {A} (f : CreateFaults) (P : ArchiveManifest -> bytes -> Prop) (p p' : Place) (r : res A) : Prop :=
  ((pl_target p' = pl_target p /\ exists e, r = Err e) \/
   (exists m sealed, P m sealed /\ complete m sealed (pl_target p') /\ pl_temporary p' = NoFile /\
     forall e, r = Err e -> crash e)) /\
  (forall e, r = Err e -> ~ crash e -> cf_unlink f = true -> pl_temporary p' = NoFile \/ pl_temporary p' = pl_temporary p).

Lemma places_err {A} f P p e : places (A := A) f P p p (Err e).
Proof. split; [left; eauto | by right]. Qed.

Lemma seal_spec a src e created_at f summary aes_key encapsulated p p' r : 0 <= ca_max_plaintext_bytes a ->
  seal a src e created_at f summary aes_key encapsulated p = (p', r) ->
  let P m sealed := exists content aad, sealing a src e created_at summary aes_key encapsulated content aad sealed m in
  pl_workdir p' = pl_workdir p /\ places f P p p' r /\
  (forall m, r = Ok m -> exists sealed, P m sealed /\ complete m sealed (pl_target p')).
Proof.
  intros Hmax E P. unfold seal in E.
  apply lift_bind_cases in E as [(x & _ & -> & ->)|(content & C & E)]; [split_and!; [done | apply places_err | done]|].
  apply lift_bind_cases in E as [(x & _ & -> & ->)|(u & _ & E)]; [split_and!; [done | apply places_err | done]|].
  apply lift_bind_cases in E as [(x & _ & -> & ->)|([[n d] z] & S & E)]; [split_and!; [done | apply places_err | done]|].
  apply seal_pass_inv in S as (-> & L & -> & ->); [|done]. cbv zeta in E.
  set (m := new_manifest _ _ _ _ _ _ _ _) in E.
  apply lift_bind_cases in E as [(x & _ & -> & ->)|(aad & A & E)]; [split_and!; [done | apply places_err | done]|].
  apply lift_bind_cases in E as [(x & _ & -> & ->)|(sealed & Se & E)]; [split_and!; [done | apply places_err | done]|].
  assert (P m sealed) as Hm.
  { exists content, aad. split; try done. unfold open_binary in C. by destruct (src_seal src); simplify_eq. }
  unfold mbind, se_bind in E. destruct (write_container f m sealed p) as [p1 [u'|x]] eqn:W;
    apply write_container_spec in W as (W & I & T); injection E as <- <-.
  - destruct I as [[_ [x Hx]]|(Cm & Tm & _)]; [done|]. split_and!; [done | | intros m' [= <-]; eauto].
    split; [right; exists m, sealed; done | done].
  - split_and!; [done | | done]. split; [|intros y [= <-] N Hu; left; by apply (T x)].
    destruct I as [[Tg _]|(Cm & Tm & Cr)]; [left; eauto | right]. exists m, sealed. split_and!; try done.
    intros y [= <-]. by apply Cr.
Qed.

(** What stands behind an archive that was created. *)
Record created_with (a : CreateArgs) (src : Source) (e : Entropy) (created_at : str) (m : ArchiveManifest) (sealed : bytes)
    (summary : Summary) (trust : ArchiveTrust) (kem : CryptoBackend) (shared encapsulated aes_key content aad : bytes) : Prop := {
  cw_max : 0 < ca_max_plaintext_bytes a;
  cw_summary : summarise_evidence env backends lim (src_scan src) (src_verify src) (ca_registry a)
    (ca_require_valid_evidence a) None = Ok (summary, trust);
  cw_strict : ca_require_valid_evidence a = true -> errors trust = [] /\
    forall n rest, sm_nodes summary = n :: rest -> n = ca_node_id a;
  cw_kem : kem_backend env backends (ca_backend a) None = Ok kem;
  cw_encapsulate : bk_kem_encapsulate kem (en_kem e) (ca_recipient_public_key a) KEM_ALGORITHM = Ok (shared, encapsulated);
  cw_key : hkdf_sha256 shared (en_salt e) HKDF_INFO 32 = Ok aes_key;
  cw_sealing : sealing a src e created_at summary aes_key encapsulated content aad sealed m;
}.

Definition archived (a : CreateArgs) (src : Source) (e : Entropy) (created_at : str) (m : ArchiveManifest) (sealed : bytes) : Prop :=
  exists summary trust kem shared encapsulated aes_key content aad,
    created_with a src e created_at m sealed summary trust kem shared encapsulated aes_key content aad.

Definition tidy (f : CreateFaults) (p p' : Place) {A} (r : res A) : Prop :=
  pl_workdir p = false -> cf_cleanup f = true -> (forall e, r = Err e -> ~ crash e) -> pl_workdir p' = false.

Ltac stopped := split_and!; [apply places_err | by intros ? | done].

Lemma create_spec a src e created_at f p p' r : create_archive lim env backends a src e created_at f p = (p', r) ->
  places f (archived a src e created_at) p p' r /\ tidy f p p' r /\
  (forall m t, r = Ok (m, t) -> exists sealed, archived a src e created_at m sealed /\ complete m sealed (pl_target p')).
Proof.
  intros E. unfold create_archive in E. cbv zeta in E.
  apply lift_bind_cases in E as [(x & _ & -> & ->)|(u1 & Hm & E)]; [stopped|]. apply require_ok, Z.ltb_lt in Hm.
  apply lift_bind_cases in E as [(x & _ & -> & ->)|(u2 & _ & E)]; [stopped|].
  rewrite (se_bind_eq _ _ _ p (pl_target p)) in E by done.
  apply lift_bind_cases in E as [(x & _ & -> & ->)|(u3 & _ & E)]; [stopped|].
  apply lift_bind_cases in E as [(x & _ & -> & ->)|(u4 & _ & E)]; [stopped|].
  apply lift_bind_cases in E as [(x & _ & -> & ->)|([summary trust] & Su & E)]; [stopped|].
  apply lift_bind_cases in E as [(x & _ & -> & ->)|(u5 & S1 & E)]; [stopped|]. apply require_ok in S1.
  apply lift_bind_cases in E as [(x & _ & -> & ->)|(u6 & S2 & E)]; [stopped|]. apply require_ok in S2.
  apply lift_bind_cases in E as [(x & _ & -> & ->)|(kem & K & E)]; [stopped|].
  apply lift_bind_cases in E as [(x & _ & -> & ->)|([shared encapsulated] & En & E)]; [stopped|].
  apply lift_bind_cases in E as [(x & _ & -> & ->)|(aes_key & Hk & E)]; [stopped|].
  apply lift_bind_cases in E as [(x & _ & -> & ->)|(u7 & _ & E)]; [stopped|].
  rewrite modify_bind in E. unfold mbind, se_bind in E.
  destruct (on_exit _ _ _) as [p2 r2] eqn:X. unfold on_exit in X.
  destruct (seal a src e created_at f summary aes_key encapsulated (set_workdir true p)) as [p1 r1] eqn:Se.
  apply seal_spec in Se as (W & Pl & Ok1); [|lia].
  assert (forall m sealed, (exists content aad, sealing a src e created_at summary aes_key encapsulated content aad sealed m) ->
    archived a src e created_at m sealed) as Lift.
  { intros m sealed (content & aad & H1). exists summary, trust, kem, shared, encapsulated, aes_key, content, aad.
    split; try done. intros Hs. rewrite Hs in S1, S2. cbn [negb orb] in S1, S2. split; [by apply bool_decide_eq_true in S1|].
    intros n rest Hn. rewrite Hn in S2. by apply str_eqb_eq. }
  assert (pl_target p2 = pl_target p1 /\ pl_temporary p2 = pl_temporary p1 /\ r2 = r1 /\
    (cf_cleanup f = true -> (forall y, r1 = Err y -> ~ crash y) -> pl_workdir p2 = false)) as (T1 & T2 & -> & Wd).
  { destruct r1 as [m|[]]; injection X as <- <-; destruct (cf_cleanup f); split_and!; try done.
    intros _ N. destruct (N _ eq_refl). by eexists. }
  assert (places f (archived a src e created_at) p p2 r1) as Pl2.
  { destruct Pl as [I T]. split; rewrite ?T1, ?T2; [|exact T]. destruct I as [I|(m & sealed & Hs & Rest)]; [by left | right].
    exists m, sealed. split; [by apply Lift | done]. }
  destruct r1 as [m|y]; injection E as <- <-.
  - split_and!.
    + destruct Pl2 as [[[_ [y Hy]]|(m' & sealed & A1 & A2 & A3 & _)] _]; [done|]. split; [right; by exists m', sealed | done].
    + intros _ Hc _. by apply Wd.
    + intros m' t [= <- _]. destruct (Ok1 m eq_refl) as (sealed & Hs & Cm). exists sealed. rewrite T1. split; [by apply Lift | done].
  - split_and!; [| | done].
    { destruct Pl2 as [[[I _]|(m' & sealed & A1 & A2 & A3 & A4)] T].
      - split; [left; eauto|]. intros z [= <-]. by apply T.
      - split; [right|]; [exists m', sealed; split_and!; try done|]; intros z [= <-]; [by apply A4 | by apply T]. }
    intros _ Hc N. apply Wd; [done|]. intros z [= <-]. by apply (N y).
Qed.
End Creation.

(** ** Decryption *)
Section Decryption.
Context (lim : nat) (env : Environ) (backends : list (str * CryptoBackend)) `{Aead, Zlib, !ZlibCap}.

(** What stands behind a released plaintext: the manifest that was read, the member that
    authenticates under it as the additional data, the bounded decompression of what
    authenticated, and the digest and length the manifest names. *)
Record restored_with (a : DecryptArgs) (z : zip_file) (m : ArchiveManifest) (data : bytes)
    (members : list ZipInfo) (info : ZipInfo) (kem : CryptoBackend)
    (encapsulated salt nonce shared aes_key aad compressed : bytes) : Prop := {
  rw_members : open_zip z = Ok members;
  rw_manifest : read_manifest lim members (da_max_archive_bytes a) = Ok (m, info);
  rw_kem : kem_backend env backends (da_backend a) (Some (da_private_key a)) = Ok kem;
  rw_encapsulated : unb64 (am_encapsulated_key m) = Ok encapsulated;
  rw_salt : unb64 (am_hkdf_salt m) = Ok salt;
  rw_nonce : unb64 (am_nonce m) = Ok nonce;
  rw_shared : bk_kem_decapsulate kem (da_private_key a) encapsulated KEM_ALGORITHM = Ok shared;
  rw_key : hkdf_sha256 shared salt HKDF_INFO 32 = Ok aes_key;
  rw_aad : authenticated_data m = Ok aad;
  rw_authentic : authentic info aes_key nonce aad compressed;
  rw_inflated : inflate (da_max_plaintext_bytes a) compressed [] = (data, Ok data);
  rw_bounded : zlen data <= da_max_plaintext_bytes a;
  rw_digest : is_str (am_plaintext_sha3_256 m) (hash_hex data) = true;
  rw_length : zlen data = am_plaintext_length m;
}.

Definition restored (a : DecryptArgs) (z : zip_file) (m : ArchiveManifest) (data : bytes) : Prop :=
  exists members info kem encapsulated salt nonce shared aes_key aad compressed,
    restored_with a z m data members info kem encapsulated salt nonce shared aes_key aad compressed.

(** The destination is as it was, or holds a restored plaintext; success means the latter. *)
Definition releases (a : DecryptArgs) (z : zip_file) (r r' : Restore) (out : res (ArchiveManifest * bool * ArchiveTrust)) : Prop :=
  (rs_destination r' = rs_destination r \/
   exists m data, da_output a = true /\ restored a z m data /\ rs_destination r' = Some data) /\
  (forall m w t, out = Ok (m, w, t) -> w = da_output a /\ t = authenticated new_trust true /\
    exists data, restored a z m data /\ (w = true -> rs_destination r' = Some data)).

Lemma releases_err a z r r' e : rs_destination r' = rs_destination r -> releases a z r r' (Err e).
Proof. intros E. split; [by left | done]. Qed.

Lemma restore_spec a z f r r' out : 0 <= da_max_plaintext_bytes a ->
  restore lim env backends a z f r = (r', out) -> releases a z r r' out.
Proof.
  intros Hmax E. unfold restore in E.
  apply lift_bind_cases in E as [(x & _ & -> & ->)|(members & M & E)]; [by apply releases_err|].
  apply lift_bind_cases in E as [(x & _ & -> & ->)|([m info] & Rm & E)]; [by apply releases_err|].
  apply lift_bind_cases in E as [(x & _ & -> & ->)|(kem & K & E)]; [by apply releases_err|].
  apply lift_bind_cases in E as [(x & _ & -> & ->)|(encapsulated & En & E)]; [by apply releases_err|].
  apply lift_bind_cases in E as [(x & _ & -> & ->)|(salt & Sa & E)]; [by apply releases_err|].
  apply lift_bind_cases in E as [(x & _ & -> & ->)|(nonce & No & E)]; [by apply releases_err|].
  apply lift_bind_cases in E as [(x & _ & -> & ->)|(u1 & _ & E)]; [by apply releases_err|].
  apply lift_bind_cases in E as [(x & _ & -> & ->)|(u2 & _ & E)]; [by apply releases_err|].
  apply lift_bind_cases in E as [(x & _ & -> & ->)|(shared & Sh & E)]; [by apply releases_err|].
  apply lift_bind_cases in E as [(x & _ & -> & ->)|(aes_key & Hk & E)]; [by apply releases_err|].
  unfold mbind at 1, se_bind at 1 in E. unfold to_scratch in E.
  destruct (stream_decrypt _ _ _ _ _ _ []) as [w [[n digest]|x]] eqn:Sd; [|injection E as <- <-; by apply releases_err].
  pose proof (read_manifest_inv _ _ _ _ _ Rm) as (_ & _ & _ & _ & [Lt _] & _).
  destruct (stream_decrypt_ok _ _ _ _ _ _ _ _ _ _ Lt Hmax Sd) as (aad & compressed & data & Aad & Au & In & -> & Bd & -> & ->).
  apply lift_bind_cases in E as [(x & _ & -> & ->)|(u3 & _ & E)]; [by apply releases_err|].
  apply lift_bind_cases in E as [(x & _ & -> & ->)|(u4 & Dg & E)]; [by apply releases_err|].
  apply require_ok, andb_true_iff in Dg as [Dg Ln]. apply Z.eqb_eq in Ln.
  assert (restored a z m data) as Rs.
  { exists members, info, kem, encapsulated, salt, nonce, shared, aes_key, aad, compressed. by split. }
  cbv zeta in E. destruct (da_output a) eqn:O.
  2: { injection E as <- <-. split; [by left|]. intros m' w t [= <- <- <-]. rewrite O. split_and!; [done..|]. by exists data. }
  destruct (replaced (df_replace f)) eqn:Rp.
  - rewrite modify_bind in E.
    assert (forall out', (forall m' w t, out' = Ok (m', w, t) -> m' = m /\ w = true /\ t = authenticated new_trust true) ->
      releases a z r (publish (set_scratch (Some ([] ++ data)) r)) out') as G.
    { intros out' Ho. split; [right; by exists m, data|]. intros m' w t Ht. destruct (Ho m' w t Ht) as (-> & -> & ->).
      rewrite O. split_and!; [done..|]. by exists data. }
    apply lift_bind_cases in E as [(x & _ & -> & ->)|(u5 & _ & E)]; [by apply G|].
    apply lift_bind_cases in E as [(x & _ & -> & ->)|(u6 & _ & E)]; [by apply G|]. injection E as <- <-. apply G.
    intros m' w t [= <- <- <-]. done.
  - rewrite (se_bind_eq _ _ _ (set_scratch (Some ([] ++ data)) r) tt) in E by done.
    apply lift_bind_cases in E as [(x & _ & -> & ->)|(u5 & Io & E)]; [by apply releases_err|]. exfalso.
    by destruct (df_replace f) as [|k|[|k]].
Qed.

(** The scratch file is gone unless it could not be removed or the process died. *)
Definition scratch_gone (f : DecryptFaults) (r r' : Restore) {A} (out : res A) : Prop :=
  rs_scratch r = None -> df_unlink f = true -> (forall e, out = Err e -> ~ crash e) -> rs_scratch r' = None.

Lemma decrypt_spec a z f r r' out : decrypt_archive lim env backends a z f r = (r', out) ->
  releases a z r r' out /\ scratch_gone f r r' out.
Proof.
  intros E. unfold decrypt_archive in E.
  apply lift_bind_cases in E as [(x & _ & -> & ->)|(u1 & _ & E)]; [split; [by apply releases_err | by intros ?]|].
  apply lift_bind_cases in E as [(x & _ & -> & ->)|(u2 & Hm & E)]; [split; [by apply releases_err | by intros ?]|].
  apply require_ok, Z.ltb_lt in Hm.
  apply lift_bind_cases in E as [(x & _ & -> & ->)|(u3 & _ & E)]; [split; [by apply releases_err | by intros ?]|].
  rewrite (se_bind_eq _ _ _ r (rs_destination r)) in E by done.
  apply lift_bind_cases in E as [(x & _ & -> & ->)|(u4 & _ & E)]; [split; [by apply releases_err | by intros ?]|].
  apply lift_bind_cases in E as [(x & _ & -> & ->)|(u5 & _ & E)]; [split; [by apply releases_err | by intros ?]|].
  rewrite modify_bind in E. unfold on_exit, as_truncated, se_try in E.
  destruct (restore lim env backends a z f (set_scratch (Some []) r)) as [r1 o1] eqn:Rs.
  apply restore_spec in Rs as [D1 D2]; [|lia]. cbn [set_scratch rs_destination] in D1.
  assert (rs_destination r' = rs_destination r1 /\ (forall x, out = Ok x -> o1 = Ok x) /\
    (df_unlink f = true -> (forall e, out = Err e -> ~ crash e) -> rs_scratch r' = None)) as (T1 & T2 & T3).
  { destruct o1 as [x|[]]; injection E as <- <-; destruct (df_unlink f); split_and!; try done;
      intros _ N; destruct (N _ eq_refl); by eexists. }
  split; [|by intros _]. split; [by rewrite T1|]. intros m w t Ho. rewrite T1. by apply D2, T2.
Qed.
End Decryption.
