(* ===== verification/ArchiveTheorems.v ===== *)
(** What archives guarantee: what is created opens, nothing unauthenticated is released,
    and what a full verification means. *)
From S2P Require Import Prelude PyText Json JsonFacts JsonScan Hashes IsoTime Canonicalizer Models CryptoBackend EventChain KeyRegistry Verifier Collector StateStore EvidenceStore RecordFacts Sockets ArchiveEvidence ArchiveEvidenceFacts ArchiveStream ArchiveStreamFacts Archive ArchiveFacts.

Definition no_decrypt_faults : DecryptFaults := {|
  df_scratch := IoOk; df_ciphertext := IoOk; df_sync := IoOk; df_replace := IoOk; df_chmod := IoOk; df_unlink := true |}.

(** The first pass counts. *)
Lemma scan_line_count lim strict s raw s' : scan_line lim strict s raw = Ok s' -> sc_count s <= sc_count s'.
Proof.
  unfold scan_line. destruct (str_eqb (strip raw) []); [intros [= <-]; lia|]. cbv zeta.
  destruct (loads _ _ _) as [v|e]; [destruct v | destruct e]; intros E; try done; injection E as <-; simpl; lia.
Qed.

Lemma scan_count lim strict lines : forall s s', fold_res (scan_line lim strict) s lines = Ok s' -> sc_count s <= sc_count s'.
Proof.
  induction lines as [|raw lines IH]; intros s s' E; [injection E as <-; lia|].
  apply bind_ok in E as (s1 & E1 & E). apply scan_line_count in E1. apply IH in E. lia.
Qed.

Lemma summary_count env backends lim f1 f2 registry strict max s t :
  summarise_evidence env backends lim f1 f2 registry strict max = Ok (s, t) -> 0 <= sm_event_count s.
Proof.
  unfold summarise_evidence. intros (u & _ & E)%bind_ok. apply bind_ok in E as (col & _ & E).
  apply bind_ok in E as (lines & _ & E). apply bind_ok in E as (sc & F & E). apply scan_count in F.
  destruct col; [apply bind_ok in E as (again & _ & E); apply bind_ok in E as (rep & _ & E)|]; injection E as <- _; exact F.
Qed.

Lemma unb64_encoded b : Bytes b -> b <> [] -> unb64 (VStr (b64encode b)) = Ok b.
Proof.
  intros Hb Hn. unfold unb64. pose proof (b64decode_encode b Hb) as D.
  destruct (b64encode b) as [|x l] eqn:E; [|by rewrite D]. destruct b as [|x [|y [|z b]]]; done.
Qed.

Section Theorems.
Context (lim : nat) (env : Environ) (backends : list (str * CryptoBackend)).
Context `{Aead, Zlib, !AeadLaws, !ZlibCap, !ZlibLaws}.
Notation create := (create_archive lim env backends).
Notation decrypt := (decrypt_archive lim env backends).
Notation verify := (verify_archive lim env backends).

(** The recipient's keys belong together: what is encapsulated to the public key is the
    secret the private key recovers. *)
Definition kem_pair (kem : CryptoBackend) (rand public private : bytes) : Prop :=
  forall shared encapsulated, bk_kem_encapsulate kem rand public KEM_ALGORITHM = Ok (shared, encapsulated) ->
    Bytes encapsulated /\ encapsulated <> [] /\ bk_kem_decapsulate kem private encapsulated KEM_ALGORITHM = Ok shared.

(** [os.urandom] gives the number of bytes asked for. *)
Definition entropy_ok (e : Entropy) : Prop :=
  Bytes (en_salt e) /\ zlen (en_salt e) = HKDF_SALT_BYTES /\ Bytes (en_nonce e) /\ zlen (en_nonce e) = GCM_NONCE_BYTES.

(** The reader's limits admit what was written: its manifest, the file and the plaintext. *)
Definition within_limits (m : ArchiveManifest) (z : zip_file) (content : bytes) (max_archive max_plaintext : Z) : Prop :=
  pyval (manifest_to_dict m) = true /\ zlen (dump manifest_cfg 0 (manifest_to_dict m)) <= MAX_MANIFEST_BYTES /\
  0 <= am_first_sequence m /\ 0 <= am_last_sequence m /\
  (forall size c, z = File size c -> size <= max_archive) /\ zlen content <= max_plaintext /\ 0 < max_plaintext.

(** The [try] block over a stored archive whose manifest reads back. *)
Lemma restore_sealed d kem text sealed m encapsulated salt nonce shared aes_key aad content r :
  read_manifest lim (members_of text sealed) (da_max_archive_bytes d) = Ok (normal_manifest m, entry CIPHERTEXT_ENTRY sealed) ->
  da_backend d = Some kem -> am_encapsulated_key m = VStr (b64encode encapsulated) -> Bytes encapsulated -> encapsulated <> [] ->
  am_hkdf_salt m = VStr (b64encode salt) -> Bytes salt -> zlen salt = HKDF_SALT_BYTES ->
  am_nonce m = VStr (b64encode nonce) -> Bytes nonce -> zlen nonce = GCM_NONCE_BYTES ->
  bk_kem_decapsulate kem (da_private_key d) encapsulated KEM_ALGORITHM = Ok shared ->
  hkdf_sha256 shared salt HKDF_INFO 32 = Ok aes_key -> authenticated_data (normal_manifest m) = Ok aad ->
  encrypt_pass aes_key nonce aad (gzip (chunks content)) = Ok sealed ->
  am_plaintext_sha3_256 m = VStr (hash_hex content) -> am_plaintext_length m = zlen content ->
  zlen content <= da_max_plaintext_bytes d ->
  restore lim env backends d (stored (members_of text sealed)) no_decrypt_faults r =
    (if da_output d then {| rs_destination := Some content; rs_scratch := None |} else set_scratch (Some content) r,
     Ok (normal_manifest m, da_output d, authenticated new_trust true)).
Proof.
  intros Hr Hd A1 B1 B1' A2 B2 L2 A3 B3 L3 Hk Hh Ha Se Dg Ln Hm. unfold restore. cbn [open_zip stored].
  assert (salt <> [] /\ nonce <> []) as [S0 N0] by (split; intros ->; done).
  rewrite lift_bind, lift_bind, Hr. unfold kem_backend. rewrite Hd, lift_bind. cbn [normal_manifest am_encapsulated_key am_hkdf_salt am_nonce].
  rewrite A1, A2, A3. cbn [normal]. rewrite lift_bind, (unb64_encoded encapsulated) by done.
  rewrite lift_bind, (unb64_encoded salt) by done. rewrite lift_bind, (unb64_encoded nonce) by done.
  rewrite lift_bind, L3, lift_bind, L2. unfold refuse_unless. rewrite !Z.eqb_refl. cbn [require].
  rewrite lift_bind, Hk, lift_bind, Hh. unfold to_scratch. rewrite Ha.
  change (io_result (df_ciphertext no_decrypt_faults) "ciphertext") with (Ok tt).
  unfold mbind at 1, se_bind at 1.
  assert (zlen (concat (chunks content)) <= da_max_plaintext_bytes d) as Hm' by (by rewrite chunks_concat).
  rewrite (stream_roundtrip CIPHERTEXT_ENTRY aes_key nonce aad (chunks content) sealed _ [] Se Hm'). rewrite chunks_concat.
  rewrite lift_bind, lift_bind. cbn [df_sync no_decrypt_faults io_result normal_manifest am_plaintext_sha3_256 am_plaintext_length].
  rewrite Dg, Ln. cbn [normal is_str]. rewrite str_eqb_refl, Z.eqb_refl. cbn [andb require]. by destruct (da_output d).
Qed.

Lemma reopen a src e created_at f p p' m t kem content d r :
  create a src e created_at f p = (p', Ok (m, t)) ->
  ca_backend a = Some kem -> da_backend d = Some kem ->
  kem_pair kem (en_kem e) (ca_recipient_public_key a) (da_private_key d) -> entropy_ok e -> (S MAX_DEPTH <= lim)%nat ->
  src_seal src = Content content ->
  within_limits m (pl_target p') content (da_max_archive_bytes d) (da_max_plaintext_bytes d) ->
  (da_output d = true -> rs_destination r = None \/ da_overwrite d = true) ->
  decrypt d (pl_target p') no_decrypt_faults r =
    ({| rs_destination := if da_output d then Some content else rs_destination r; rs_scratch := None |},
     Ok (normal_manifest m, da_output d, authenticated new_trust true)).
Proof.
  intros Hc Ha Hd Hk (S1 & S2 & N1 & N2) Hl Hs (Hp & Ht & F0 & L0 & Hz & Hm & Hp0) Ho.
  destruct (create_spec _ _ _ _ _ _ _ _ _ _ _ Hc) as (_ & _ & X). destruct (X m t eq_refl) as (sealed & Ar & Cm). clear X.
  destruct Ar as (summary & trust & kem' & shared & encapsulated & aes_key & content' & aad & [M Su _ K En Hkey Sl]).
  rewrite Ha in K. injection K as <-. destruct Sl as [Sc Sz Sm Sa Se]. rewrite Hs in Sc. injection Sc as <-.
  destruct (Hk _ _ En) as (E1 & E2 & E3). pose proof (summary_count _ _ _ _ _ _ _ _ _ _ Su) as C0.
  pose proof (encrypt_pass_length _ _ _ _ _ Se) as Ls. pose proof (zlen_nonneg content) as C1.
  pose proof (zlen_nonneg (gzip (chunks content))) as C2.
  assert (counts_ok m) as Ck.
  { split; try done; subst m; cbn [new_manifest am_event_count am_plaintext_length am_ciphertext_length]; try done.
    assert (0 < GCM_TAG_BYTES) by done. lia. }
  destruct (manifest_text_reads m aad lim Hp Sa Hl Ck) as (text & D & U & Dc & Rd & Sa').
  destruct Cm as (text' & json & D' & U' & Tg). rewrite D in D'. injection D' as <-. rewrite U in U'. injection U' as <-.
  rewrite Tg in Hz |- *. specialize (Hz _ _ eq_refl).
  assert (zlen text <= MAX_MANIFEST_BYTES) as Ht'.
  { pose proof (canonical_bytes_inv _ _ Hp Sa) as A. destruct (acceptable_nesting _ Hp A) as [W _].
    unfold dumps in D. rewrite (wf_dump_check _ W) in D. cbn [mbind res_bind] in D. injection D as <-. done. }
  assert (zlen sealed <= da_max_archive_bytes d /\ 0 < da_max_archive_bytes d) as [Hz1 Hz2].
  { unfold stored_size, members_of in Hz. cbn [fold_right entry zi_name zi_data] in Hz.
    pose proof (zlen_nonneg text). pose proof (zlen_nonneg sealed). pose proof (zlen_nonneg MANIFEST_ENTRY).
    pose proof (zlen_nonneg CIPHERTEXT_ENTRY). lia. }
  assert (zlen sealed = am_ciphertext_length m) as Lc by (subst m; exact Ls).
  assert (GCM_TAG_BYTES <= zlen sealed) as Lt by lia.
  pose proof (read_stored lim m text sealed (da_max_archive_bytes d) Dc Rd Ht' Hz1 Lc Lt) as Rm.
  pose proof (fun q => restore_sealed d kem text sealed m encapsulated (en_salt e) (en_nonce e) shared aes_key aad content q
    Rm Hd ltac:(by subst m) E1 E2 ltac:(by subst m) S1 S2 ltac:(by subst m) N1 N2 E3 Hkey Sa' Se ltac:(by subst m) ltac:(by subst m) Hm) as Rs.
  unfold decrypt_archive, positive, refuse_unless. rewrite (proj2 (Z.ltb_lt _ _) Hz2), (proj2 (Z.ltb_lt _ _) Hp0).
  rewrite lift_bind. cbn [require]. rewrite lift_bind. cbn [require]. rewrite lift_bind. unfold stored. cbv iota.
  rewrite (proj2 (Z.leb_le _ _) Hz). cbn [require]. fold (stored (members_of text sealed)).
  rewrite (se_bind_eq _ _ _ r (rs_destination r)) by done.
  assert (negb (da_output d) || bool_decide (rs_destination r = None) || da_overwrite d = true) as ->.
  { destruct (da_output d); [|done]. destruct Ho as [-> | ->]; [done | done | apply orb_true_r]. }
  rewrite lift_bind. cbn [require]. rewrite lift_bind. cbn [df_scratch no_decrypt_faults io_result]. rewrite modify_bind.
  unfold on_exit, as_truncated, se_try. rewrite Rs. by destruct (da_output d).
Qed.

(** ** Verification *)

(** The manifest and the summary agree. *)
Definition agrees (m : ArchiveManifest) (s : Summary) : Prop :=
  sm_event_count s = am_event_count m /\ sm_first_sequence s = am_first_sequence m /\
  sm_last_sequence s = am_last_sequence m /\ am_chain_final_hash m = VStr (sm_chain_final_hash s).

Lemma is_str_eq v x : is_str v x = true <-> v = VStr x.
Proof. destruct v; try (split; [done | congruence]). simpl. rewrite str_eqb_eq. split; congruence. Qed.

Lemma no_true (l : list bool) : length (List.filter (fun b => b) l) = 0%nat <-> Forall (fun b => b = false) l.
Proof.
  induction l as [|[] l IH]; simpl; [done | |].
  - split; [done | by inversion 1].
  - rewrite Forall_cons, IH. naive_solver.
Qed.

Lemma mismatches_zero m s : mismatches m s = 0%nat <->
  (forall n, sm_nodes s = [n] -> am_node_id m = VStr n) /\ (zlen (sm_nodes s) <= 1) /\ agrees m s.
Proof.
  unfold mismatches. rewrite no_true, !Forall_cons, !negb_false_iff, !Z.eqb_eq, is_str_eq. unfold agrees.
  destruct (sm_nodes s) as [|n [|n' l]].
  - split; [intros (_ & ? & ? & ? & ? & _); split_and!; by try intros ? [=] | intros (_ & _ & ? & ? & ? & ?); by split_and!].
  - rewrite negb_false_iff, is_str_eq. split.
    + intros (? & ? & ? & ? & ? & _). split_and!; try done. by intros ? [= <-].
    + intros (N & _ & ? & ? & ? & ?). split_and!; try done. by apply N.
  - rewrite !zlen_cons. pose proof (zlen_nonneg l). split; [by intros [? _] | intros (_ & L & _); lia].
Qed.

Lemma fully_fail_if c k t : fully_verified (fail_if c k t) = fully_verified t.
Proof. by destruct c. Qed.

(** The judgement is full exactly when the four facts about the records hold. *)
Lemma judge_full m s ev t : fully_verified (judge_evidence m s ev t) = true <->
  container_authenticated t = true /\ plaintext_hash_verified t = true /\ evidence_format_valid ev = true /\
  evidence_signatures_verified ev = true /\ evidence_chain_verified ev = true /\
  exists n, sm_nodes s = [n] /\ am_node_id m = VStr n /\ agrees m s.
Proof.
  unfold judge_evidence. cbv zeta. rewrite fully_fail_if. unfold fully_verified.
  cbn [container_authenticated plaintext_hash_verified evidence_format_valid evidence_signatures_verified
    evidence_chain_verified node_identity_verified]. rewrite !andb_true_iff.
  enough ((if negb (mismatches m s =? 0)%nat then false else match sm_nodes s with [n] => is_str (am_node_id m) n | _ => false end) = true
    <-> exists n, sm_nodes s = [n] /\ am_node_id m = VStr n /\ agrees m s) as -> by tauto.
  destruct (Nat.eqb_spec (mismatches m s) 0) as [Z|Z]; cbn [negb].
  - apply mismatches_zero in Z as (_ & _ & A). destruct (sm_nodes s) as [|n [|]]; [naive_solver | | naive_solver].
    rewrite is_str_eq. naive_solver.
  - split; [done|]. intros (n & N & I & A). destruct Z. apply mismatches_zero. rewrite N. split_and!; [|done..].
    by intros ? [= <-].
Qed.

Definition decrypt_args (a : VerifyArgs) (key : bytes) : DecryptArgs := {|
  da_private_key := key; da_output := true; da_backend := va_backend a;
  da_max_archive_bytes := va_max_archive_bytes a; da_max_plaintext_bytes := va_max_plaintext_bytes a;
  da_overwrite := true |}.

(** What a full verification has established. *)
Record established (a : VerifyArgs) (z : zip_file) (f : DecryptFaults) (r : Restore) (t : ArchiveTrust) (key data : bytes) (R : KeyRegistry)
    (m : ArchiveManifest) (s : Summary) (ev : ArchiveTrust) (n : str) : Prop := {
  es_key : va_private_key a = Some key;
  es_registry : va_registry a = Some R;
  es_decrypted : exists r1, decrypt (decrypt_args a key) z f r = (r1, Ok (m, true, authenticated new_trust true)) /\
    rs_destination r1 = Some data;
  es_restored : restored lim env backends (decrypt_args a key) z m data;
  es_summary : summarise_evidence env backends lim (Content data) (Content data) (Some R) false None = Ok (s, ev);
  es_counts : verification t = verification ev;
  es_format : evidence_format_valid ev = true;
  es_signatures : evidence_signatures_verified ev = true;
  es_chain : evidence_chain_verified ev = true;
  es_nodes : sm_nodes s = [n];
  es_node : am_node_id m = VStr n;
  es_agrees : agrees m s;
}.

Lemma examine_full a key z f r r' t : examine lim env backends a key z f r = (r', Ok t) -> va_private_key a = Some key ->
  fully_verified t = true -> exists data R m s ev n, established a z f r t key data R m s ev n.
Proof.
  unfold examine. fold (decrypt_args a key). unfold mbind at 1, se_bind at 1. intros E K V.
  destruct (decrypt _ z f r) as [r1 [[[m w] t0]|x]] eqn:D; [|done].
  pose proof (decrypt_spec _ _ _ _ _ _ _ _ _ D) as [[_ Rl] _]. destruct (Rl m w t0 eq_refl) as (-> & -> & data & Rs & Ds). specialize (Ds eq_refl).
  destruct (va_registry a) as [R|] eqn:HR; [|injection E as <- <-; done].
  rewrite (se_bind_eq _ _ _ r1 (rs_destination r1)) in E by done. rewrite Ds in E. cbv zeta in E.
  apply lift_bind_cases in E as [(x & _ & _ & [=])|([s ev] & Su & E)]. injection E as <- <-.
  assert (verification (judge_evidence m s ev (authenticated new_trust true)) = verification ev) as Vc.
  { unfold judge_evidence, fail_if. cbv zeta. by destruct (negb _). }
  apply judge_full in V as (_ & _ & V1 & V2 & V3 & n & N & I & A). exists data, R, m, s, ev, n. split; try done. by exists r1.
Qed.

Lemma verify_full a z w f u r r' rep : verify a z w f u r = (r', Ok rep) -> fully_verified (ar_trust rep) = true ->
  exists key data R m s ev n, established a z f r (ar_trust rep) key data R m s ev n.
Proof.
  unfold verify_archive. intros E V.
  destruct (members ← open_zip z; read_manifest lim members (va_max_archive_bytes a)) as [[m i]|e].
  2: { exfalso. destruct e; try done; injection E as <- <-; done. }
  destruct (va_private_key a) as [key|] eqn:K; [|by injection E as <- <-].
  apply lift_bind_cases in E as [(x & _ & _ & [=])|(u1 & _ & E)]. unfold mbind, se_bind, on_exit, se_try in E.
  destruct (examine lim env backends a key z f r) as [r1 [t|x]] eqn:X.
  - injection E as <- <-. destruct (examine_full _ _ _ _ _ _ _ X K V) as (data & R & m' & s & ev & n & Es).
    by exists key, data, R, m', s, ev, n.
  - exfalso. destruct x; try done; injection E as <- <-; done.
Qed.

(** The look inside of [verify_archive] at a strict archive of a file that did not change. *)
Lemma strict_reexamined a src e created_at f p p' m t kem content R v key r :
  create a src e created_at f p = (p', Ok (m, t)) ->
  ca_require_valid_evidence a = true -> ca_registry a = Some R -> Bytes content ->
  src_scan src = Content content -> src_verify src = Content content -> src_seal src = Content content ->
  ca_backend a = Some kem -> va_backend v = Some kem -> va_registry v = Some R ->
  kem_pair kem (en_kem e) (ca_recipient_public_key a) key -> entropy_ok e -> (S MAX_DEPTH <= lim)%nat ->
  within_limits m (pl_target p') content (va_max_archive_bytes v) (va_max_plaintext_bytes v) ->
  exists t', examine lim env backends v key (pl_target p') no_decrypt_faults r =
      ({| rs_destination := Some content; rs_scratch := None |}, Ok t') /\
    fully_verified t' = true /\ errors t' = [] /\
    exists info, (members ← open_zip (pl_target p'); read_manifest lim members (va_max_archive_bytes v)) = Ok (normal_manifest m, info).
Proof.
  intros Hc Hs HR Hb S1 S2 S3 Ha Hv HvR Hk He Hl Hw.
  pose proof (reopen a src e created_at f p p' m t kem content (decrypt_args v key) r Hc Ha Hv Hk He Hl S3 Hw
    ltac:(by right)) as D. cbn [da_output decrypt_args] in D.
  destruct (create_spec _ _ _ _ _ _ _ _ _ _ _ Hc) as (_ & _ & X). destruct (X m t eq_refl) as (sealed & Ar & _). clear X.
  destruct Ar as (summary & trust & kem' & shared & encapsulated & aes_key & content' & aad & [M Su St K En Hkey Sl]).
  destruct Sl as [_ _ Sm _ _]. rewrite S1, S2, HR, Hs in Su. destruct (St Hs) as [Er Nd].
  destruct (strict_clean _ _ _ _ _ _ _ Hb Su Er) as (c & n & es & _ & _ & Ds & t' & Su' & E' & F1 & F2 & F3).
  pose proof (Nd n [] (ds_nodes _ _ _ Ds)) as Hn.
  assert (agrees (normal_manifest m) summary) as Ag by (subst m; done).
  assert (fully_verified (judge_evidence (normal_manifest m) summary t' (authenticated new_trust true)) = true) as V.
  { apply judge_full. split_and!; try done. exists n. split; [apply (ds_nodes _ _ _ Ds)|]. split; [by subst m n | done]. }
  assert (mismatches (normal_manifest m) summary = 0%nat) as Z.
  { apply mismatches_zero. rewrite (ds_nodes _ _ _ Ds). split_and!; [|done..]. intros n' [= <-]. by subst m n. }
  pose proof (decrypt_spec _ _ _ _ _ _ _ _ _ D) as [[_ Rl] _].
  destruct (Rl _ _ _ eq_refl) as (_ & _ & data & (members & info & ? & ? & ? & ? & ? & ? & ? & ? & Rw) & _).
  eexists. split; [|split; [exact V | split]].
  - unfold examine. fold (decrypt_args v key). rewrite (se_bind_eq _ _ _ _ _ D). rewrite HvR.
    rewrite (se_bind_eq _ _ _ _ (Some content)) by done. cbv zeta. rewrite lift_bind, Su'. reflexivity.
  - unfold judge_evidence. rewrite Z. done.
  - rewrite (rw_members _ _ _ _ _ _ _ _ _ _ _ _ _ _ _ _ _ Rw). exists info.
    exact (rw_manifest _ _ _ _ _ _ _ _ _ _ _ _ _ _ _ _ _ Rw).
Qed.

(** C9. What [create_archive] makes, [decrypt_archive] opens: with the private key that
    belongs to the recipient's public key, and within the reader's limits, the destination
    receives the sealed file byte for byte, the manifest comes back as it was written, and
    nothing is left in the scratch file. *)
Theorem archive_roundtrip a src e created_at f p p' m t kem content d r :
  create a src e created_at f p = (p', Ok (m, t)) ->
  ca_backend a = Some kem -> da_backend d = Some kem ->
  kem_pair kem (en_kem e) (ca_recipient_public_key a) (da_private_key d) -> entropy_ok e -> (S MAX_DEPTH <= lim)%nat ->
  src_seal src = Content content ->
  within_limits m (pl_target p') content (da_max_archive_bytes d) (da_max_plaintext_bytes d) ->
  (da_output d = true -> rs_destination r = None \/ da_overwrite d = true) ->
  decrypt d (pl_target p') no_decrypt_faults r =
    ({| rs_destination := if da_output d then Some content else rs_destination r; rs_scratch := None |},
     Ok (normal_manifest m, da_output d, authenticated new_trust true)).
Proof. intros. by eapply reopen. Qed.

(** C8. End to end: an archive that [create_archive] made in strict mode of a file that did
    not change meanwhile is fully verified by [verify_archive] against the same registry, with
    no error, and no plaintext stays behind. *)
Theorem strict_archive_verifies a src e created_at f p p' m t kem content R v key r :
  create a src e created_at f p = (p', Ok (m, t)) ->
  ca_require_valid_evidence a = true -> ca_registry a = Some R -> Bytes content ->
  src_scan src = Content content -> src_verify src = Content content -> src_seal src = Content content ->
  ca_backend a = Some kem -> va_backend v = Some kem -> va_registry v = Some R -> va_private_key v = Some key ->
  kem_pair kem (en_kem e) (ca_recipient_public_key a) key -> entropy_ok e -> (S MAX_DEPTH <= lim)%nat ->
  within_limits m (pl_target p') content (va_max_archive_bytes v) (va_max_plaintext_bytes v) ->
  exists trust, fully_verified trust = true /\ errors trust = [] /\
    verify v (pl_target p') IoOk no_decrypt_faults true r =
      ({| rs_destination := None; rs_scratch := None |},
       Ok {| ar_structure_valid := true; ar_manifest := Some (normal_manifest m); ar_trust := trust |}).
Proof.
  intros Hc Hs HR Hb S1 S2 S3 Ha Hv HvR Hkey Hk He Hl Hw.
  destruct (strict_reexamined a src e created_at f p p' m t kem content R v key r) as (t' & X & V & Er & info & Rm); try done.
  exists t'. split_and!; [done..|]. unfold verify_archive. rewrite Rm, Hkey, lift_bind.
  unfold mbind, se_bind, on_exit, se_try. by rewrite X.
Qed.
End Theorems.

Section Safety.
Context (lim : nat) (env : Environ) (backends : list (str * CryptoBackend)) `{Aead, Zlib, !ZlibCap}.

(** C7. No unauthenticated byte is released: whatever the archive and whatever fails,
    [decrypt_archive] leaves the destination as it was, or replaces it by a plaintext that
    authenticated under the manifest as the additional data, stays within the limit and has
    the manifest's digest and length; success means the latter, and the scratch file is gone
    unless it could not be removed. *)
Theorem archive_release_safe a z f r r' out : decrypt_archive lim env backends a z f r = (r', out) ->
  (rs_destination r' = rs_destination r \/
   exists m data, da_output a = true /\ restored lim env backends a z m data /\ rs_destination r' = Some data) /\
  (forall m w t, out = Ok (m, w, t) -> w = da_output a /\ t = authenticated new_trust true /\
    exists data, restored lim env backends a z m data /\ (w = true -> rs_destination r' = Some data)) /\
  scratch_gone f r r' out.
Proof. intros E. pose proof (decrypt_spec _ _ _ _ _ _ _ _ _ E) as [[? ?] ?]. done. Qed.

(** C10. A report that says fully verified means it: the archive was opened with the reader's
    key, its plaintext authenticated and has the manifest's digest, the registry's signature
    and chain alerts stayed silent over the records, and the manifest's node, count, sequences
    and final hash are the records' own.  When in addition no record failed, the plaintext is
    a log of that one node whose records all verify and form one chain from the first on. *)
Theorem fully_verified_sound v z w f u r r' rep :
  verify_archive lim env backends v z w f u r = (r', Ok rep) -> fully_verified (ar_trust rep) = true ->
  exists key data R m s ev n, established lim env backends v z f r (ar_trust rep) key data R m s ev n /\
    forall counts, verification (ar_trust rep) = Some counts -> vc_failed counts = 0 -> Bytes data ->
      exists c es, own_collector R = Ok c /\ clean_evidence env backends lim c data n es /\ describes n es s.
Proof.
  intros E V. destruct (verify_full _ _ _ _ _ _ _ _ _ _ _ E V) as (key & data & R & m & s & ev & n & Es).
  exists key, data, R, m, s, ev, n. split; [done|]. intros counts C F B. destruct Es as [_ _ _ _ Su Cn Fm _ _ Nd _ _].
  rewrite Cn in C. by apply (counted_clean _ _ _ _ _ _ _ _ _ B Su Fm C F Nd).
Qed.
End Safety.

Section Creating.
Context (lim : nat) (env : Environ) (backends : list (str * CryptoBackend)) `{Aead, Zlib}.

(** C26. Creation is all or nothing: the archive's path keeps what it held and an error is
    reported, or it holds a whole archive - both members, sealed from the file under the
    recorded digest, in strict mode after the evidence passed - and only a crash can still
    intervene.  Errors leave no temporary behind, unless it could not be removed, and every
    end but a crash removes the work directory with the plaintext's compressed form. *)
Theorem create_all_or_nothing a src e created_at f p p' r :
  create_archive lim env backends a src e created_at f p = (p', r) ->
  places f (archived lim env backends a src e created_at) p p' r /\ tidy f p p' r.
Proof. intros E. pose proof (create_spec _ _ _ _ _ _ _ _ _ _ _ E) as (? & ? & _). done. Qed.
End Creating.
