(* ===== verification/ArchiveExamples.v ===== *)
(** The interfaces of the archive have instances, and its theorems apply: a toy cipher (the
    identity under a MAC of key, nonce, data and ciphertext) and a toy codec (the identity,
    given out in capped pieces) meet the laws, and a strict archive of two signed records is
    made, opened and verified. *)
From S2P Require Import Prelude PyText Json JsonFacts Hashes IsoTime Canonicalizer Models CryptoBackend EventChain KeyRegistry Verifier Collector StateStore EvidenceStore Sockets ArchiveEvidence ArchiveEvidenceFacts ArchiveStream ArchiveStreamFacts Archive ArchiveFacts ArchiveTheorems.

(** ** The toy cipher *)
Record toy_ctx := { tc_key : bytes; tc_nonce : bytes; tc_aad : bytes; tc_text : bytes }.
Definition toy_tag (c : toy_ctx) : bytes := take 16 (hmac_sha256 (tc_key c) (tc_nonce c ++ tc_aad c ++ tc_text c)).

#[export] Instance toy_aead : Aead := {|
  aead_ctx := toy_ctx;
  aead_start key nonce aad _ := Ok {| tc_key := key; tc_nonce := nonce; tc_aad := aad; tc_text := [] |};
  aead_update c b := Ok ({| tc_key := tc_key c; tc_nonce := tc_nonce c; tc_aad := tc_aad c; tc_text := tc_text c ++ b |}, b);
  aead_finalize c := Ok ([], toy_tag c);
  aead_finalize_with_tag c tag := if str_eqb tag (toy_tag c) then Some [] else None |}.

Lemma toy_fold cs : forall c out, fold_res update_step (c, out) cs =
  Ok ({| tc_key := tc_key c; tc_nonce := tc_nonce c; tc_aad := tc_aad c; tc_text := tc_text c ++ concat cs |}, out ++ concat cs).
Proof.
  induction cs as [|b cs IH]; intros [k n a t] out; [by rewrite !app_nil_r|]. cbn [fold_res concat].
  change (update_step (_, out) b) with (Ok (Build_toy_ctx k n a (t ++ b), out ++ b)). cbn [mbind res_bind]. rewrite IH.
  cbn [tc_key tc_nonce tc_aad tc_text]. by rewrite <- !app_assoc.
Qed.

#[export] Instance toy_aead_laws : AeadLaws.
Proof.
  split.
  - intros key nonce aad cs ciphertext tag (c & c' & out & l & [= <-] & F & [= <- <-] & ->). rewrite toy_fold in F.
    injection F as <- <-. rewrite app_nil_r. split; [|done]. unfold toy_tag, zlen. rewrite length_take.
    match goal with |- context [hmac_sha256 ?k ?m] => pose proof (hmac_sha256_length k m) as L end.
    unfold zlen in L. change GCM_TAG_BYTES with 16. lia.
  - intros key nonce aad cs ciphertext tag ds (c & c' & out & l & [= <-] & F & [= <- <-] & ->) D. rewrite toy_fold in F.
    injection F as <- <-. rewrite app_nil_r in D. cbn [app] in D. eexists _, _, _, []. split; [reflexivity|].
    rewrite toy_fold. split; [reflexivity|]. cbn [aead_finalize_with_tag toy_aead app tc_key tc_nonce tc_aad tc_text].
    rewrite D, str_eqb_refl. by rewrite app_nil_r.
Qed.

(** ** The toy codec *)
#[export] Instance toy_zlib : Zlib := {|
  gzip := @concat Z;
  zctx := unit;
  z_start := tt;
  z_decompress _ p cap := Some (tt, slice p 0 cap, drop (Z.to_nat cap) p);
  z_flush _ := Some [] |}.

#[export] Instance toy_cap : ZlibCap.
Proof.
  intros c p cap c' data tail Hc [= <- <- <-]. rewrite zlen_take0 by lia. split; [lia|]. intros N.
  assert (~ (length p <= Z.to_nat cap)%nat) by (intros L; by apply N, drop_ge). unfold zlen. lia.
Qed.

#[export] Instance toy_zlib_laws : ZlibLaws.
Proof.
  refine {| inflating _ rest plain := rest = plain |}.
  - done.
  - intros c p rest plain cap <- N Hc. eexists tt, _, _, (drop (Z.to_nat cap) p ++ rest). split; [reflexivity|].
    split; [|done]. rewrite app_assoc, slice_drop by lia. done.
  - by intros c plain <-.
Qed.

Lemma inflate_bounded_witness : 0 <= 3 /\ exists data,
  (inflate 3 [1; 2; 3; 4] []).1 = [] ++ data /\ zlen data <= 3 /\
  ((inflate 3 [1; 2; 3; 4] []).2 = Ok data \/ (inflate 3 [1; 2; 3; 4] []).2 = Err corrupt \/ (inflate 3 [1; 2; 3; 4] []).2 = Err bomb).
Proof. split; [done|]. exact (inflate_bounded 3 [1; 2; 3; 4] [] ltac:(done)). Defined.

(** ** A strict archive *)

(** The insecure backend's operations under the name of the first preference, so that the
    collector, which never allows the test backend, selects it. *)
Definition sample_backend : CryptoBackend :=
  let b := InsecureTestBackend test_env in {|
  bk_name := OPENSSL_BACKEND;
  bk_capabilities := {| cap_name := OPENSSL_BACKEND; cap_available := true;
    cap_signature_algorithms := [lit "ML-DSA-65"]; cap_kem_algorithms := [KEM_ALGORITHM]; cap_real_pqc := true |};
  bk_generate_keypair := bk_generate_keypair b; bk_sign := bk_sign b; bk_verify := bk_verify b;
  bk_kem_generate_keypair := bk_kem_generate_keypair b; bk_kem_encapsulate := bk_kem_encapsulate b;
  bk_kem_decapsulate := bk_kem_decapsulate b |}.
Definition sample_backends : list (str * CryptoBackend) := [(OPENSSL_BACKEND, sample_backend)].

Definition sample_content : bytes := Eval vm_compute in
  match to_json_line sample_first, to_json_line sample_second with
  | Ok a, Ok b => a ++ [10] ++ b ++ [10]
  | _, _ => []
  end.

Definition sample_create (strict : bool) : CreateArgs := {|
  ca_recipient_public_key := sample_key; ca_node_id := lit "n1"; ca_key_id := lit "k1";
  ca_backend := Some sample_backend; ca_registry := Some (ev_registry sample_verifier);
  ca_require_valid_evidence := strict; ca_max_plaintext_bytes := 100000; ca_overwrite := false; ca_metadata := [] |}.

Definition sample_source : Source := {|
  src_is_file := true; src_size := zlen sample_content;
  src_scan := Content sample_content; src_verify := Content sample_content; src_seal := Content sample_content |}.

Definition sample_entropy : Entropy := {| en_kem := seqZ 100 32; en_salt := seqZ 0 32; en_nonce := seqZ 50 12 |}.
Definition create_faultless : CreateFaults := {|
  cf_workdir := IoOk; cf_work := IoOk; cf_zip := IoOk; cf_replace := IoOk; cf_unlink := true; cf_cleanup := true |}.
Definition no_place : Place := {| pl_target := NoFile; pl_temporary := NoFile; pl_workdir := false |}.
Notation sample_archive strict :=
  (create_archive 50 test_env sample_backends (sample_create strict) sample_source sample_entropy sample_now create_faultless no_place).

Definition sample_reader : VerifyArgs := {|
  va_private_key := Some sample_key; va_registry := Some (ev_registry sample_verifier);
  va_backend := Some sample_backend; va_max_archive_bytes := 200000; va_max_plaintext_bytes := 100000 |}.
Definition no_restore : Restore := {| rs_destination := None; rs_scratch := None |}.

Definition within (m : ArchiveManifest) (z : zip_file) : bool :=
  pyval (manifest_to_dict m) && (zlen (dump manifest_cfg 0 (manifest_to_dict m)) <=? MAX_MANIFEST_BYTES) &&
  (0 <=? am_first_sequence m) && (0 <=? am_last_sequence m) &&
  match z with File size _ => size <=? 200000 | NoFile => true end.

Lemma within_ok m z : within m z = true -> within_limits m z sample_content 200000 100000.
Proof.
  unfold within. intros H. bool_prop. split_and!; [done..| | |done]; [|by vm_compute].
  by intros size c ->; apply Z.leb_le.
Qed.

Lemma sample_archived strict : exists p' m t, sample_archive strict = (p', Ok (m, t)) /\ within m (pl_target p') = true.
Proof.
  assert (match sample_archive strict with (p', Ok (m, _)) => within m (pl_target p') | _ => false end = true) as V
    by (destruct strict; vm_compute; reflexivity).
  destruct (sample_archive strict) as [p' [[m t]|e]]; [by exists p', m, t | done].
Qed.

Lemma sample_pair : kem_pair sample_backend (en_kem sample_entropy) sample_key sample_key.
Proof.
  intros shared encapsulated E. vm_compute in E. injection E as <- <-. split; [|split; [done | vm_compute; reflexivity]].
  repeat (constructor; [done|]). constructor.
Qed.

Lemma sample_entropy_ok : entropy_ok sample_entropy.
Proof. split_and!; try done; vm_compute; repeat (constructor; [done|]); constructor. Qed.

Lemma sample_bytes : Bytes sample_content.
Proof. apply (bool_decide_eq_true_1 (Bytes sample_content)). vm_compute. reflexivity. Qed.

Definition sample_opener : DecryptArgs := {|
  da_private_key := sample_key; da_output := true; da_backend := Some sample_backend;
  da_max_archive_bytes := 200000; da_max_plaintext_bytes := 100000; da_overwrite := false |}.

Lemma archive_roundtrip_witness : exists p' m t, sample_archive false = (p', Ok (m, t)) /\
  decrypt_archive 50 test_env sample_backends sample_opener (pl_target p') no_decrypt_faults no_restore =
    ({| rs_destination := Some sample_content; rs_scratch := None |},
     Ok (normal_manifest m, true, authenticated new_trust true)).
Proof.
  destruct (sample_archived false) as (p' & m & t & E & W). exists p', m, t. split; [exact E|].
  exact (archive_roundtrip 50 test_env sample_backends (sample_create false) sample_source sample_entropy sample_now
    create_faultless no_place p' m t sample_backend sample_content sample_opener no_restore E eq_refl eq_refl
    sample_pair sample_entropy_ok ltac:(unfold MAX_DEPTH; lia) eq_refl (within_ok _ _ W) ltac:(by left)).
Defined.

Lemma strict_archive_verifies_witness : exists p' m t trust, sample_archive true = (p', Ok (m, t)) /\
  fully_verified trust = true /\ errors trust = [] /\
  verify_archive 50 test_env sample_backends sample_reader (pl_target p') IoOk no_decrypt_faults true no_restore =
    (no_restore, Ok {| ar_structure_valid := true; ar_manifest := Some (normal_manifest m); ar_trust := trust |}).
Proof.
  destruct (sample_archived true) as (p' & m & t & E & W).
  destruct (strict_archive_verifies 50 test_env sample_backends (sample_create true) sample_source sample_entropy sample_now
    create_faultless no_place p' m t sample_backend sample_content (ev_registry sample_verifier) sample_reader sample_key no_restore
    E eq_refl eq_refl sample_bytes eq_refl eq_refl eq_refl eq_refl eq_refl eq_refl eq_refl
    sample_pair sample_entropy_ok ltac:(unfold MAX_DEPTH; lia) (within_ok _ _ W)) as (trust & V & Er & R).
  exists p', m, t, trust. split; [exact E|]. split; [exact V|]. split; [exact Er | exact R].
Defined.

(** The report on the archive that was not made in strict mode. *)
Notation sample_report :=
  (verify_archive 50 test_env sample_backends sample_reader (pl_target (sample_archive false).1) IoOk no_decrypt_faults true no_restore).
Notation sample_opened :=
  (decrypt_archive 50 test_env sample_backends (decrypt_args sample_reader sample_key) (pl_target (sample_archive false).1)
    no_decrypt_faults no_restore).

Lemma fully_verified_sound_witness : exists rep m n c es, sample_report.2 = Ok rep /\ fully_verified (ar_trust rep) = true /\
  restored 50 test_env sample_backends (decrypt_args sample_reader sample_key) (pl_target (sample_archive false).1) m sample_content /\
  own_collector (ev_registry sample_verifier) = Ok c /\ clean_evidence test_env sample_backends 50 c sample_content n es.
Proof.
  assert (match sample_report.2 with Ok rep => fully_verified (ar_trust rep) &&
    match verification (ar_trust rep) with Some v => vc_failed v =? 0 | None => false end | Err _ => false end = true) as V
    by (vm_compute; reflexivity).
  assert (rs_destination sample_opened.1 = Some sample_content) as D by (vm_compute; reflexivity).
  destruct sample_report as [r' [rep|e]] eqn:E; [|discriminate V]. cbn [snd] in V. apply andb_true_iff in V as [V F].
  destruct (verification (ar_trust rep)) as [v|] eqn:C; [|discriminate F]. apply Z.eqb_eq in F.
  destruct (fully_verified_sound _ _ _ _ _ _ _ _ _ _ _ E V) as (key & data & R & m & s & ev & n & Es & G).
  destruct Es as [[= <-] [= <-] (r1 & Dr & Hd) Rs _ _ _ _ _ _ _ _].
  assert (data = sample_content) as ->.
  { rewrite Dr in D. cbn [fst] in D. rewrite Hd in D. by injection D. }
  destruct (G v C F sample_bytes) as (c & es & Oc & Cl & _). exists rep, m, n, c, es.
  split; [reflexivity|]. split; [exact V|]. split; [exact Rs|]. split; [exact Oc | exact Cl].
Defined.

(** The place ends up with a whole archive; with a failing rename it stays empty. *)
Lemma create_all_or_nothing_witness :
  (exists m sealed, archived 50 test_env sample_backends (sample_create true) sample_source sample_entropy sample_now m sealed /\
    complete m sealed (pl_target (sample_archive true).1)) /\
  pl_workdir (sample_archive true).1 = false.
Proof.
  destruct (sample_archived true) as (p' & m & t & E & _).
  destruct (create_all_or_nothing _ _ _ _ _ _ _ _ _ _ _ E) as [[[[_ [e Er]]|(m' & sealed & A & C & _)] _] T]; [discriminate Er|].
  rewrite E. cbn [fst]. split; [exists m', sealed; split; [exact A | exact C]|].
  apply T; [reflexivity | reflexivity|]. intros x H. discriminate H.
Defined.

Lemma archive_release_safe_witness : rs_destination sample_opened.1 = Some sample_content /\
  exists m, restored 50 test_env sample_backends (decrypt_args sample_reader sample_key) (pl_target (sample_archive false).1) m sample_content.
Proof.
  assert (rs_destination sample_opened.1 = Some sample_content) as D by (vm_compute; reflexivity). split; [exact D|].
  destruct sample_opened as [r' out] eqn:E.
  destruct (archive_release_safe _ _ _ _ _ _ _ _ _ E) as [[S|(m & data & _ & R & S)] _]; cbn [fst] in D.
  - rewrite D in S. discriminate S.
  - rewrite D in S. injection S as <-. exists m. exact R.
Defined.

Lemma container_exact_witness : exists m i,
  (l ← open_zip (pl_target (sample_archive false).1); read_manifest 50 l 200000) = Ok (m, i) /\
  zi_name i = CIPHERTEXT_ENTRY /\ zi_file_size i = am_ciphertext_length m.
Proof.
  assert (is_ok (l ← open_zip (pl_target (sample_archive false).1); read_manifest 50 l 200000) = true) as V by (vm_compute; reflexivity).
  destruct (l ← open_zip (pl_target (sample_archive false).1); read_manifest 50 l 200000) as [[m i]|e] eqn:E; [|discriminate V].
  exists m, i. split; [reflexivity|]. apply bind_ok in E as (l & _ & E).
  destruct (container_exact _ _ _ _ _ E) as (_ & _ & _ & N & S & _). split; [exact N | exact S].
Defined.

(** A registry entry whose activation time does not parse: every record fails under it, with
    an alert that neither the signature nor the chain list names, so the two flags stay up. *)
Definition undated_record : KeyRecord := {|
  kr_key_id := lit "k1"; kr_node_id := lit "n1"; kr_algorithm := lit "ML-DSA-65";
  kr_public_key := b64encode sample_key; kr_created_at := sample_now; kr_activated_at := lit "1-01-01T00:00:00.000000Z";
  kr_expires_at := None; kr_state := EXPIRED; kr_revocation_reason := VNone; kr_revoked_at := VNone; kr_metadata := [] |}.

Example unlisted_alert :
  match summarise_evidence test_env sample_backends 50 (Content sample_content) (Content sample_content) (Some [undated_record]) false None with
  | Ok (_, t) => evidence_format_valid t && evidence_signatures_verified t && evidence_chain_verified t &&
      match verification t with Some v => (vc_total v =? 2) && (vc_failed v =? 2) | None => false end
  | Err _ => false
  end = true.
Proof. vm_compute. reflexivity. Qed.

(** A manifest and the one read back from its text: the same authenticated bytes. *)
Definition sample_manifest (extra : dict) : ArchiveManifest := {|
  am_node_id := VStr (lit "n1"); am_key_id := VStr (lit "k1"); am_first_sequence := 1; am_last_sequence := 2; am_event_count := 2;
  am_created_at := VStr sample_now; am_chain_final_hash := VStr []; am_plaintext_sha3_256 := VStr []; am_plaintext_length := 5;
  am_encapsulated_key := VStr []; am_hkdf_salt := VStr []; am_nonce := VStr []; am_ciphertext_length := 21;
  am_evidence_strictly_verified := false; am_metadata := extra |}.

Lemma manifest_bound_witness :
  let m1 := sample_manifest [(KStr (lit "a"), VTuple [VInt 1]); (KStr (lit "b"), VNone)] in
  let m2 := sample_manifest [(KStr (lit "b"), VNone); (KStr (lit "a"), VList [VInt 1])] in
  (exists aad, authenticated_data m1 = Ok aad /\ authenticated_data m2 = Ok aad) /\ normal_manifest m1 = normal_manifest m2.
Proof.
  cbv zeta. set (m1 := sample_manifest [_; _]). set (m2 := sample_manifest [(KStr (lit "b"), VNone); _]).
  assert (exists aad, authenticated_data m1 = Ok aad /\ authenticated_data m2 = Ok aad) as (aad & A1 & A2).
  { assert (authenticated_data m1 = authenticated_data m2 /\ is_ok (authenticated_data m2) = true) as [E V]
      by (split; vm_compute; reflexivity).
    rewrite E. destruct (authenticated_data m2) as [aad|]; [by exists aad | done]. }
  split; [exists aad; split; [exact A1 | exact A2]|].
  apply (manifest_bound m1 m2 aad); [vm_compute; reflexivity.. | split; vm_compute; discriminate | split; vm_compute; discriminate | exact A1 | exact A2].
Defined.
