(* ===== verification/Cli.v ===== *)
(** The command line of the evidence seal: [src/ics_deception/pqc_evidence/cli.py].

    A command is a function of its parsed arguments and of what it finds in the files they
    name; it answers with the exit status it returns and the report it prints, or lets an
    exception escape.  What is printed is the [--json] report or the error's code; the human
    text says the same.  Paths are as [str(Path(...))] gives them and start with no tilde. *)
From S2P Require Import Prelude PyText PyStr Json JsonFacts Hashes Models CryptoBackend KeyRegistry Verifier Collector StateStore EvidenceStore Signer ArchiveEvidence ArchiveStream Archive.

Definition EXIT_OK := 0.
Definition EXIT_VERIFICATION_FAILED := 1.
Definition EXIT_USAGE := 2.
Definition EXIT_NO_BACKEND := 3.
Definition EXIT_IO := 4.

Definition DEFAULT_MAX_ARCHIVE_BYTES := 64 * 1024 * 1024.
Definition DEFAULT_MAX_PLAINTEXT_BYTES := 256 * 1024 * 1024.

(** A command's status with its report, or with the code of the error it printed. *)
Inductive outcome (A : Type) :=
| Done (status : Z) (report : A)
| Refused (status : Z) (error : string).
Arguments Done {A} status report.
Arguments Refused {A} status error.

Definition status_of {A} (o : outcome A) : Z := match o with Done s _ | Refused s _ => s end.

(** The subclasses of [EvidenceError]. *)
Definition is_evidence_error (e : exn) : bool :=
  match e with
  | CanonicalizationError _ | EvidenceValidationError _ _ | VerifierError _ | CollectorError _ | KeyRegistryError _
  | StateStoreError _ | StateCorruptionError _ | StateLockError _ | EvidenceStoreError _ | TransactionAborted _
  | EvidenceStateDivergence _ | SignerError _ | BackendError _ _ | BackendUnavailableError _
  | ArchiveError _ _ | BenchmarkError _ => true
  | _ => false
  end.
Definition is_registry_error (e : exn) : bool := match e with KeyRegistryError _ => true | _ => false end.
Definition is_unavailable (e : exn) : bool := match e with BackendUnavailableError _ => true | _ => false end.
Definition evidence_or_os (e : exn) : bool := is_evidence_error e || as_os_error e.

(** [except ... as exc: _fail(...); return status] *)
Definition refusing {S A} (caught : exn -> bool) (status : Z) (error : string) (m : SE S (outcome A)) : SE S (outcome A) :=
  se_try m (fun e => if caught e then mret (Refused status error) else raise e).

(** [exc.code] where the class has one. *)
Definition error_code (default : string) (e : exn) : string :=
  match e with
  | ArchiveError code _ | BackendError code _ => code
  | BackendUnavailableError _ => "backend_unavailable"
  | _ => default
  end.
Definition refusing_with {S A} (caught : exn -> bool) (status : Z) (default : string) (m : SE S (outcome A)) : SE S (outcome A) :=
  se_try m (fun e => if caught e then mret (Refused status (error_code default e)) else raise e).

(** ** What a command reads *)

(** The universal newlines of text mode. *)
Fixpoint translate_newlines (s : str) : str :=
  match s with
  | [] => []
  | 13 :: 10 :: r => 10 :: translate_newlines r
  | 13 :: r => 10 :: translate_newlines r
  | c :: r => c :: translate_newlines r
  end.

(** Standard input: the lines it yields, and what reading on raises; or a file. *)
Inductive input := Stdin (lines : list str) (stop : option exn) | InFile (f : registry_file).

Definition read_path (f : registry_file) : res str :=
  match f with
  | Content b => s ← utf8_decode b; Ok (translate_newlines s)
  | _ => Err (OSError "cannot read")
  end.
Definition read_input (i : input) : res str :=
  match i with
  | Stdin lines None => Ok (concat lines)
  | Stdin _ (Some e) => Err e
  | InFile f => read_path f
  end.

(** [load_public_key_file]: raw bytes, or base64 text with blanks around it. *)
Definition load_public_key_file (f : registry_file) : res bytes :=
  match f with
  | Missing => Err (EvidenceValidationError "malformed_evidence" "public key file not found")
  | Unreadable => Err (OSError "cannot read public key")
  | Content data =>
    require (negb (bool_decide (data = []))) (EvidenceValidationError "malformed_evidence" "public key file is empty") ;;
    let text := bstrip data in
    if forallb (fun c => c <? 128) text
    then try_with (b64decode text) (fun e => match e with ValueError _ => Ok data | e => Err e end)
    else Ok data
  end.

Abbreviation FileSystem := (gmap str (Z * bytes)).   (* mode and content *)

(** What iterating over a text file or standard input gives - it is decoded as it is read, so an
    error may come after any number of lines; [None] when it cannot be opened. *)
Abbreviation text_source := (option (list str * option exn)).

Section Commands.
Context (env : Environ) (backends : list (str * CryptoBackend)) (lim : nat).

(** ** [main]: the errors a command lets through *)
Definition main {S A} (command : SE S (outcome A)) : SE S (outcome A) :=
  se_try command (fun e =>
    if is_unavailable e then mret (Refused EXIT_NO_BACKEND "no_backend")
    else if is_evidence_error e then mret (Refused EXIT_USAGE "evidence")
    else raise e).

(** The status of the process: the interpreter ends with 1 on an exception that escapes, and
    a process that dies has none. *)
Definition process_status {A} (r : res (outcome A)) : option Z :=
  match r with
  | Ok o => Some (status_of o)
  | Err (Crash _) => None
  | Err (SystemExit s) => Some s
  | Err _ => Some 1
  end.

(** ** Capabilities *)
Definition cmd_capabilities : outcome (bool * option str) :=
  let report := describe_capabilities backends in
  Done (if report.1 then EXIT_OK else EXIT_NO_BACKEND) report.

(** ** Keys *)
(** [Path.with_suffix(".pub")] *)
Definition with_suffix (p : str) (s : string) : res str :=
  match parts p with
  | [] => Err (ValueError "has an empty name")
  | _ => Ok (take (length p - length (suffix p)) p ++ lit s)
  end.

Record GenerateArgs := {
  ga_backend : option str;
  ga_algorithm : str;
  ga_allow_test_backend : bool;
  ga_private_key : str;
  ga_public_key : option str;
  ga_force : bool;
}.
(** Making the directory and opening the file may fail before anything is written. *)
Record GenerateFaults := { gf_unlink : io; gf_private_open : io; gf_private : io; gf_public_open : io; gf_public : io }.

Definition public_path (a : GenerateArgs) : res str :=
  match ga_public_key a with
  | Some ((_ :: _) as p) => Ok p
  | _ => with_suffix (ga_private_key a) ".pub"
  end.

(** [Path.unlink] *)
Definition unlink (p : str) (o : io) : SE FileSystem unit :=
  (if replaced o then modify (delete p) else mret tt) ;; lift (io_result o "unlink").

Definition put_private_key (p : str) (k : KeyPair) (o : io) : SE FileSystem unit :=
  f ← gets (fun fs => fs !! p);
  let '(f, r) := write_private_key f k o in
  modify (partial_alter (fun _ => f) p) ;;
  lift r.

(** [write_text] and [chmod(0o644)]; [created] is the mode new files get. *)
Definition put_public_key (created : Z) (p : str) (k : KeyPair) (o : io) : SE FileSystem unit :=
  f ← gets (fun fs => fs !! p);
  let mode := match f with Some (m, _) => m | None => created end in
  modify (<[p := (match o with IoOk => 0x1A4 | _ => mode end, written [] (b64encode (kp_public k) ++ [10]) o)]>) ;;
  lift (io_result o "public key").

Record Generated := {
  ge_algorithm : str;
  ge_backend : str;
  ge_real_pqc : bool;
  ge_private_key : str;
  ge_public_key : str;
  ge_public_key_bytes : Z;
  ge_fingerprint : str;
}.

Definition store_keypair (created : Z) (a : GenerateArgs) (public : str) (k : KeyPair) (f : GenerateFaults) : SE FileSystem unit :=
  there ← gets (fun fs => fs !! ga_private_key a);
  (if bool_decide (is_Some there) && ga_force a then unlink (ga_private_key a) (gf_unlink f) else mret tt) ;;
  lift (io_result (gf_private_open f) "open") ;;
  put_private_key (ga_private_key a) k (gf_private f) ;;
  lift (io_result (gf_public_open f) "open") ;;
  put_public_key created public k (gf_public f).

Definition is_signer_or_os (e : exn) : bool := match e with SignerError _ | OSError _ => true | _ => false end.

Definition cmd_generate_key (created : Z) (entropy : bytes) (a : GenerateArgs) (f : GenerateFaults)
    : SE FileSystem (outcome Generated) :=
  match select_backend env backends (ga_backend a) (ga_algorithm a) (ga_allow_test_backend a) None None with
  | Err (BackendUnavailableError _) => mret (Refused EXIT_NO_BACKEND "no_backend")
  | Err e => raise e
  | Ok backend =>
    public ← lift (public_path a);
    there ← gets (fun fs => fs !! ga_private_key a);
    if bool_decide (is_Some there) && negb (ga_force a) then mret (Refused EXIT_USAGE "exists")
    else match bk_generate_keypair backend entropy (ga_algorithm a) with
    | Err e => if is_backend_error e then mret (Refused EXIT_NO_BACKEND (error_code "backend_error" e)) else raise e
    | Ok k =>
      refusing is_signer_or_os EXIT_IO "io" (
        store_keypair created a public k f ;;
        mret (Done EXIT_OK {|
          ge_algorithm := ga_algorithm a; ge_backend := bk_name backend;
          ge_real_pqc := cap_real_pqc (bk_capabilities backend); ge_private_key := ga_private_key a;
          ge_public_key := public; ge_public_key_bytes := zlen (kp_public k); ge_fingerprint := fingerprint (kp_public k) |}))
    end
  end.

(** ** The registry *)
Section Registry.
Context (float_repr : spec_float -> str).

(** [KeyRegistry.save]: the text is written next to the file, then replaces it. *)
Definition save (R : KeyRegistry) (now : str) (o : io) : SE registry_file unit :=
  text ← lift (save_text float_repr R now);
  (if replaced o then modify (fun _ => Content text) else mret tt) ;;
  lift (io_result o "registry").

(** Load, one operation, save; [now] and [now'] are the clock at the operation and at the
    saving. *)
Definition change (operation : KeyRegistry -> KeyRegistry * res KeyRecord) (now' : str) (o : io)
    : SE registry_file KeyRegistry :=
  file ← gets id;
  registry ← lift (load lim file);
  let '(registry, r) := operation registry in
  lift r ;;
  save registry now' o ;;
  mret registry.

(** [load_public_key_file] comes between the loading and the operation. *)
Definition with_public_key (public : registry_file) (operation : bytes -> KeyRegistry -> KeyRegistry * res KeyRecord)
    (R : KeyRegistry) : KeyRegistry * res KeyRecord :=
  match load_public_key_file public with
  | Ok public_key => operation public_key R
  | Err e => (R, Err e)
  end.

Record RegisterArgs := {
  ra_key_id : str;
  ra_node_id : str;
  ra_algorithm : str;
  ra_activated_at : option str;
  ra_expires_at : option str;
  ra_inactive : bool;
}.
Record Registered := { rg_state : str; rg_fingerprint : str; rg_keys_in_registry : Z }.

Definition cmd_register_key (a : RegisterArgs) (public : registry_file) (now now' : str) (o : io)
    : SE registry_file (outcome Registered) :=
  se_try
    (registry ← change (with_public_key public (fun pk R =>
       register R now (ra_key_id a) (ra_node_id a) pk (ra_algorithm a) (ra_activated_at a) (ra_expires_at a) [] (negb (ra_inactive a))))
       now' o;
     mret (Ok registry))
    (fun e => if is_evidence_error e then mret (Err e) else raise e) ≫= fun r =>
  match r with
  | Err _ => mret (Refused EXIT_USAGE "registry")
  | Ok registry =>
    match get registry (ra_key_id a) with
    | Some record =>
      fp ← lift (record_fingerprint record);
      mret (Done EXIT_OK {| rg_state := state_value (kr_state record); rg_fingerprint := fp; rg_keys_in_registry := zlen registry |})
    | None => mret (Done EXIT_OK {| rg_state := lit "unknown"; rg_fingerprint := []; rg_keys_in_registry := zlen registry |})
    end
  end.

(** The report of [rotate-key]: the node's rotated keys. *)
Definition rotated_keys (R : KeyRegistry) (node_id : str) : list str :=
  map kr_key_id (List.filter (fun r => bool_decide (kr_state r = ROTATED)) (for_node R node_id)).

Definition cmd_rotate_key (node_id key_id algorithm : str) (public : registry_file) (now now' : str) (o : io)
    : SE registry_file (outcome (list str)) :=
  refusing is_evidence_error EXIT_USAGE "registry" (
    registry ← change (with_public_key public (fun pk R => rotate R now node_id key_id pk algorithm None None [])) now' o;
    mret (Done EXIT_OK (rotated_keys registry node_id))).

Definition cmd_revoke_key (key_id reason now now' : str) (o : io) : SE registry_file (outcome unit) :=
  refusing is_registry_error EXIT_USAGE "registry" (
    change (fun R => revoke R now key_id reason) now' o ;;
    mret (Done EXIT_OK tt)).
End Registry.

(** ** Verification *)
Definition collector (registry : registry_file) (allow_test_backend : bool) : res EvidenceCollector :=
  R ← load lim registry;
  new_collector R None DEFAULT_MAX_RESULTS MAX_EVIDENCE_BYTES allow_test_backend.

Definition verdict (valid : bool) : Z := if valid then EXIT_OK else EXIT_VERIFICATION_FAILED.

Definition cmd_verify_event (registry : registry_file) (allow_test_backend : bool) (event : input)
    : SE unit (outcome VerificationResult) :=
  match read_input event with
  | Err (OSError _) => mret (Refused EXIT_IO "io")
  | Err e => raise e
  | Ok raw =>
    refusing is_evidence_error EXIT_USAGE "verify" (lift (
      c ← collector registry allow_test_backend;
      result ← verify_one env backends lim c (TStr (strip raw));
      Ok (Done (verdict (vr_valid result)) result)))
  end.

(** Reading on after the last line may raise. *)
Definition verify_input (c : EvidenceCollector) (i : input) : res StreamReport :=
  match i with
  | InFile f => verify_file env backends lim c f
  | Stdin lines stop =>
    report ← verify_stream env backends lim c (map TStr lines);
    match stop with Some e => Err e | None => Ok report end
  end.

Definition drop_results (include_results : bool) (p : StreamReport) : StreamReport :=
  if include_results then p
  else {| sr_valid := sr_valid p; sr_total := sr_total p; sr_verified := sr_verified p; sr_failed := sr_failed p;
          sr_malformed := sr_malformed p; sr_nodes := sr_nodes p; sr_alert_counts := sr_alert_counts p;
          sr_results := []; sr_truncated := sr_truncated p |}.

Definition cmd_verify_log (registry : registry_file) (allow_test_backend : bool) (log : input) (include_results : bool)
    : SE unit (outcome StreamReport) :=
  refusing is_evidence_error EXIT_USAGE "verify" (lift (
    c ← collector registry allow_test_backend;
    report ← verify_input c log;
    Ok (Done (verdict (sr_valid report)) (drop_results include_results report)))).

(** ** Signing *)
Record SignerArgs := {
  sa_node_id : str;
  sa_key_id : str;
  sa_algorithm : option str;
  sa_backend : option str;
  sa_allow_test_backend : bool;
  sa_force : bool;
}.

(** The evidence log the signer is given: [--evidence], else [--output], else its default. *)
Definition evidence_option (evidence output : option str) : option str :=
  match evidence, output with
  | Some ((_ :: _) as e), _ => Some e
  | _, Some ((_ :: _) as o) => Some o
  | _, _ => None
  end.

Definition build_signer (a : SignerArgs) (key : key_file) : res EvidenceSigner :=
  private_key ← load_private_key key (negb (sa_force a));
  let algorithm := match sa_algorithm a with Some ((_ :: _) as n) => n | _ => DEFAULT_SIGNATURE_ALGORITHM end in
  backend ← select_backend env backends (sa_backend a) algorithm (sa_allow_test_backend a) None (Some private_key);
  new_signer env backends (sa_node_id a) (sa_key_id a) private_key (Some backend) algorithm DEFAULT_HASH_ALGORITHM true.

(** [except BackendUnavailableError ... except (EvidenceError, OSError) ...] *)
Definition signing {S A} (caught : exn -> bool) (error : string) (m : SE S (outcome A)) : SE S (outcome A) :=
  se_try m (fun e =>
    if is_unavailable e then mret (Refused EXIT_NO_BACKEND "no_backend")
    else if caught e then mret (Refused EXIT_IO error)
    else raise e).

(** The signer's operations run on the disk its paths name. *)
Definition on_disk_of {A} (m : Disk -> Disk * res A) : SE Disk A := m.

Section Store.
Context (py_str : value -> str) (py_int : value -> res Z) (now : str).

Record SignedReport := { sd_sequence : Z; sd_event_hash : str; sd_line : option str }.

(** A decode error is a [ValueError]. *)
Definition load_event (raw : str) : res (option dict) :=
  match loads default_hooks lim raw with
  | Ok (VDict event) => Ok (Some event)
  | Ok _ | Err (JSONDecodeError | ValueError _) => Ok None
  | Err e => Err e
  end.

Definition cmd_sign_event (a : SignerArgs) (key : key_file) (event : input) (print_record : bool) (freed : list bool)
    (iso_now : str) (f : Faults) : SE Disk (outcome SignedReport) :=
  match read_input event with
  | Err (OSError _) => mret (Refused EXIT_IO "io")
  | Err e => raise e
  | Ok raw =>
    event ← lift (load_event raw);
    match event with
    | None => mret (Refused EXIT_USAGE "usage")
    | Some event =>
      signed ← signing evidence_or_os "sign" (
        signer ← lift (build_signer a key);
        record ← on_disk_of (sign_event lim py_str py_int now freed signer event None iso_now f);
        mret (Done EXIT_OK record));
      match signed with
      | Refused s c => mret (Refused s c)
      | Done s record =>
        line ← (if print_record then line ← lift (to_json_line record); mret (Some line) else mret None);
        mret (Done s {| sd_sequence := se_sequence record; sd_event_hash := se_event_hash record; sd_line := line |})
      end
    end
  end.

Definition cmd_sign_log (a : SignerArgs) (key : key_file) (source : text_source) (max_events : option Z) (freed : list bool)
    (clock : nat -> str) : SE Disk (outcome SigningReport) :=
  built ← signing evidence_or_os "sign" (signer ← lift (build_signer a key); mret (Done EXIT_OK signer));
  match built, source with
  | Refused status error, _ => mret (Refused status error)
  | Done _ _, None => mret (Refused EXIT_IO "io")
  | Done _ signer, Some (lines, stop) =>
    refusing evidence_or_os EXIT_IO "sign" (
      report ← on_disk_of (sign_log lim py_str py_int now freed clock signer lines stop max_events);
      mret (Done (verdict (sg_errors report =? 0)) report))
  end.

Definition cmd_status (a : SignerArgs) (key : key_file) (freed : list bool) : SE Disk (outcome StoreStatus) :=
  signing is_evidence_error "status" (
    signer ← lift (build_signer a key);
    status ← on_disk_of (signer_status lim py_str py_int now freed signer);
    mret (Done EXIT_OK status)).

Definition cmd_recover_state (a : SignerArgs) (key : key_file) (confirm : bool) (freed : list bool)
    : SE Disk (outcome value) :=
  if negb confirm then mret (Refused EXIT_USAGE "usage")
  else signing is_evidence_error "recover" (
    signer ← lift (build_signer a key);
    repaired ← on_disk_of (repair_state_from_log lim py_str py_int now freed signer);
    mret (Done EXIT_OK repaired)).
End Store.

(** ** Archives *)
Context `{Aead, Zlib}.

Record CreateCommand := {
  cc_registry : option registry_file;      (* --registry, if one is given *)
  cc_require_valid_evidence : bool;
  cc_recipient_public_key : registry_file;
  cc_node_id : str;
  cc_key_id : option str;
  cc_force : bool;
}.

Definition create_args (c : CreateCommand) (registry : option KeyRegistry) (public_key : bytes) : CreateArgs := {|
  ca_recipient_public_key := public_key; ca_node_id := cc_node_id c; ca_key_id := default [] (cc_key_id c);
  ca_backend := None; ca_registry := registry; ca_require_valid_evidence := cc_require_valid_evidence c;
  ca_max_plaintext_bytes := DEFAULT_MAX_PLAINTEXT_BYTES; ca_overwrite := cc_force c; ca_metadata := [] |}.

(** The registry is looked at in strict mode only. *)
Definition cmd_create_archive (c : CreateCommand) (src : Source) (e : Entropy) (created_at : str) (f : CreateFaults)
    : SE Place (outcome (ArchiveManifest * ArchiveTrust)) :=
  let strict := cc_require_valid_evidence c in
  let create registry :=
    refusing_with is_evidence_error (if strict then EXIT_VERIFICATION_FAILED else EXIT_USAGE) "archive" (
      public_key ← lift (load_public_key_file (cc_recipient_public_key c));
      created ← create_archive lim env backends (create_args c registry public_key) src e created_at f;
      mret (Done EXIT_OK created)) in
  if strict then
    match cc_registry c with
    | None => mret (Refused EXIT_USAGE "usage")
    | Some file =>
      match load lim file with
      | Err e => if is_registry_error e then mret (Refused EXIT_USAGE "registry") else raise e
      | Ok registry => create (Some registry)
      end
    end
  else create None.

Definition decrypt_args (private_key : bytes) (output force : bool) : DecryptArgs := {|
  da_private_key := private_key; da_output := output; da_backend := None;
  da_max_archive_bytes := DEFAULT_MAX_ARCHIVE_BYTES; da_max_plaintext_bytes := DEFAULT_MAX_PLAINTEXT_BYTES;
  da_overwrite := force |}.

Definition cmd_decrypt_archive (key : key_file) (output force : bool) (z : zip_file) (f : DecryptFaults)
    : SE Restore (outcome (ArchiveManifest * bool * ArchiveTrust)) :=
  refusing_with is_evidence_error EXIT_VERIFICATION_FAILED "archive" (
    private_key ← lift (load_private_key key (negb force));
    decrypted ← decrypt_archive lim env backends (decrypt_args private_key output force) z f;
    mret (Done EXIT_OK decrypted)).

(** The status of [verify-archive]. *)
Definition archive_status (private_key : option bytes) (registry : option KeyRegistry) (report : ArchiveReport) : Z :=
  let trust := ar_trust report in
  if negb (ar_structure_valid report) || negb (bool_decide (errors trust = [])) then EXIT_VERIFICATION_FAILED
  else if match private_key with Some _ => negb (container_authenticated trust) | None => false end then EXIT_VERIFICATION_FAILED
  else if match registry with Some _ => negb (fully_verified trust) | None => false end then EXIT_VERIFICATION_FAILED
  else EXIT_OK.

Definition verify_args (private_key : option bytes) (registry : option KeyRegistry) : VerifyArgs := {|
  va_private_key := private_key; va_registry := registry; va_backend := None;
  va_max_archive_bytes := DEFAULT_MAX_ARCHIVE_BYTES; va_max_plaintext_bytes := DEFAULT_MAX_PLAINTEXT_BYTES |}.

(** The key and the registry are given or not; only a [SignerError] of the one and a
    [KeyRegistryError] of the other are answered here. *)
Definition cmd_verify_archive (key : option key_file) (registry : option registry_file) (force : bool) (z : zip_file)
    (workdir : io) (f : DecryptFaults) (unlinked : bool) : SE Restore (outcome ArchiveReport) :=
  match match key with Some k => Some <$> load_private_key k (negb force) | None => Ok None end with
  | Err (SignerError _) => mret (Refused EXIT_IO "io")
  | Err e => raise e
  | Ok private_key =>
    match match registry with Some r => Some <$> load lim r | None => Ok None end with
    | Err e => if is_registry_error e then mret (Refused EXIT_USAGE "registry") else raise e
    | Ok registry =>
      report ← verify_archive lim env backends (verify_args private_key registry) z workdir f unlinked;
      mret (Done (archive_status private_key registry report) report)
    end
  end.
End Commands.
