(* ===== verification/CliFacts.v ===== *)
(** What the commands of the evidence seal guarantee, over the operations they compose. *)
From S2P Require Import Prelude PyText PyStr Json JsonFacts Hashes IsoTime Canonicalizer Models CryptoBackend EventChain KeyRegistry Verifier Collector StateStore EvidenceStore RecordFacts Signer ArchiveEvidence ArchiveEvidenceFacts ArchiveStream ArchiveStreamFacts Archive ArchiveFacts ArchiveTheorems Cli.

(** ** Commands and their errors *)
Lemma refusing_done {S A} caught status error (m : SE S (outcome A)) s s' st rep :
  refusing caught status error m s = (s', Ok (Done st rep)) -> m s = (s', Ok (Done st rep)).
Proof.
  unfold refusing, se_try. destruct (m s) as [s1 [o|e]]; [done|]. by destruct (caught e).
Qed.

Lemma refusing_cases {S A} caught status error (m : SE S (outcome A)) s s' r :
  refusing caught status error m s = (s', r) ->
  m s = (s', r) \/ exists e, m s = (s', Err e) /\ caught e = true /\ r = Ok (Refused status error).
Proof.
  unfold refusing, se_try. destruct (m s) as [s1 [o|e]]; [by left|].
  destruct (caught e) eqn:C; intros [= <- <-]; [right; by exists e | by left].
Qed.

(** ** Registry commands *)
Section RegistryCommands.
Context (lim : nat) (fr : spec_float -> str).

(** Nothing has changed, or the file is the text of what one successful operation made of
    the registry that was loaded. *)
Definition changed (operation : KeyRegistry -> KeyRegistry * res KeyRecord) (now' : str) (f f' : registry_file)
    (R' : KeyRegistry) : Prop :=
  exists R record text, load lim f = Ok R /\ operation R = (R', Ok record) /\ save_text fr R' now' = Ok text /\ f' = Content text.

(** What a registry command leaves: the file as it was, or the changed registry - then the
    command succeeds, unless the process dies behind the replacement. *)
Definition atomic {A} operation now' f f' (r : res (outcome A)) : Prop :=
  (f' = f /\ forall rep, r <> Ok (Done EXIT_OK rep)) \/
  exists R', changed operation now' f f' R' /\ ((exists rep, r = Ok (Done EXIT_OK rep)) \/ exists stage, r = Err (Crash stage)).

Lemma change_cases operation now' o f f' r : change lim fr operation now' o f = (f', r) ->
  (exists R', changed operation now' f f' R' /\ (r = Ok R' \/ exists stage, r = Err (Crash stage))) \/
  (f' = f /\ exists e, r = Err e).
Proof.
  unfold change, gets. rewrite (se_bind_eq _ _ f f f) by done. intros E.
  apply lift_bind_cases in E as [(e & _ & -> & ->)|(R & L & E)]; [right; eauto|]. destruct (operation R) as [R' x] eqn:O.
  apply lift_bind_cases in E as [(e & _ & -> & ->)|(record & -> & E)]; [right; eauto|]. unfold save, mbind at 1, se_bind at 1 in E.
  destruct (save_text fr R' now') as [text|e] eqn:T; [|right; injection E as <- <-; eauto].
  assert (forall x, changed operation now' f (Content text) R' /\ x -> exists R', changed operation now' f (Content text) R' /\ x) as G by eauto.
  destruct o as [|n|[|n]]; cbn in E; injection E as <- <-.
  - left. exists R'. split; [|by left]. by exists R, record, text.
  - right. eauto.
  - right. eauto.
  - left. exists R'. split; [by exists R, record, text | right; eauto].
Qed.

Lemma change_ok operation now' o f f' R' : change lim fr operation now' o f = (f', Ok R') -> changed operation now' f f' R'.
Proof. intros [(R1 & C & [[= <-]|(stage & [=])])|(_ & e & [=])]%change_cases. done. Qed.

Lemma main_atomic {A} (m : SE registry_file (outcome A)) operation now' f f' r :
  (forall f' r, m f = (f', r) -> atomic operation now' f f' r) -> main m f = (f', r) -> atomic operation now' f f' r.
Proof.
  unfold main, se_try. intros H E. destruct (m f) as [f1 [o|e]] eqn:M; [injection E as <- <-; by apply H|]. specialize (H _ _ eq_refl).
  destruct (is_unavailable e) eqn:U; [|destruct (is_evidence_error e) eqn:V; [|by injection E as <- <-]];
    injection E as <- <-; destruct H as [[-> _]|(R' & _ & [(rep & [=])|(stage & [= ->])])]; by left || done.
Qed.

(** After a [change], what is left is a report. *)
Lemma change_atomic {A} operation now' o (k : KeyRegistry -> A) f f' r :
  (registry ← change lim fr operation now' o; mret (Done EXIT_OK (k registry))) f = (f', r) -> atomic operation now' f f' r.
Proof.
  unfold mbind, se_bind. intros E. destruct (change lim fr operation now' o f) as [f1 x] eqn:C.
  destruct (change_cases _ _ _ _ _ _ C) as [(R' & Hc & [->|(stage & ->)])|(-> & e & ->)]; injection E as <- <-.
  - right. exists R'. split; [done|]. left. eauto.
  - right. exists R'. split; [done|]. right. eauto.
  - by left.
Qed.

Lemma refusing_atomic {A} caught status error (m : SE registry_file (outcome A)) operation now' f f' r :
  (forall stage, caught (Crash stage) = false) -> (forall f' r, m f = (f', r) -> atomic operation now' f f' r) ->
  refusing caught status error m f = (f', r) -> atomic operation now' f f' r.
Proof.
  intros Hc H [E|(e & E & Ce & ->)]%refusing_cases; apply H in E; [done|].
  destruct E as [[-> _]|(R' & _ & [(rep & [=])|(stage & [= ->])])]; [by left | by rewrite Hc in Ce].
Qed.

Lemma rotate_atomic node_id key_id algorithm public now now' o f f' r :
  cmd_rotate_key lim fr node_id key_id algorithm public now now' o f = (f', r) ->
  atomic (with_public_key public (fun pk R => rotate R now node_id key_id pk algorithm None None [])) now' f f' r.
Proof. apply refusing_atomic; [done|]. intros. by eapply (change_atomic _ _ _ (fun R => rotated_keys R node_id)). Qed.

Lemma revoke_atomic key_id reason now now' o f f' r :
  cmd_revoke_key lim fr key_id reason now now' o f = (f', r) -> atomic (fun R => revoke R now key_id reason) now' f f' r.
Proof. apply refusing_atomic; [done|]. intros. by eapply (change_atomic _ _ _ (fun _ => tt)). Qed.

Lemma checked_fingerprint r : check_record r = Ok r -> exists fp, record_fingerprint r = Ok fp.
Proof.
  unfold check_record. intros H. inv_res. rename select (public_key_field _ = Ok _) into P. unfold public_key_field in P.
  apply bind_ok in P as (b & B & _). unfold record_fingerprint, public_key_bytes. rewrite B. eauto.
Qed.

Definition register_operation (a : RegisterArgs) (public : registry_file) (now : str) : KeyRegistry -> KeyRegistry * res KeyRecord :=
  with_public_key public (fun pk R =>
    register R now (ra_key_id a) (ra_node_id a) pk (ra_algorithm a) (ra_activated_at a) (ra_expires_at a) [] (negb (ra_inactive a))).

Lemma register_operation_checked a public now R : checked R -> checked (register_operation a public now R).1.
Proof. intros C. unfold register_operation, with_public_key. destruct (load_public_key_file public); [by apply register_checked | done]. Qed.

Lemma register_atomic a public now now' o f f' r :
  cmd_register_key lim fr a public now now' o f = (f', r) -> atomic (register_operation a public now) now' f f' r.
Proof.
  unfold cmd_register_key. fold (register_operation a public now). unfold mbind at 1, se_bind at 1, se_try, mbind at 1, se_bind at 1. intros E.
  destruct (change lim fr (register_operation a public now) now' o f) as [f1 x] eqn:C.
  destruct (change_cases _ _ _ _ _ _ C) as [(R' & Hc & [->|(stage & ->)])|(-> & e & ->)].
  - right. exists R'. split; [by assert (f' = f1) as -> by (cbn in E; destruct (get R' _); [apply lift_bind_cases in E as [(?&_&->&_)|(?&_&[= <- _])] | injection E as <- _]; done)|].
    cbn in E. destruct (get R' (ra_key_id a)) as [record|] eqn:G; [|injection E as <- <-; eauto].
    destruct Hc as (R & rc & text & L & O & _). destruct (load_good _ _ _ L) as [_ Hk].
    pose proof (register_operation_checked a public now R Hk) as Hk'. rewrite O in Hk'. cbn [fst] in Hk'.
    apply get_Some in G as [G _]. unfold checked in Hk'. rewrite Forall_forall in Hk'. destruct (checked_fingerprint _ (Hk' _ G)) as [fp Hfp].
    rewrite Hfp, lift_bind in E. injection E as <- <-. eauto.
  - injection E as <- <-. right. exists R'. split; [done|]. right. eauto.
  - left. cbn in E. destruct (is_evidence_error e); injection E as <- <-; done.
Qed.

(** C13. The registry commands are transactions: whatever the files hold and whatever happens to
    the writing, [register-key], [rotate-key] and [revoke-key] - exceptions handled by [main] -
    leave the registry file as it was and do not exit with 0, or leave the text of exactly the
    registry one successful operation made of the loaded one, and then exit with 0 unless the
    process died behind the replacement. *)
Theorem registry_commands_atomic now now' o f f' :
  (forall a public r, main (cmd_register_key lim fr a public now now' o) f = (f', r) ->
     atomic (register_operation a public now) now' f f' r) /\
  (forall node_id key_id algorithm public r, main (cmd_rotate_key lim fr node_id key_id algorithm public now now' o) f = (f', r) ->
     atomic (with_public_key public (fun pk R => rotate R now node_id key_id pk algorithm None None [])) now' f f' r) /\
  (forall key_id reason r, main (cmd_revoke_key lim fr key_id reason now now' o) f = (f', r) ->
     atomic (fun R => revoke R now key_id reason) now' f f' r).
Proof.
  split_and!; intros *; apply main_atomic; intros f1 r1; [apply register_atomic | apply rotate_atomic | apply revoke_atomic].
Qed.

(** ** Revocation reaches verification *)

(** JSON can hold the registry's document, and the file is within its limit. *)
Definition storable (R : KeyRegistry) (now : str) : Prop :=
  exists doc, document R "updated_at" now = Ok doc /\ wf doc = true /\ (nesting doc <= lim)%nat /\
    forall text, save_text fr R now = Ok text -> zlen text <= MAX_REGISTRY_BYTES.

Lemma revoke_inv R now kid reason R' r : revoke R now kid reason = (R', Ok r) ->
  exists r0, get R kid = Some r0 /\ R' = update R kid (fun r => set_revoked r (strip reason) now).
Proof.
  unfold revoke, require_key. destruct (get R kid) as [r0|]; [|done]. case_bool_decide; [done|]. intros [= <- _]. eauto.
Qed.

(** The registry that is read back has the same states. *)
Lemma revoked_reads R now kid reason R' r now' text : registry_ok R -> checked R -> revoke R now kid reason = (R', Ok r) ->
  storable R' now' -> save_text fr R' now' = Ok text ->
  exists L rec, load lim (Content text) = Ok L /\ get L kid = Some rec /\ kr_state rec = REVOKED.
Proof.
  intros Hok Hc Hr (doc & D & W & N & Z) T. pose proof (revoke_checked R now kid reason Hc) as Hc'. rewrite Hr in Hc'. cbn [fst] in Hc'.
  destruct (revoke_inv _ _ _ _ _ _ Hr) as (r0 & G & E). assert (registry_ok R') as Hok' by (subst R'; by apply update_ok).
  exists (map normal_record (sorted_records R')), (normal_record (set_revoked r0 (strip reason) now)).
  split; [by apply (saved_loads fr R' now' doc text lim); auto|]. split; [|done].
  assert (kr_key_id r0 = kid) as K by (by apply get_Some in G as [_ ?]).
  assert (get R' kid = Some (set_revoked r0 (strip reason) now)) as G' by (subst R'; rewrite get_update by done; by rewrite G).
  apply get_Some in G' as [G' _]. rewrite <- K at 1. change (kr_key_id r0) with (kr_key_id (normal_record (set_revoked r0 (strip reason) now))).
  apply get_elem.
  - rewrite map_map. cbn [kr_key_id normal_record]. unfold sorted_records. rewrite sort_by_perm. apply Hok'.
  - apply list_elem_of_In, in_map, list_elem_of_In. unfold sorted_records. by rewrite sort_by_perm.
Qed.
End RegistryCommands.

Section Revocation.
Context (env : Environ) (backends : list (str * CryptoBackend)) (lim : nat) (fr : spec_float -> str).

(** The lines [verify-log] looks at. *)
Definition input_lines (i : input) : list text_input :=
  match i with
  | Stdin lines _ => map TStr lines
  | InFile (Content b) => map TStr (text_lines (utf8_decode_replace b))
  | InFile _ => []
  end.

Lemma verify_log_inv registry allow i results st rep :
  cmd_verify_log env backends lim registry allow i results tt = (tt, Ok (Done st rep)) ->
  exists R c report, load lim registry = Ok R /\ new_collector R None DEFAULT_MAX_RESULTS MAX_EVIDENCE_BYTES allow = Ok c /\
    verify_stream env backends lim c (input_lines i) = Ok report /\ st = verdict (sr_valid report) /\
    rep = drop_results results report.
Proof.
  intros E%refusing_done. unfold lift in E. injection E as E. apply bind_ok in E as (c & C & E). apply bind_ok in E as (report & V & [= <- <-]).
  apply bind_ok in C as (R & L & C). exists R, c, report. split_and!; try done.
  unfold verify_input in V. destruct i as [lines stop|[| |b]]; [|done..]. apply bind_ok in V as (x & V & S). by destruct stop; [|injection S as <-].
Qed.

Lemma own_verifier R allow c : new_collector R None DEFAULT_MAX_RESULTS MAX_EVIDENCE_BYTES allow = Ok c ->
  co_max_record_bytes c = MAX_EVIDENCE_BYTES /\
  co_verifier c = {| ev_registry := R; ev_backend := None; ev_allow_test_backend := allow; ev_max_record_bytes := MAX_EVIDENCE_BYTES |}.
Proof. intros H. vm_compute in H. by injection H as <-. Qed.

(** C12. Revocation reaches every later verification: once [revoke-key] has exited with 0, a
    [verify-log] over the registry it left which exits with 0 - whatever the log, the
    back ends and the options - has seen no record signed in the name of that key. *)
Theorem revocation_effective key_id reason now now' o f f' allow log results rep :
  main (cmd_revoke_key lim fr key_id reason now now' o) f = (f', Ok (Done EXIT_OK tt)) ->
  (forall R R' r, load lim f = Ok R -> revoke R now key_id reason = (R', Ok r) -> storable lim fr R' now') ->
  main (cmd_verify_log env backends lim f' allow log results) tt = (tt, Ok (Done EXIT_OK rep)) ->
  exists c es, good_log env backends lim c (input_lines log) es /\ sr_verified rep = zlen es /\
    Forall (fun e => se_key_id e <> key_id) es.
Proof.
  intros Hr Hs Hv. assert (atomic lim fr (fun R => revoke R now key_id reason) now' f f' (Ok (Done EXIT_OK tt))) as A
    by (eapply main_atomic; [|exact Hr]; intros f1 r1; apply revoke_atomic).
  destruct A as [[_ N]|(R' & (R & r & text & L & O & T & ->) & _)]; [by destruct (N tt)|].
  destruct (load_good _ _ _ L) as [Hok Hc]. destruct (revoked_reads lim fr R now key_id reason R' r now' text) as (L' & rec & Ld & G & S); [by eauto..|].
  assert (cmd_verify_log env backends lim (Content text) allow log results tt = (tt, Ok (Done EXIT_OK rep))) as V.
  { unfold main, se_try in Hv. destruct (cmd_verify_log _ _ _ _ _ _ _ _) as [[] [x|e]]; [done|].
    destruct (is_unavailable e); [done|]. by destruct (is_evidence_error e). }
  destruct (verify_log_inv _ _ _ _ _ _ V) as (R2 & c & report & Ld2 & C & Vs & Ev & ->). rewrite Ld in Ld2. injection Ld2 as <-.
  assert (sr_valid report = true) as Hvalid by (by destruct (sr_valid report)).
  destruct (stream_sound _ _ _ _ _ _ Vs Hvalid) as (es & Gl & _ & Nv & _). exists c, es. split; [exact Gl|]. split; [by destruct results|].
  eapply Forall_impl; [apply (gl_sound _ _ _ _ _ _ Gl)|]. intros e Hse <-. pose proof (rs_key _ _ _ _ Hse) as K.
  destruct (own_verifier _ _ _ C) as [_ Ov]. rewrite Ov in K. cbn [ev_registry] in K. apply check_usable_iff in K as (r' & t & a & G' & _ & _ & St & _).
  rewrite G in G'. injection G' as <-. rewrite S in St. by destruct St.
Qed.
End Revocation.

(** ** Key generation *)

(** The file [load_public_key_file] finds at a path. *)
Definition as_file (f : option (Z * bytes)) : registry_file := match f with Some (_, b) => Content b | None => Missing end.

Lemma strip_ends (f : Z -> bool) l a b : Forall (fun c => f c = false) l -> Forall (fun c => f c = true) a -> Forall (fun c => f c = true) b ->
  strip_with f (a ++ l ++ b) = l.
Proof.
  assert (forall a l, Forall (fun c => f c = true) a -> drop_while f (a ++ l) = drop_while f l) as D.
  { intros a0 l0 F. induction F as [|x a0 Hx F IH]; [done|]. simpl. by rewrite Hx. }
  assert (forall l, Forall (fun c => f c = false) l -> drop_while f l = l) as K by (intros l0 [|x l0' Hx F]; [done|]; simpl; by rewrite Hx).
  intros Hl Ha Hb. unfold strip_with. rewrite D by done. destruct l as [|x l].
  - rewrite app_nil_l. rewrite <- (app_nil_r b), D by done. done.
  - assert (drop_while f ((x :: l) ++ b) = (x :: l) ++ b) as -> by (apply Forall_cons in Hl as [Hx _]; simpl; by rewrite Hx).
    rewrite rev_app_distr, D by (by apply Forall_rev). rewrite K by (by apply Forall_rev). apply rev_involutive.
Qed.

(** What [generate-key] writes is what [register-key] reads: one line of base64. *)
Lemma public_key_reads mode k : Bytes k -> load_public_key_file (as_file (Some (mode, b64encode k ++ [10]))) = Ok k.
Proof.
  intros B. pose proof (b64encode_visible k B) as P. apply forallb_Forall in P. unfold as_file, load_public_key_file.
  rewrite bool_decide_eq_false_2 by (by destruct (b64encode k)). cbn [negb require mbind res_bind].
  assert (bstrip (b64encode k ++ [10]) = b64encode k) as ->.
  { apply (strip_ends is_bspace _ [] [10]); [|constructor | by repeat constructor].
    eapply Forall_impl; [exact P|]. intros c Hc. cbn beta in Hc. unfold visible in Hc. unfold is_bspace. bool_prop.
    apply orb_false_iff. split; [apply andb_false_iff; right; apply Z.leb_gt; lia | apply Z.eqb_neq; lia]. }
  assert (forallb (fun c => c <? 128) (b64encode k) = true) as ->.
  { apply forallb_Forall. eapply Forall_impl; [exact P|]. intros c Hc. cbn beta in Hc. unfold visible in Hc. bool_prop. apply Z.ltb_lt. lia. }
  by rewrite b64decode_encode.
Qed.

(** Nothing changes at other paths. *)
Definition elsewhere (ps : list str) (fs fs' : FileSystem) : Prop := forall p, p ∉ ps -> fs' !! p = fs !! p.

Lemma unlink_spec p o fs fs' r : unlink p o fs = (fs', r) -> elsewhere [p] fs fs' /\ (r = Ok tt -> fs' !! p = None).
Proof.
  unfold unlink, mbind, se_bind, modify, lift. destruct o as [|n|[|n]]; intros [= <- <-]; (split; [|try done]).
  1,5: intros q Hq; apply lookup_delete_ne; set_solver.
  1: intros _; apply lookup_delete_eq.
  1,2: done.
Qed.

Lemma put_private_spec p k o fs fs' r : put_private_key p k o fs = (fs', r) ->
  elsewhere [p] fs fs' /\ (r = Ok tt -> fs !! p = None /\ fs' !! p = Some (0x180, kp_private k)).
Proof.
  unfold put_private_key, mbind, se_bind, gets, modify, lift. intros E. destruct (write_private_key (fs !! p) k o) as [f x] eqn:W.
  injection E as <- <-. split; [intros q Hq; apply lookup_partial_alter_ne; set_solver|]. intros ->.
  unfold write_private_key in W. destruct (fs !! p); [done|]. injection W as <- W. split; [done|]. rewrite lookup_partial_alter_eq.
  by destruct o.
Qed.

Lemma put_public_spec created p k o fs fs' r : put_public_key created p k o fs = (fs', r) ->
  elsewhere [p] fs fs' /\ (r = Ok tt -> fs' !! p = Some (0x1A4, b64encode (kp_public k) ++ [10])).
Proof.
  unfold put_public_key, mbind, se_bind, gets, modify, lift. intros [= <- E]. split; [intros q Hq; apply lookup_insert_ne; set_solver|].
  intros ->. destruct o; try done. apply lookup_insert_eq.
Qed.

Lemma elsewhere_trans ps qs fs fs1 fs2 : elsewhere ps fs fs1 -> elsewhere qs fs1 fs2 -> elsewhere (ps ++ qs) fs fs2.
Proof. intros H1 H2 p Hp. rewrite H2, H1; [done|..]; set_solver. Qed.

Lemma elsewhere_weaken ps qs fs fs' : ps ⊆ qs -> elsewhere ps fs fs' -> elsewhere qs fs fs'.
Proof. intros Hs H p Hp. apply H. set_solver. Qed.

Lemma store_spec created a public k f fs fs' r : ga_private_key a <> public -> store_keypair created a public k f fs = (fs', r) ->
  elsewhere [ga_private_key a; public] fs fs' /\
  (r = Ok tt -> fs' !! ga_private_key a = Some (0x180, kp_private k) /\ fs' !! public = Some (0x1A4, b64encode (kp_public k) ++ [10])).
Proof.
  intros N. unfold store_keypair, gets. rewrite (se_bind_eq _ _ fs fs (fs !! ga_private_key a)) by done. intros E.
  unfold mbind at 1, se_bind at 1 in E.
  destruct ((if bool_decide (is_Some (fs !! ga_private_key a)) && ga_force a then unlink (ga_private_key a) (gf_unlink f) else mret tt) fs) as [fs1 x1] eqn:E1.
  assert (elsewhere [ga_private_key a] fs fs1) as D1 by (destruct (_ && _); [by apply unlink_spec in E1 as [? _] | injection E1 as <- _; done]).
  destruct x1 as [[]|e]; [|injection E as <- <-; split; [by eapply elsewhere_weaken; [|exact D1]; set_solver | done]].
  apply lift_bind_cases in E as [(e & _ & -> & ->)|([] & _ & E)]; [split; [by eapply elsewhere_weaken; [|exact D1]; set_solver | done]|].
  unfold mbind at 1, se_bind at 1 in E. destruct (put_private_key (ga_private_key a) k (gf_private f) fs1) as [fs2 x2] eqn:E2.
  apply put_private_spec in E2 as [D2 K2]. pose proof (elsewhere_trans _ _ _ _ _ D1 D2) as D.
  destruct x2 as [[]|e]; [|injection E as <- <-; split; [by eapply elsewhere_weaken; [|exact D]; set_solver | done]].
  apply lift_bind_cases in E as [(e & _ & -> & ->)|([] & _ & E)]; [split; [by eapply elsewhere_weaken; [|exact D]; set_solver | done]|].
  apply put_public_spec in E as [D3 K3]. split; [by eapply elsewhere_weaken; [|exact (elsewhere_trans _ _ _ _ _ D D3)]; set_solver|].
  intros ->. destruct (K2 eq_refl) as [_ K]. split; [|by apply K3]. rewrite D3 by set_solver. exact K.
Qed.

Section Generation.
Context (env : Environ) (backends : list (str * CryptoBackend)).

End Generation.

(** ** Signing, then verifying *)

(** One run of [sign-event] by a process of its own: its input, the clock, what the lock's polls
    find and what befalls its writes. *)
Record Invocation := {
  iv_event : input;
  iv_print_record : bool;
  iv_now : str;
  iv_clock : str;
  iv_freed : list bool;
  iv_faults : Faults;
}.

Lemma main_ok {S A} (m : SE S (outcome A)) s s' o : m s = (s', Ok o) -> main m s = (s', Ok o).
Proof. intros E. unfold main, se_try. by rewrite E. Qed.

Section SignedLog.
Context (env : Environ) (backends : list (str * CryptoBackend)) (lim : nat) (py_str : value -> str) (py_int : value -> res Z).
Context (a : SignerArgs) (key : key_file) (s : EvidenceSigner) (Hsigner : build_signer env backends a key = Ok s).

Definition sign_event_command (i : Invocation) : SE Disk (outcome SignedReport) :=
  main (cmd_sign_event env backends lim py_str py_int (iv_now i) a key (iv_event i) (iv_print_record i) (iv_freed i) (iv_clock i) (iv_faults i)).

(** Any number of them, one after the other. *)
Fixpoint sign_commands (l : list Invocation) (d : Disk) : Disk * list (res (outcome SignedReport)) :=
  match l with
  | [] => (d, [])
  | i :: l => let '(d, r) := sign_event_command i d in let '(d, rs) := sign_commands l d in (d, r :: rs)
  end.

(** The sequence and the hash each successful run reports. *)
Definition reported (rs : list (res (outcome SignedReport))) : list (Z * str) :=
  omap (fun r => match r with Ok (Done _ rep) => Some (sd_sequence rep, sd_event_hash rep) | _ => None end) rs.

(** What a run asks the signer for, once its input is a JSON object. *)
Definition attempt_of (i : Invocation) : option Attempt :=
  match (raw ← read_input (iv_event i); load_event lim raw) with
  | Ok (Some event) => Some {| at_event := event; at_timestamp := iv_clock i; at_now := iv_now i; at_freed := iv_freed i; at_faults := iv_faults i |}
  | _ => None
  end.

Lemma sign_event_cases i d : match attempt_of i with
  | None => exists r, sign_event_command i d = (d, r) /\ reported [r] = []
  | Some t => exists r, sign_event_command i d =
      ((sign_event lim py_str py_int (at_now t) (at_freed t) s (at_event t) (Some (at_timestamp t)) (at_timestamp t) (at_faults t) d).1, r) /\
      sublist (reported [r]) (map (fun e => (se_sequence e, se_event_hash e))
        (returned [(sign_event lim py_str py_int (at_now t) (at_freed t) s (at_event t) (Some (at_timestamp t)) (at_timestamp t) (at_faults t) d).2]))
  end.
Proof.
  unfold attempt_of, sign_event_command, main, cmd_sign_event, se_try. destruct (read_input (iv_event i)) as [raw|e]; cbn [mbind res_bind].
  2: { destruct e; eexists; (split; [cbn; reflexivity | reflexivity]). }
  destruct (load_event lim raw) as [[event|]|e] eqn:L; rewrite lift_bind.
  2: { eexists. split; reflexivity. }
  2: { destruct (is_unavailable e); [|destruct (is_evidence_error e)]; eexists; (split; [reflexivity | done]). }
  cbn [at_now at_freed at_event at_timestamp at_faults].
  assert (forall d, sign_event lim py_str py_int (iv_now i) (iv_freed i) s event (Some (iv_clock i)) (iv_clock i) (iv_faults i) d =
    sign_event lim py_str py_int (iv_now i) (iv_freed i) s event None (iv_clock i) (iv_faults i) d) as -> by (intros ?; unfold sign_event; by destruct (iv_clock i)).
  unfold signing, se_try, mbind, se_bind, on_disk_of, lift. rewrite Hsigner.
  destruct (sign_event lim py_str py_int (iv_now i) (iv_freed i) s event None (iv_clock i) (iv_faults i) d) as [d1 [rec|e]].
  - cbn -[to_json_line]. destruct (iv_print_record i); [|eexists; split; reflexivity].
    destruct (to_json_line rec) as [line|e]; cbn -[to_json_line]; [eexists; split; reflexivity|].
    destruct (is_unavailable e); [|destruct (is_evidence_error e)]; eexists; (split; [reflexivity | apply sublist_nil_l]).
  - cbn -[to_json_line]. destruct (is_unavailable e) eqn:U; [eexists; split; [reflexivity | done]|].
    destruct (evidence_or_os e); [eexists; split; [reflexivity | done]|]. cbn -[to_json_line]. rewrite U.
    destruct (is_evidence_error e); eexists; (split; [reflexivity | done]).
Qed.

(** So the runs are attempts to sign. *)
Lemma sign_commands_attempts l : forall d, exists rs, sign_attempts s lim py_str py_int (omap attempt_of l) d = ((sign_commands l d).1, rs) /\
  sublist (reported (sign_commands l d).2) (map (fun e => (se_sequence e, se_event_hash e)) (returned rs)).
Proof.
  induction l as [|i l IH]; intros d; [exists []; done|]. cbn [sign_commands]. pose proof (sign_event_cases i d) as C.
  change (omap attempt_of (i :: l)) with (match attempt_of i with Some t => t :: omap attempt_of l | None => omap attempt_of l end).
  destruct (attempt_of i) as [t|].
  - destruct C as (r & -> & Sub). cbn [sign_attempts].
    destruct (sign_event lim py_str py_int (at_now t) (at_freed t) s (at_event t) (Some (at_timestamp t)) (at_timestamp t) (at_faults t) d) as [d1 x].
    cbn [fst snd] in *. destruct (IH d1) as (rs & E & Sub2). rewrite E. destruct (sign_commands l d1) as [d2 rs2]. cbn [fst snd] in *.
    eexists. split; [reflexivity|]. assert (reported (r :: rs2) = reported [r] ++ reported rs2) as -> by (unfold reported; cbn; by destruct r as [[]|]).
    assert (returned (x :: rs) = returned [x] ++ returned rs) as -> by (unfold returned; cbn; by destruct x).
    rewrite map_app. by apply sublist_app.
  - destruct C as (r & -> & N). destruct (IH d) as (rs & E & Sub). destruct (sign_commands l d) as [d2 rs2]. cbn [fst snd] in *.
    exists rs. split; [done|]. assert (reported (r :: rs2) = reported [r] ++ reported rs2) as -> by (unfold reported; cbn; by destruct r as [[]|]).
    by rewrite N.
Qed.

Context (Hnode : name_ok (sn_node_id s) = true) (Hkey : name_ok (sn_key_id s) = true).

(** [status] finds the log in order again. *)
Lemma status_recovers es d now freed : recovers s lim py_str py_int es d -> name_ok now = true ->
  exists d' st, main (cmd_status env backends lim py_str py_int now a key freed) d = (d', Ok (Done EXIT_OK st)) /\
    evidence_at (map entry_of es) d'.
Proof.
  intros [_ R] Hnow. destruct (R now freed Hnow) as ([d0 o0] & rep & E & R0 & L0 & N0 & st & C0 & P0). cbn [fst snd] in *.
  exists (put_lock false d0). eexists. split; [|exact (ar_evidence _ _ _ _ (lock_rest _ _ _ false _ R0))].
  apply main_ok. unfold cmd_status, signing, se_try, on_disk_of. rewrite lift_bind, Hsigner. unfold mbind, se_bind, signer_status, with_store.
  unfold signer_store. rewrite (se_bind_eq _ _ _ _ _ E). unfold finally_release, status.
  rewrite (se_bind_eq _ _ _ _ _ (require_lock_ok d0 o0 L0)), (se_bind_eq _ _ _ _ _ (read_state_cached lim py_str d0 o0 st L0 C0)).
  unfold release, mbind, se_bind, modify, gets. cbn [fst snd]. rewrite L0. reflexivity.
Qed.

(** The registry [verify-log] is given, and what it makes of it. *)
Context (registry : registry_file) (R : KeyRegistry) (Hregistry : load lim registry = Ok R) (allow : bool).
Let v : EvidenceVerifier :=
  {| ev_registry := R; ev_backend := None; ev_allow_test_backend := allow; ev_max_record_bytes := MAX_EVIDENCE_BYTES |}.

Definition log_file (d : Disk) : registry_file := match d_evidence d with Some b => Content b | None => Missing end.

End SignedLog.

(** ** Archives *)
Section Archives.
Context (env : Environ) (backends : list (str * CryptoBackend)) (lim : nat) `{Aead, Zlib, !ZlibCap}.

(** What exit status 0 of [verify-archive] tells: a well-formed container and no error; with the
    recipient's key, an authenticated container; and with a registry - which then needs the
    key - everything a full verification establishes. *)
Theorem verify_archive_exit key registry force z workdir f unlinked r r' report :
  main (cmd_verify_archive env backends lim key registry force z workdir f unlinked) r = (r', Ok (Done EXIT_OK report)) ->
  ar_structure_valid report = true /\ errors (ar_trust report) = [] /\
  (is_Some key -> container_authenticated (ar_trust report) = true) /\
  (forall file, registry = Some file -> exists R private data m s ev n, load lim file = Ok R /\
     established lim env backends (Cli.verify_args (Some private) (Some R)) z f r (ar_trust report) private data R m s ev n).
Proof.
  intros E. unfold main, se_try in E. destruct (cmd_verify_archive _ _ _ _ _ _ _ _ _ _ _) as [r1 [o|e]] eqn:C;
    [|destruct (is_unavailable e); [|destruct (is_evidence_error e)]; done].
  injection E as -> ->. unfold cmd_verify_archive in C. destruct (match key with Some k => _ | None => _ end) as [private|e] eqn:K; [|by destruct e].
  destruct (match registry with Some g => _ | None => _ end) as [R|e] eqn:G; [|by destruct (is_registry_error e)].
  apply se_bind_ok in C as (r2 & rep & V & C). injection C as -> St ->. unfold archive_status in St.
  destruct (negb (ar_structure_valid report) || _) eqn:S; [done|]. apply orb_false_iff in S as [S1 S2].
  apply negb_false_iff in S1, S2. apply bool_decide_eq_true in S2. split; [done|]. split; [done|].
  destruct (match private with Some _ => _ | None => _ end) eqn:A; [done|].
  split.
  { intros [k ->]. destruct (load_private_key k (negb force)); [|done]. injection K as <-. by apply negb_false_iff in A. }
  intros file ->. destruct (load lim file) as [R0|e] eqn:L; [|done]. injection G as <-.
  destruct (negb (fully_verified (ar_trust report))) eqn:F; [done|]. apply negb_false_iff in F.
  destruct (verify_full _ _ _ _ _ _ _ _ _ _ _ V F) as (pk & data & R1 & m & s & ev & n & Es).
  pose proof (es_key _ _ _ _ _ _ _ _ _ _ _ _ _ _ _ Es) as Ek. pose proof (es_registry _ _ _ _ _ _ _ _ _ _ _ _ _ _ _ Es) as Er.
  cbn in Ek, Er. injection Er as <-. subst private. by exists R0, pk, data, m, s, ev, n.
Qed.
End Archives.
