(* ===== verification/CliExamples.v ===== *)
(** The commands on small files: a node with the test back end, selected by the environment. *)
From S2P Require Import Prelude PyText PyStr Json JsonFacts Hashes IsoTime Canonicalizer Models CryptoBackend EventChain KeyRegistry Verifier Collector StateStore EvidenceStore RecordFacts Signer ArchiveEvidence ArchiveStream Archive Cli CliFacts.

Definition cli_env : Environ := {| env_backend := TEST_BACKEND; env_production := [] |}.
Definition cli_backends : list (str * CryptoBackend) := [(TEST_BACKEND, InsecureTestBackend cli_env)].
Definition no_repr : spec_float -> str := fun _ => [].

(** ** Revoking one of two keys *)
Definition two_keys : KeyRegistry := [sample_record "k1" sample_key ACTIVE; sample_record "k2" [2] ROTATED].
Definition two_keys_file : registry_file := Eval vm_compute in
  match save_text no_repr two_keys sample_now with Ok b => Content b | Err _ => Missing end.

Notation revoke_k2 := (main (cmd_revoke_key 50 no_repr (lit "k2") (lit "lost") sample_now sample_now IoOk) two_keys_file).

Definition revoked_file : registry_file := Eval vm_compute in (revoke_k2).1.

Lemma revoke_k2_runs : revoke_k2 = (revoked_file, Ok (Done EXIT_OK tt)).
Proof. vm_compute. reflexivity. Qed.

Lemma registry_commands_atomic_witness :
  main (cmd_revoke_key 50 no_repr (lit "k2") (lit "lost") sample_now sample_now IoOk) two_keys_file = (revoked_file, Ok (Done EXIT_OK tt)) /\
  atomic 50 no_repr (fun R => revoke R sample_now (lit "k2") (lit "lost")) sample_now two_keys_file revoked_file (Ok (Done EXIT_OK tt)).
Proof.
  split; [exact revoke_k2_runs|].
  exact (proj2 (proj2 (registry_commands_atomic 50 no_repr sample_now sample_now IoOk two_keys_file revoked_file)) (lit "k2") (lit "lost") _ revoke_k2_runs).
Defined.

(** The two records of the sample stream are signed by the other key. *)
Definition sample_text : list str := Eval vm_compute in map (fun t => match t with TStr s => s | TBytes b => b end) sample_stream.
Notation verify_samples := (main (cmd_verify_log cli_env cli_backends 50 revoked_file true (Stdin sample_text None) false) tt).

Lemma revoked_storable R R' r : load 50 two_keys_file = Ok R -> revoke R sample_now (lit "k2") (lit "lost") = (R', Ok r) ->
  storable 50 no_repr R' sample_now.
Proof.
  intros L H. assert (R = two_keys) as ->
    by (assert (load 50 two_keys_file = Ok two_keys) as L' by (vm_compute; reflexivity); rewrite L' in L; by injection L).
  unfold storable. assert (match (match revoke two_keys sample_now (lit "k2") (lit "lost") with (R', Ok _) =>
      d ← document R' "updated_at" sample_now; t ← save_text no_repr R' sample_now; Ok (d, t) | (_, Err e) => Err e end) with
    | Ok (d, t) => wf d && (nesting d <=? 50)%nat && (zlen t <=? MAX_REGISTRY_BYTES) | Err _ => false end = true) as V by (vm_compute; reflexivity).
  rewrite H in V. destruct (document R' "updated_at" sample_now) as [d|e]; [|discriminate V]. cbn [mbind res_bind] in V.
  destruct (save_text no_repr R' sample_now) as [t|e]; [|discriminate V]. cbn [mbind res_bind] in V. apply andb_true_iff in V as [V V3]. apply andb_true_iff in V as [V1 V2].
  exists d. split_and!; [reflexivity | exact V1 | by apply Nat.leb_le|]. intros text [= <-]. by apply Z.leb_le.
Qed.

Lemma revocation_effective_witness : exists rep c es, verify_samples = (tt, Ok (Done EXIT_OK rep)) /\ sr_verified rep = 2 /\
  good_log cli_env cli_backends 50 c (map TStr sample_text) es /\ sr_verified rep = zlen es /\ Forall (fun e => se_key_id e <> lit "k2") es.
Proof.
  assert (match verify_samples.2 with Ok (Done 0 rep) => sr_verified rep =? 2 | _ => false end = true) as V by (vm_compute; reflexivity).
  destruct verify_samples as [[] [[st rep|st error]|e]] eqn:E; [|discriminate V..]. cbn [snd] in V. destruct st; [|discriminate V..].
  apply Z.eqb_eq in V. destruct (revocation_effective cli_env cli_backends 50 no_repr (lit "k2") (lit "lost") sample_now sample_now IoOk
    two_keys_file revoked_file true (Stdin sample_text None) false rep revoke_k2_runs revoked_storable E) as (c & es & G & Z & F).
  exists rep, c, es. split; [reflexivity|]. split; [exact V|]. split; [exact G|]. split; [exact Z | exact F].
Defined.

(** ** Making a key pair *)
Definition fresh_key : GenerateArgs := {|
  ga_backend := None; ga_algorithm := DEFAULT_SIGNATURE_ALGORITHM; ga_allow_test_backend := true;
  ga_private_key := lit "keys/node.key"; ga_public_key := None; ga_force := false |}.
Definition all_written : GenerateFaults := {| gf_unlink := IoOk; gf_private_open := IoOk; gf_private := IoOk; gf_public_open := IoOk; gf_public := IoOk |}.
Notation generate := (main (cmd_generate_key cli_env cli_backends 0x1A4 [49] fresh_key all_written) (∅ : FileSystem)).


(** A private key whose name ends in .pub is overwritten by its own public key. *)
Definition clashing_key : GenerateArgs := {|
  ga_backend := None; ga_algorithm := DEFAULT_SIGNATURE_ALGORITHM; ga_allow_test_backend := true;
  ga_private_key := lit "node.pub"; ga_public_key := None; ga_force := false |}.

Example private_key_lost : match main (cmd_generate_key cli_env cli_backends 0x1A4 [49] clashing_key all_written) (∅ : FileSystem) with
  | (fs, Ok (Done 0 report)) => load_private_key (fs !! lit "node.pub") true = Err (SignerError "private key is group/world accessible")
  | _ => False
  end.
Proof. vm_compute. reflexivity. Qed.

(** ** Three runs of [sign-event], one of them dying in the middle of its line *)
Definition cli_args : SignerArgs := {|
  sa_node_id := lit "n1"; sa_key_id := lit "k1"; sa_algorithm := None; sa_backend := None;
  sa_allow_test_backend := true; sa_force := false |}.
Definition cli_key : key_file := Some (0x180, sample_key).
Definition cli_signer : EvidenceSigner := {|
  sn_node_id := lit "n1"; sn_key_id := lit "k1"; sn_private_key := sample_key;
  sn_algorithm := DEFAULT_SIGNATURE_ALGORITHM; sn_hash_algorithm := DEFAULT_HASH_ALGORITHM;
  sn_backend := InsecureTestBackend cli_env; sn_real_pqc := false |}.
Definition cli_run (text : string) (f : Faults) : Invocation := {|
  iv_event := Stdin [jlit text] None; iv_print_record := false; iv_now := sample_now; iv_clock := sample_now; iv_freed := [];
  iv_faults := f |}.
Definition cli_runs : list Invocation :=
  [cli_run "{'what':'boot'}" no_faults; cli_run "{'what':'scan'}" torn; cli_run "[1]" no_faults; cli_run "{'what':'alarm'}" no_faults].

Lemma cli_trusted allow : trusted cli_signer cli_env cli_backends
  {| ev_registry := two_keys; ev_backend := None; ev_allow_test_backend := true; ev_max_record_bytes := allow |}.
Proof.
  split. exists (sample_record "k1" sample_key ACTIVE), sample_key, (InsecureTestBackend cli_env).
  split; [reflexivity|]. split; [vm_compute; reflexivity|]. split; [reflexivity|].
  intros m sg H. change (Ok (hmac_sha3_256 sample_key m) = Ok sg) in H. injection H as <-.
  assert (exists x, hmac_sha3_256 sample_key m = sha3_256 x) as [x Hx] by (unfold hmac_sha3_256, hmac; eexists; reflexivity).
  destruct (sha3_256_spec x) as [L B]. rewrite <- Hx in L, B.
  split; [exact B|]. split; [unfold zlen; rewrite L; lia|].
  change (Ok (str_eqb (hmac_sha3_256 sample_key m) (hmac_sha3_256 sample_key m)) = Ok true). by rewrite str_eqb_refl.
Qed.

Lemma cli_attempts_ok : Forall (attempt_ok cli_signer
  {| ev_registry := two_keys; ev_backend := None; ev_allow_test_backend := true; ev_max_record_bytes := MAX_EVIDENCE_BYTES |})
  (omap (attempt_of 50) cli_runs).
Proof.
  unfold cli_runs. repeat (cbn [omap list_omap]; match goal with |- context [attempt_of 50 ?i] => 
    let a := eval vm_compute in (attempt_of 50 i) in assert (attempt_of 50 i = a) as -> by (vm_compute; reflexivity) end). cbn [omap list_omap].
  repeat apply Forall_cons_2; [..|constructor];
    (split; [vm_compute; reflexivity | exists sample_now; split; [vm_compute; reflexivity | split; vm_compute; reflexivity] | split; [reflexivity | by compute]]).
Qed.

Notation cli_session := (sign_commands cli_env cli_backends 50 no_str no_int cli_args cli_key cli_runs empty_disk).

