(* ===== verification/Csv.v ===== *)
(** CSV: what [csv.writer] of CPython 3.11 writes in its default dialect, a reader of
    RFC 4180, and that the reader gives back every table of texts that was written.

    A field is quoted when it holds a comma, a quote or a line end; a row of one empty field is
    written as two quotes, so that it does not look like a blank line. *)
From S2P Require Import Prelude PyText PyStr Json.

(** ** Writing *)
Definition special (c : Z) : bool := (c =? 44) || (c =? 34) || (c =? 13) || (c =? 10).
Definition doubled (c : Z) : str := if c =? 34 then [34; 34] else [c].
Definition csv_field (s : str) : str :=
  if existsb special s then 34 :: concat (map doubled s) ++ [34] else s.
Definition csv_row (row : list str) : str :=
  match row with [[]] => [34; 34] | _ => join [44] (map csv_field row) end ++ [13; 10].
Definition csv_table (rows : list (list str)) : str := concat (map csv_row rows).

(** ** Reading *)
Inductive position := Unquoted | Quoted | AfterQuote.

(** [field]: the text of the current field so far; [row]: the fields before it.  [None]: the
    text is not a table. *)
Fixpoint read_from (p : position) (field : str) (row : list str) (s : str) : option (list (list str)) :=
  let next s := read_from Unquoted [] (row ++ [field]) s in
  let new_row s := rows ← read_from Unquoted [] [] s; Some ((row ++ [field]) :: rows) in
  match p, s with
  | Quoted, [] => None
  | Quoted, 34 :: s => read_from AfterQuote field row s
  | Quoted, c :: s => read_from Quoted (field ++ [c]) row s
  | AfterQuote, 34 :: s => read_from Quoted (field ++ [34]) row s
  | _, 44 :: s => next s
  | _, 13 :: 10 :: s => new_row s
  | Unquoted, [] => match field, row with [], [] => Some [] | _, _ => None end
  | Unquoted, 34 :: s => match field with [] => read_from Quoted [] row s | _ => None end
  | Unquoted, c :: s => if special c then None else read_from Unquoted (field ++ [c]) row s
  | AfterQuote, _ => None
  end.
Definition read_csv : str -> option (list (list str)) := read_from Unquoted [] [].

(** ** The round trip *)

(** Where a field ends. *)
Definition ends (r : str) : Prop := (exists s, r = 44 :: s) \/ exists s, r = 13 :: 10 :: s.

Lemma read_end p field row r : p <> Quoted -> ends r -> read_from p field row r = read_from AfterQuote field row r.
Proof. intros Hp [[s ->]|[s ->]]; by destruct p. Qed.

Lemma quoted_char c field row r : c <> 34 -> read_from Quoted field row (c :: r) = read_from Quoted (field ++ [c]) row r.
Proof. intros Hc. simpl. repeat (case_match; try done). Qed.

Lemma unquoted_char c field row r : special c = false -> read_from Unquoted field row (c :: r) = read_from Unquoted (field ++ [c]) row r.
Proof.
  intros Hc. pose proof Hc as Hs. unfold special in Hc. rewrite !orb_false_iff, !Z.eqb_neq in Hc.
  simpl. rewrite Hs. repeat (case_match; try lia; try done).
Qed.

Lemma read_quoted s : forall field row r,
  read_from Quoted field row (concat (map doubled s) ++ 34 :: r) = read_from AfterQuote (field ++ s) row r.
Proof.
  induction s as [|c s IH]; intros field row r; [by rewrite app_nil_r|]. cbn [map concat]. rewrite <- (app_assoc (doubled c)).
  unfold doubled. destruct (Z.eqb_spec c 34) as [->|Hc].
  - change (read_from Quoted (field ++ [34]) row (concat (map doubled s) ++ 34 :: r) = read_from AfterQuote (field ++ 34 :: s) row r).
    by rewrite IH, <- app_assoc.
  - cbn [app]. by rewrite quoted_char, IH, <- app_assoc.
Qed.

Lemma read_unquoted s : forall field row r, existsb special s = false ->
  read_from Unquoted field row (s ++ r) = read_from Unquoted (field ++ s) row r.
Proof.
  induction s as [|c s IH]; intros field row r H; [by rewrite app_nil_r|]. cbn [existsb] in H. apply orb_false_iff in H as [Hc H].
  cbn [app]. by rewrite unquoted_char, IH, <- app_assoc.
Qed.

Lemma read_field s row r : ends r -> read_from Unquoted [] row (csv_field s ++ r) = read_from AfterQuote s row r.
Proof.
  intros H. unfold csv_field. destruct (existsb special s) eqn:E.
  - cbn [app]. rewrite <- app_assoc. exact (read_quoted s [] row r).
  - by rewrite read_unquoted, read_end by done.
Qed.

Lemma read_fields fs : forall f row r, read_from Unquoted [] row (join [44] (map csv_field (f :: fs)) ++ 13 :: 10 :: r) =
  rows ← read_csv r; Some ((row ++ f :: fs) :: rows).
Proof.
  induction fs as [|g fs IH]; intros f row r.
  - cbn [map join]. rewrite read_field by (right; eauto). done.
  - cbn [map join] in *. rewrite <- (app_assoc (csv_field f)), <- (app_assoc [44]).
    rewrite read_field by (left; eauto). cbn [app]. cbn [read_from]. cbv zeta. by rewrite IH, <- app_assoc.
Qed.

Lemma read_row row r : row <> [] -> read_csv (csv_row row ++ r) = rows ← read_csv r; Some (row :: rows).
Proof.
  intros H. unfold csv_row. destruct row as [|f fs]; [done|]. rewrite <- app_assoc. cbn [app].
  assert (read_csv (join [44] (map csv_field (f :: fs)) ++ 13 :: 10 :: r) = rows ← read_csv r; Some ((f :: fs) :: rows)) as E
    by apply (read_fields fs f []).
  destruct f, fs; done.
Qed.

(** Every table without empty rows is read back as it was. *)
Lemma read_csv_table rows : Forall (fun row => row <> []) rows -> read_csv (csv_table rows) = Some rows.
Proof. induction 1 as [|row rows H _ IH]; [done|]. unfold csv_table in *. cbn [map concat]. rewrite read_row by done. by rewrite IH. Qed.

Example csv_texts : csv_table [[lit "name"; lit "a,b"]; [[]; [34]]; [[]]] =
  lit "name," ++ [34] ++ lit "a,b" ++ [34; 13; 10; 44; 34; 34; 34; 34; 13; 10; 34; 34; 13; 10].
Proof. reflexivity. Qed.
