(* ===== verification/Statistics.v ===== *)
(** Float arithmetic of the benchmark: what CPython 3.11's [statistics] and [round] compute on
    finite floats.

    [fsum] and the variance are exact there, on integers and fractions, and rounded once; so they
    are here: a finite float is an integer over a common power of two. *)
From S2P Require Import Prelude PyText PyStr Json.

(** ** Floats *)
Definition float_of_int (z : Z) : spec_float := binary_normalize 53 1024 z 0 false.
Definition fadd : spec_float -> spec_float -> spec_float := SFadd 53 1024.
Definition fsub : spec_float -> spec_float -> spec_float := SFsub 53 1024.
Definition fmul : spec_float -> spec_float -> spec_float := SFmul 53 1024.
Definition fdiv : spec_float -> spec_float -> spec_float := SFdiv 53 1024.
Definition fzero : spec_float := S754_zero false.

(** Two non-negative integers, [/]. *)
Definition true_div (n d : Z) : spec_float :=
  match n, d with
  | Zpos n, Zpos d => fdiv (S754_finite false n 0) (S754_finite false d 0)
  | _, _ => fzero
  end.

(** The value of a finite float is [mantissa * 2 ^ exponent]. *)
Definition mantissa (f : spec_float) : Z :=
  match f with S754_finite neg m _ => if neg then Zneg m else Zpos m | _ => 0 end.
Definition exponent (f : spec_float) : Z := match f with S754_finite _ _ e => e | _ => 0 end.

(** A common exponent, not above 0, and the integers over it. *)
Definition scale (l : list spec_float) : Z := foldr Z.min 0 (map exponent l).
Definition scaled (k : Z) (f : spec_float) : Z := mantissa f * 2 ^ (exponent f - k).
Definition total (l : list Z) : Z := foldr Z.add 0 l.

(** ** [round(x, ndigits)]: the nearest decimal, ties to even, read back *)
Definition round_half_even (n d : Z) : Z :=
  let q := n / d in
  let r := 2 * (n mod d) in
  if (r <? d) || ((r =? d) && Z.even q) then q else q + 1.
Definition py_round (x : spec_float) (ndigits : Z) : spec_float :=
  match x with
  | S754_finite neg m e =>
      float_of_decimal neg (round_half_even (Zpos m * 10 ^ ndigits * 2 ^ Z.max e 0) (2 ^ Z.max (- e) 0)) (- ndigits)
  | x => x
  end.

(** ** [min], [max]: the first of equals *)
Definition fmin (x : spec_float) (l : list spec_float) : spec_float := fold_left (fun a b => if SFltb b a then b else a) l x.
Definition fmax (x : spec_float) (l : list spec_float) : spec_float := fold_left (fun a b => if SFltb a b then b else a) l x.

(** ** [statistics] *)
Definition fsum (l : list spec_float) : spec_float :=
  let k := scale l in binary_normalize 53 1024 (total (map (scaled k) l)) k false.
Definition fmean (l : list spec_float) : spec_float := fdiv (fsum l) (float_of_int (zlen l)).

Definition median (l : list spec_float) : spec_float :=
  let data := sort_by SFltb l in
  let at_ i := default fzero (data !! Z.to_nat i) in
  let n := zlen data in
  if n mod 2 =? 1 then at_ (n / 2) else fdiv (fadd (at_ (n / 2 - 1)) (at_ (n / 2))) (float_of_int 2).

(** The sample variance, a fraction in lowest terms. *)
Definition variance (l : list spec_float) : Z * Z :=
  let k := scale l in
  let sx := total (map (scaled k) l) in
  let sxx := total (map (fun f => scaled k f * scaled k f) l) in
  let n := zlen l in
  let num := n * sxx - sx * sx in
  let den := n * (n - 1) * 2 ^ (-2 * k) in
  let g := Z.gcd num den in (num / g, den / g).

Definition bit_length (n : Z) : Z := if n =? 0 then 0 else Z.log2 n + 1.
Definition integer_sqrt_of_frac_rto (n m : Z) : Z :=
  let a := Z.sqrt (n / m) in Z.lor a (if a * a * m =? n then 0 else 1).
Definition float_sqrt_of_frac (n m : Z) : spec_float :=
  let q := (bit_length n - bit_length m - 109) / 2 in
  if 0 <=? q then true_div (Z.shiftl (integer_sqrt_of_frac_rto n (Z.shiftl m (2 * q))) q) 1
  else true_div (integer_sqrt_of_frac_rto (Z.shiftl n (-2 * q)) m) (Z.shiftl 1 (- q)).
Definition stdev (l : list spec_float) : spec_float := let '(n, m) := variance l in float_sqrt_of_frac n m.

(** ** Facts *)

(** [scaled] is the value over the common power of two. *)
Lemma scale_le l f : f ∈ l -> scale l <= exponent f.
Proof. unfold scale. induction 1; cbn [map foldr]; lia. Qed.

Lemma scale_nonpos l : scale l <= 0.
Proof. unfold scale. induction l; cbn [map foldr]; lia. Qed.

(** The half-even quotient is within a half of the exact one. *)
Lemma round_half_even_near n d : 0 < d -> Z.abs (2 * (d * round_half_even n d - n)) <= d.
Proof.
  intros Hd. unfold round_half_even. pose proof (Z.div_mod n d ltac:(lia)). pose proof (Z.mod_pos_bound n d Hd).
  destruct (Z.ltb_spec (2 * (n mod d)) d); cbn [orb]; [nia|].
  destruct (Z.eqb_spec (2 * (n mod d)) d) as [E|E]; cbn [andb]; [|nia]. destruct (Z.even (n / d)); nia.
Qed.

(** The variance is not negative: Cauchy and Schwarz. *)
Lemma total_squares (l : list Z) : total l * total l <= zlen l * total (map (fun x => x * x) l).
Proof.
  assert (forall x l, 2 * x * total l <= zlen l * (x * x) + total (map (fun y => y * y) l)) as H.
  { intros x l'. induction l' as [|y l' IH]; unfold total in *; cbn [map foldr]; [unfold zlen; simpl; lia|]. rewrite zlen_cons.
    pose proof (Z.square_nonneg (x - y)). nia. }
  induction l as [|x l IH]; unfold total in *; cbn [map foldr]; [done|]. rewrite zlen_cons. specialize (H x l). pose proof (zlen_nonneg l). nia.
Qed.

(** Values CPython computes: of 0.1, 0.2 and 0.4, and [round(2.675, 2)]. *)
Example tenths_summary : let tenths := map (S754_finite false 0x1999999999999a) [-56; -55; -54] in
  (fmean tenths, median tenths, stdev tenths, py_round (S754_finite false 0x15666666666666 (-51)) 2) =
  (S754_finite false 0x1ddddddddddddf (-55), S754_finite false 0x1999999999999a (-55), S754_finite false 0x138d6509b0208e (-55), S754_finite false 0x155c28f5c28f5c (-51)).
Proof. vm_compute. reflexivity. Qed.
