(* ===== verification/Benchmark.v ===== *)
(** The benchmark: [src/ics_deception/pqc_evidence/benchmark.py] and [cmd_benchmark] of
    [src/ics_deception/pqc_evidence/cli.py].

    A run is a state ([Run]): how often the clock was read and randomness drawn, the measurements
    so far, the archive of the last part.  What the closures leave in their [holder] is what the
    operation returns last.  Temporary directories are removed without fail. *)
From S2P Require Import Prelude PyText PyStr Json JsonFacts Hashes Models CryptoBackend EventChain KeyRegistry Verifier Collector StateStore EvidenceStore Signer ArchiveEvidence ArchiveStream Archive Cli Csv Statistics.

Definition DEFAULT_ITERATIONS := 20.
Definition DEFAULT_CHAIN_EVENTS := 200.

(** ** [Measurement] *)
Abbreviation extras := (list (str * value)).

Record Measurement := {
  ms_name : string;
  ms_iterations : Z;
  ms_mean_ms : spec_float;
  ms_median_ms : spec_float;
  ms_min_ms : spec_float;
  ms_max_ms : spec_float;
  ms_stdev_ms : spec_float;
  ms_ops_per_second : spec_float;
  ms_extra : extras;
}.

Definition base_items (m : Measurement) : extras := [
  (lit "name", VStr (lit (ms_name m)));
  (lit "iterations", VInt (ms_iterations m));
  (lit "mean_ms", VFloat (py_round (ms_mean_ms m) 4));
  (lit "median_ms", VFloat (py_round (ms_median_ms m) 4));
  (lit "min_ms", VFloat (py_round (ms_min_ms m) 4));
  (lit "max_ms", VFloat (py_round (ms_max_ms m) 4));
  (lit "stdev_ms", VFloat (py_round (ms_stdev_ms m) 4));
  (lit "ops_per_second", VFloat (py_round (ms_ops_per_second m) 2))].
Definition to_dict (m : Measurement) : dict :=
  fold_left (fun d kv => dict_set d kv.1 kv.2) (ms_extra m) (as_dict (base_items m)).

(** A measurement without timings. *)
Definition untimed (name : string) (iterations : Z) (mean ops : spec_float) (extra : extras) : Measurement := {|
  ms_name := name; ms_iterations := iterations; ms_mean_ms := mean; ms_median_ms := fzero; ms_min_ms := fzero;
  ms_max_ms := fzero; ms_stdev_ms := fzero; ms_ops_per_second := ops; ms_extra := extra |}.

(** ** The machine a run is made on *)
Record Machine := {
  mc_clock : nat -> Z;              (* nanoseconds: the readings of [perf_counter] *)
  mc_random : nat -> bytes;         (* the draws of randomness *)
  mc_entropy : nat -> Entropy;      (* those of [create_archive] *)
  mc_iso : nat -> str;              (* what [utc_now_iso] returns *)
  mc_now : str;
  mc_workdirs : io * io;            (* making the two temporary directories *)
  mc_create_faults : CreateFaults;
  mc_decrypt_faults : DecryptFaults;
  mc_process_time : Z;              (* nanoseconds *)
  mc_maxrss : Z;
  mc_darwin : bool;
  mc_openssl : option str;          (* [ssl.OPENSSL_VERSION], where [ssl] can be imported *)
  mc_cpuinfo : registry_file;
  mc_platform : str;
  mc_machine : str;
  mc_processor : str;
  mc_cpu_count : option Z;
  mc_python_version : str;
  mc_python_implementation : str;
  mc_provider : str;                (* of the backend's capabilities *)
  mc_version : str;
}.

Record Run := {
  rn_reads : nat;
  rn_draws : nat;
  rn_measurements : list Measurement;
  rn_place : Place;
}.
Definition new_run : Run := {|
  rn_reads := 0; rn_draws := 0; rn_measurements := [];
  rn_place := {| pl_target := NoFile; pl_temporary := NoFile; pl_workdir := false |} |}.

Section Suite.
Context (env : Environ) (backends : list (str * CryptoBackend)) (lim : nat).
Context (py_str : value -> str) (py_int : value -> res Z) `{Aead} `{Zlib} (mc : Machine).

Definition seconds (ns : Z) : spec_float := fdiv (float_of_int ns) (float_of_int 1000000000).

Definition tick (r : Run) : Run :=
  {| rn_reads := S (rn_reads r); rn_draws := rn_draws r; rn_measurements := rn_measurements r; rn_place := rn_place r |}.
Definition perf_counter : SE Run spec_float := fun r => (tick r, Ok (seconds (mc_clock mc (rn_reads r)))).
Definition draw : SE Run nat := fun r =>
  ({| rn_reads := rn_reads r; rn_draws := S (rn_draws r); rn_measurements := rn_measurements r; rn_place := rn_place r |},
   Ok (rn_draws r)).
Definition record_ (m : Measurement) : SE Run unit := modify (fun r =>
  {| rn_reads := rn_reads r; rn_draws := rn_draws r; rn_measurements := rn_measurements r ++ [m]; rn_place := rn_place r |}).

(** ** [_time_it] *)
Definition milliseconds (start stop : spec_float) : spec_float := fmul (fsub stop start) (float_of_int 1000).

(** [n] timed runs; [a] is what the run before returned. *)
Fixpoint samples {A} (n : nat) (operation : SE Run A) (a : A) : SE Run (list spec_float * A) :=
  match n with
  | O => mret ([], a)
  | S n =>
    start ← perf_counter;
    a ← operation;
    stop ← perf_counter;
    '(l, a) ← samples n operation a;
    mret (milliseconds start stop :: l, a)
  end.

Definition summarise (name : string) (iterations : Z) (l : list spec_float) (extra : extras) : Measurement :=
  let mean := fmean l in
  let first := default fzero (head l) in
  {| ms_name := name; ms_iterations := iterations; ms_mean_ms := mean; ms_median_ms := median l;
     ms_min_ms := fmin first (tail l); ms_max_ms := fmax first (tail l);
     ms_stdev_ms := if 1 <? zlen l then stdev l else fzero;
     ms_ops_per_second := if SFltb fzero mean then fdiv (float_of_int 1000) mean else S754_infinity false;
     ms_extra := extra |}.

Definition time_it {A} (name : string) (iterations : Z) (operation : SE Run A) (extra : extras) : SE Run (Measurement * A) :=
  lift (require (1 <=? iterations) (BenchmarkError "iterations must be greater than zero")) ;;
  a ← operation;
  '(l, a) ← samples (Z.to_nat iterations) operation a;
  mret (summarise name iterations l extra, a).

(** [self.measurements.append(_time_it(...))] *)
Definition timed {A} (name : string) (iterations : Z) (operation : SE Run A) (extra : extras) : SE Run A :=
  '(m, a) ← time_it name iterations operation extra;
  record_ m ;;
  mret a.

(** ** [BenchmarkSuite] *)
Record BenchmarkSuite := {
  bs_algorithm : str;
  bs_iterations : Z;
  bs_chain_events : Z;
  bs_include_archive : bool;
  bs_backend : CryptoBackend;
}.

Definition new_suite (backend : option CryptoBackend) (algorithm : str) (iterations chain_events : Z) (include_archive : bool)
    : res BenchmarkSuite :=
  require (1 <=? iterations) (BenchmarkError "iterations must be greater than zero") ;;
  require (1 <=? chain_events) (BenchmarkError "chain_events must be greater than zero") ;;
  b ← match backend with Some b => Ok b | None => select_backend env backends None algorithm false None None end;
  Ok {| bs_algorithm := algorithm; bs_iterations := iterations; bs_chain_events := chain_events;
        bs_include_archive := include_archive; bs_backend := b |}.

Section Parts.
Context (s : BenchmarkSuite).

(** [json.dumps(..., separators=(",", ":"), sort_keys=True)] and [json.dumps(...)] *)
Definition compact : cfg := {|
  c_ascii := true; c_sort := true; c_isep := [44]; c_ksep := [58]; c_indent := None; c_float := fun _ => [] |}.
Definition plain : cfg := {|
  c_ascii := true; c_sort := false; c_isep := [44; 32]; c_ksep := [58; 32]; c_indent := None; c_float := fun _ => [] |}.

Definition sample_payload : value := VDict (as_dict [
  (lit "source", VStr (lit "modbus_honeypot"));
  (lit "event_type", VStr (lit "critical_register_write"));
  (lit "client_ip", VStr (lit "192.168.1.50"));
  (lit "register", VInt 40001);
  (lit "value", VInt 1)]).

Definition count (name : string) (n : Z) : str * value := (lit name, VInt n).

(** *** [_bench_signatures] *)
Definition bench_signatures : SE Run KeyPair :=
  keypair ← timed "mldsa_keygen" (bs_iterations s)
    (i ← draw; lift (bk_generate_keypair (bs_backend s) (mc_random mc i) (bs_algorithm s))) [];
  payload ← lift (text ← dumps compact sample_payload; utf8_encode text);
  signature ← timed "mldsa_sign" (bs_iterations s)
    (lift (bk_sign (bs_backend s) (kp_private keypair) payload (bs_algorithm s))) [count "payload_bytes" (zlen payload)];
  timed "mldsa_verify" (bs_iterations s)
    (lift (bk_verify (bs_backend s) (kp_public keypair) payload signature (bs_algorithm s))) [] ;;
  record_ (untimed "sizes" 1 fzero fzero [
    count "signature_bytes" (zlen signature); count "public_key_bytes" (zlen (kp_public keypair));
    count "private_key_bytes" (zlen (kp_private keypair))]) ;;
  mret keypair.

(** *** [_bench_chain] *)
Definition node_id : str := lit "benchmark-node".
Definition key_id : str := lit "benchmark-node-key".
Definition chain_event (index : Z) : dict := as_dict [
  (lit "source", VStr (lit "modbus_honeypot"));
  (lit "event_type", VStr (lit "modbus_request"));
  (lit "client_ip", VStr (lit "192.168.1.50"));
  (lit "function_code", VInt 3);
  (lit "sequence_number", VInt index)].
Definition chain_events : list dict := map (fun i => chain_event (Z.of_nat i)) (seq 0 (Z.to_nat (bs_chain_events s))).

(** [path.read_text(encoding="utf-8")] *)
Definition read_text (d : option bytes) : res str :=
  b ← match d with Some b => Ok b | None => Err (OSError "No such file or directory") end;
  text ← utf8_decode b;
  Ok (translate_newlines text).

Definition chain_signer (keypair : KeyPair) : res EvidenceSigner :=
  new_signer env backends node_id key_id (kp_private keypair) (Some (bs_backend s)) DEFAULT_SIGNATURE_ALGORITHM DEFAULT_HASH_ALGORITHM true.
Definition chain_collector (keypair : KeyPair) : res EvidenceCollector :=
  let '(registry, registered) := register [] (mc_now mc) key_id node_id (kp_public keypair) DEFAULT_SIGNATURE_ALGORITHM None None [] true in
  registered ;;
  new_collector registry None 10000 MAX_EVIDENCE_BYTES true.

(** [(x * 1000.0) / max(n, 1)] and [n / x if x else 0.0] *)
Definition per_event (x : spec_float) (n : Z) : spec_float := fdiv (fmul x (float_of_int 1000)) (float_of_int (Z.max n 1)).
Definition per_second (n : Z) (x : spec_float) : spec_float := if SFeqb x fzero then fzero else fdiv (float_of_int n) x.

Definition signed_measurement (events unsigned_bytes signed_bytes : Z) (sign_seconds : spec_float) : Measurement :=
  let n := bs_chain_events s in
  untimed "signed_log_throughput" n (per_event sign_seconds n) (per_second n sign_seconds) [
    count "events" events; count "unsigned_bytes" unsigned_bytes; count "signed_bytes" signed_bytes;
    (lit "storage_overhead_ratio", VFloat (py_round (true_div signed_bytes (Z.max unsigned_bytes 1)) 2));
    count "bytes_per_event" (signed_bytes / Z.max n 1)].
Definition verified_measurement (p : StreamReport) (verify_seconds : spec_float) : Measurement :=
  let n := bs_chain_events s in
  untimed "chain_verification_throughput" n (per_event verify_seconds n) (per_second n verify_seconds) [
    count "verified" (sr_verified p); count "failed" (sr_failed p)].

Definition bench_chain (keypair : KeyPair) : SE Run unit :=
  sizes ← lift (map_res (fun e => text ← dumps compact (VDict e); Ok (zlen text + 1)) chain_events);
  lift (io_result (mc_workdirs mc).1 "mkdtemp") ;;
  signer ← lift (chain_signer keypair);
  start ← perf_counter;
  lines ← lift (map_res (fun e => dumps plain (VDict e)) chain_events);
  let '(d, report) := sign_log lim py_str py_int (mc_now mc) [] (mc_iso mc) signer lines None None empty_disk in
  report ← lift report;
  stop ← perf_counter;
  signed_text ← lift (read_text (d_evidence d));
  collector ← lift (chain_collector keypair);
  start' ← perf_counter;
  stream_report ← lift (verify_stream env backends lim collector (map TStr (splitlines signed_text [])));
  stop' ← perf_counter;
  signed_bytes ← lift (utf8_encode signed_text);
  record_ (signed_measurement (sg_signed report) (total sizes) (zlen signed_bytes) (fsub stop start)) ;;
  record_ (verified_measurement stream_report (fsub stop' start')).

(** *** [_bench_kem_and_archive] *)
Definition ML_KEM_768 : str := lit "ML-KEM-768".
Definition skip_reason : str := bk_name (bs_backend s) ++ lit " does not provide ML-KEM-768".

(** [f"{i:064x}"] *)
Fixpoint hex_digits (fuel : nat) (n : Z) (acc : str) : str :=
  match fuel with O => acc | S fuel => hex_digits fuel (n / 16) (hexdig (n mod 16) :: acc) end.
Definition padded_hex (n : Z) : str := hex_digits 64 n [].

Definition archived_line (i : Z) : value := VDict (as_dict [(lit "sequence", VInt i); (lit "event_hash", VStr (padded_hex i))]).
Definition archived_text : res str :=
  lines ← map_res (fun i => dumps plain (archived_line (Z.of_nat i))) (seq 0 500);
  Ok (join [10] lines).
Definition archived_file (content : bytes) : Source := {|
  src_is_file := true; src_size := zlen content; src_scan := Content content; src_verify := Content content;
  src_seal := Content content |}.

Definition on_place {A} (m : SE Place A) : SE Run A := fun r =>
  let '(p, x) := m (rn_place r) in
  ({| rn_reads := rn_reads r; rn_draws := rn_draws r; rn_measurements := rn_measurements r; rn_place := p |}, x).

Definition archive_args (public_key : bytes) : CreateArgs := {|
  ca_recipient_public_key := public_key; ca_node_id := node_id; ca_key_id := []; ca_backend := Some (bs_backend s);
  ca_registry := None; ca_require_valid_evidence := false; ca_max_plaintext_bytes := DEFAULT_MAX_PLAINTEXT_BYTES;
  ca_overwrite := true; ca_metadata := [] |}.
Definition restore_args (private_key : bytes) : DecryptArgs := {|
  da_private_key := private_key; da_output := false; da_backend := Some (bs_backend s);
  da_max_archive_bytes := DEFAULT_MAX_ARCHIVE_BYTES; da_max_plaintext_bytes := DEFAULT_MAX_PLAINTEXT_BYTES;
  da_overwrite := false |}.

Definition create (content public_key : bytes) : SE Run unit :=
  i ← draw;
  on_place (create_archive lim env backends (archive_args public_key) (archived_file content) (mc_entropy mc i) (mc_iso mc i)
    (mc_create_faults mc)) ;;
  mret tt.
Definition decrypt (private_key : bytes) : SE Run unit :=
  z ← gets (fun r => pl_target (rn_place r));
  lift (decrypt_archive lim env backends (restore_args private_key) z (mc_decrypt_faults mc)
    {| rs_destination := None; rs_scratch := None |}).2 ;;
  mret tt.
(** [archive_path.stat().st_size] *)
Definition archive_size : SE Run Z :=
  z ← gets (fun r => pl_target (rn_place r));
  lift (match z with File size _ => Ok size | NoFile => Err (OSError "No such file or directory") end).

Definition few : Z := Z.max 1 (bs_iterations s / 4).

Definition bench_archive (kem_keypair : KeyPair) : SE Run unit :=
  lift (io_result (mc_workdirs mc).2 "mkdtemp") ;;
  payload ← lift archived_text;
  content ← lift (utf8_encode payload);
  timed "archive_create" few (create content (kp_public kem_keypair)) [count "plaintext_bytes" (zlen payload)] ;;
  archive_bytes ← archive_size;
  timed "archive_decrypt" few (decrypt (kp_private kem_keypair))
    [count "archive_bytes" archive_bytes; count "aead_overhead_bytes" (archive_bytes - zlen payload)].

Definition bench_kem_and_archive : SE Run unit :=
  if negb (str_in ML_KEM_768 (cap_kem_algorithms (bk_capabilities (bs_backend s)))) then
    record_ (untimed "mlkem_skipped" 0 fzero fzero [(lit "reason", VStr skip_reason)])
  else
    kem_keypair ← timed "mlkem_keygen" (bs_iterations s)
      (i ← draw; lift (bk_kem_generate_keypair (bs_backend s) (mc_random mc i) ML_KEM_768)) [];
    result ← timed "mlkem_encapsulate" (bs_iterations s)
      (i ← draw; lift (bk_kem_encapsulate (bs_backend s) (mc_random mc i) (kp_public kem_keypair) ML_KEM_768)) [];
    let ciphertext := result.2 in
    timed "mlkem_decapsulate" (bs_iterations s)
      (lift (bk_kem_decapsulate (bs_backend s) (kp_private kem_keypair) ciphertext ML_KEM_768))
      [count "ciphertext_bytes" (zlen ciphertext); count "encapsulation_key_bytes" (zlen (kp_public kem_keypair))] ;;
    bench_archive kem_keypair.

(** *** [environment_report] *)
Definition MODEL_PREFIXES : list str := [lit "model name"; lit "hardware"].

(** The first line that names the processor. *)
Fixpoint model_line (lines : list str) : res str :=
  match lines with
  | [] => Ok []
  | line :: lines =>
    if existsb (fun p => starts_with p (lower line)) MODEL_PREFIXES
    then match partition 58 line with Some (_, r) => Ok (strip r) | None => Err IndexError end
    else model_line lines
  end.
Definition cpu_model : res str :=
  match mc_cpuinfo mc with
  | Content b => model_line (splitlines (translate_newlines (utf8_decode_replace b)) [])
  | _ => Ok []
  end.

Definition environment_report : res value :=
  model ← cpu_model;
  let c := bk_capabilities (bs_backend s) in
  Ok (VDict (as_dict [
    (lit "timestamp", VStr (mc_now mc));
    (lit "hostname_hash", VStr []);
    (lit "platform", VStr (mc_platform mc));
    (lit "machine", VStr (mc_machine mc));
    (lit "processor", VStr (match mc_processor mc with [] => model | p => p end));
    (lit "cpu_model", VStr model);
    (lit "cpu_count", match mc_cpu_count mc with Some n => VInt n | None => VNone end);
    (lit "python_version", VStr (mc_python_version mc));
    (lit "python_implementation", VStr (mc_python_implementation mc));
    (lit "python_ssl_openssl", VStr (default (lit "unknown") (mc_openssl mc)));
    (lit "backend", VStr (cap_name c));
    (lit "backend_provider", VStr (mc_provider mc));
    (lit "backend_version", VStr (mc_version mc));
    (lit "backend_real_pqc", VBool (cap_real_pqc c))])).

(** *** [run] *)

(** [_peak_rss_kib], where there is a [resource] module. *)
Definition peak_rss_kib : Z := if mc_darwin mc then mc_maxrss mc / 1024 else mc_maxrss mc.

Definition parameters : value := VDict (as_dict [
  (lit "algorithm", VStr (bs_algorithm s)); (lit "iterations", VInt (bs_iterations s));
  (lit "chain_events", VInt (bs_chain_events s)); (lit "include_archive", VBool (bs_include_archive s))]).

Definition benchmarks : SE Run unit :=
  keypair ← bench_signatures;
  bench_chain keypair ;;
  if bs_include_archive s then bench_kem_and_archive else mret tt.

Definition totals (duration : spec_float) : value := VDict (as_dict [
  (lit "duration_seconds", VFloat (py_round duration 3)); (lit "peak_rss_kib", VInt peak_rss_kib);
  (lit "cpu_time_seconds", VFloat (py_round (seconds (mc_process_time mc)) 3))]).

Definition run : SE Run dict :=
  started ← perf_counter;
  modify (fun r => {| rn_reads := rn_reads r; rn_draws := rn_draws r; rn_measurements := []; rn_place := rn_place r |}) ;;
  benchmarks ;;
  stopped ← perf_counter;
  environment ← lift environment_report;
  measurements ← gets rn_measurements;
  mret (as_dict [
    (lit "schema", VStr (lit "ics-deception/pqc-benchmark/1.0"));
    (lit "environment", environment);
    (lit "parameters", parameters);
    (lit "measurements", VList (map (fun m => VDict (to_dict m)) measurements));
    (lit "totals", totals (fsub stopped started))]).
End Parts.

Definition run_benchmarks (backend_name : option str) (algorithm : str) (iterations chain_events : Z)
    (include_archive allow_test_backend : bool) : res dict :=
  backend ← select_backend env backends backend_name algorithm allow_test_backend None None;
  suite ← new_suite (Some backend) algorithm iterations chain_events include_archive;
  (run suite new_run).2.

(** ** [write_csv] *)

(** The keys of all measurements, in the order of their first appearance. *)
Definition add_column (columns : list str) (k : str) : list str := if str_in k columns then columns else columns ++ [k].
Definition columns (ms : list dict) : list str := fold_left (fun cs m => fold_left add_column (keys m) cs) ms [].

(** [str(v)], and the empty text for None and for a missing key. *)
Definition cell_text (v : value) : str :=
  match v with
  | VNone => []
  | VStr s => s
  | VInt z => int_text z
  | VBool b => if b then lit "True" else lit "False"
  | v => py_str v
  end.
Definition cells (cs : list str) (m : dict) : list str := map (fun k => default [] (cell_text <$> dict_get m k)) cs.
Definition csv_rows (ms : list dict) : list (list str) := let cs := columns ms in cs :: map (cells cs) ms.

(** The rows one after the other: the bytes written, and what stops the writer. *)
Fixpoint encode_rows (rows : list (list str)) : bytes * res unit :=
  match rows with
  | [] => ([], Ok tt)
  | row :: rows =>
    match utf8_encode (csv_row row) with
    | Err e => ([], Err e)
    | Ok b => let '(c, x) := encode_rows rows in (b ++ c, x)
    end
  end.

Definition measurements_of (report : dict) : list dict :=
  match dict_get report (lit "measurements") with
  | Some (VList l) => omap (fun v => match v with VDict d => Some d | _ => None end) l
  | _ => []
  end.

(** Making the directory and opening the file, and writing it. *)
Record FileFaults := { fl_open : io; fl_write : io }.

(** [open(p, "w")] and writing [b]; a file keeps its mode, [created] is that of a new one. *)
Definition put_text (created : Z) (p : str) (b : bytes) (f : FileFaults) : SE FileSystem unit :=
  lift (io_result (fl_open f) "open") ;;
  old ← gets (fun fs => fs !! p);
  modify (<[p := (match old with Some (m, _) => m | None => created end, written [] b (fl_write f))]>) ;;
  lift (io_result (fl_write f) "write").

Definition write_csv (created : Z) (expanduser : str -> str) (report : dict) (path : str) (f : FileFaults) : SE FileSystem unit :=
  let '(b, x) := encode_rows (csv_rows (measurements_of report)) in
  put_text created (expanduser path) b f ;;
  lift x.

(** ** [cmd_benchmark] *)
Record BenchmarkArgs := {
  ba_backend : option str;
  ba_algorithm : str;
  ba_iterations : Z;
  ba_chain_events : Z;
  ba_no_archive : bool;
  ba_output : option str;
  ba_csv : option str;
  ba_json : bool;
  ba_allow_test_backend : bool;
}.

(** [float.__repr__], and the names [json] has for the others. *)
Definition json_float (float_repr : spec_float -> str) (f : spec_float) : str :=
  match f with
  | S754_infinity neg => if neg then lit "-Infinity" else lit "Infinity"
  | S754_nan => lit "NaN"
  | f => float_repr f
  end.
Definition report_cfg (float_repr : spec_float -> str) : cfg := {|
  c_ascii := true; c_sort := true; c_isep := [44]; c_ksep := [58; 32]; c_indent := Some 2%nat; c_float := json_float float_repr |}.

Definition given (o : option str) : option str := match o with Some ((_ :: _) as p) => Some p | _ => None end.

Section Command.
Context (float_repr : spec_float -> str) (expanduser : str -> str) (created : Z) (a : BenchmarkArgs) (output_faults csv_faults : FileFaults).

Definition report_text (report : dict) : res str := dumps (report_cfg float_repr) (VDict report).

Definition write_report (report : dict) (p : str) : SE FileSystem unit :=
  text ← lift (report_text report);
  b ← lift (utf8_encode text);
  put_text created p b output_faults.

(** [if args.output:] and [if args.csv:], either of which may be refused. *)
Definition write_output (report : dict) : SE FileSystem (outcome unit) :=
  match given (ba_output a) with
  | Some p => refusing as_os_error EXIT_IO "io" (write_report report p ;; mret (Done EXIT_OK tt))
  | None => mret (Done EXIT_OK tt)
  end.
Definition write_table (report : dict) : SE FileSystem (outcome unit) :=
  match given (ba_csv a) with
  | Some p => refusing as_os_error EXIT_IO "io" (write_csv created expanduser report p csv_faults ;; mret (Done EXIT_OK tt))
  | None => mret (Done EXIT_OK tt)
  end.
Definition write_reports (report : dict) : SE FileSystem (outcome unit) :=
  first ← write_output report;
  match first with Done _ _ => write_table report | Refused status error => mret (Refused status error) end.

Definition cmd_benchmark : SE FileSystem (outcome dict) :=
  match run_benchmarks (ba_backend a) (ba_algorithm a) (ba_iterations a) (ba_chain_events a) (negb (ba_no_archive a)) (ba_allow_test_backend a) with
  | Err (BackendUnavailableError _) => mret (Refused EXIT_NO_BACKEND "no_backend")
  | Err e => if is_evidence_error e then mret (Refused EXIT_USAGE "benchmark") else raise e
  | Ok report =>
    written ← write_reports report;
    match written with
    | Refused status error => mret (Refused status error)
    | Done _ _ =>
      (* what is printed as a whole *)
      (if ba_json a || bool_decide (given (ba_output a) = None) then lift (report_text report) ;; mret tt else mret tt) ;;
      mret (Done EXIT_OK report)
    end
  end.
End Command.
End Suite.
