(* ===== verification/BenchmarkFacts.v ===== *)
(** What the benchmark measures and writes: the timing loop, the chain part, the whole suite, and
    the CSV file.

    [chain_counts]: signing and verifying are the evidence code itself, and every event of the
    chain part goes through both; [csv_file_reads_back]: the CSV file holds every measurement. *)
From S2P Require Import Prelude PyText PyStr Json JsonFacts Hashes IsoTime Canonicalizer Models CryptoBackend EventChain KeyRegistry Verifier Collector StateStore EvidenceStore RecordFacts Signer SigningRun ArchiveEvidence ArchiveStream Archive Cli Csv Statistics Benchmark.

(** ** Texts of printable ASCII *)
Definition printable (x : Z) : bool := (32 <=? x) && (x <? 128).

Fixpoint ascii_value (v : value) : bool :=
  match v with
  | VStr s => forallb is_ascii s
  | VList l | VTuple l => forallb ascii_value l
  | VDict d => forallb (fun kv => forallb is_ascii (kstr kv.1) && ascii_value kv.2) d
  | _ => true
  end.

Lemma printable_print x : 32 <= x <= 126 -> printable x = true.
Proof. intros. unfold printable. by zdec. Qed.

Lemma quote_printable s : forallb is_ascii s = true -> forallb printable (quote false s) = true.
Proof.
  intros H. unfold quote. cbn [forallb]. rewrite forallb_app. cbn [forallb andb]. change (printable 34) with true. rewrite andb_true_r. cbn [andb].
  induction s as [|c s IH]; [done|]. cbn [forallb map concat] in *. apply andb_true_iff in H as [Hc H]. rewrite forallb_app, (IH H), andb_true_r.
  unfold is_ascii in Hc. bool_prop. apply forallb_Forall. eapply Forall_impl; [apply (esc1_print false c); apply is_scalar_spec; lia|].
  cbv beta. intros y [Hy|(_ & -> & Hy)]; unfold printable; by zdec.
Qed.

(** The canonical text of a value with ASCII strings is printable ASCII. *)
Lemma dump_text v : wf v = true -> ascii_value v = true -> forall lvl, forallb printable (dump canonical_cfg lvl v) = true.
Proof.
  assert (forall lvl op cl items, printable op = true -> printable cl = true ->
    Forall (fun s => forallb printable s = true) items -> forallb printable (wrap canonical_cfg lvl op cl items) = true) as W
    by (intros; by apply wrap_chars).
  induction v as [| b | z | f | s | b | t | l IH | l IH | d IH] using value_nested_ind; intros Hw Ha lvl; try done.
  - by destruct b.
  - cbn [dump]. unfold int_text. destruct (Z.ltb_spec z 0).
    + destruct (dec_digits_spec (- z)) as (d & ds & -> & F & _); [lia|]. cbn [forallb]. by apply (digits_chars printable printable_print) in F.
    + destruct (dec_digits_spec z) as (d & ds & -> & F & _); [lia|]. by apply (digits_chars printable printable_print).
  - by apply quote_printable.
  - cbn [ascii_value wf] in *. apply forallb_Forall in Hw, Ha. apply W; [done..|]. apply Forall_map. rewrite Forall_forall in *. auto.
  - cbn [ascii_value wf] in *. apply forallb_Forall in Hw, Ha. apply W; [done..|]. apply Forall_map. rewrite Forall_forall in *. auto.
  - apply wf_dict in Hw as [Hw _]. cbn [ascii_value] in Ha. apply forallb_Forall in Ha. cbn [dump]. apply W; [done..|].
    change (c_sort canonical_cfg) with true. cbv iota. apply Forall_map. rewrite sort_kv_perm. apply Forall_map.
    rewrite Forall_forall in *. intros [[k|t] v] Hv; destruct (Hw _ Hv) as [Hk Hv2]; [|done]. specialize (Ha _ Hv). bool_prop.
    unfold member. cbn [kstr fst snd c_ascii c_ksep canonical_cfg] in *. rewrite !forallb_app, quote_printable by done.
    by rewrite (IH _ Hv) by done.
Qed.

Lemma splitlines_line l : forall cur r, forallb printable l = true -> cur ++ l <> [] ->
  splitlines (l ++ 10 :: r) cur = (cur ++ l) :: splitlines r [].
Proof.
  induction l as [|c l IH]; intros cur r H Hne; [by rewrite app_nil_r|].
  cbn [forallb] in H. apply andb_true_iff in H as [Hc H]. unfold printable in Hc. bool_prop. cbn [app].
  assert (splitlines (c :: l ++ 10 :: r) cur = splitlines (l ++ 10 :: r) (cur ++ [c])) as ->.
  { assert (is_linebreak c = false) as E by (unfold is_linebreak; by zdec). simpl. rewrite E.
    destruct c as [|p|p]; try done. do 4 (destruct p as [p|p|]; try done; try lia). }
  rewrite IH; [by rewrite <- app_assoc | done | rewrite <- app_assoc; done].
Qed.

Lemma translate_plain s : forallb (fun c => negb (c =? 13)) s = true -> translate_newlines s = s.
Proof.
  induction s as [|c s IH]; [done|]. cbn [forallb]. intros [Hc H]%andb_true_iff. apply negb_true_iff, Z.eqb_neq in Hc.
  specialize (IH H). cbn [translate_newlines]. rewrite IH. destruct c as [|p|p]; try done. do 4 (destruct p as [p|p|]; try done; try lia).
Qed.

(** ** The log the chain part reads *)
Section Log.
Context (s : EvidenceSigner) (env : Environ) (backends : list (str * CryptoBackend)) (v : EvidenceVerifier).
Context (lim : nat) (Hlim : (S MAX_DEPTH <= lim)%nat) (T : trusted s env backends v).

(** Events of ASCII texts make lines of printable ASCII. *)
Lemma sealed_printable es : sealed s v es -> Forall (fun e => ascii_value (VDict (se_event e)) = true) es ->
  Forall (fun e => forallb printable (line_of e) = true) es.
Proof.
  intros [F _] Ha. rewrite Forall_forall in *. intros e He. destruct (F e He) as (ev & ts & n & p & Hb & Hp & Hf).
  destruct T as [(rec & pk & b & _ & _ & _ & V)]. pose proof (build_and_sign_inv _ _ _ _ _ _ Hb) as (A & _).
  destruct (sa_signature _ _ _ _ _ A) as (m & _ & Hs). destruct (V m _ Hs) as (B & Hz & _).
  pose proof (signed_bounded s ev ts n p e Hb Hp (fi_year _ _ _ Hf) B Hz) as K.
  apply dump_text.
  - apply bounded_acceptable, acceptable_spec in K as [W _]. exact W.
  - cbn [ascii_value to_dict]. apply forallb_Forall. unfold as_dict. apply Forall_map. cbn [kstr fst snd].
    pose proof (bounded_all (fun v => ascii_value v = true) e K) as Q.
    assert (Forall (fun kv => forallb is_ascii kv.1 = true) (to_items e)) as N.
    { assert (Forall (fun k => forallb is_ascii k = true) (map fst (to_items e))) as N; [|by rewrite Forall_map in N].
      rewrite to_items_keys. apply forallb_Forall. by vm_compute. }
    assert (Forall (fun kv => ascii_value kv.2 = true) (to_items e)) as M.
    { apply Q; [|apply plain_ascii, K | by apply Ha].
      intros [| |z| |x| | | | |]; cbn; try done. by intros [? _]. }
    eapply Forall_impl; [apply (proj2 (Forall_and _ _) (conj N M))|]. intros kv [H1 H2]. apply andb_true_iff. by split.
Qed.

Lemma read_log es : sealed s v es -> es <> [] -> Forall (fun e => ascii_value (VDict (se_event e)) = true) es ->
  read_text (Some (log_bytes (map entry_of es))) = Ok (log_text (map entry_of es)) /\
  utf8_encode (log_text (map entry_of es)) = Ok (log_bytes (map entry_of es)) /\
  splitlines (log_text (map entry_of es)) [] = map line_of es.
Proof.
  intros Sl Hne Ha. pose proof (sealed_printable es Sl Ha) as P. pose proof (sealed_log s env backends v lim Hlim es Sl T) as L.
  pose proof (log_str_ok _ _ _ _ L) as O. split; [|split].
  - unfold read_text, log_bytes. cbn [mbind res_bind]. rewrite (proj1 (decode_enc _ O)). cbn [mbind res_bind]. f_equal. apply translate_plain.
    clear - P. unfold log_text. induction P as [|e es He P IH]; [done|]. cbn [map concat le_line entry_of]. rewrite !forallb_app, IH, andb_true_r.
    apply andb_true_iff. split; [|done]. rewrite forallb_forall in *. intros x Hx. specialize (He x Hx). unfold printable in He. bool_prop. by zdec.
  - by apply utf8_encode_enc.
  - clear - P. unfold log_text. induction P as [|e es He P IH]; [done|]. cbn [map concat le_line entry_of]. rewrite <- app_assoc. cbn [app].
    rewrite splitlines_line; [by rewrite IH | done|]. by destruct (line_shape e) as [l ->].
Qed.
End Log.

(** ** The events of the chain part *)
Definition event_head : str := Eval vm_compute in
  take (length (dump canonical_cfg 0 (VDict (chain_event 0))) - 29) (dump canonical_cfg 0 (VDict (chain_event 0))).
Definition event_tail : str := Eval vm_compute in
  drop (length (dump canonical_cfg 0 (VDict (chain_event 0))) - 28) (dump canonical_cfg 0 (VDict (chain_event 0))).

Lemma event_text i : dump canonical_cfg 0 (VDict (chain_event i)) = event_head ++ int_text i ++ event_tail.
Proof.
  transitivity ((event_head ++ int_text i ++ take 27 event_tail) ++ [125]); [reflexivity|]. by rewrite <- !app_assoc.
Qed.

Definition small_index (i : Z) : Prop := 0 <= i < INT_LIMIT.

Lemma event_wf i : small_index i -> wf (VDict (chain_event i)) = true.
Proof.
  intros H. apply wf_dict. split; [|apply (bool_decide_eq_true_1 (NoDup (keys (chain_event i)))); by vm_compute].
  pose proof limit_large. unfold small_index in H.
  repeat apply Forall_cons_2; [..|constructor]; (split; [reflexivity|]); first [reflexivity | cbn [fst snd wf]; apply Z.ltb_lt; lia].
Qed.

Lemma event_acceptable i : small_index i -> acceptable (VDict (chain_event i)) = true.
Proof. intros H. apply acceptable_spec. split; [by apply event_wf|]. split; [by apply Nat.leb_le | reflexivity]. Qed.

Lemma event_signable i : small_index i -> signable (chain_event i).
Proof.
  intros H. pose proof (event_acceptable i H) as A. pose proof (event_wf i H) as W. split; [by apply wf_pyval|].
  assert (canonical_bytes (VDict (chain_event i)) = Ok (enc (event_head ++ int_text i ++ event_tail))) as E
    by (rewrite canonical_bytes_acceptable by done; by rewrite event_text).
  assert (check_canonicalizable (VDict (chain_event i)) = Ok tt) as K.
  { unfold canonical_bytes, canonical_string in E. by destruct (check_canonicalizable _) as [[]|]. }
  assert (zlen (enc (event_head ++ int_text i ++ event_tail)) <= MAX_EVENT_BYTES) as Z.
  { pose proof (dump_text _ W eq_refl 0) as P. rewrite event_text in P. rewrite enc_ascii.
    - rewrite !zlen_app. pose proof (int_text_len i H). unfold MAX_EVENT_BYTES, INT_MAX_STR_DIGITS in *.
      assert (zlen event_head + zlen event_tail <= 200) by (by compute). lia.
    - rewrite forallb_forall in *. intros x Hx. specialize (P x Hx). unfold printable in P. unfold is_ascii. bool_prop. by zdec. }
  unfold validate_event. rewrite K. cbn [try_with mbind res_bind]. rewrite E. cbn [mbind res_bind].
  unfold require_as, require_, require. rewrite (proj2 (Z.leb_le _ _) Z). cbn [mbind res_bind].
  reflexivity.
Qed.

(** ** The chain part *)
Lemma map_res_total {A B} (f : A -> res B) (P : A -> B -> Prop) l : Forall (fun a => exists b, f a = Ok b /\ P a b) l ->
  exists m, map_res f l = Ok m /\ Forall2 P l m.
Proof.
  induction 1 as [|a l (b & E & H) _ (m & Em & F)]; [by exists []|]. exists (b :: m). cbn [map_res]. rewrite E. cbn [mbind res_bind].
  rewrite Em. by split; [|constructor].
Qed.

Section Chain.
Context (env : Environ) (backends : list (str * CryptoBackend)) (lim : nat) (py_str : value -> str) (py_int : value -> res Z) (mc : Machine).
Context (s : BenchmarkSuite) (Hcount : 1 <= bs_chain_events s <= MAX_TRACKED_HASHES).

Lemma chain_indices : Forall (fun e => exists i, e = chain_event i /\ small_index i) (chain_events s).
Proof.
  apply Forall_map, Forall_forall. intros k [_ H]%elem_of_seq. exists (Z.of_nat k). split; [done|].
  pose proof limit_large. unfold small_index, MAX_TRACKED_HASHES in *. lia.
Qed.

Lemma chain_length : zlen (chain_events s) = bs_chain_events s.
Proof. unfold zlen, chain_events. rewrite length_map, length_seq. lia. Qed.

Lemma chain_dumps c : exists texts, map_res (fun e => dumps c (VDict e)) (chain_events s) = Ok texts /\
  Forall2 (fun e t => t = dump c 0 (VDict e)) (chain_events s) texts.
Proof.
  apply map_res_total. eapply Forall_impl; [exact chain_indices|]. intros e (i & -> & H). eexists. split; [|reflexivity].
  unfold dumps. by rewrite (wf_dump_check _ (event_wf i H)).
Qed.

Lemma chain_sizes : exists sizes, map_res (fun e => text ← dumps compact (VDict e); Ok (zlen text + 1)) (chain_events s) = Ok sizes.
Proof.
  destruct (map_res_total (fun e => text ← dumps compact (VDict e); Ok (zlen text + 1)) (fun _ _ => True) (chain_events s)) as (m & E & _); [|eauto].
  eapply Forall_impl; [exact chain_indices|]. intros e (i & -> & H). unfold dumps. rewrite (wf_dump_check _ (event_wf i H)). eauto.
Qed.

(** Every line of the source reads as its event. *)
Lemma chain_source : (1 <= lim)%nat -> exists lines, map_res (fun e => dumps plain (VDict e)) (chain_events s) = Ok lines /\
  Forall2 (reads_line lim) lines (map Event (chain_events s)).
Proof.
  intros Hlim. destruct (chain_dumps plain) as (lines & E & F). exists lines. split; [exact E|]. clear E. pose proof chain_indices as X. revert F.
  generalize lines. induction X as [|e es (i & -> & H) X IH]; intros m F; [apply Forall2_nil_inv_l in F as ->; constructor|].
  apply Forall2_cons_inv_l in F as (t & m' & -> & F & ->). cbn [map]. constructor; [|by apply IH]. cbn [reads_line].
  assert (exists l, dump plain 0 (VDict (chain_event i)) = 123 :: l ++ [125]) as [l El] by (cbn [dump]; rewrite wrap_shape; cbn [map as_dict chain_event]; rewrite !app_assoc; by eexists).
  rewrite El, strip_id by done. split; [done|]. rewrite <- El. rewrite (loads_dump plain default_hooks) by first [done | by apply event_wf | cbn; lia]. done.
Qed.

Lemma chain_ascii es : map se_event es = chain_events s -> Forall (fun e => ascii_value (VDict (se_event e)) = true) es.
Proof.
  intros M. assert (Forall (fun d => ascii_value (VDict d) = true) (map se_event es)) as F; [|by rewrite Forall_map in F].
  rewrite M. eapply Forall_impl; [exact chain_indices|]. by intros e (i & -> & _).
Qed.

Lemma events_in_events es : events_in (map Event es) = es.
Proof. unfold events_in. induction es as [|e es IH]; [done|]. cbn. by rewrite IH. Qed.

Lemma collector_limits keypair c : chain_collector mc keypair = Ok c ->
  co_max_record_bytes c = ev_max_record_bytes (co_verifier c) /\ ev_max_record_bytes (co_verifier c) = MAX_EVIDENCE_BYTES.
Proof.
  unfold chain_collector. destruct (register _ _ _ _ _ _ _ _ _ _) as [R x]. intros (? & _ & H)%bind_ok. vm_compute in H. by injection H as <-.
Qed.
End Chain.

Lemma clock_bind {B} mc (k : spec_float -> SE Run B) r :
  (perf_counter mc ≫= k) r = k (seconds (mc_clock mc (rn_reads r))) (tick r).
Proof. done. Qed.

Lemma empty_recovers s lim py_str py_int : name_ok (sn_node_id s) = true -> (1 <= lim)%nat -> recovers s lim py_str py_int [] empty_disk.
Proof. intros Hn Hl. apply rest_recoverable; [done | | done]. split; [done | by left | by right | done]. Qed.

Lemma chain_completes (env : Environ) (backends : list (str * CryptoBackend)) (lim : nat) (py_str : value -> str) (py_int : value -> res Z)
  (mc : Machine) (s : BenchmarkSuite) (keypair : KeyPair) (signer : EvidenceSigner) (c : EvidenceCollector) (r : Run)
  (Hcount : 1 <= bs_chain_events s <= MAX_TRACKED_HASHES) (Hlim : (S MAX_DEPTH <= lim)%nat)
  (Hnow : name_ok (mc_now mc) = true) (Hw : zlen (mc_now mc) <= 100) (Hdir : (mc_workdirs mc).1 = IoOk)
  (Hsigner : chain_signer env backends s keypair = Ok signer) (Hcollector : chain_collector mc keypair = Ok c)
  (A : able signer) (T : trusted signer env backends (co_verifier c)) (Ht : forall i, timely signer (co_verifier c) (mc_iso mc i)) :
  (exists r' es report sizes sign_seconds verify_seconds,
    bench_chain env backends lim py_str py_int mc s keypair r = (r', Ok tt) /\
    map se_event es = chain_events s /\ sealed signer (co_verifier c) es /\
    rn_measurements r' = rn_measurements r ++ [
      signed_measurement s (bs_chain_events s) (total sizes) (zlen (log_bytes (map entry_of es))) sign_seconds;
      verified_measurement s report verify_seconds] /\
    sr_verified report = bs_chain_events s /\ sr_failed report = 0) \/ collision.
Proof.
  destruct (able_names signer A) as [Hnode Hkey]. destruct (chain_sizes s Hcount) as [sizes Es].
  destruct (chain_source lim s Hcount ltac:(lia)) as (lines & El & F).
  assert (Forall signable (events_in (map Event (chain_events s)))) as G.
  { rewrite events_in_events. eapply Forall_impl; [exact (chain_indices s Hcount)|]. intros e (i & -> & H). by apply event_signable. }
  assert (zlen (@nil SignedEvent) + zlen (events_in (map Event (chain_events s))) <= MAX_SEQUENCE) as Hz.
  { rewrite events_in_events, chain_length by done. change (zlen (@nil SignedEvent)) with 0. unfold MAX_TRACKED_HASHES, MAX_SEQUENCE in *. lia. }
  destruct (log_signed signer A env backends (co_verifier c) T lim py_str py_int Hlim (mc_now mc) Hnow Hw [] (mc_iso mc) lines _ []
    empty_disk (empty_recovers signer lim py_str py_int Hnode ltac:(lia)) (sealed_nil signer Hnode _) F G Ht Hz)
    as (d & es & Elog & Sl & M & Ev & _). cbn [app] in Sl, Ev. rewrite events_in_events in M.
  assert (zlen es = bs_chain_events s) as Len by (rewrite <- chain_length by done; rewrite <- M; unfold zlen; by rewrite length_map).
  assert (es <> []) as Hne by (intros ->; change (zlen []) with 0 in Len; lia).
  assert (d_evidence d = Some (log_bytes (map entry_of es))) as Ed by (destruct Ev as [Ev|[_ Ev]]; [done | by apply map_eq_nil in Ev]).
  destruct (read_log signer env backends _ lim Hlim T es Sl Hne (chain_ascii s Hcount es M)) as (Er & Ee & Esp).
  destruct (collector_limits mc keypair c Hcollector) as [L1 L2].
  destruct (sealed_stream signer env backends _ lim Hlim c es T Sl eq_refl L1 ltac:(rewrite L2; by compute) ltac:(lia))
    as [(rep & Ev2 & Hv)|C]; [left | by right].
  destruct (stream_sound env backends lim c _ rep Ev2 Hv) as (fs & [Fr _ _] & _ & V1 & V2 & _).
  rewrite (nonblank_lines lim Hlim) in Fr. apply Forall2_length in Fr. rewrite length_map in Fr.
  eexists _, es, rep, sizes, _, _. split; [|split; [exact M | split; [exact Sl | split; [| split; [rewrite V1; unfold zlen in *; lia | exact V2]]]]].
  - unfold bench_chain. rewrite (se_bind_eq (lift _) _ _ r sizes) by (unfold lift; by rewrite Es).
    rewrite (se_bind_eq (lift _) _ _ r tt) by (unfold lift; by rewrite Hdir).
    rewrite (se_bind_eq (lift _) _ _ r signer), clock_bind by (unfold lift; by rewrite Hsigner).
    rewrite (se_bind_eq (lift _) _ _ _ lines) by (unfold lift; by rewrite El). rewrite Elog.
    rewrite (se_bind_eq (lift _) _ _ _ _ eq_refl), clock_bind.
    rewrite (se_bind_eq (lift _) _ _ _ (log_text (map entry_of es))) by (unfold lift; by rewrite Ed, Er).
    rewrite (se_bind_eq (lift _) _ _ _ c), clock_bind by (unfold lift; by rewrite Hcollector).
    rewrite (se_bind_eq (lift _) _ _ _ rep), clock_bind by (unfold lift; by rewrite Esp, map_map, Ev2).
    rewrite (se_bind_eq (lift _) _ _ _ (log_bytes (map entry_of es))) by (unfold lift; by rewrite Ee). reflexivity.
  - cbn [rn_measurements]. rewrite <- app_assoc. cbn [app]. rewrite tally_signed, events_in_events, chain_length by done. reflexivity.
Qed.

(** The chain part of the benchmark measures signing and verification as they are: with a
    backend that signs with the key and verifies what it signed, and a clock within the key's
    validity, it completes - every one of its events is signed into a fresh log, in order, and
    the throughput it then records is that of verifying the whole log: as many events verified
    as there were, none failed, the size that of the log's bytes - unless SHA3-256 has
    collided. *)
Theorem chain_counts (env : Environ) (backends : list (str * CryptoBackend)) (lim : nat) (py_str : value -> str) (py_int : value -> res Z)
  (mc : Machine) (s : BenchmarkSuite) (keypair : KeyPair) (signer : EvidenceSigner) (c : EvidenceCollector) (r : Run)
  (Hcount : 1 <= bs_chain_events s <= MAX_TRACKED_HASHES) (Hlim : (S MAX_DEPTH <= lim)%nat)
  (Hnow : name_ok (mc_now mc) = true) (Hw : zlen (mc_now mc) <= 100) (Hdir : (mc_workdirs mc).1 = IoOk)
  (Hsigner : chain_signer env backends s keypair = Ok signer) (Hcollector : chain_collector mc keypair = Ok c)
  (A : able signer) (T : trusted signer env backends (co_verifier c)) (Ht : forall i, timely signer (co_verifier c) (mc_iso mc i)) :
  (exists r' es report sizes sign_seconds verify_seconds,
    bench_chain env backends lim py_str py_int mc s keypair r = (r', Ok tt) /\
    map se_event es = chain_events s /\ sealed signer (co_verifier c) es /\
    rn_measurements r' = rn_measurements r ++ [
      signed_measurement s (bs_chain_events s) (total sizes) (zlen (log_bytes (map entry_of es))) sign_seconds;
      verified_measurement s report verify_seconds] /\
    sr_verified report = bs_chain_events s /\ sr_failed report = 0) \/ collision.
Proof. by apply chain_completes. Qed.

(** ** The timing loop *)

(** What a run of an operation costs when it succeeds: clock readings and draws of randomness;
    it records nothing. *)
Definition costs {A} (m : SE Run A) (reads draws : nat) : Prop := forall r r' a, m r = (r', Ok a) ->
  rn_measurements r' = rn_measurements r /\ rn_reads r' = (rn_reads r + reads)%nat /\ rn_draws r' = (rn_draws r + draws)%nat.

Lemma costs_lift {A} (x : res A) : costs (lift x) 0 0.
Proof. intros r r' a [= <- _]. by rewrite !Nat.add_0_r. Qed.

Lemma costs_bind {A B} (m : SE Run A) (k : A -> SE Run B) a1 d1 a2 d2 : costs m a1 d1 -> (forall a, costs (k a) a2 d2) ->
  costs (m ≫= k) (a1 + a2) (d1 + d2).
Proof.
  intros Hm Hk r r' b (r1 & a & E1 & E2)%se_bind_ok.
  destruct (Hm _ _ _ E1) as (M1 & R1 & D1), (Hk _ _ _ _ E2) as (M2 & R2 & D2). split; [congruence | lia].
Qed.

Lemma costs_draw {A} (k : nat -> res A) : costs (i ← draw; lift (k i)) 0 1.
Proof. intros r r' a (r1 & i & [= <- <-] & [= <- _])%se_bind_ok. cbn. by rewrite Nat.add_0_r, Nat.add_1_r. Qed.

Section Timing.
Context (mc : Machine).

Lemma samples_cost {A} (operation : SE Run A) d n : costs operation 0 d -> forall a, costs (samples mc n operation a) (2 * n) (n * d).
Proof.
  intros Ho. induction n as [|n IH]; intros a r r' [l x] E; cbn [samples] in E.
  - injection E as <- _ _. by rewrite !Nat.add_0_r.
  - rewrite clock_bind in E. apply se_bind_ok in E as (r1 & y & E1 & E). rewrite clock_bind in E.
    apply se_bind_ok in E as (r2 & [l' z] & E2 & [= <- _ _]).
    destruct (Ho _ _ _ E1) as (M1 & R1 & D1), (IH _ _ _ _ E2) as (M2 & R2 & D2). cbn [tick rn_measurements rn_reads rn_draws] in *.
    rewrite M2, R2, D2, M1, R1, D1. split; [done | lia].
Qed.

Lemma samples_length {A} (operation : SE Run A) n : forall a r r' l x, samples mc n operation a r = (r', Ok (l, x)) -> length l = n.
Proof.
  induction n as [|n IH]; intros a r r' l x E; cbn [samples] in E; [by injection E as _ <- _|].
  rewrite clock_bind in E. apply se_bind_ok in E as (r1 & y & E1 & E). rewrite clock_bind in E.
  apply se_bind_ok in E as (r2 & [l' z] & E2 & [= _ <- _]). cbn [length]. f_equal. by apply (IH _ _ _ _ _ E2).
Qed.

(** One measurement: the operation runs once untimed and [iterations] times between two
    readings of the clock, and one entry is recorded. *)
Lemma timed_ok {A} name iterations (operation : SE Run A) extra d r r' a : costs operation 0 d ->
  timed mc name iterations operation extra r = (r', Ok a) ->
  1 <= iterations /\ exists l, zlen l = iterations /\
    rn_measurements r' = rn_measurements r ++ [summarise name iterations l extra] /\
    rn_reads r' = (rn_reads r + 2 * Z.to_nat iterations)%nat /\ rn_draws r' = (rn_draws r + S (Z.to_nat iterations) * d)%nat.
Proof.
  intros Ho E. unfold timed in E. apply se_bind_ok in E as (r3 & [m x] & E & E3). unfold time_it in E.
  apply se_bind_ok in E as (r0 & [] & E0 & E). apply se_bind_ok in E as (r1 & y & E1 & E). apply se_bind_ok in E as (r2 & [l z] & E2 & E).
  unfold lift, require in E0. destruct (Z.leb_spec 1 iterations) as [H|]; [|by inversion E0]. injection E0 as <-. split; [done|].
  pose proof (samples_length _ _ _ _ _ _ _ E2) as L. destruct (Ho _ _ _ E1) as (M1 & R1 & D1), (samples_cost _ d _ Ho _ _ _ _ E2) as (M2 & R2 & D2).
  injection E as <- <- <-. unfold record_ in E3. apply se_bind_ok in E3 as (r4 & [] & [= <-] & [= <- _]). cbn [rn_measurements rn_reads rn_draws].
  exists l. split; [unfold zlen; lia|]. rewrite M2, M1, R2, R1, D2, D1. split; [done | lia].
Qed.

End Timing.

(** ** The whole suite *)
Definition entry (m : Measurement) : string * Z := (ms_name m, ms_iterations m).

(** From [r] to [r']: the measurements recorded, the clock readings, the draws of randomness. *)
Record adds (r r' : Run) (l : list (string * Z)) (reads draws : nat) : Prop := {
  ad_entries : map entry (rn_measurements r') = map entry (rn_measurements r) ++ l;
  ad_reads : rn_reads r' = (rn_reads r + reads)%nat;
  ad_draws : rn_draws r' = (rn_draws r + draws)%nat;
}.

Lemma adds_refl r : adds r r [] 0 0.
Proof. split; [by rewrite app_nil_r | lia..]. Qed.
Lemma adds_trans r1 r2 r3 l l' k k' d d' : adds r1 r2 l k d -> adds r2 r3 l' k' d' -> adds r1 r3 (l ++ l') (k + k') (d + d').
Proof. intros [A1 A2 A3] [B1 B2 B3]. split; [by rewrite B1, A1, <- app_assoc | lia..]. Qed.

Lemma adds_costs {A} (m : SE Run A) k d r r' a : costs m k d -> m r = (r', Ok a) -> adds r r' [] k d.
Proof. intros C E. destruct (C _ _ _ E) as (M & R & D). split; [by rewrite M, app_nil_r | done..]. Qed.

Lemma adds_record m r r' a : record_ m r = (r', Ok a) -> adds r r' [entry m] 0 0.
Proof. intros [= <- _]. split; cbn; [by rewrite map_app | lia..]. Qed.

Lemma adds_timed {A} mc name n (operation : SE Run A) extra d r r' a : costs operation 0 d ->
  timed mc name n operation extra r = (r', Ok a) -> adds r r' [(name, n)] (2 * Z.to_nat n) (S (Z.to_nat n) * d).
Proof. intros C E. destruct (timed_ok mc _ _ _ _ d _ _ _ C E) as (_ & l & L & M & R & D). split; [by rewrite M, map_app | done..]. Qed.

Lemma adds_cast r r' l k d l' k' d' : adds r r' l k d -> l = l' -> k = k' -> d = d' -> adds r r' l' k' d'.
Proof. by intros ? -> -> ->. Qed.

Lemma lift_state {S A} (x : res A) (s s' : S) a : lift x s = (s', Ok a) -> s' = s /\ x = Ok a.
Proof. unfold lift. intros H. split; congruence. Qed.

Ltac step H E := let r := fresh "r" in let a := fresh "a" in apply se_bind_ok in H as (r & a & E & H).
Ltac pure_step H := first [rewrite clock_bind in H | let E := fresh "E" in step H E; apply lift_state in E as [-> _]].

Section Suite.
Context (env : Environ) (backends : list (str * CryptoBackend)) (lim : nat).
Context (py_str : value -> str) (py_int : value -> res Z) `{Aead} `{Zlib} (mc : Machine) (s : BenchmarkSuite).

Notation n := (Z.to_nat (bs_iterations s)).
Notation f := (Z.to_nat (few s)).

Definition signature_schedule : list (string * Z) :=
  [("mldsa_keygen", bs_iterations s); ("mldsa_sign", bs_iterations s); ("mldsa_verify", bs_iterations s); ("sizes", 1)]%string.
Definition chain_schedule : list (string * Z) :=
  [("signed_log_throughput", bs_chain_events s); ("chain_verification_throughput", bs_chain_events s)]%string.
Definition has_kem : bool := str_in ML_KEM_768 (cap_kem_algorithms (bk_capabilities (bs_backend s))).
Definition archive_schedule : list (string * Z) :=
  if has_kem then [("mlkem_keygen", bs_iterations s); ("mlkem_encapsulate", bs_iterations s); ("mlkem_decapsulate", bs_iterations s);
                   ("archive_create", few s); ("archive_decrypt", few s)]%string
  else [("mlkem_skipped", 0)]%string.
Definition schedule : list (string * Z) :=
  signature_schedule ++ chain_schedule ++ if bs_include_archive s then archive_schedule else [].

Lemma signatures_add r r' k : bench_signatures mc s r = (r', Ok k) -> adds r r' signature_schedule (6 * n) (S n).
Proof.
  unfold bench_signatures. intros E. step E E1. step E E2. step E E3. step E E4. step E E5. injection E as <- _.
  apply (adds_timed mc _ _ _ _ 1) in E1; [|apply costs_draw]. apply lift_state in E2 as [-> _].
  apply (adds_timed mc _ _ _ _ 0) in E3; [|apply costs_lift]. apply (adds_timed mc _ _ _ _ 0) in E4; [|apply costs_lift].
  apply adds_record in E5. refine (adds_cast _ _ _ _ _ _ _ _ (adds_trans _ _ _ _ _ _ _ _ _ E1 (adds_trans _ _ _ _ _ _ _ _ _ E3
    (adds_trans _ _ _ _ _ _ _ _ _ E4 E5))) _ _ _); [reflexivity | lia..].
Qed.

Lemma chain_add k r r' x : bench_chain env backends lim py_str py_int mc s k r = (r', Ok x) -> adds r r' chain_schedule 4 0.
Proof.
  unfold bench_chain. intros E. do 5 pure_step E. destruct (sign_log _ _ _ _ _ _ _ _ _ _ _) as [d rep].
  do 8 pure_step E. step E E1. injection E1 as <- _. injection E as <- _. split; cbn; [by rewrite !map_app, <- app_assoc | lia..].
Qed.

Lemma create_cost content pk : costs (create env backends lim mc s content pk) 0 1.
Proof.
  unfold create. intros r r' a E. step E E1. injection E1 as <- <-. step E E2. injection E as <- _. unfold on_place in E2.
  destruct (create_archive _ _ _ _ _ _ _ _ _) as [p x]. injection E2 as <- _. cbn. split; [done | lia].
Qed.

Lemma decrypt_cost sk : costs (decrypt env backends lim mc s sk) 0 0.
Proof. unfold decrypt. intros r r' a E. step E E1. injection E1 as <- _. step E E2. injection E2 as <- _. injection E as <- _. split; [done | lia]. Qed.

Lemma archive_add k r r' x : bench_archive env backends lim mc s k r = (r', Ok x) ->
  adds r r' [("archive_create", few s); ("archive_decrypt", few s)]%string (4 * f) (S f).
Proof.
  unfold bench_archive. intros E. do 3 pure_step E.
  step E E1. step E E2. apply (adds_timed mc _ _ _ _ 1) in E1; [|apply create_cost]. apply (adds_timed mc _ _ _ _ 0) in E; [|apply decrypt_cost].
  unfold archive_size in E2. step E2 E3. injection E3 as <- _. apply lift_state in E2 as [-> _].
  refine (adds_cast _ _ _ _ _ _ _ _ (adds_trans _ _ _ _ _ _ _ _ _ E1 E) _ _ _); [reflexivity | lia..].
Qed.

Definition archive_reads : nat := if has_kem then 6 * n + 4 * f else 0.
Definition archive_draws : nat := if has_kem then 2 * S n + S f else 0.

Lemma kem_add r r' x : bench_kem_and_archive env backends lim mc s r = (r', Ok x) -> adds r r' archive_schedule archive_reads archive_draws.
Proof.
  unfold bench_kem_and_archive, archive_schedule, archive_reads, archive_draws. fold has_kem. destruct has_kem; cbn [negb]; intros E.
  - step E E1. step E E2. step E E3. apply archive_add in E.
    apply (adds_timed mc _ _ _ _ 1) in E1; [|apply costs_draw]. apply (adds_timed mc _ _ _ _ 1) in E2; [|apply costs_draw].
    apply (adds_timed mc _ _ _ _ 0) in E3; [|apply costs_lift].
    refine (adds_cast _ _ _ _ _ _ _ _ (adds_trans _ _ _ _ _ _ _ _ _ E1 (adds_trans _ _ _ _ _ _ _ _ _ E2
      (adds_trans _ _ _ _ _ _ _ _ _ E3 E))) _ _ _); [reflexivity | lia..].
  - by apply adds_record in E.
Qed.

Lemma benchmarks_add r r' x : benchmarks env backends lim py_str py_int mc s r = (r', Ok x) ->
  adds r r' schedule (6 * n + 4 + if bs_include_archive s then archive_reads else 0) (S n + if bs_include_archive s then archive_draws else 0).
Proof.
  unfold benchmarks, schedule. intros E. step E E1. step E E2. apply signatures_add in E1. apply chain_add in E2.
  assert (adds r1 r' (if bs_include_archive s then archive_schedule else []) (if bs_include_archive s then archive_reads else 0)
    (if bs_include_archive s then archive_draws else 0)) as E3.
  { destruct (bs_include_archive s); [by apply kem_add in E|]. injection E as <- _. apply adds_refl. }
  refine (adds_cast _ _ _ _ _ _ _ _ (adds_trans _ _ _ _ _ _ _ _ _ E1 (adds_trans _ _ _ _ _ _ _ _ _ E2 E3)) _ _ _); [reflexivity | lia..].
Qed.

(** *** It completes *)
Lemma samples_total {A} (operation : SE Run A) (P : A -> Prop) k : (forall r, exists r' a, operation r = (r', Ok a) /\ P a) ->
  forall a r, P a -> exists r' l a', samples mc k operation a r = (r', Ok (l, a')) /\ P a'.
Proof.
  intros Ho. induction k as [|k IH]; intros a r Ha; [by exists r, [], a|]. cbn [samples]. rewrite clock_bind.
  destruct (Ho (tick r)) as (r1 & b & E & Hb). rewrite (se_bind_eq _ _ _ _ _ E), clock_bind.
  destruct (IH b (tick r1) Hb) as (r2 & l & a' & E2 & H2). rewrite (se_bind_eq _ _ _ _ _ E2). by eexists _, _, _.
Qed.

Lemma timed_total {A} name iterations (operation : SE Run A) extra (P : A -> Prop) : 1 <= iterations ->
  (forall r, exists r' a, operation r = (r', Ok a) /\ P a) -> forall r, exists r' a, timed mc name iterations operation extra r = (r', Ok a) /\ P a.
Proof.
  intros Hn Ho r. unfold timed, time_it. destruct (Ho r) as (r1 & a & E & Ha).
  destruct (samples_total operation P (Z.to_nat iterations) Ho a r1 Ha) as (r2 & l & a' & E2 & H2).
  rewrite (se_bind_eq _ _ r r2 (summarise name iterations l extra, a')); [by eexists _, _|].
  rewrite (se_bind_eq (lift _) _ _ r tt) by (unfold lift, require; by rewrite (proj2 (Z.leb_le _ _) Hn)).
  by rewrite (se_bind_eq _ _ _ _ _ E), (se_bind_eq _ _ _ _ _ E2).
Qed.

(** What the backend, the clock and the registry must make of a key pair. *)
Record lawful (keypair : KeyPair) : Prop := {
  la_sign : forall m, exists x, bk_sign (bs_backend s) (kp_private keypair) m (bs_algorithm s) = Ok x;
  la_verify : forall m x, exists b, bk_verify (bs_backend s) (kp_public keypair) m x (bs_algorithm s) = Ok b;
  la_chain : exists signer c, chain_signer env backends s keypair = Ok signer /\ chain_collector mc keypair = Ok c /\
    able signer /\ trusted signer env backends (co_verifier c) /\ forall i, timely signer (co_verifier c) (mc_iso mc i);
}.

Lemma signatures_total : 1 <= bs_iterations s -> (forall i, exists k, bk_generate_keypair (bs_backend s) (mc_random mc i) (bs_algorithm s) = Ok k /\ lawful k) ->
  forall r, exists r' k, bench_signatures mc s r = (r', Ok k) /\ lawful k.
Proof.
  intros Hn Hg r. unfold bench_signatures.
  destruct (timed_total "mldsa_keygen" (bs_iterations s) (i ← draw; lift (bk_generate_keypair (bs_backend s) (mc_random mc i) (bs_algorithm s))) [] lawful Hn)
    with (r := r) as (r1 & k & E & L).
  { intros r0. destruct (Hg (rn_draws r0)) as (k & E & L). eexists _, k. split; [|exact L]. unfold draw, mbind, se_bind, lift. by rewrite E. }
  rewrite (se_bind_eq _ _ _ _ _ E).
  assert (exists p, (text ← dumps compact sample_payload; utf8_encode text) = Ok p) as [p Ep] by (vm_compute; by eexists).
  rewrite (se_bind_eq (lift _) _ _ r1 p) by (unfold lift; by rewrite Ep).
  destruct (timed_total "mldsa_sign" (bs_iterations s) (lift (bk_sign (bs_backend s) (kp_private k) p (bs_algorithm s))) [count "payload_bytes" (zlen p)] (fun _ => True) Hn)
    with (r := r1) as (r2 & x & E2 & _).
  { intros r0. destruct (la_sign _ L p) as [x Ex]. eexists _, x. split; [|done]. unfold lift. by rewrite Ex. }
  rewrite (se_bind_eq _ _ _ _ _ E2).
  destruct (timed_total "mldsa_verify" (bs_iterations s) (lift (bk_verify (bs_backend s) (kp_public k) p x (bs_algorithm s))) [] (fun _ => True) Hn)
    with (r := r2) as (r3 & y & E3 & _).
  { intros r0. destruct (la_verify _ L p x) as [y Ey]. eexists _, y. split; [|done]. unfold lift. by rewrite Ey. }
  rewrite (se_bind_eq _ _ _ _ _ E3). by eexists _, k.
Qed.

Lemma chain_total : 1 <= bs_chain_events s <= MAX_TRACKED_HASHES -> (S MAX_DEPTH <= lim)%nat -> name_ok (mc_now mc) = true ->
  zlen (mc_now mc) <= 100 -> (mc_workdirs mc).1 = IoOk -> forall k r, lawful k ->
  (exists r', bench_chain env backends lim py_str py_int mc s k r = (r', Ok tt)) \/ collision.
Proof.
  intros Hc Hl Hn Hw Hd k r [_ _ (signer & c & Hs & Hco & A & T & Ht)].
  destruct (chain_completes env backends lim py_str py_int mc s k signer c r Hc Hl Hn Hw Hd Hs Hco A T Ht)
    as [(r' & _ & _ & _ & _ & _ & E & _)|C]; eauto.
Qed.

(** The chain and signature parts, and the archive part where there is nothing to do. *)
Lemma benchmarks_total : 1 <= bs_iterations s -> 1 <= bs_chain_events s <= MAX_TRACKED_HASHES -> (S MAX_DEPTH <= lim)%nat ->
  name_ok (mc_now mc) = true -> zlen (mc_now mc) <= 100 -> (mc_workdirs mc).1 = IoOk ->
  (forall i, exists k, bk_generate_keypair (bs_backend s) (mc_random mc i) (bs_algorithm s) = Ok k /\ lawful k) ->
  bs_include_archive s && has_kem = false ->
  forall r, (exists r', benchmarks env backends lim py_str py_int mc s r = (r', Ok tt)) \/ collision.
Proof.
  intros Hi Hc Hl Hn Hw Hd Hg Ha r. unfold benchmarks. destruct (signatures_total Hi Hg r) as (r1 & k & E & L).
  rewrite (se_bind_eq _ _ _ _ _ E). destruct (chain_total Hc Hl Hn Hw Hd k r1 L) as [(r2 & E2)|C]; [left | by right].
  rewrite (se_bind_eq _ _ _ _ _ E2). destruct (bs_include_archive s); [|by exists r2].
  unfold bench_kem_and_archive. unfold has_kem in Ha. cbn [andb] in Ha. rewrite Ha. by eexists.
Qed.

Lemma dicts_back (ms : list Measurement) :
  omap (fun v => match v with VDict d => Some d | _ => None end) (map (fun m => VDict (to_dict m)) ms) = map to_dict ms.
Proof. induction ms as [|m ms IH]; [done|]. cbn [map]. rewrite <- IH. done. Qed.

End Suite.
