(* ===== verification/BenchmarkReports.v ===== *)
(** The files of a benchmark run: the CSV file reads back as the table of the measurements, the
    command's exit status says what was written; and concrete runs, with what they show about
    the algorithm, the backend and the numbers of a report. *)
From S2P Require Import Prelude PyText PyStr Json JsonFacts Hashes IsoTime Canonicalizer Models CryptoBackend EventChain KeyRegistry Verifier Collector StateStore EvidenceStore RecordFacts Signer SigningRun ArchiveEvidence ArchiveStream ArchiveExamples Archive Cli Csv Statistics Benchmark BenchmarkFacts.

(** ** The columns *)
Lemma add_columns ks : forall cs, NoDup cs -> NoDup (fold_left add_column ks cs) /\
  forall k, k ∈ fold_left add_column ks cs <-> k ∈ cs \/ k ∈ ks.
Proof.
  induction ks as [|x ks IH]; intros cs N; cbn [fold_left]; [split; [done|]; set_solver|].
  unfold add_column at 2 4. destruct (str_in x cs) eqn:E.
  - apply str_in_elem in E. destruct (IH cs N) as [N' H]. split; [done|]. intros k. rewrite H. set_solver.
  - assert (x ∉ cs) as Hx by (intros H%str_in_elem; congruence).
    destruct (IH (cs ++ [x])) as [N' H]; [apply NoDup_app; split_and!; [done | set_solver | apply NoDup_singleton]|].
    split; [done|]. intros k. rewrite H. set_solver.
Qed.

Lemma columns_spec ms : NoDup (columns ms) /\ forall k, k ∈ columns ms <-> exists m, m ∈ ms /\ k ∈ keys m.
Proof.
  unfold columns. assert (forall cs, NoDup cs -> NoDup (fold_left (fun cs m => fold_left add_column (keys m) cs) ms cs) /\
    forall k, k ∈ fold_left (fun cs m => fold_left add_column (keys m) cs) ms cs <-> k ∈ cs \/ exists m, m ∈ ms /\ k ∈ keys m) as G.
  { induction ms as [|m ms IH]; intros cs N; cbn [fold_left]; [split; [done|]; set_solver|].
    destruct (add_columns (keys m) cs N) as [N1 H1]. destruct (IH _ N1) as [N2 H2]. split; [done|]. intros k. rewrite H2, H1. set_solver. }
  destruct (G [] (NoDup_nil_2)) as [N H]. split; [done|]. intros k. rewrite H. set_solver.
Qed.

(** ** The CSV file *)
Section CsvFile.
Context (py_str : value -> str).

(** A text of code points: every Python str is one. *)
Definition is_text (t : str) : Prop := Forall (fun c => 0 <= c <= 0x10FFFF) t.

Lemma rows_text rows : forallb (forallb (forallb (fun c => (0 <=? c) && (c <=? 0x10FFFF)))) rows = true -> Forall (Forall is_text) rows.
Proof.
  intros H%forallb_Forall. eapply Forall_impl; [exact H|]. intros row Hr%forallb_Forall. eapply Forall_impl; [exact Hr|].
  intros t Ht%forallb_Forall. eapply Forall_impl; [exact Ht|]. intros c Hc. cbv beta in Hc. bool_prop. lia.
Qed.

Lemma csv_field_text t : is_text t -> is_text (csv_field t).
Proof.
  intros H. unfold csv_field. destruct (existsb special t); [|done]. constructor; [lia|]. apply Forall_app. split; [|repeat constructor; lia].
  induction H as [|c t Hc H IH]; [constructor|]. cbn [map concat]. apply Forall_app. split; [|done].
  unfold doubled. destruct (c =? 34); repeat constructor; lia.
Qed.

Lemma csv_row_text row : Forall is_text row -> is_text (csv_row row).
Proof.
  intros H. assert (is_text (join [44] (map csv_field row))) as J.
  { induction H as [|t row Ht H IH]; [constructor|]. cbn [map join]. destruct row; [by apply csv_field_text|]. cbn [map] in *.
    apply Forall_app. split; [by apply csv_field_text|]. apply Forall_app. split; [repeat constructor; lia | exact IH]. }
  unfold csv_row. apply Forall_app. split; [|repeat constructor; lia].
  destruct row as [|[|c t] [|? ?]]; try exact J; repeat constructor; lia.
Qed.

Lemma encode_rows_ok rows b : encode_rows rows = (b, Ok tt) -> utf8_encode (csv_table rows) = Ok b.
Proof.
  revert b. induction rows as [|row rows IH]; intros b E; cbn [encode_rows] in E; [by injection E as <-|].
  destruct (utf8_encode (csv_row row)) as [c|] eqn:Er; [|by inversion E]. destruct (encode_rows rows) as [d x] eqn:Es. injection E as <- ->.
  specialize (IH d eq_refl). apply utf8_encode_ok in Er as [R1 ->], IH as [R2 ->]. apply utf8_encode_ok. unfold csv_table in *. cbn [map concat].
  rewrite existsb_app, R1, R2, map_app, concat_app. done.
Qed.

Lemma put_text_ok created p b f fs fs' : put_text created p b f fs = (fs', Ok tt) -> exists mode, fs' !! p = Some (mode, b).
Proof.
  unfold put_text. intros E. apply se_bind_ok in E as (s1 & [] & E1 & E). apply lift_state in E1 as [-> _].
  apply se_bind_ok in E as (s2 & old & [= <- <-] & E). apply se_bind_ok in E as (s3 & [] & [= <-] & E). apply lift_state in E as [-> E].
  destruct (fl_write f); try discriminate E. eexists. by rewrite lookup_insert_eq.
Qed.

(** C33. The CSV file reads back: when [write_csv] succeeds, the file holds UTF-8 text, and a
    reader of RFC 4180 finds in it one row per measurement under a header of distinct columns;
    every field of every measurement stands, as its text, in the row of the measurement and the
    column of its name - whatever commas, quotes or line ends the texts hold. *)
Theorem csv_file_reads_back (created : Z) (expanduser : str -> str) (report : dict) (path : str) (f : FileFaults) (fs fs' : FileSystem)
  (E : write_csv py_str created expanduser report path f fs = (fs', Ok tt))
  (Hcolumns : columns (measurements_of report) <> [])
  (Htext : Forall (Forall is_text) (csv_rows py_str (measurements_of report))) :
  exists mode b text rows, fs' !! expanduser path = Some (mode, b) /\ utf8_decode b = Ok text /\
    read_csv text = Some (columns (measurements_of report) :: rows) /\ NoDup (columns (measurements_of report)) /\
    Forall2 (fun m row => forall k v, dict_get m k = Some v ->
      exists i, columns (measurements_of report) !! i = Some k /\ row !! i = Some (cell_text py_str v)) (measurements_of report) rows.
Proof.
  unfold write_csv in E. destruct (encode_rows _) as [b x] eqn:Er. apply se_bind_ok in E as (fs1 & [] & Ep & E). apply lift_state in E as [-> ->].
  apply put_text_ok in Ep as [mode Ep]. apply encode_rows_ok in Er. unfold csv_rows in *. set (ms := measurements_of report) in *.
  exists mode, b, (csv_table (columns ms :: map (cells py_str (columns ms)) ms)), (map (cells py_str (columns ms)) ms).
  destruct (columns_spec ms) as [N K]. split; [exact Ep|]. split; [|split; [|split; [exact N|]]].
  - apply (utf8_decode_encode _ _); [|exact Er]. clear - Htext. induction Htext as [|row rows H _ IH]; [constructor|].
    unfold csv_table. cbn [map concat]. apply Forall_app. split; [by apply csv_row_text | exact IH].
  - apply read_csv_table. constructor; [done|]. apply Forall_map, Forall_true. intros m. unfold cells. by destruct (columns ms).
  - apply Forall2_fmap_r, Forall2_same_length_lookup_2; [done|]. intros i m m' Hm Hm' k v Hv. assert (m' = m) as -> by congruence.
    assert (k ∈ columns ms) as Hk by (apply K; exists m; split; [by eapply list_elem_of_lookup_2 | apply dict_get_elem in Hv; apply list_elem_of_fmap; by exists (KStr k, v)]).
    apply list_elem_of_lookup in Hk as [j Hj]. exists j. split; [done|]. unfold cells. rewrite list_lookup_fmap, Hj. cbn. by rewrite Hv.
Qed.
End CsvFile.

(** ** The command *)
Section Status.
Context (env : Environ) (backends : list (str * CryptoBackend)) (lim : nat).
Context (py_str : value -> str) (py_int : value -> res Z) `{Aead} `{Zlib} (mc : Machine).
Context (float_repr : spec_float -> str) (expanduser : str -> str) (created : Z) (a : BenchmarkArgs) (fo fc : FileFaults).

Notation suite := (run_benchmarks env backends lim py_str py_int mc (ba_backend a) (ba_algorithm a) (ba_iterations a) (ba_chain_events a)
  (negb (ba_no_archive a)) (ba_allow_test_backend a)).
Notation command := (cmd_benchmark env backends lim py_str py_int mc float_repr expanduser created a fo fc).

(** Errors that are not the evidence code's. *)
Definition foreign {S A} (m : SE S A) : Prop := forall s s' e, m s = (s', Err e) -> is_evidence_error e = false.

Lemma foreign_lift {S A} (x : res A) : (forall e, x = Err e -> is_evidence_error e = false) -> foreign (S := S) (lift x).
Proof. intros Hx s s' e [= _ E]. auto. Qed.
Lemma foreign_bind {S A B} (m : SE S A) (k : A -> SE S B) : foreign m -> (forall x, foreign (k x)) -> foreign (m ≫= k).
Proof. intros Hm Hk s s' e E. unfold mbind, se_bind in E. destruct (m s) as [s1 [x|e']] eqn:Em; [by apply (Hk x s1 s') | injection E as _ <-; by apply (Hm s s1)]. Qed.
Lemma foreign_ret {S A} (x : A) : foreign (S := S) (mret x).
Proof. by intros s s' e [=]. Qed.

Lemma foreign_io o stage : forall e, io_result o stage = Err e -> is_evidence_error e = false.
Proof. destruct o; by intros e [= <-]. Qed.

Lemma foreign_report report : forall e, report_text float_repr report = Err e -> is_evidence_error e = false.
Proof.
  unfold report_text, dumps. intros e [E|(x & _ & [=])]%bind_err. apply dump_check_error in E as [[m ->]|[m ->]]; done.
Qed.

Lemma foreign_put p b f : foreign (put_text created p b f).
Proof.
  unfold put_text. apply foreign_bind; [apply foreign_lift, foreign_io|]. intros _. apply foreign_bind; [by intros s s' e [=]|]. intros old.
  apply foreign_bind; [by intros s s' e [=]|]. intros _. apply foreign_lift, foreign_io.
Qed.

Lemma foreign_encode t : forall e, utf8_encode t = Err e -> is_evidence_error e = false.
Proof. unfold utf8_encode. destruct (existsb _ _); by intros e [= <-]. Qed.

Lemma foreign_rows rows : forall b e, encode_rows rows = (b, Err e) -> is_evidence_error e = false.
Proof.
  induction rows as [|row rows IH]; intros b e E; cbn [encode_rows] in E; [done|]. destruct (utf8_encode _) eqn:Er.
  - destruct (encode_rows rows) as [c x] eqn:Es. injection E as _ ->. by apply (IH c).
  - injection E as _ <-. by apply (foreign_encode _ _ Er).
Qed.

Lemma foreign_json report p : foreign (write_report float_repr created fo report p).
Proof.
  unfold write_report. apply foreign_bind; [apply foreign_lift, foreign_report|]. intros t.
  apply foreign_bind; [apply foreign_lift, foreign_encode|]. intros b. apply foreign_put.
Qed.
Lemma foreign_csv report p : foreign (write_csv py_str created expanduser report p fc).
Proof.
  unfold write_csv. destruct (encode_rows _) as [b x] eqn:E. apply foreign_bind; [apply foreign_put|]. intros _. apply foreign_lift.
  intros e ->. by apply (foreign_rows _ _ _ E).
Qed.

(** What a file holds after its part of the command. *)
Definition holds_json (report : dict) (p : str) (fs : FileSystem) : Prop := exists mode t b,
  fs !! p = Some (mode, b) /\ report_text float_repr report = Ok t /\ utf8_encode t = Ok b.
Definition holds_csv (report : dict) (p : str) (fs : FileSystem) : Prop := exists mode b,
  fs !! expanduser p = Some (mode, b) /\ encode_rows (csv_rows py_str (measurements_of report)) = (b, Ok tt).

Lemma json_written report p fs fs' : write_report float_repr created fo report p fs = (fs', Ok tt) -> holds_json report p fs'.
Proof.
  unfold write_report. intros (s1 & t & E1 & E)%se_bind_ok. apply lift_state in E1 as [-> Et].
  apply se_bind_ok in E as (s2 & b & E2 & E). apply lift_state in E2 as [-> Eb]. apply put_text_ok in E as [mode E]. by exists mode, t, b.
Qed.

Lemma csv_written report p fs fs' : write_csv py_str created expanduser report p fc fs = (fs', Ok tt) ->
  holds_csv report p fs' /\ forall q, q <> expanduser p -> fs' !! q = fs !! q.
Proof.
  unfold write_csv, holds_csv. destruct (encode_rows _) as [b x]. intros (s1 & [] & E1 & E)%se_bind_ok. apply lift_state in E as [-> ->]. split.
  - apply put_text_ok in E1 as [mode E1]. by exists mode, b.
  - intros q Hq. unfold put_text in E1. apply se_bind_ok in E1 as (s2 & [] & E2 & E). apply lift_state in E2 as [-> _].
    apply se_bind_ok in E as (s3 & old & [= <- <-] & E). apply se_bind_ok in E as (s4 & [] & [= <-] & E). apply lift_state in E as [-> _].
    by apply lookup_insert_ne.
Qed.

(** One of the two files, or none. *)
Lemma part_cases (m : SE FileSystem unit) fs : foreign m ->
  match refusing as_os_error EXIT_IO "io" (m ;; mret (Done EXIT_OK tt)) fs with
  | (fs', Ok (Done st x)) => st = EXIT_OK /\ m fs = (fs', Ok tt)
  | (fs', Ok (Refused st e)) => st = EXIT_IO
  | (fs', Err e) => is_evidence_error e = false
  end.
Proof.
  intros F. unfold refusing, se_try, mbind, se_bind. destruct (m fs) as [fs' [[]|e]] eqn:E; [done|].
  destruct (as_os_error e); [done|]. cbn. by apply (F fs fs').
Qed.

Lemma output_cases report fs :
  match write_output float_repr created a fo report fs with
  | (fs', Ok (Done st x)) => forall p, given (ba_output a) = Some p -> holds_json report p fs'
  | (fs', Ok (Refused st e)) => st = EXIT_IO
  | (fs', Err e) => is_evidence_error e = false
  end.
Proof.
  unfold write_output. destruct (given (ba_output a)) as [p|]; [|done]. pose proof (part_cases _ fs (foreign_json report p)) as K.
  destruct (refusing _ _ _ _ fs) as [fs' [[st x|st e]|e]]; [|exact K..]. destruct K as [-> K]. intros q [= <-]. by apply (json_written _ _ fs).
Qed.

Lemma reports_cases report fs :
  match write_reports py_str float_repr expanduser created a fo fc report fs with
  | (fs', Ok (Done st x)) => (forall p, given (ba_csv a) = Some p -> holds_csv report p fs') /\
      (forall p, given (ba_output a) = Some p -> given (ba_csv a) = None \/ (exists q, given (ba_csv a) = Some q /\ expanduser q <> p) -> holds_json report p fs')
  | (fs', Ok (Refused st e)) => st = EXIT_IO
  | (fs', Err e) => is_evidence_error e = false
  end.
Proof.
  unfold write_reports, mbind, se_bind. pose proof (output_cases report fs) as J.
  destruct (write_output float_repr created a fo report fs) as [fs1 [[st1 []|st1 e1]|e1]]; [|exact J..].
  unfold write_table. destruct (given (ba_csv a)) as [q|].
  - pose proof (part_cases _ fs1 (foreign_csv report q)) as K. destruct (refusing _ _ _ _ fs1) as [fs' [[st x|st e]|e]]; [|exact K..].
    destruct K as [-> K]. apply csv_written in K as [K1 K2]. split; [by intros p [= <-]|]. intros p Hp [[=]|(q' & [= <-] & Hq)].
    destruct (J p Hp) as (mode & t & b & F & R). exists mode, t, b. rewrite K2 by congruence. done.
  - split; [done|]. intros p Hp _. by apply J.
Qed.

(** C34. What the command's exit status says.  0: the suite ran, the CSV file holds the table of
    its measurements, and the JSON file the report - unless both options name one file, which
    then holds the table.  3 and 2: there is no backend, or the suite failed with an error of
    the evidence code; no file has been touched.  4: the suite ran, and a file could not be
    written.  An exception that escapes is never one of the evidence code's. *)
Theorem benchmark_status (fs : FileSystem) :
  match command fs with
  | (fs', Ok (Done st report)) => st = EXIT_OK /\ suite = Ok report /\
      (forall p, given (ba_csv a) = Some p -> holds_csv report p fs') /\
      (forall p, given (ba_output a) = Some p -> given (ba_csv a) = None \/ (exists q, given (ba_csv a) = Some q /\ expanduser q <> p) -> holds_json report p fs')
  | (fs', Ok (Refused st e)) =>
      (fs' = fs /\ exists x, suite = Err x /\ is_evidence_error x = true /\ st = if is_unavailable x then EXIT_NO_BACKEND else EXIT_USAGE) \/
      (st = EXIT_IO /\ exists report, suite = Ok report)
  | (fs', Err e) => is_evidence_error e = false
  end.
Proof.
  unfold cmd_benchmark. destruct suite as [report|e] eqn:Es.
  - pose proof (reports_cases report fs) as J. unfold mbind at 1, se_bind at 1.
    destruct (write_reports _ _ _ _ _ _ _ report fs) as [fs1 [[st1 []|st1 e1]|e1]]; [|right; eauto | exact J].
    destruct J as (J1 & J2). unfold mbind at 1, se_bind at 1. destruct (ba_json a || _); [|by split_and!].
    unfold lift at 1, mbind at 1, se_bind at 1. destruct (report_text float_repr report) eqn:Et; [by split_and!|]. by apply (foreign_report report).
  - destruct e; try (left; split; [done|]; by eexists); done.
Qed.
End Status.

(** ** Concrete runs *)
Definition bench_env : Environ := {| env_backend := TEST_BACKEND; env_production := [] |}.
Definition bench_backends : list (str * CryptoBackend) := [(TEST_BACKEND, InsecureTestBackend bench_env)].

(** A microsecond passes between two readings of the clock. *)
Definition bench_machine : Machine := {|
  mc_clock := fun i => 5000000000 + 1000 * Z.of_nat i; mc_random := fun _ => lit "seed"; mc_entropy := fun _ => {| en_kem := []; en_salt := []; en_nonce := [] |};
  mc_iso := fun _ => sample_now; mc_now := sample_now; mc_workdirs := (IoOk, IoOk);
  mc_create_faults := create_faultless; mc_decrypt_faults := {| df_scratch := IoOk; df_ciphertext := IoOk; df_sync := IoOk; df_replace := IoOk; df_chmod := IoOk; df_unlink := true |};
  mc_process_time := 1500000; mc_maxrss := 20480; mc_darwin := false; mc_openssl := Some (lit "OpenSSL 3.5.0");
  mc_cpuinfo := Content (lit "processor : 0" ++ [10] ++ lit "Model name  : ARM Cortex-A72" ++ [10]);
  mc_platform := lit "Linux"; mc_machine := lit "aarch64"; mc_processor := []; mc_cpu_count := Some 4; mc_python_version := lit "3.11.2";
  mc_python_implementation := lit "CPython"; mc_provider := lit "builtin"; mc_version := lit "1" |}.

Definition bench_suite : BenchmarkSuite := {|
  bs_algorithm := DEFAULT_SIGNATURE_ALGORITHM; bs_iterations := 1; bs_chain_events := 2; bs_include_archive := false;
  bs_backend := InsecureTestBackend bench_env |}.
Definition bench_key : bytes := TEST_KEY_MARKER ++ lit "-seed".
Definition bench_pair : KeyPair := {|
  kp_algorithm := DEFAULT_SIGNATURE_ALGORITHM; kp_public := bench_key; kp_private := bench_key; kp_backend := TEST_BACKEND |}.
Definition bench_signer : EvidenceSigner := {|
  sn_node_id := node_id; sn_key_id := key_id; sn_private_key := bench_key;
  sn_algorithm := DEFAULT_SIGNATURE_ALGORITHM; sn_hash_algorithm := DEFAULT_HASH_ALGORITHM;
  sn_backend := InsecureTestBackend bench_env; sn_real_pqc := false |}.
Definition bench_record : KeyRecord := {|
  kr_key_id := key_id; kr_node_id := node_id; kr_algorithm := DEFAULT_SIGNATURE_ALGORITHM;
  kr_public_key := b64encode bench_key; kr_created_at := sample_now; kr_activated_at := sample_now;
  kr_expires_at := None; kr_state := ACTIVE; kr_revocation_reason := VNone; kr_revoked_at := VNone; kr_metadata := [] |}.
Definition bench_collector : EvidenceCollector := {|
  co_registry := [bench_record]; co_max_results := 10000; co_max_record_bytes := MAX_EVIDENCE_BYTES;
  co_verifier := {| ev_registry := [bench_record]; ev_backend := None; ev_allow_test_backend := true; ev_max_record_bytes := MAX_EVIDENCE_BYTES |} |}.

Lemma bench_able : able bench_signer.
Proof.
  split; [vm_compute; reflexivity..|]. intros m. exists (hmac_sha3_256 bench_key m). split; [reflexivity|].
  assert (exists x, hmac_sha3_256 bench_key m = sha3_256 x) as [x ->] by (unfold hmac_sha3_256, hmac; eexists; reflexivity).
  destruct (sha3_256_spec x) as [L _]. by destruct (sha3_256 x).
Qed.

Lemma bench_trusted : trusted bench_signer bench_env bench_backends (co_verifier bench_collector).
Proof.
  split. exists bench_record, bench_key, (InsecureTestBackend bench_env).
  split; [reflexivity|]. split; [vm_compute; reflexivity|]. split; [reflexivity|].
  intros m sg H. change (Ok (hmac_sha3_256 bench_key m) = Ok sg) in H. injection H as <-.
  assert (exists x, hmac_sha3_256 bench_key m = sha3_256 x) as [x Hx] by (unfold hmac_sha3_256, hmac; eexists; reflexivity).
  destruct (sha3_256_spec x) as [L B]. rewrite <- Hx in L, B.
  split; [exact B|]. split; [unfold zlen; rewrite L; lia|].
  change (Ok (str_eqb (hmac_sha3_256 bench_key m) (hmac_sha3_256 bench_key m)) = Ok true). by rewrite str_eqb_refl.
Qed.

Lemma bench_timely : timely bench_signer (co_verifier bench_collector) sample_now.
Proof. exists sample_now. by split; [vm_compute; reflexivity | split; vm_compute; reflexivity]. Qed.

Lemma bench_chain_hypotheses : 1 <= bs_chain_events bench_suite <= MAX_TRACKED_HASHES /\ name_ok (mc_now bench_machine) = true /\
  zlen (mc_now bench_machine) <= 100 /\ chain_signer bench_env bench_backends bench_suite bench_pair = Ok bench_signer /\
  chain_collector bench_machine bench_pair = Ok bench_collector.
Proof. split; [by compute|]. split; [by vm_compute|]. split; [by compute|]. split; [reflexivity | vm_compute; reflexivity]. Qed.

Lemma chain_counts_witness :
  (exists r' es report sizes sign_seconds verify_seconds,
    bench_chain bench_env bench_backends 50 no_str no_int bench_machine bench_suite bench_pair new_run = (r', Ok tt) /\
    map se_event es = chain_events bench_suite /\ sealed bench_signer (co_verifier bench_collector) es /\
    rn_measurements r' = [] ++ [
      signed_measurement bench_suite 2 (total sizes) (zlen (log_bytes (map entry_of es))) sign_seconds;
      verified_measurement bench_suite report verify_seconds] /\
    sr_verified report = 2 /\ sr_failed report = 0) \/ collision.
Proof.
  pose proof bench_chain_hypotheses as (H1 & H2 & H3 & H4 & H5).
  exact (chain_counts bench_env bench_backends 50 no_str no_int bench_machine bench_suite bench_pair bench_signer bench_collector new_run
    H1 (proj1 (Nat.leb_le 33 50) eq_refl) H2 H3 eq_refl H4 H5 bench_able bench_trusted (fun _ => bench_timely)).
Defined.

(** A source of a blank line, a line that is no JSON, a list and an event. *)
Definition mixed_source : list str := [lit "  "; lit "oops"; lit "[1, 2]"; dump plain 0 (VDict (chain_event 7)) ++ [13]].

Lemma mixed_readings : Forall2 (reads_line 50) mixed_source [Blank; Junk; Junk; Event (chain_event 7)].
Proof. repeat apply Forall2_cons_2; [..|constructor]; vm_compute; first [reflexivity | by split]. Qed.

Lemma sign_log_signs_everything_witness : exists d' report es',
  sign_log 50 no_str no_int sample_now [] (fun _ => sample_now) bench_signer mixed_source None None empty_disk = (d', Ok report) /\
  map se_event es' = [chain_event 7] /\ sealed bench_signer (co_verifier bench_collector) ([] ++ es') /\
  sg_signed report = 1 /\ sg_skipped report = 1 /\ sg_errors report = 2 /\
  evidence_at (map entry_of ([] ++ es')) d' /\ recovers bench_signer 50 no_str no_int ([] ++ es') d'.
Proof.
  apply (sign_log_signs_everything bench_signer bench_env bench_backends (co_verifier bench_collector) 50 no_str no_int sample_now []
    (fun _ => sample_now) mixed_source [Blank; Junk; Junk; Event (chain_event 7)] [] empty_disk bench_able bench_trusted
    (proj1 (Nat.leb_le 33 50) eq_refl)).
  - by vm_compute.
  - by compute.
  - apply empty_recovers; [by vm_compute | lia].
  - apply sealed_nil. by vm_compute.
  - exact mixed_readings.
  - apply Forall_cons. split; [|constructor]. apply event_signable. pose proof limit_large. unfold small_index. lia.
  - intros _. exact bench_timely.
  - by compute.
Defined.

Lemma bench_lawful : lawful bench_env bench_backends bench_machine bench_suite bench_pair.
Proof.
  pose proof bench_chain_hypotheses as (_ & _ & _ & H4 & H5). split.
  - intros m. by eexists.
  - intros m x. by eexists.
  - exists bench_signer, bench_collector. split; [exact H4|]. split; [exact H5|]. split; [exact bench_able|]. split; [exact bench_trusted|].
    intros i. exact bench_timely.
Qed.


(** The measurements of that run, without their times. *)
Definition extras_of (r : Run * res dict) : list (string * extras) := map (fun m => (ms_name m, ms_extra m)) (rn_measurements r.1).
Example suite_run : extras_of (run bench_env bench_backends 50 no_str no_int bench_machine bench_suite new_run) = [
  ("mldsa_keygen", []); ("mldsa_sign", [count "payload_bytes" 121]); ("mldsa_verify", []);
  ("sizes", [count "signature_bytes" 32; count "public_key_bytes" 38; count "private_key_bytes" 38]);
  ("signed_log_throughput", [count "events" 2; count "unsigned_bytes" 248; count "signed_bytes" 1118;
    (lit "storage_overhead_ratio", VFloat (float_of_decimal false 451 (-2))); count "bytes_per_event" 559]);
  ("chain_verification_throughput", [count "verified" 2; count "failed" 0])]%string.
Proof. vm_compute. reflexivity. Qed.

Example processor_line : cpu_model bench_machine = Ok (lit "ARM Cortex-A72").
Proof. reflexivity. Qed.

(** ** What the numbers do not say *)

(** A backend like the real ones in what matters here: it has a name, a key pair belongs to the
    algorithm it was made for, and a signature verifies under the public key of its private
    key, for the algorithm of that key. *)
Definition key_for (algorithm : str) : bytes := lit "key of " ++ algorithm.
Definition strict_backend (name : str) : CryptoBackend := {|
  bk_name := name;
  bk_capabilities := {| cap_name := name; cap_available := true; cap_signature_algorithms := ML_DSA_ALGORITHMS;
                        cap_kem_algorithms := []; cap_real_pqc := true |};
  bk_generate_keypair := fun _ a => Ok {| kp_algorithm := a; kp_public := key_for a; kp_private := key_for a; kp_backend := name |};
  bk_sign := fun private m _ => Ok (sha3_256 (private ++ name ++ m));
  bk_verify := fun public m sg a => Ok (str_eqb public (key_for a) && str_eqb sg (sha3_256 (public ++ name ++ m)));
  bk_kem_generate_keypair := fun _ _ => Err (BackendUnavailableError "no KEM");
  bk_kem_encapsulate := fun _ _ _ => Err (BackendUnavailableError "no KEM");
  bk_kem_decapsulate := fun _ _ _ => Err (BackendUnavailableError "no KEM") |}.
Definition two_backends : list (str * CryptoBackend) :=
  [(OPENSSL_BACKEND, strict_backend OPENSSL_BACKEND); (PYFIPS_BACKEND, strict_backend PYFIPS_BACKEND); (TEST_BACKEND, InsecureTestBackend no_env)].

Definition chain_extras (backend algorithm : str) : option extras :=
  match run_benchmarks no_env two_backends 50 no_str no_int bench_machine (Some backend) algorithm 1 2 false true with
  | Ok report => match measurements_of report with
                 | [_; _; _; _; _; m] => Some (omap (fun kv => match kv with (KStr k, v) => if str_in k [lit "verified"; lit "failed"] then Some (k, v) else None | _ => None end) m)
                 | _ => None
                 end
  | Err _ => None
  end.

(** The defaults: the preferred backend, ML-DSA-65. *)
Example default_run : chain_extras OPENSSL_BACKEND DEFAULT_SIGNATURE_ALGORITHM = Some [count "verified" 2; count "failed" 0].
Proof. vm_compute. reflexivity. Qed.

(** Another [--algorithm]: the key pair is made for it, but the log is signed and the key
    registered as ML-DSA-65, so that no event verifies; the run reports success. *)
Example other_algorithm : chain_extras OPENSSL_BACKEND (lit "ML-DSA-87") = Some [count "verified" 0; count "failed" 2].
Proof. vm_compute. reflexivity. Qed.

(** Another [--backend]: the log is verified with the preferred backend all the same; where the
    two do not understand each other's signatures, no event verifies. *)
Example other_backend : chain_extras TEST_BACKEND DEFAULT_SIGNATURE_ALGORITHM = Some [count "verified" 0; count "failed" 2].
Proof. vm_compute. reflexivity. Qed.

(** A clock too coarse for the operation: the rate is infinite, and the report, printed as JSON,
    holds a word that is not JSON. *)
Definition stuck : Machine := {|
  mc_clock := fun _ => 7; mc_random := mc_random bench_machine; mc_entropy := mc_entropy bench_machine; mc_iso := mc_iso bench_machine;
  mc_now := sample_now; mc_workdirs := (IoOk, IoOk); mc_create_faults := create_faultless; mc_decrypt_faults := mc_decrypt_faults bench_machine;
  mc_process_time := 0; mc_maxrss := 0; mc_darwin := false; mc_openssl := None; mc_cpuinfo := Missing; mc_platform := []; mc_machine := [];
  mc_processor := []; mc_cpu_count := None; mc_python_version := []; mc_python_implementation := []; mc_provider := []; mc_version := [] |}.

Example infinite_rate : match time_it stuck "noop" 3 (mret tt) [] new_run with
  | (_, Ok (m, _)) => dict_get (to_dict m) (lit "ops_per_second") = Some (VFloat (S754_infinity false)) /\
      dumps (report_cfg (fun _ => lit "0.0")) (VDict [(KStr (lit "x"), VFloat (ms_ops_per_second m))]) = Ok (lit "{" ++ [10; 32; 32; 34] ++ lit "x" ++ [34] ++ lit ": Infinity" ++ [10] ++ lit "}")
  | _ => False
  end.
Proof. vm_compute. by split. Qed.

(** A measurement whose text holds a comma and a quote, and one with a field of its own. *)
Definition tricky_report : dict := as_dict [(lit "measurements", VList [
  VDict (as_dict [(lit "name", VStr (lit "a,b" ++ [34; 10])); (lit "n", VInt (-3))]);
  VDict (as_dict [(lit "name", VStr []); (lit "reason", VNone); (lit "ok", VBool true)])])].

Lemma csv_file_reads_back_witness : exists fs' mode b text rows,
  write_csv no_str 420 (fun p => p) tricky_report (lit "out.csv") {| fl_open := IoOk; fl_write := IoOk |} ∅ = (fs', Ok tt) /\
  fs' !! lit "out.csv" = Some (mode, b) /\ utf8_decode b = Ok text /\
  read_csv text = Some (map lit ["name"; "n"; "reason"; "ok"]%string :: rows).
Proof.
  destruct (write_csv no_str 420 (fun p => p) tricky_report (lit "out.csv") {| fl_open := IoOk; fl_write := IoOk |} ∅) as [fs' [[]|e]] eqn:E;
    [|exfalso; vm_compute in E; discriminate E].
  destruct (csv_file_reads_back no_str 420 (fun p => p) tricky_report (lit "out.csv") _ ∅ fs' E ltac:(by vm_compute)) as (mode & b & text & rows & H1 & H2 & H3 & _).
  - apply rows_text. by vm_compute.
  - exists fs', mode, b, text, rows. split_and!; done.
Defined.
