(* ===== verification/Release.v ===== *)
(** The release builder: [src/scripts/make_release.py].

    The repository is the list of its files - their path components below the root and their
    bytes, [None] when reading them fails.  What [zipfile] makes of the entries is an
    argument, as is the text of [pyproject.toml]. *)
From S2P Require Import Prelude PyText PyStr Json JsonFacts Hashes Models.

(** ** Paths of components *)

(** [as_posix] *)
Definition as_posix (p : path) : str := join [47] p.
Definition name_of (p : path) : str := default [] (last p).

(** The order of [Path]: components, lexicographically. *)
Fixpoint path_ltb (a b : path) : bool :=
  match a, b with
  | [], _ :: _ => true
  | x :: a, y :: b => str_ltb x y || (str_eqb x y && path_ltb a b)
  | _, [] => false
  end.

(** [sub in s] *)
Fixpoint contains (sub s : list Z) : bool :=
  starts_with sub s || match s with [] => false | _ :: s => contains sub s end.

(** [data.replace]: CRLF to LF. *)
Fixpoint to_lf (b : bytes) : bytes :=
  match b with
  | [] => []
  | 13 :: 10 :: r => 10 :: to_lf r
  | x :: r => x :: to_lf r
  end.

(** ** What belongs in a release *)
Definition INCLUDE : list str := map lit
  [".env.example"; ".gitattributes"; ".github"; ".gitignore"; "BUG_FIX_SUMMARY.md"; "CHANGELOG.md"; "CITATION.cff";
   "CONTRIBUTING.md"; "GITHUB_UPLOAD_CHECKLIST.md"; "LICENSE"; "Makefile"; "README.md"; "RELEASE_NOTES.md"; "SECURITY.md";
   "VALIDATION_REPORT.md"; "config"; "data"; "docs"; "pyproject.toml"; "scripts"; "src"; "tests"]%string.
Definition FORBIDDEN_DIRS : list str := map lit
  [".git"; ".mypy_cache"; ".pytest_cache"; ".ruff_cache"; ".venv"; "__pycache__"; "archives"; "benchmarks"; "build"; "dist";
   "keys"; "node_modules"; "runtime"; "venv"]%string.
Definition FORBIDDEN_SUFFIXES : list str := map lit
  [".a"; ".cap"; ".jsonl"; ".key"; ".log"; ".o"; ".pcap"; ".pcapng"; ".pem"; ".pqcarch"; ".pyc"; ".pyd"; ".pyo"; ".so"]%string.
Definition FORBIDDEN_NAMES : list str := map lit
  [".env"; "config/controller.json"; "id_rsa"; "plc_state.json"; "registry.json"]%string.
Definition EXECUTABLE : list str := map lit ["scripts/deploy_rpi.sh"; "scripts/make_release.py"]%string.
Definition CRLF_SENSITIVE : list str := map lit [".sh"; ".py"; ".toml"; ".cff"; ".yml"; ".yaml"; ".json"; ".md"]%string.
Definition CRLF_SENSITIVE_NAMES : list str := map lit ["Makefile"; ".gitignore"; ".env.example"]%string.

Definition is_forbidden_dir (part : str) : bool :=
  str_in part FORBIDDEN_DIRS || ends_with (lit ".egg-info") part || ends_with (lit ".dist-info") part.

(** What stands behind the first equals sign, without blanks, then double, then single quotes. *)
Definition version_value (line : str) : res str :=
  match partition 61 line with
  | None => Err IndexError
  | Some (_, v) => Ok (strip_with (fun c => c =? 39) (strip_with (fun c => c =? 34) (strip v)))
  end.

Fixpoint version_line (lines : list str) : res str :=
  match lines with
  | [] => Ok (lit "0.0.0")
  | line :: lines => if starts_with (lit "version") line then version_value line else version_line lines
  end.
Definition project_version (text : str) : res str := version_line (splitlines text []).

(** ** The file list *)
Abbreviation Tree := (list (path * option bytes)).

Definition read_file (tree : Tree) (p : path) : res bytes :=
  match List.find (fun f => bool_decide (f.1 = p)) tree with
  | Some (_, Some b) => Ok b
  | _ => Err (OSError "cannot read file")
  end.

(** The files at or below one entry of the list. *)
Definition collect_entry (tree : Tree) (entry : str) : list path :=
  if existsb (fun f => bool_decide (f.1 = [entry])) tree then [[entry]]
  else List.filter (fun p => match p with e :: _ :: _ => str_eqb e entry && negb (existsb is_forbidden_dir p) | _ => false end)
         (map fst tree).

Definition collect_files (tree : Tree) : list path :=
  sort_by path_ltb (remove_dups (concat (map (collect_entry tree) INCLUDE))).

(** A problem: its kind and the path it names. *)
Definition hygiene_of (tree : Tree) (p : path) : list (string * str) :=
  let posix := as_posix p in
  (if existsb is_forbidden_dir p then [("forbidden directory"%string, posix)] else []) ++
  (if str_in (lower (suffix posix)) FORBIDDEN_SUFFIXES then [("forbidden file type"%string, posix)] else []) ++
  (if str_in posix FORBIDDEN_NAMES || str_in (name_of p) FORBIDDEN_NAMES then [("forbidden file"%string, posix)] else []) ++
  match read_file tree p with
  | Ok data => if contains (lit "-----BEGIN") (slice data 0 200) && contains (lit "PRIVATE KEY") (slice data 0 200)
               then [("private key"%string, posix)] else []
  | Err _ => []
  end.
Definition check_hygiene (tree : Tree) (files : list path) : list (string * str) := concat (map (hygiene_of tree) files).

Definition needs_lf_name (suffix_ name : str) : bool := str_in suffix_ CRLF_SENSITIVE || str_in name CRLF_SENSITIVE_NAMES.
Definition needs_lf (p : path) : bool := needs_lf_name (suffix (as_posix p)) (name_of p).

Definition archive_bytes (tree : Tree) (p : path) : res bytes :=
  data ← read_file tree p; Ok (if needs_lf p then to_lf data else data).

(** ** The archive *)
Record Entry := { en_name : str; en_mode : Z; en_data : bytes }.

(** [writestr] under mode 0o755 (493) or 0o644 (420): the bytes are read first, then the name is encoded. *)
Definition entry_of (tree : Tree) (prefix : str) (p : path) : res Entry :=
  data ← archive_bytes tree p;
  let name := prefix ++ 47 :: as_posix p in
  utf8_encode name ;;
  Ok {| en_name := name; en_mode := if str_in (as_posix p) EXECUTABLE then 493 else 420; en_data := data |}.

(** The entries written before the end or the first failure: the archive is closed on both. *)
Fixpoint build_zip (tree : Tree) (files : list path) (prefix : str) : list Entry * res unit :=
  match files with
  | [] => ([], Ok tt)
  | p :: files =>
    match entry_of tree prefix p with
    | Err e => ([], Err e)
    | Ok e => let '(entries, r) := build_zip tree files prefix in (e :: entries, r)
    end
  end.

(** What is checked on an entry, [Path(name)] being its components. *)
Definition entry_problems (e : Entry) : list (string * str) :=
  let name := en_name e in
  let pieces := split_on 47 name [] in
  (if needs_lf_name (suffix name) (name_of (parts name)) && contains [13; 10] (en_data e)
   then [("CRLF line endings"%string, name)] else []) ++
  (if existsb (fun c => c =? 92) name then [("backslash in entry name"%string, name)] else []) ++
  (if starts_with [47] name || existsb (fun p => str_eqb p [46; 46]) pieces then [("unsafe entry name"%string, name)] else []) ++
  (if existsb is_forbidden_dir pieces then [("forbidden directory in archive"%string, name)] else []) ++
  (if str_in (lower (suffix name)) FORBIDDEN_SUFFIXES then [("forbidden file type in archive"%string, name)] else []).

(** The modes as in [mode & 0o777 & 0o111]. *)
Definition mode_problems (entries : list Entry) (executable : str) : list (string * str) :=
  map (fun e => ("lost its executable bit"%string, en_name e))
    (List.filter (fun e => ends_with executable (en_name e) && (Z.land (Z.land (en_mode e) 511) 73 =? 0)) entries).

(** [corrupt] is what [testzip] answers. *)
Definition verify_zip (corrupt : option str) (entries : list Entry) : list (string * str) :=
  match corrupt with Some name => [("corrupt entry"%string, name)] | None => [] end ++
  concat (map entry_problems entries) ++ concat (map (mode_problems entries) EXECUTABLE).

(** ** Checksums: a line per file of the output directory, in order of their names *)
Definition checksum_line (f : str * bytes) : str := hex (sha256 f.2) ++ [32; 32] ++ f.1.
Definition write_checksums (directory : list (str * bytes)) : str :=
  let files := List.filter (fun f => negb (str_eqb f.1 (lit "SHA256SUMS"))) (sort_by (fun a b => str_ltb a.1 b.1) directory) in
  join [10] (map checksum_line files) ++ [10].

(** ** [main]: the output directory, the unpacked tree if one is kept, and the exit status *)
Record Output := { ou_files : list (str * bytes); ou_directory : option (list (path * bytes)) }.
Definition put_file (name : str) (data : bytes) (o : Output) : Output :=
  {| ou_files := List.filter (fun f => negb (str_eqb f.1 name)) (ou_files o) ++ [(name, data)]; ou_directory := ou_directory o |}.
Definition keep_directory (d : list (path * bytes)) (o : Output) : Output := {| ou_files := ou_files o; ou_directory := Some d |}.

Definition build_directory (tree : Tree) (files : list path) : res (list (path * bytes)) :=
  map_res (fun p => data ← archive_bytes tree p; Ok (p, data)) files.

Section Main.
Context (zip_bytes : list Entry -> bytes) (testzip : list Entry -> option str).

Definition release (tree : Tree) (pyproject name : str) (keep : bool) : SE Output Z :=
  version ← lift (project_version pyproject);
  let prefix := name ++ lit "-v" ++ version in
  let files := collect_files tree in
  match check_hygiene tree files with
  | _ :: _ => mret 1
  | [] =>
    let '(entries, built) := build_zip tree files prefix in
    modify (put_file (prefix ++ lit ".zip") (zip_bytes entries)) ;;
    lift built ;;
    match verify_zip (testzip entries) entries with
    | _ :: _ => mret 1
    | [] =>
      (if keep then directory ← lift (build_directory tree files); modify (keep_directory directory) else mret tt) ;;
      here ← gets ou_files;
      modify (put_file (lit "SHA256SUMS") (write_checksums here)) ;;
      mret 0
    end
  end.
End Main.

(** ** Order of paths *)
Lemma path_ltb_irrefl a : path_ltb a a = false.
Proof. induction a as [|x a IH]; simpl; [done|]. by rewrite str_ltb_irrefl, str_eqb_refl. Qed.

Lemma path_ltb_trans a : forall b c, path_ltb a b = true -> path_ltb b c = true -> path_ltb a c = true.
Proof.
  induction a as [|x a IH]; intros [|y b] [|z c]; simpl; try done.
  rewrite !orb_true_iff, !andb_true_iff, !str_eqb_eq.
  intros [?|[-> ?]] [?|[-> ?]]; [left; by eapply str_ltb_trans | by left | by left | right; eauto].
Qed.

Lemma path_ltb_total a : forall b, path_ltb a b = false -> path_ltb b a = false -> a = b.
Proof.
  induction a as [|x a IH]; intros [|y b]; simpl; try done.
  rewrite !orb_false_iff, !andb_false_iff, !str_eqb_neq. intros [L H1] [L' H2].
  assert (x = y) as -> by (by apply str_ltb_total). f_equal. apply IH; [by destruct H1 | by destruct H2].
Qed.

Definition path_le (a b : path) : Prop := path_ltb b a = false.

#[export] Instance path_le_trans : Transitive path_le.
Proof.
  intros a b c H1 H2. unfold path_le in *. destruct (path_ltb c a) eqn:E; [|done]. destruct (path_ltb a b) eqn:E1.
  - by rewrite (path_ltb_trans _ _ _ E E1) in H2.
  - assert (a = b) as -> by (by apply path_ltb_total). congruence.
Qed.

Lemma sort_paths_sorted l : Sorted path_le (sort_by path_ltb l).
Proof.
  induction l as [|x l IH]; simpl; [constructor|]. induction IH as [|y r Hr IHr Hy]; simpl; [by repeat constructor|].
  destruct (path_ltb y x) eqn:E; [|constructor; [by constructor | by constructor]]. constructor; [done|].
  assert (path_le y x) as Hyx.
  { unfold path_le. destruct (path_ltb x y) eqn:E2; [|done]. pose proof (path_ltb_trans _ _ _ E E2) as H. by rewrite path_ltb_irrefl in H. }
  destruct r as [|z r]; simpl; [by constructor|]. inv Hy. case_match; by constructor.
Qed.

(** Sorting forgets the order a list came in. *)
Lemma sort_paths_permute l l' : l ≡ₚ l' -> sort_by path_ltb l = sort_by path_ltb l'.
Proof.
  intros Hp. apply (Sorted_unique_strong path_le).
  - intros x y _ _ H1 H2. by apply path_ltb_total.
  - apply sort_paths_sorted.
  - apply sort_paths_sorted.
  - by rewrite !sort_by_perm.
Qed.

(** ** The file list *)
Lemma collect_entry_elem tree entry p : p ∈ collect_entry tree entry ->
  p ∈ tree.*1 /\ head p = Some entry /\ (p = [entry] \/ existsb is_forbidden_dir p = false).
Proof.
  unfold collect_entry. destruct (existsb _ tree) eqn:X.
  - intros ->%list_elem_of_singleton. split_and!; [|done | by left]. apply existsb_exists in X as ([q b] & Hq & E).
    apply bool_decide_eq_true in E. simpl in E. subst q. apply list_elem_of_In in Hq. by apply (list_elem_of_fmap_2 fst) in Hq.
  - intros H. apply list_elem_of_In, filter_In in H as [H F]. apply list_elem_of_In in H. destruct p as [|e [|x p]]; try done.
    bool_prop. apply str_eqb_eq in H0 as ->. split_and!; [done | done | by right].
Qed.

Lemma collect_elem tree p : p ∈ collect_files tree -> p ∈ tree.*1 /\ exists entry, entry ∈ INCLUDE /\ head p = Some entry.
Proof.
  unfold collect_files. rewrite sort_by_perm, elem_of_remove_dups, list_elem_of_In, in_concat. intros (l & Hl & Hp).
  apply in_map_iff in Hl as (entry & <- & He). apply list_elem_of_In in He, Hp. apply collect_entry_elem in Hp as (? & ? & _). eauto.
Qed.

Lemma collect_permute tree tree' : tree ≡ₚ tree' -> collect_files tree = collect_files tree'.
Proof.
  intros Hp. unfold collect_files. apply sort_paths_permute. apply NoDup_Permutation; [apply NoDup_remove_dups.. |].
  intros p. rewrite !elem_of_remove_dups, !list_elem_of_In, !in_concat.
  assert (forall t t' : Tree, t ≡ₚ t' -> (exists l, In l (map (collect_entry t) INCLUDE) /\ In p l) ->
    exists l, In l (map (collect_entry t') INCLUDE) /\ In p l) as G; [|split; by apply G].
  intros t t' P (l & Hl & H). apply in_map_iff in Hl as (entry & <- & He). exists (collect_entry t' entry).
  split; [by apply in_map|]. unfold collect_entry in *.
  assert (existsb (fun f : path * option bytes => bool_decide (f.1 = [entry])) t' =
    existsb (fun f => bool_decide (f.1 = [entry])) t) as ->.
  { apply eq_true_iff_eq. rewrite !existsb_exists. setoid_rewrite <- list_elem_of_In. by setoid_rewrite P. }
  destruct (existsb _ t); [done|]. rewrite filter_In in *. destruct H as [H ?]. split; [|done].
  apply list_elem_of_In. apply list_elem_of_In in H. by rewrite <- P.
Qed.

Lemma read_permute tree tree' p : NoDup tree.*1 -> tree ≡ₚ tree' -> read_file tree p = read_file tree' p.
Proof.
  intros N P. assert (NoDup tree'.*1) as N' by (by rewrite <- P). unfold read_file.
  assert (forall t t' : Tree, NoDup t'.*1 -> t ≡ₚ t' -> forall f, List.find (fun f => bool_decide (f.1 = p)) t = Some f ->
    List.find (fun f => bool_decide (f.1 = p)) t' = Some f) as G.
  { intros t t' Nt Pt f F. apply find_some in F as [F E]. destruct (List.find _ t') as [g|] eqn:X.
    - apply find_some in X as [X E']. apply bool_decide_eq_true in E, E'. f_equal. apply (NoDup_fst_eq t'); [done | by apply list_elem_of_In | | congruence].
      rewrite <- Pt. by apply list_elem_of_In.
    - apply list_elem_of_In in F. rewrite Pt in F. apply list_elem_of_In in F. by rewrite (find_none _ _ X f F) in E. }
  destruct (List.find (fun f => bool_decide (f.1 = p)) tree) as [f|] eqn:F; [by rewrite (G _ _ N' P f F)|].
  destruct (List.find (fun f => bool_decide (f.1 = p)) tree') as [f|] eqn:F'; [|done].
  symmetry in P. by rewrite (G _ _ N P f F') in F.
Qed.

(** Reproducible: the release depends on the files alone, not on the order in which the
    file system lists them - the exit status, the archive, the checksums and the unpacked
    tree are the same. *)
Theorem release_reproducible zip_bytes testzip tree tree' pyproject name keep o : NoDup tree.*1 -> tree ≡ₚ tree' ->
  release zip_bytes testzip tree pyproject name keep o = release zip_bytes testzip tree' pyproject name keep o.
Proof.
  intros N P. unfold release. rewrite (collect_permute _ _ P).
  assert (forall p, archive_bytes tree p = archive_bytes tree' p) as A by (intros p; unfold archive_bytes; by rewrite (read_permute _ _ _ N P)).
  assert (forall l, check_hygiene tree l = check_hygiene tree' l) as ->.
  { intros l. unfold check_hygiene. f_equal. apply map_ext. intros p. unfold hygiene_of. by rewrite (read_permute _ _ _ N P). }
  assert (forall l prefix, build_zip tree l prefix = build_zip tree' l prefix) as B.
  { induction l as [|p l IH]; intros prefix; [done|]. cbn [build_zip]. unfold entry_of. by rewrite A, IH. }
  assert (forall l, build_directory tree l = build_directory tree' l) as D.
  { unfold build_directory. induction l as [|p l IH]; [done|]. cbn [map_res]. by rewrite A, IH. }
  destruct (project_version pyproject) as [v|]; [|done]. unfold mbind at 1 2, se_bind at 1 2, lift at 1 2. cbv beta iota zeta.
  rewrite B. destruct (check_hygiene tree' (collect_files tree')); [|done]. by rewrite D.
Qed.

(** ** What is released is clean *)
Record clean_path (tree : Tree) (p : path) : Prop := {
  cp_dirs : Forall (fun part => is_forbidden_dir part = false) p;
  cp_suffix : lower (suffix (as_posix p)) ∉ FORBIDDEN_SUFFIXES;
  cp_posix : as_posix p ∉ FORBIDDEN_NAMES;
  cp_name : name_of p ∉ FORBIDDEN_NAMES;
  cp_key : forall data, read_file tree p = Ok data ->
    contains (lit "-----BEGIN") (slice data 0 200) = false \/ contains (lit "PRIVATE KEY") (slice data 0 200) = false;
}.

Record clean_entry (e : Entry) : Prop := {
  ce_lines : needs_lf_name (suffix (en_name e)) (name_of (parts (en_name e))) = true -> contains [13; 10] (en_data e) = false;
  ce_slashes : 92 ∉ en_name e;
  ce_relative : starts_with [47] (en_name e) = false;
  ce_pieces : Forall (fun piece => piece <> [46; 46] /\ is_forbidden_dir piece = false) (split_on 47 (en_name e) []);
  ce_suffix : lower (suffix (en_name e)) ∉ FORBIDDEN_SUFFIXES;
  ce_mode : forall x, x ∈ EXECUTABLE -> ends_with x (en_name e) = true -> Z.land (Z.land (en_mode e) 511) 73 <> 0;
}.

Lemma str_in_false s l : str_in s l = false <-> s ∉ l.
Proof. rewrite <- str_in_elem. by destruct (str_in s l); split. Qed.

Lemma existsb_false {A} (f : A -> bool) l : existsb f l = false <-> Forall (fun x => f x = false) l.
Proof.
  induction l as [|x l IH]; simpl; [done|]. rewrite orb_false_iff, Forall_cons, IH. done.
Qed.

Lemma no_problem {A} (c : bool) (x : A) : (if c then [x] else []) = [] <-> c = false.
Proof. by destruct c. Qed.

Lemma concat_nil_iff {A B} (f : A -> list B) l : concat (map f l) = [] <-> Forall (fun x => f x = []) l.
Proof.
  induction l as [|x l IH]; simpl; [done|]. rewrite app_nil, Forall_cons, IH. done.
Qed.

Lemma hygiene_clean tree p : hygiene_of tree p = [] -> clean_path tree p.
Proof.
  unfold hygiene_of. cbv zeta. rewrite !app_nil, !no_problem. intros (D & S & N & K). apply orb_false_iff in N as [N1 N2].
  apply str_in_false in S, N1, N2. apply existsb_false in D. split; try done. intros data R. rewrite R in K.
  by apply no_problem, andb_false_iff in K.
Qed.

Lemma entry_clean e : entry_problems e = [] -> Forall (fun x => forall e', e' ∈ [e] -> mode_problems [e'] x = []) EXECUTABLE -> clean_entry e.
Proof.
  unfold entry_problems. cbv zeta. rewrite !app_nil, !no_problem. intros (L & B & R & D & S) M.
  apply orb_false_iff in R as [R1 R2]. apply existsb_false in D, R2, B. apply str_in_false in S. split; try done.
  - intros N. rewrite N in L. done.
  - intros H. rewrite Forall_forall in B. by specialize (B _ H).
  - rewrite Forall_forall in *. intros x Hx. split; [|by apply D]. intros ->. by specialize (R2 _ Hx).
  - intros x Hx He Z. rewrite Forall_forall in M. specialize (M x Hx e ltac:(left)). unfold mode_problems in M. cbn [List.filter] in M.
    rewrite He, Z in M. done.
Qed.

Lemma modes_single entries x : mode_problems entries x = [] -> Forall (fun e => mode_problems [e] x = []) entries.
Proof.
  unfold mode_problems. induction entries as [|e l IH]; intros H; [done|]. cbn [List.filter] in H |- *.
  destruct (ends_with x (en_name e) && _) eqn:E; [done|]. constructor; [cbn [List.filter]; by rewrite E|]. by apply IH.
Qed.

Lemma verified_clean entries : verify_zip None entries = [] -> Forall clean_entry entries.
Proof.
  unfold verify_zip. cbn [app]. rewrite app_nil, !concat_nil_iff. intros [P M]. rewrite Forall_forall in P. pose proof (proj1 (Forall_forall _ _) M) as M2. cbv beta in M2. rewrite Forall_forall. intros e He.
  apply entry_clean; [by apply P|]. rewrite Forall_forall. intros x Hx e' ->%list_elem_of_singleton.
  pose proof (modes_single entries x (M2 x Hx)) as Q. rewrite Forall_forall in Q. by apply Q.
Qed.

Lemma build_spec tree prefix files : forall entries, build_zip tree files prefix = (entries, Ok tt) ->
  Forall2 (fun p e => entry_of tree prefix p = Ok e) files entries.
Proof.
  induction files as [|p files IH]; intros entries E; cbn [build_zip] in E; [injection E as <-; constructor|].
  destruct (entry_of tree prefix p) as [e|x] eqn:H; [|done]. destruct (build_zip tree files prefix) as [l r].
  injection E as <- ->. constructor; [done | by apply IH].
Qed.

Definition zip_name (prefix : str) : str := prefix ++ lit ".zip".

Lemma zip_not_sums prefix : zip_name prefix <> lit "SHA256SUMS".
Proof. unfold zip_name. intros E. apply (f_equal (@rev Z)) in E. rewrite rev_app_distr in E. discriminate E. Qed.


(** ** Line endings *)

(** CRLF survives the normalisation exactly where a second carriage return stands before it. *)
Lemma to_lf_crlf n : forall b, (length b <= n)%nat -> contains [13; 10] (to_lf b) = contains [13; 13; 10] b.
Proof.
  induction n as [|n IH]; intros b Hn; [by destruct b; [|simpl in Hn; lia]|]. destruct b as [|x b]; [done|]. simpl in Hn.
  destruct (decide (x = 13)) as [->|X].
  2: { assert (to_lf (x :: b) = x :: to_lf b) as ->.
       { destruct x as [|q|q]; try done. do 4 (destruct q; try done). }
       cbn [contains]. assert (starts_with [13; 10] (x :: to_lf b) = false) as -> by (apply str_eqb_neq; cbn; congruence).
       assert (starts_with [13; 13; 10] (x :: b) = false) as -> by (apply str_eqb_neq; cbn; congruence). apply IH. lia. }
  destruct b as [|y b]; [done|]. simpl in Hn. destruct (decide (y = 10)) as [->|Y].
  { change (to_lf (13 :: 10 :: b)) with (10 :: to_lf b). cbn [contains]. rewrite IH by lia. done. }
  assert (to_lf (13 :: y :: b) = 13 :: to_lf (y :: b)) as -> by (destruct y as [|q|q]; try done; do 4 (destruct q; try done)).
  cbn [contains]. change (contains [13; 10] (to_lf (y :: b))) with (contains [13; 10] (to_lf (y :: b))).
  rewrite (IH (y :: b)) by (simpl; lia). cbn [contains]. f_equal.
  destruct (decide (y = 13)) as [->|Y'].
  - destruct b as [|z b]; [done|]. destruct (decide (z = 10)) as [->|Z]; [done|].
    assert (to_lf (13 :: z :: b) = 13 :: to_lf (z :: b)) as -> by (destruct z as [|q|q]; try done; do 4 (destruct q; try done)).
    transitivity false; [apply str_eqb_neq; cbn; congruence | symmetry; apply str_eqb_neq; cbn; congruence].
  - assert (to_lf (y :: b) = y :: to_lf b) as -> by (destruct y as [|q|q]; try done; do 4 (destruct q; try done)).
    transitivity false; [apply str_eqb_neq; cbn; congruence | symmetry; apply str_eqb_neq; cbn; congruence].
Qed.

Example crlf_survives : archive_bytes [([lit "a.sh"], Some [13; 13; 10])] [lit "a.sh"] = Ok [13; 10].
Proof. vm_compute. reflexivity. Qed.

(** ** A small release *)
Definition sample_tree : Tree := [
  ([lit "src"; lit "a.py"], Some (lit "x=1" ++ [13; 10])); ([lit "README.md"], Some (lit "hello"));
  ([lit "src"; lit "__pycache__"; lit "a.pyc"], Some [0]); ([lit "notes.txt"], Some [])].
Definition sample_zip (l : list Entry) : bytes := concat (map en_data l).
Definition sample_output : Output := {| ou_files := [(lit "SHA256SUMS", [1])]; ou_directory := None |}.
Notation sample_release tree := (release sample_zip (fun _ => None) tree (lit "version = '2.0'") (lit "F") false sample_output).

Lemma release_reproducible_witness : sample_tree ≡ₚ rev sample_tree /\
  sample_release sample_tree = sample_release (rev sample_tree) /\ is_ok (sample_release sample_tree).2 = true.
Proof.
  split; [apply Permutation_rev|]. split; [|vm_compute; reflexivity].
  apply (release_reproducible sample_zip (fun _ => None) sample_tree (rev sample_tree)); [|apply Permutation_rev].
  apply (bool_decide_eq_true_1 _). vm_compute. reflexivity.
Defined.

