(* ===== verification/ArgTypes.v ===== *)
(** Validators of command-line values: [src/ics_deception/common/argtypes.py].

    [int(text, 10)] and [float(text)] are modelled as CPython reads them; a float is NaN, an
    infinity or a dyadic number, the two zeros being one. *)
From S2P Require Import Prelude PyText PyStr Json JsonFacts.

(** ** [int(text, 10)] *)
Section Integers.
Context (U : UnicodeDigits).

(** Blanks around it: the six of C, and Unicode's beyond ASCII. *)
Definition blank (c : Z) : bool := is_bspace c || ((127 <=? c) && is_space c).
Definition int_strip (text : str) : str := strip_with blank text.

Definition int_sign (text : str) : Z * str :=
  match text with
  | 43 :: r => (1, r)
  | 45 :: r => (-1, r)
  | r => (1, r)
  end.

(** Single underscores may stand between digits. *)
Definition ungrouped (digits : str) : res str :=
  let groups := split_on 95 digits [] in
  require (forallb (fun g => negb (str_eqb g [])) groups) (ValueError "invalid literal for int()") ;;
  Ok (concat groups).

Definition py_int (text : str) : res Z :=
  let '(sign, r) := int_sign (int_strip text) in
  digits ← ungrouped r;
  n ← int_of U digits;
  Ok (sign * n).

Definition argument_error {A} (m : string) : res A := Err (ArgumentTypeError m).

Definition bounded_int (minimum : Z) (maximum : option Z) (text : str) : res Z :=
  value ← try_with (py_int text) (fun e => match e with ValueError _ => argument_error "is not an integer" | e => Err e end);
  require (negb ((value <? minimum) || match maximum with Some m => m <? value | None => false end))
    (ArgumentTypeError "is out of range") ;;
  Ok value.

Definition positive_int : str -> res Z := bounded_int 1 None.
Definition non_negative_int : str -> res Z := bounded_int 0 None.
Definition port_number : str -> res Z := bounded_int 1 (Some 65535).
Definition register_address : str -> res Z := bounded_int 0 (Some 0xFFFF).
End Integers.

(** ** [float(text)] *)
Inductive pyfloat := NaN | Inf (negative : bool) | Dyadic (m e : Z).   (* [m * 2 ^ e] *)

(** [<]: false as soon as one side is NaN. *)
Definition float_lt (x y : pyfloat) : bool :=
  match x, y with
  | NaN, _ | _, NaN => false
  | Inf a, Inf b => a && negb b
  | Inf a, _ => a
  | _, Inf b => negb b
  | Dyadic m e, Dyadic m' e' => let k := Z.min e e' in m * 2 ^ (e - k) <? m' * 2 ^ (e' - k)
  end.
Definition finite (x : pyfloat) : bool := match x with Dyadic _ _ => true | _ => false end.
Definition zero : pyfloat := Dyadic 0 0.

Definition pyfloat_of (f : spec_float) : pyfloat :=
  match f with
  | S754_nan => NaN
  | S754_infinity negative => Inf negative
  | S754_zero _ => zero
  | S754_finite negative m e => Dyadic (if negative then Zneg m else Zpos m) e
  end.

Section Floats.
Context (U : UnicodeDigits).

(** Beyond ASCII: blanks become spaces, decimal digits their ASCII ones, nothing else stays. *)
Definition ascii_digit (c : Z) : option Z :=
  if c <? 127 then Some c else if is_space c then Some 32 else d ← decimal U c; Some (48 + d).
Fixpoint to_ascii (s : str) : option str :=
  match s with [] => Some [] | c :: s => c ← ascii_digit c; s ← to_ascii s; Some (c :: s) end.

(** Underscores stand between digits only. *)
Fixpoint without_underscores (prev : Z) (s : str) : option str :=
  match s with
  | [] => if prev =? 95 then None else Some []
  | c :: s =>
    if c =? 95 then if is_digit prev then without_underscores c s else None
    else if (prev =? 95) && negb (is_digit c) then None
    else r ← without_underscores c s; Some (c :: r)
  end.

(** [strtod], the whole text. *)
Definition float_literal (s : str) : option spec_float :=
  let '(negative, r) := match s with 43 :: r => (false, r) | 45 :: r => (true, r) | _ => (false, s) end in
  if existsb (str_eqb (lower r)) [lit "inf"; lit "infinity"] then Some (S754_infinity negative)
  else if str_eqb (lower r) (lit "nan") then Some S754_nan
  else
    let '(ds, r) := span_digits r in
    let '(fr, r) := match r with 46 :: r => span_digits r | _ => ([], r) end in
    match ds ++ fr with
    | [] => None
    | m =>
      match r, scan_exp r with
      | [], _ => Some (float_of_decimal negative (from_digits m) (- zlen fr))
      | _, Some (e, []) => Some (float_of_decimal negative (from_digits m) (e - zlen fr))
      | _, _ => None
      end
    end.

(** [None]: ValueError. *)
Definition float_of (text : str) : option pyfloat :=
  s ← (if forallb (fun c => c <? 128) text then Some text else to_ascii text);
  s ← without_underscores 0 (strip_with is_bspace s);
  f ← float_literal s;
  Some (pyfloat_of f).

Definition bounded_float (minimum : pyfloat) (maximum : option pyfloat) (text : str) : res pyfloat :=
  match float_of text with
  | None => argument_error "is not a number"
  | Some value =>
    require (finite value) (ArgumentTypeError "is not a finite number") ;;
    require (negb (float_lt value minimum || match maximum with Some m => float_lt m value | None => false end))
      (ArgumentTypeError "is out of range") ;;
    Ok value
  end.

Definition positive_float (text : str) : res pyfloat :=
  value ← bounded_float zero None text;
  require (match value with Dyadic 0 _ => false | _ => true end) (ArgumentTypeError "value must be greater than zero") ;;
  Ok value.
End Floats.

(** ** Facts *)
Definition is_argument_error (e : exn) : bool := match e with ArgumentTypeError _ => true | _ => false end.

Section IntegerFacts.
Context (U : UnicodeDigits).

Lemma int_of_error s e : int_of U s = Err e -> exists m, e = ValueError m.
Proof. unfold int_of. destruct (decimal_value U s 0); [|intros [= <-]; eauto]. intros [H|(? & _ & [=])]%bind_err. inv_res. eauto. Qed.

Lemma py_int_error s e : py_int U s = Err e -> exists m, e = ValueError m.
Proof.
  unfold py_int. destruct (int_sign _) as [sg r]. intros [H|(d & _ & H)]%bind_err.
  - unfold ungrouped in H. apply bind_err in H as [H|(? & _ & [=])]. inv_res. eauto.
  - apply bind_err in H as [H|(? & _ & [=])]. by apply int_of_error in H.
Qed.

Lemma split_digits s : forall cur, Forall (fun c => is_digit c = true) s -> split_on 95 s cur = [cur ++ s].
Proof.
  induction s as [|c s IH]; intros cur F; simpl; [by rewrite app_nil_r|]. apply Forall_cons in F as [Hc F].
  destruct (Z.eqb_spec c 95) as [->|_]; [done|]. rewrite IH by done. by rewrite <- app_assoc.
Qed.

(** Decimal texts read as their numbers. *)
Lemma py_int_digits n : 0 <= n < INT_LIMIT -> py_int U (dec_digits n) = Ok n.
Proof.
  intros H. destruct (dec_digits_spec n) as (d & ds & E & F & V & _); [lia|]. unfold py_int.
  assert (Forall (fun c => 48 <= c <= 57) (d :: ds)) as R by (eapply Forall_impl; [exact F|]; intros c Hc; unfold is_digit in Hc; apply andb_true_iff in Hc as [?%Z.leb_le ?%Z.leb_le]; lia).
  assert (int_strip (dec_digits n) = d :: ds) as ->.
  { unfold int_strip. rewrite E. unfold strip_with. assert (forall c, 48 <= c <= 57 -> blank c = false) as B.
    { intros c Hc. unfold blank, is_bspace. zdec. done. }
    assert (drop_while blank (d :: ds) = d :: ds) as -> by (simpl; by rewrite B by (by inversion R)).
    pose proof (Forall_rev R) as R'. destruct (rev (d :: ds)) as [|x l] eqn:X; [by apply (f_equal (@length Z)) in X; rewrite length_rev in X|].
    simpl. rewrite B by (by inversion R'). by rewrite <- X, rev_involutive. }
  assert (int_sign (d :: ds) = (1, d :: ds)) as ->.
  { apply Forall_cons in R as [Hd _]. unfold int_sign. destruct d as [|p|p]; try done. do 6 (destruct p; try done; try lia). }
  assert (ungrouped (d :: ds) = Ok (d :: ds)) as ->.
  { unfold ungrouped. rewrite split_digits by done. simpl. by rewrite app_nil_r. }
  assert (int_of U (d :: ds) = Ok n) as I.
  { unfold int_of. rewrite ascii_digits by done. fold (from_digits (d :: ds)). rewrite V.
    by rewrite <- E, (proj2 (Z.leb_le _ _)) by (apply dec_digits_len; lia). }
  cbn -[int_of]. rewrite I. cbn -[Z.mul]. f_equal. lia.
Qed.

Lemma bounded_int_ok lo hi text n : bounded_int U lo hi text = Ok n <->
  py_int U text = Ok n /\ lo <= n /\ match hi with Some m => n <= m | None => True end.
Proof.
  unfold bounded_int. destruct (py_int U text) as [v|e] eqn:P; cbn [try_with mbind res_bind].
  - rewrite bind_ok. split.
    + intros (u & R & [= <-]). apply require_ok in R. bool_prop. split_and!; [done | lia|]. destruct hi; [bool_prop; lia | done].
    + intros ([= <-] & L & M). exists tt. split; [|done]. apply require_ok, negb_true_iff, orb_false_iff.
      split; [apply Z.ltb_ge; lia|]. destruct hi; [apply Z.ltb_ge; lia | done].
  - split; [|by intros [[=] _]]. destruct (py_int_error _ _ P) as [m ->]. done.
Qed.

Lemma bounded_int_error lo hi text e : bounded_int U lo hi text = Err e -> is_argument_error e = true.
Proof.
  unfold bounded_int. destruct (py_int U text) as [v|x] eqn:P; cbn [try_with mbind res_bind].
  - intros [H|(? & _ & [=])]%bind_err. inv_res. done.
  - destruct (py_int_error _ _ P) as [m ->]. by intros [= <-].
Qed.

(** A bounded integer option accepts exactly the integer texts within its bounds - the
    decimal text of every such number among them - and refuses everything else with
    [ArgumentTypeError], the one exception [argparse] reports as a usage error. *)
Theorem bounded_int_exact lo hi :
  (forall text n, bounded_int U lo hi text = Ok n <->
    py_int U text = Ok n /\ lo <= n /\ match hi with Some m => n <= m | None => True end) /\
  (forall text e, bounded_int U lo hi text = Err e -> is_argument_error e = true) /\
  (forall n, 0 <= n < INT_LIMIT -> lo <= n -> match hi with Some m => n <= m | None => True end ->
    bounded_int U lo hi (dec_digits n) = Ok n).
Proof.
  split; [apply bounded_int_ok|]. split; [apply bounded_int_error|]. intros n H L M. apply bounded_int_ok.
  split; [by apply py_int_digits | done].
Qed.
End IntegerFacts.

(** Floats that pass are finite and within the bounds: NaN and the infinities never do. *)
Lemma positive_float_ok U text x : positive_float U text = Ok x ->
  exists m e, x = Dyadic m e /\ 0 < m.
Proof.
  unfold positive_float, bounded_float. destruct (float_of U text) as [v|]; [|done].
  intros (y & (u & F & (u' & R & [= <-])%bind_ok)%bind_ok & (u'' & N & [= <-])%bind_ok)%bind_ok.
  apply require_ok in F, R, N. destruct v as [| |m e]; try done. exists m, e. split; [done|]. rewrite orb_false_r in R.
  apply negb_true_iff in R. unfold float_lt, zero in R. cbv zeta in R. rewrite Z.mul_0_l in R. apply Z.ltb_ge in R.
  pose proof (Z.pow_nonneg 2 (e - Z.min e 0) ltac:(lia)). assert (0 <= m).
  { destruct (Z.ltb_spec m 0); [|lia]. pose proof (Z.pow_pos_nonneg 2 (e - Z.min e 0) ltac:(lia) ltac:(lia)). nia. }
  destruct m; [done | lia | lia].
Qed.

Example int_texts : map (py_int no_digits) [lit " 1_000 "; lit "+7"; lit "-3"; lit "1__0"; lit "5020x"] =
  [Ok 1000; Ok 7; Ok (-3); Err (ValueError "invalid literal for int()"); Err (ValueError "invalid literal for int()")].
Proof. vm_compute. reflexivity. Qed.

Example float_texts : map (float_of no_digits) [lit " 30 "; lit "-.5"; lit "1_0.2_5e1"; lit "1e400"; lit "NaN"; lit "1_.5"; lit "1e"] =
  [Some (Dyadic 8444249301319680 (-48)); Some (Dyadic (-4503599627370496) (-53)); Some (Dyadic 7212796278210560 (-46)); Some (Inf false); Some NaN; None; None].
Proof. vm_compute. reflexivity. Qed.
