(* ===== verification/ArgParse.v ===== *)
(** What the programs use of [argparse] (CPython 3.11): options with one long name, flags and
    stored values with a type, the built-in [-h] and [--help], abbreviations, [--name=value],
    [--], and one level of subcommands.

    Defaults of typed options are values already, so converting a textual default does not
    arise.  A usage error and a request for help leave by [SystemExit]. *)
From S2P Require Import Prelude PyText PyStr Json JsonFacts Models CryptoBackend ArgTypes.

(** ** Options *)
Inductive avalue :=
| ANone
| ABool (b : bool)
| AStr (s : str)
| AInt (n : Z)
| AFloat (x : pyfloat).

Inductive action_kind :=
| StoreTrue
| Store (convert : str -> res avalue).

Record Action := {
  ac_option : str;
  ac_kind : action_kind;
  ac_required : bool;
  ac_default : avalue;
}.

Abbreviation Parser := (list Action).
Abbreviation Namespace := (gmap str avalue).

(** The attribute an option sets. *)
Definition dest (a : Action) : str :=
  map (fun c => if c =? 45 then 95 else c) (drop_while (fun c => c =? 45) (ac_option a)).

Definition defaults (p : Parser) : Namespace := list_to_map (map (fun a => (dest a, ac_default a)) p).

(** What an option string stands for. *)
Inductive target := Help | Act (a : Action).
Definition option_table (p : Parser) : list (str * target) :=
  (lit "-h", Help) :: (lit "--help", Help) :: map (fun a => (ac_option a, Act a)) p.

(** ** Reading one argument: [_parse_optional] *)
Inductive token :=
| Word (s : str)
| Dashes
| Named (name : str) (t : target) (explicit : option str) (raw : str)
| Unknown (raw : str).

Definition raw (t : token) : str :=
  match t with Word s => s | Dashes => lit "--" | Named _ _ _ s => s | Unknown s => s end.

Definition usage {A} : res A := Err (SystemExit 2).

Definition is_prefix (a b : str) : bool := str_eqb a (take (length a) b).

(** [text.split("=", 1)] *)
Definition split_value (s : str) : str * option str :=
  match partition 61 s with Some (o, e) => (o, Some e) | None => (s, None) end.

(** [_get_option_tuples]: every option the text abbreviates. *)
Definition abbreviated (p : Parser) (s : str) : list (str * target * option str) :=
  if is_prefix (lit "--") s then
    let '(o, explicit) := split_value s in
    omap (fun ot : str * target => if is_prefix o ot.1 then Some (ot, explicit) else None) (option_table p)
  else
    omap (fun ot : str * target =>
      if str_eqb ot.1 (take 2 s) then Some (ot, Some (drop 2 s))
      else if is_prefix s ot.1 then Some (ot, None) else None) (option_table p).

Section Reading.
Context (U : UnicodeDigits).

(** [^-\d+$|^-\d*\.\d+$]; the end may stand before a final line feed. *)
Definition all_decimal (s : str) : bool := forallb (fun c => match digit_value U c with Some _ => true | None => false end) s.
Definition chomp (s : str) : str := match last s with Some 10 => take (length s - 1) s | _ => s end.
Definition negative_number (s : str) : bool :=
  match s with
  | 45 :: r =>
    let r := chomp r in
    negb (str_eqb r []) && all_decimal r
    || match partition 46 r with Some (a, b) => all_decimal a && negb (str_eqb b []) && all_decimal b | None => false end
  | _ => false
  end.

Definition classify (p : Parser) (s : str) : res token :=
  if negb (starts 45 s) then Ok (Word s)
  else
    match assoc (option_table p) s with
    | Some t => Ok (Named s t None s)
    | None =>
      if (length s =? 1)%nat then Ok (Word s)
      else
        match (let '(o, explicit) := split_value s in
               match explicit, assoc (option_table p) o with Some e, Some t => Some (Named o t (Some e) s) | _, _ => None end) with
        | Some t => Ok t
        | None =>
          match abbreviated p s with
          | [(o, t, explicit)] => Ok (Named o t explicit s)
          | [] => Ok (if negative_number s || (0 <? count_char 32 s)%nat then Word s else Unknown s)
          | _ => usage
          end
        end
    end.

(** All arguments after [--] are positional. *)
Fixpoint tokens (p : Parser) (argv : list str) : res (list token) :=
  match argv with
  | [] => Ok []
  | s :: argv =>
    if str_eqb s (lit "--") then Ok (Dashes :: map Word argv)
    else t ← classify p s; l ← tokens p argv; Ok (t :: l)
  end.

(** ** Acting on the arguments: [_parse_known_args] *)

(** [_get_values] and [_get_value]; an explicit [--] is taken for a separator and dropped. *)
Definition converted (convert : str -> res avalue) (s : str) : res avalue :=
  if str_eqb s (lit "--") then Err (ValueError "not enough values to unpack")
  else try_with (convert s) (fun e =>
    match e with ArgumentTypeError _ | TypeError _ | ValueError _ => usage | e => Err e end).

Record Progress := {
  pr_namespace : Namespace;
  pr_seen : list str;
  pr_extras : list str;
}.

Definition set_value (a : Action) (v : avalue) (g : Progress) : Progress := {|
  pr_namespace := <[dest a := v]> (pr_namespace g); pr_seen := pr_seen g ++ [ac_option a]; pr_extras := pr_extras g |}.
Definition extra (s : str) (g : Progress) : Progress := {|
  pr_namespace := pr_namespace g; pr_seen := pr_seen g; pr_extras := pr_extras g ++ [s] |}.

(** [-h] may be repeated in one argument; nothing else may be joined to it. *)
Definition help (explicit : option str) (name : str) : res Progress :=
  match explicit with
  | None => Err (SystemExit 0)
  | Some e =>
    if str_eqb name (lit "-h") && negb (str_eqb e []) && forallb (fun c => c =? 104) e then Err (SystemExit 0) else usage
  end.

(** [stop]: the parser has subcommands, so the first word ends its own arguments. *)
Fixpoint consume (stop : bool) (toks : list token) (g : Progress) : res (Progress * list token) :=
  match toks with
  | [] => Ok (g, [])
  | Named o t explicit _ :: rest =>
    match t with
    | Help => g ← help explicit o; consume stop rest g
    | Act a =>
      match ac_kind a, explicit with
      | StoreTrue, None => consume stop rest (set_value a (ABool true) g)
      | StoreTrue, Some _ => usage
      | Store convert, Some e => v ← converted convert e; consume stop rest (set_value a v g)
      | Store convert, None =>
        match rest with
        | Word s :: rest => v ← converted convert s; consume stop rest (set_value a v g)
        | _ => usage
        end
      end
    end
  | Unknown s :: rest => consume stop rest (extra s g)
  | t :: rest => if stop then Ok (g, toks) else consume stop rest (extra (raw t) g)
  end.

Definition start (p : Parser) : Progress := {| pr_namespace := defaults p; pr_seen := []; pr_extras := [] |}.

Definition all_required (p : Parser) (g : Progress) : res unit :=
  require (forallb (fun a => negb (ac_required a) || str_in (ac_option a) (pr_seen g)) p) (SystemExit 2).
Definition no_extras (l : list str) : res unit := require (bool_decide (l = [])) (SystemExit 2).

Definition parse_known_args (p : Parser) (argv : list str) : res (Namespace * list str) :=
  toks ← tokens p argv;
  '(g, _) ← consume false toks (start p);
  all_required p g ;;
  Ok (pr_namespace g, pr_extras g).

Definition parse_args (p : Parser) (argv : list str) : res Namespace :=
  '(ns, extras) ← parse_known_args p argv;
  no_extras extras ;;
  Ok ns.

(** A parser whose one positional argument is a required subcommand. *)
Definition parse_command (p : Parser) (commands : list (str * Parser)) (argv : list str) : res (Namespace * str * Namespace) :=
  toks ← tokens p argv;
  '(g, rest) ← consume true toks (start p);
  match rest with
  | Word name :: rest =>
    match assoc commands name with
    | None => usage
    | Some sub =>
      '(ns, extras) ← parse_known_args sub (map raw rest);
      all_required p g ;;
      no_extras (pr_extras g ++ extras) ;;
      Ok (pr_namespace g, name, ns)
    end
  | _ => usage
  end.
End Reading.

(** ** Reading a namespace *)
Section Attributes.
Context (ns : Namespace).
Definition text_of (d : string) : str := match ns !! lit d with Some (AStr s) => s | _ => [] end.
Definition text_opt (d : string) : option str := match ns !! lit d with Some (AStr s) => Some s | _ => None end.
Definition int_of_arg (d : string) : Z := match ns !! lit d with Some (AInt n) => n | _ => 0 end.
Definition int_opt (d : string) : option Z := match ns !! lit d with Some (AInt n) => Some n | _ => None end.
Definition flag_of (d : string) : bool := match ns !! lit d with Some (ABool b) => b | _ => false end.
Definition float_of_arg (d : string) : pyfloat := match ns !! lit d with Some (AFloat x) => x | _ => zero end.
End Attributes.

(** ** Declaring options *)
Definition as_text (s : str) : res avalue := Ok (AStr s).
Definition as_int (f : str -> res Z) (s : str) : res avalue := n ← f s; Ok (AInt n).
Definition as_float (f : str -> res pyfloat) (s : str) : res avalue := x ← f s; Ok (AFloat x).

Definition flag (name : string) : Action := {|
  ac_option := lit name; ac_kind := StoreTrue; ac_required := false; ac_default := ABool false |}.
Definition stored (name : string) (convert : str -> res avalue) (d : avalue) : Action := {|
  ac_option := lit name; ac_kind := Store convert; ac_required := false; ac_default := d |}.
Definition text_option (name : string) (d : option str) : Action :=
  stored name as_text (match d with Some s => AStr s | None => ANone end).
Definition required_text (name : string) : Action := {|
  ac_option := lit name; ac_kind := Store as_text; ac_required := true; ac_default := ANone |}.
