(* ===== verification/ArgParseFacts.v ===== *)
(** What a command line that is accepted says: [reads], the grammar behind [ArgParse], in which
    no argument goes unnoticed, and the command lines written option by option. *)
From S2P Require Import Prelude PyText PyStr Json JsonFacts Models CryptoBackend ArgTypes ArgParse.

Section Grammar.
Context (U : UnicodeDigits).

(** [s] names the option [a], possibly abbreviated, with the value attached to it if any. *)
Definition names (p : Parser) (s : str) (a : Action) (explicit : option str) : Prop :=
  s <> lit "--" /\ exists o, classify U p s = Ok (Named o (Act a) explicit s).

(** [s] can stand for a value after an option. *)
Definition is_value (p : Parser) (s : str) : Prop := s <> lit "--" /\ classify U p s = Ok (Word s).

Abbreviation setting := (Action * option str)%type.

Inductive reads (p : Parser) : list str -> list setting -> Prop :=
| reads_nil : reads p [] []
| reads_flag s a argv l : names p s a None -> ac_kind a = StoreTrue -> reads p argv l -> reads p (s :: argv) ((a, None) :: l)
| reads_spaced s a c v argv l : names p s a None -> ac_kind a = Store c -> is_value p v -> reads p argv l ->
    reads p (s :: v :: argv) ((a, Some v) :: l)
| reads_attached s a c v argv l : names p s a (Some v) -> ac_kind a = Store c -> reads p argv l ->
    reads p (s :: argv) ((a, Some v) :: l).

Definition value_of (s : setting) : res avalue :=
  match ac_kind s.1, s.2 with
  | StoreTrue, None => Ok (ABool true)
  | Store c, Some v => converted c v
  | _, _ => usage
  end.

Definition assign (l : list setting) (ns : Namespace) : res Namespace :=
  fold_res (fun ns s => v ← value_of s; Ok (<[dest s.1 := v]> ns)) ns l.

Definition seen (l : list setting) : list str := map (fun s => ac_option s.1) l.
Definition required_given (p : Parser) (l : list setting) : Prop :=
  forall a, a ∈ p -> ac_required a = true -> ac_option a ∈ seen l.

Definition progress (g : Progress) (l : list setting) (ns : Namespace) : Progress := {|
  pr_namespace := ns; pr_seen := pr_seen g ++ seen l; pr_extras := pr_extras g |}.

(** ** Tokens *)
Lemma split_value_spec s : match split_value s with (o, Some e) => s = o ++ 61 :: e | (o, None) => o = s end.
Proof.
  unfold split_value. destruct (partition 61 s) as [[o e]|] eqn:E; [|done]. revert o E.
  induction s as [|c s IH]; intros o E; [done|]. simpl in E. destruct (Z.eqb_spec c 61) as [->|N]; [by injection E as <- <-|].
  destruct (partition 61 s) as [[a b]|]; [|done]. injection E as <- <-. simpl. f_equal. by apply IH.
Qed.

Lemma classify_raw p s t : classify U p s = Ok t -> raw t = s /\ t <> Dashes.
Proof.
  unfold classify. destruct (negb (starts 45 s)); [by intros [= <-]|].
  destruct (assoc _ s); [by intros [= <-]|]. destruct (length s =? 1)%nat; [by intros [= <-]|].
  destruct (split_value s) as [o [e|]]; [destruct (assoc _ o); [by intros [= <-]|]|];
    (destruct (abbreviated p s) as [|[[o' t'] e'] [|]]; [|by intros [= <-]|done]); case_match; by intros [= <-].
Qed.

Lemma tokens_raw p argv : forall toks, tokens U p argv = Ok toks -> map raw toks = argv.
Proof.
  induction argv as [|s argv IH]; intros toks; simpl; [by intros [= <-]|].
  destruct (str_eqb s (lit "--")) eqn:D.
  - intros [= <-]. apply str_eqb_eq in D as ->. simpl. f_equal. rewrite map_map. apply map_id.
  - intros (t & C & (l & L & [= <-])%bind_ok)%bind_ok. simpl. f_equal; [by apply (classify_raw p) | by apply IH].
Qed.

(** The first token, unless [--] ended the options. *)
Lemma tokens_cons p s argv toks : tokens U p (s :: argv) = Ok toks ->
  (s = lit "--" /\ toks = Dashes :: map Word argv) \/
  (exists t l, s <> lit "--" /\ classify U p s = Ok t /\ tokens U p argv = Ok l /\ toks = t :: l).
Proof.
  simpl. destruct (str_eqb s (lit "--")) eqn:D.
  - apply str_eqb_eq in D as ->. intros [= <-]. by left.
  - apply str_eqb_neq in D. intros (t & C & (l & L & [= <-])%bind_ok)%bind_ok. right. eauto 10.
Qed.

(** ** [consume] against the grammar *)
Lemma consume_extras stop toks : forall g g' r, consume stop toks g = Ok (g', r) -> exists x, pr_extras g' = pr_extras g ++ x.
Proof.
  assert (forall n toks, (length toks <= n)%nat -> forall g g' r, consume stop toks g = Ok (g', r) -> exists x, pr_extras g' = pr_extras g ++ x) as H; [|eauto].
  clear toks. induction n as [|n IH]; intros [|t toks] Hn g g' r; cbn [length] in Hn; try lia; cbn [consume]; try (intros [= <- <-]; exists []; by rewrite app_nil_r).
  assert (forall k h, (length k <= n)%nat -> pr_extras h = pr_extras g -> consume stop k h = Ok (g', r) -> exists x, pr_extras g' = pr_extras g ++ x) as K.
  { intros k h Hk <- Hc. by apply (IH k Hk h g' r). }
  assert (forall k h s, (length k <= n)%nat -> h = extra s g -> consume stop k h = Ok (g', r) -> exists x, pr_extras g' = pr_extras g ++ x) as X.
  { intros k h s Hk -> Hc. destruct (IH k Hk _ g' r Hc) as [x Hx]. rewrite Hx. cbn [extra pr_extras]. rewrite <- app_assoc. eauto. }
  destruct t as [s| |o [|a] e w|s].
  - destruct stop; [intros [= <- <-]; exists []; by rewrite app_nil_r|]. apply X with s; [lia | done].
  - destruct stop; [intros [= <- <-]; exists []; by rewrite app_nil_r|]. apply X with (lit "--"); [lia | done].
  - intros (h & Hh & _)%bind_ok. unfold help in Hh. destruct e; [case_match; done | done].
  - destruct (ac_kind a), e; [done | by apply K; [lia|] | |].
    + intros (v & _ & Hc)%bind_ok. revert Hc. by apply K; [lia|].
    + destruct toks as [|[s| | |] toks]; try done. intros (v & _ & Hc)%bind_ok. revert Hc. by apply K; [cbn [length] in *; lia|].
  - apply X with s; [lia | done].
Qed.

Lemma extra_left stop s toks g g' r : consume stop toks (extra s g) = Ok (g', r) -> pr_extras g' <> [].
Proof. intros H E. destruct (consume_extras _ _ _ _ _ H) as [x Hx]. rewrite E in Hx. cbn [extra pr_extras] in Hx. by destruct (pr_extras g). Qed.

Lemma progress_cons g a e v l ns : value_of (a, e) = Ok v -> assign l (<[dest a := v]> (pr_namespace g)) = Ok ns ->
  assign ((a, e) :: l) (pr_namespace g) = Ok ns /\ progress (set_value a v g) l ns = progress g ((a, e) :: l) ns.
Proof.
  intros V A. unfold assign in *. cbn [fold_res]. rewrite V. split; [exact A|].
  unfold progress, set_value. cbn [pr_seen pr_extras seen map]. by rewrite <- app_assoc.
Qed.

Lemma progress_nil g : g = progress g [] (pr_namespace g).
Proof. unfold progress. destruct g. cbn. by rewrite app_nil_r. Qed.

(** What has been read so far, and what is left. *)
Definition ends (stop : bool) (r : list token) : Prop :=
  r = [] \/ stop = true /\ exists t r', r = t :: r' /\ match t with Word _ | Dashes => True | _ => False end.

Lemma consume_sound p stop n : forall argv toks g g' r, (length argv <= n)%nat -> tokens U p argv = Ok toks ->
  consume stop toks g = Ok (g', r) -> pr_extras g' = [] ->
  exists pre rest l ns, argv = pre ++ rest /\ reads p pre l /\ tokens U p rest = Ok r /\ ends stop r /\
    assign l (pr_namespace g) = Ok ns /\ g' = progress g l ns.
Proof.
  induction n as [|n IH]; intros [|s argv] toks g g' r Hn T C E; cbn [length] in Hn; try lia.
  1,2: injection T as <-; injection C as <- <-; exists [], [], [], (pr_namespace g);
    split_and!; [done | constructor | done | by left | done | apply progress_nil].
  assert (forall argv' toks' x v s1 s2, (s :: argv = s1 ++ argv') -> (length argv' <= n)%nat -> tokens U p argv' = Ok toks' ->
    (forall pre l, reads p pre l -> reads p (s1 ++ pre) ((x, s2) :: l)) -> value_of (x, s2) = Ok v ->
    consume stop toks' (set_value x v g) = Ok (g', r) ->
    exists pre rest l ns, s :: argv = pre ++ rest /\ reads p pre l /\ tokens U p rest = Ok r /\ ends stop r /\
      assign l (pr_namespace g) = Ok ns /\ g' = progress g l ns) as Step.
  { intros argv' toks' x v s1 s2 Hs Hl Ht Hr Hv Hc. destruct (IH _ _ _ _ _ Hl Ht Hc E) as (pre & rest & l & ns & -> & R & Tr & En & A & ->).
    exists (s1 ++ pre), rest, ((x, s2) :: l), ns. destruct (progress_cons g x s2 v l ns Hv A) as [A' P].
    rewrite Hs, app_assoc. split_and!; try done. by apply Hr. }
  destruct (tokens_cons p s argv toks T) as [[-> ->] | (t & toks' & ND & K & T' & ->)].
  { cbn [consume] in C. destruct stop; [|by apply extra_left in C]. injection C as <- <-.
    exists [], (lit "--" :: argv), [], (pr_namespace g). split_and!; [done | constructor | exact T | right; split; [done | by eexists _, _] | done | apply progress_nil]. }
  destruct (classify_raw p s t K) as [Rw ND']. destruct t as [w| |o [|a] e w|w]; cbn [raw] in Rw; subst; cbn [consume] in C; try done.
  - destruct stop; [|by apply extra_left in C]. injection C as <- <-.
    exists [], (s :: argv), [], (pr_namespace g). split_and!; [done | constructor | exact T | right; split; [done | by eexists _, _] | done | apply progress_nil].
  - apply bind_ok in C as (h & Hh & _). unfold help in Hh. destruct e; [case_match; done | done].
  - destruct (ac_kind a) as [|c] eqn:Kd, e as [e|]; try done.
    + apply (Step argv toks' a (ABool true) [s] None); try done; [lia | | by unfold value_of; cbn [fst snd]; rewrite Kd].
      intros. apply reads_flag; [split; [done | by exists o] | done | done].
    + apply bind_ok in C as (v & V & C). apply (Step argv toks' a v [s] (Some e)); try done; [lia | | by unfold value_of; cbn [fst snd]; rewrite Kd].
      intros. apply (reads_attached p s a c); [split; [done | by exists o] | done | done].
    + destruct toks' as [|[w| | |] toks']; try done. apply bind_ok in C as (v & V & C).
      destruct argv as [|w' argv]; [done|]. destruct (tokens_cons p w' argv _ T') as [[_ [=]] | (t & k & NDw & Kw & Tw & [= <- <-])].
      destruct (classify_raw p w' _ Kw) as [Rw _]. cbn [raw] in Rw. subst w'.
      apply (Step argv toks' a v [s; w] (Some w)); try done; [cbn [length] in Hn; lia | | by unfold value_of; cbn [fst snd]; rewrite Kd].
      intros. apply (reads_spaced p s a c); [split; [done | by exists o] | done | by split | done].
  - by apply extra_left in C.
Qed.

(** Arguments that read are consumed whatever comes after them. *)
Lemma reads_prefix p argv l : reads p argv l -> exists k, forall rest,
  tokens U p (argv ++ rest) = (r ← tokens U p rest; Ok (k ++ r)) /\
  forall stop r g ns, assign l (pr_namespace g) = Ok ns -> consume stop (k ++ r) g = consume stop r (progress g l ns).
Proof.
  assert (forall s t argv rest k, s <> lit "--" -> classify U p s = Ok t -> tokens U p (argv ++ rest) = (r ← tokens U p rest; Ok (k ++ r)) ->
    tokens U p ((s :: argv) ++ rest) = (r ← tokens U p rest; Ok ((t :: k) ++ r))) as T.
  { intros s t argv' rest k N C E. cbn [app tokens]. rewrite (proj2 (str_eqb_neq _ _) N), C. cbn [mbind res_bind]. rewrite E. by destruct (tokens U p rest). }
  intros R. induction R as [|s a argv l [N [o C]] K R [k IH] | s a c v argv l [N [o C]] K [Nv Cv] R [k IH] | s a c v argv l [N [o C]] K R [k IH]].
  - exists []. intros rest. split; [cbn [app]; by destruct (tokens U p rest)|]. intros stop r g ns [= <-]. cbn [app]. f_equal. apply progress_nil.
  - exists (Named o (Act a) None s :: k). intros rest. destruct (IH rest) as [E F]. split; [by apply T|]. intros stop r g ns A.
    apply bind_ok in A as (ns1 & (x & V & [= <-])%bind_ok & A). pose proof V as V'. unfold value_of in V. cbn [fst snd] in V. rewrite K in V. injection V as <-.
    cbn [app consume]. rewrite K. rewrite (F stop r (set_value a (ABool true) g) ns A). by rewrite (proj2 (progress_cons g a None (ABool true) l ns V' A)).
  - exists (Named o (Act a) None s :: Word v :: k). intros rest. destruct (IH rest) as [E F].
    split; [apply (T s _ (v :: argv) rest (Word v :: k)); [done|done|]; by apply T|]. intros stop r g ns A.
    apply bind_ok in A as (ns1 & (x & V & [= <-])%bind_ok & A). pose proof V as V'. unfold value_of in V. cbn [fst snd] in V. rewrite K in V.
    cbn [app consume]. rewrite K, V. cbn [mbind res_bind]. rewrite (F stop r (set_value a x g) ns A). by rewrite (proj2 (progress_cons g a (Some v) x l ns V' A)).
  - exists (Named o (Act a) (Some v) s :: k). intros rest. destruct (IH rest) as [E F]. split; [by apply T|]. intros stop r g ns A.
    apply bind_ok in A as (ns1 & (x & V & [= <-])%bind_ok & A). pose proof V as V'. unfold value_of in V. cbn [fst snd] in V. rewrite K in V.
    cbn [app consume]. rewrite K, V. cbn [mbind res_bind]. rewrite (F stop r (set_value a x g) ns A). by rewrite (proj2 (progress_cons g a (Some v) x l ns V' A)).
Qed.

Lemma consume_complete p stop argv l : reads p argv l -> forall rest r g ns, tokens U p rest = Ok r -> ends stop r ->
  assign l (pr_namespace g) = Ok ns -> exists toks,
  tokens U p (argv ++ rest) = Ok toks /\ consume stop toks g = Ok (progress g l ns, r).
Proof.
  intros [k K]%reads_prefix rest r g ns T E A. destruct (K rest) as [Tk C]. rewrite T in Tk. exists (k ++ r). split; [done|].
  rewrite (C stop r g ns A). destruct E as [-> | (-> & t & r' & -> & Ht)]; [done|]. by destruct t.
Qed.

Lemma required_spec p g l : all_required p (progress (start p) l g) = Ok tt <-> required_given p l.
Proof.
  unfold all_required, required_given. rewrite require_ok, forallb_forall. cbn [pr_seen progress start app].
  setoid_rewrite orb_true_iff. setoid_rewrite negb_true_iff. setoid_rewrite str_in_elem. split; intros H a I.
  - intros R. apply list_elem_of_In in I. destruct (H a I) as [E|E]; [congruence | done].
  - apply list_elem_of_In in I. destruct (ac_required a) eqn:R; [right | left]; auto.
Qed.

(** A subparser's answer: everything it read, and what is left over. *)
Lemma parse_known_complete p argv l ns : reads p argv l -> required_given p l -> assign l (defaults p) = Ok ns ->
  parse_known_args U p argv = Ok (ns, []).
Proof.
  intros R Q A. destruct (consume_complete p false argv l R [] [] (start p) ns eq_refl (or_introl eq_refl) A) as (toks & T & C).
  rewrite app_nil_r in T. unfold parse_known_args. rewrite T. cbn [mbind res_bind]. rewrite C. cbn [mbind res_bind].
  by rewrite (proj2 (required_spec p ns l) Q).
Qed.

Lemma parse_known_sound p argv ns : parse_known_args U p argv = Ok (ns, []) ->
  exists l, reads p argv l /\ required_given p l /\ assign l (defaults p) = Ok ns.
Proof.
  unfold parse_known_args. intros (toks & T & ((g & r) & C & ([] & Q & [= <- E])%bind_ok)%bind_ok)%bind_ok.
  destruct (consume_sound p false (length argv) argv toks (start p) g r (le_n _) T C E) as (pre & rest & l & ns & -> & R & Tr & En & A & ->).
  assert (rest = []) as ->. { destruct En as [-> | (? & _)]; [|done]. apply tokens_raw in Tr. by destruct rest. }
  rewrite app_nil_r. exists l. split; [done|]. split; [by apply (required_spec p ns) | done].
Qed.

(** A command line is accepted exactly when it reads, argument by argument, as settings of the
    parser's options - nothing left over, nothing required missing, every value of its type -
    and what it yields is these settings over the defaults, the last of an option winning. *)
Lemma parse_args_spec p argv ns : parse_args U p argv = Ok ns <->
  exists l, reads p argv l /\ required_given p l /\ assign l (defaults p) = Ok ns.
Proof.
  unfold parse_args. split.
  - intros ([n x] & P & ([] & X & [= <-])%bind_ok)%bind_ok. apply require_ok in X. bool_prop. subst. by apply parse_known_sound.
  - intros (l & R & Q & A). by rewrite (parse_known_complete p argv l ns).
Qed.

Lemma parse_command_spec p commands argv ns name sub : parse_command U p commands argv = Ok (ns, name, sub) <->
  exists pre rest l c l' toks, argv = pre ++ name :: rest /\ reads p pre l /\ required_given p l /\ assign l (defaults p) = Ok ns /\
    is_value p name /\ tokens U p rest = Ok toks /\
    assoc commands name = Some c /\ reads c rest l' /\ required_given c l' /\ assign l' (defaults c) = Ok sub.
Proof.
  unfold parse_command. split.
  - intros (toks & T & ((g & r) & C & P)%bind_ok)%bind_ok. destruct r as [|[w| | |] r]; try done.
    destruct (assoc commands w) as [c|] eqn:W; [|done].
    apply bind_ok in P as ([n x] & S & ([] & Q & ([] & X & [= <- -> ->])%bind_ok)%bind_ok). apply require_ok in X. bool_prop.
    apply app_nil in X as [X ->].
    destruct (consume_sound p true (length argv) argv toks (start p) g _ (le_n _) T C X) as (pre & rest & l & ns & -> & R & Tr & En & A & ->).
    destruct rest as [|s rest]; [done|]. destruct (tokens_cons p s rest _ Tr) as [[_ [=]] | (t & k & ND & K & Tk & [= <- <-])].
    destruct (classify_raw p s _ K) as [Rw _]. cbn [raw] in Rw. subst s. rewrite (tokens_raw p rest r Tk) in S.
    destruct (parse_known_sound c rest sub S) as (l' & R' & Q' & A'). exists pre, rest, l, c, l', r.
    split_and!; try done. by apply (required_spec p ns).
  - intros (pre & rest & l & c & l' & toks & -> & R & Q & A & [N K] & T & W & R' & Q' & A').
    assert (tokens U p (name :: rest) = Ok (Word name :: toks)) as T' by (cbn [tokens]; by rewrite (proj2 (str_eqb_neq _ _) N), K, T).
    destruct (consume_complete p true pre l R (name :: rest) _ (start p) ns T') as (tk & -> & C); [right; split; [done | by eexists _, _] | done |].
    cbn [mbind res_bind]. rewrite C. cbn [mbind res_bind]. rewrite W. rewrite (tokens_raw p rest toks T). rewrite (parse_known_complete c rest l' sub) by done.
    cbn [mbind res_bind]. by rewrite (proj2 (required_spec p ns l) Q).
Qed.

(** ** Written out *)

(** Every option by its full name, its value after it. *)
Definition written (l : list setting) : list str := flat_map (fun s => ac_option s.1 :: option_list s.2) l.

Definition parser_ok (p : Parser) : bool :=
  bool_decide (NoDup (map fst (option_table p))) &&
  forallb (fun a => is_prefix (lit "--") (ac_option a) && negb (str_eqb (ac_option a) (lit "--"))) p.

Definition fits (p : Parser) (s : setting) : Prop :=
  s.1 ∈ p /\ match ac_kind s.1, s.2 with StoreTrue, None => True | Store _, Some v => is_value p v | _, _ => False end.

(** A text that no parser takes for an option. *)
Definition plain (s : str) : bool := negb (starts 45 s) || str_eqb s [45].

Lemma assoc_unique {A} (l : list (str * A)) k x : NoDup (map fst l) -> (k, x) ∈ l -> assoc l k = Some x.
Proof.
  unfold assoc. induction l as [|[k' y] l IH]; simpl; [by intros _ ?%elem_of_nil|]. intros [N D]%NoDup_cons [[= <- <-] | I]%elem_of_cons.
  - by rewrite str_eqb_refl.
  - rewrite (proj2 (str_eqb_neq _ _)); [by apply IH|]. intros ->. apply N. change k' with (fst (k', x)). by apply list_elem_of_fmap_2.
Qed.

Section Written.
Context (p : Parser) (O : parser_ok p = true).

Lemma option_shape a : a ∈ p -> is_prefix (lit "--") (ac_option a) = true /\ ac_option a <> lit "--".
Proof using O.
  intros I. unfold parser_ok in O. apply andb_true_iff in O as [_ F]. rewrite forallb_forall in F.
  specialize (F a (proj1 (list_elem_of_In _ _) I)). bool_prop. split; [done|]. by apply str_eqb_neq.
Qed.

Lemma option_named a : a ∈ p -> names p (ac_option a) a None.
Proof using O.
  intros I. destruct (option_shape a I) as [P N]. split; [done|]. exists (ac_option a). unfold classify.
  assert (starts 45 (ac_option a) = true) as -> by (destruct (ac_option a) as [|c s]; [done|]; apply str_eqb_eq in P; injection P as <- _; done).
  cbn [negb]. rewrite (assoc_unique _ _ (Act a)); [done | |].
  - unfold parser_ok in O. bool_prop. done.
  - unfold option_table. right. right. by apply (list_elem_of_fmap_2 (fun a => (ac_option a, Act a))).
Qed.

Lemma plain_value s : plain s = true -> is_value p s.
Proof using O.
  unfold plain, is_value, classify. intros H. bool_prop. destruct H as [H | ->%str_eqb_eq].
  - rewrite H. split; [|done]. by intros ->.
  - split; [done|]. cbn [starts negb Z.eqb Pos.eqb]. destruct (assoc (option_table p) [45]) as [t|] eqn:E; [|done]. exfalso.
    apply assoc_In in E. unfold option_table in E. apply elem_of_cons in E as [[=]|E]. apply elem_of_cons in E as [[=]|E].
    apply list_elem_of_fmap in E as (a & [= E _] & I). destruct (option_shape a I) as [P _]. by rewrite <- E in P.
Qed.

Lemma written_reads l : Forall (fits p) l -> reads p (written l) l.
Proof using O.
  induction 1 as [|[a e] l [I F] _ IH]; [constructor|]. cbn [fst snd] in *. destruct (ac_kind a) as [|c] eqn:K, e as [v|]; try done.
  - apply reads_flag; [by apply option_named | done | done].
  - by apply (reads_spaced p _ a c); [apply option_named| | |].
Qed.
End Written.

(** What is written is read. *)
Lemma parse_written p l ns : parser_ok p = true -> Forall (fits p) l -> required_given p l -> assign l (defaults p) = Ok ns ->
  parse_args U p (written l) = Ok ns.
Proof. intros O F Q A. apply parse_args_spec. exists l. split; [by apply written_reads | done]. Qed.

Lemma written_tokens p s : Forall (fun x => plain x = true \/ exists t, classify U p x = Ok t /\ x <> lit "--") s -> parser_ok p = true ->
  exists toks, tokens U p s = Ok toks.
Proof.
  intros F O. induction F as [|x s Hx _ [toks IH]]; [by exists []|]. assert (exists t, classify U p x = Ok t /\ x <> lit "--") as (t & C & N).
  { destruct Hx as [Hx | Hx]; [|done]. destruct (plain_value p O x Hx). eauto. }
  exists (t :: toks). cbn [tokens]. by rewrite (proj2 (str_eqb_neq _ _) N), C, IH.
Qed.

(** ** Values that cannot stand for one *)
Lemma classify_error p s e : classify U p s = Err e -> e = SystemExit 2.
Proof.
  unfold classify. destruct (negb (starts 45 s)); [done|]. destruct (assoc _ s); [done|]. destruct (length s =? 1)%nat; [done|].
  destruct (split_value s) as [o [x|]]; [destruct (assoc _ o); [done|]|];
    (destruct (abbreviated p s) as [|[[o' t'] e'] [|]]; [done | done | by intros [= <-]]).
Qed.

Lemma tokens_error p argv e : tokens U p argv = Err e -> e = SystemExit 2.
Proof.
  induction argv as [|s argv IH]; [done|]. cbn [tokens]. destruct (str_eqb s (lit "--")); [done|].
  intros [H | (t & _ & [H | (? & _ & [=])]%bind_err)]%bind_err; [by apply classify_error in H | by apply IH].
Qed.

(** Where a value is due, an argument that is none is a usage error, whatever follows. *)
Lemma bad_value p pre l s a c x rest ns : reads p pre l -> assign l (defaults p) = Ok ns -> names p s a None -> ac_kind a = Store c ->
  ~ is_value p x -> parse_args U p (pre ++ s :: x :: rest) = Err (SystemExit 2).
Proof.
  intros [k K]%reads_prefix A [N [o C]] Kd V. destruct (K (s :: x :: rest)) as [T F]. unfold parse_args, parse_known_args.
  rewrite T. clear T. destruct (tokens U p (s :: x :: rest)) as [toks|e] eqn:E; [|by apply tokens_error in E as ->]. cbn [mbind res_bind].
  rewrite (F false toks (start p) ns A). clear F.
  destruct (tokens_cons p s _ _ E) as [[-> _] | (t & r & _ & C' & E' & ->)]; [done|]. assert (t = Named o (Act a) None s) as -> by congruence.
  cbn [consume]. rewrite Kd. destruct (tokens_cons p x _ _ E') as [[-> ->] | (t & r' & Nx & Cx & _ & ->)]; [done|].
  destruct t as [w| | |]; try done. exfalso. apply V. split; [done|]. destruct (classify_raw p x _ Cx) as [R _]. cbn [raw] in R. by subst.
Qed.

(** ** Attributes *)
Lemma classify_action p s o a e w : classify U p s = Ok (Named o (Act a) e w) -> a ∈ p.
Proof.
  assert (forall k, (k, Act a) ∈ option_table p -> a ∈ p) as T.
  { intros k. unfold option_table. intros [[=]|[[=]|I]%elem_of_cons]%elem_of_cons. apply list_elem_of_fmap in I as (b & [= _ <-] & I). done. }
  unfold classify. destruct (negb (starts 45 s)); [done|].
  destruct (assoc _ s) as [t|] eqn:E1; [intros [= <- -> <- <-]; apply (T s); by apply assoc_In|].
  destruct (length s =? 1)%nat; [done|].
  assert (match abbreviated p s with | [(o0, t, explicit)] => Ok (Named o0 t explicit s)
     | [] => Ok (if negative_number U s || (0 <? count_char 32 s)%nat then Word s else Unknown s) | _ => usage end = Ok (Named o (Act a) e w) -> a ∈ p) as B.
  { destruct (abbreviated p s) as [|[[o' t'] e'] [|]] eqn:E; [case_match; done | | done]. intros [= -> -> <- <-].
    assert (((o, Act a), e') ∈ abbreviated p s) as I by (rewrite E; by left). unfold abbreviated in I.
    destruct (is_prefix (lit "--") s); [destruct (split_value s)|]; apply list_elem_of_omap in I as ([k t] & I & X); cbn [fst] in X;
      repeat case_match; try done; injection X; intros; subst; by apply (T o). }
  destruct (split_value s) as [k [x|]]; [|exact B]. destruct (assoc _ k) as [t|] eqn:E2; [|exact B].
  intros [= <- -> <- <-]. apply (T k). by apply assoc_In.
Qed.

Lemma reads_actions p argv l : reads p argv l -> Forall (fun s => s.1 ∈ p) l.
Proof. intros R. induction R as [|s a argv l [_ [o C]] | s a c v argv l [_ [o C]] | s a c v argv l [_ [o C]]]; constructor; try done; by apply classify_action in C. Qed.

Definition dests_ok (p : Parser) : bool := bool_decide (NoDup (map dest p)).

Lemma dest_unique p a b : dests_ok p = true -> a ∈ p -> b ∈ p -> dest a = dest b -> a = b.
Proof.
  unfold dests_ok. intros N%bool_decide_eq_true. induction p as [|x p IH]; [by intros ?%elem_of_nil|].
  cbn [map] in N. apply NoDup_cons in N as [Nx N]. intros [->|A]%elem_of_cons [->|B]%elem_of_cons E; try done.
  - exfalso. apply Nx. rewrite E. by apply list_elem_of_fmap_2.
  - exfalso. apply Nx. rewrite <- E. by apply list_elem_of_fmap_2.
  - by apply IH.
Qed.

Lemma default_of p a : dests_ok p = true -> a ∈ p -> defaults p !! dest a = Some (ac_default a).
Proof.
  unfold dests_ok, defaults. intros N%bool_decide_eq_true I. apply elem_of_list_to_map.
  - unfold fmap. by rewrite <- list_fmap_compose.
  - by apply (list_elem_of_fmap_2 (fun a => (dest a, ac_default a))).
Qed.

(** An attribute is the default or a value read for its option. *)
Lemma assigned_from p (k : list setting) a l : dests_ok p = true -> a ∈ p -> Forall (fun s => s.1 ∈ p /\ s ∈ k) l -> forall m ns, assign l m = Ok ns ->
  (exists v, m !! dest a = Some v /\ (v = ac_default a \/ exists e, (a, e) ∈ k /\ value_of (a, e) = Ok v)) ->
  exists v, ns !! dest a = Some v /\ (v = ac_default a \/ exists e, (a, e) ∈ k /\ value_of (a, e) = Ok v).
Proof.
  intros N I F. induction F as [|[b e] l [Hb Hk] _ IH]; intros m ns A H; [by injection A as <-|].
  unfold assign in A. cbn [fold_res] in A. apply bind_ok in A as (m' & (v & V & [= <-])%bind_ok & A). apply (IH _ _ A).
  cbn [fst snd] in *. destruct (decide (dest b = dest a)) as [E|E].
  - assert (b = a) as -> by by apply (dest_unique p). exists v. split; [apply lookup_insert_eq|]. right. eauto.
  - by rewrite lookup_insert_ne.
Qed.

Lemma assigned_attribute p argv l ns a : dests_ok p = true -> reads p argv l -> assign l (defaults p) = Ok ns -> a ∈ p ->
  exists v, ns !! dest a = Some v /\ (v = ac_default a \/ exists e, (a, e) ∈ l /\ value_of (a, e) = Ok v).
Proof.
  intros N R A I. apply (assigned_from p l a l N I) with (defaults p); [|done|].
  - apply reads_actions in R. rewrite Forall_forall in *. intros s Hs. split; [by apply R | done].
  - exists (ac_default a). split; [by apply default_of | by left].
Qed.

Lemma parsed_attribute p argv ns a : dests_ok p = true -> parse_args U p argv = Ok ns -> a ∈ p ->
  exists v, ns !! dest a = Some v /\ (v = ac_default a \/ exists e, value_of (a, e) = Ok v).
Proof.
  intros N (l & R & _ & A)%parse_args_spec I. destruct (assigned_attribute p argv l ns a N R A I) as (v & L & [-> | (e & _ & V)]); eauto.
Qed.

(** Values are parts of the arguments: what holds of all characters of these holds of theirs. *)
Section Characters.
Context (good : str -> bool) (G : forall a b, good (a ++ b) = good a && good b).

Lemma classify_explicit p s o t e w : classify U p s = Ok (Named o t (Some e) w) -> exists a, s = a ++ e.
Proof.
  unfold classify. destruct (negb (starts 45 s)); [done|]. destruct (assoc _ s); [done|].
  destruct (length s =? 1)%nat; [done|]. pose proof (split_value_spec s) as S.
  assert (match abbreviated p s with | [(o0, t, explicit)] => Ok (Named o0 t explicit s)
     | [] => Ok (if negative_number U s || (0 <? count_char 32 s)%nat then Word s else Unknown s) | _ => usage end = Ok (Named o t (Some e) w) -> exists a, s = a ++ e) as B.
  { destruct (abbreviated p s) as [|[[o' t'] e'] [|]] eqn:E; [by destruct (negative_number U s || _) | | done]. intros [= -> -> -> <-].
    assert (((o, t), Some e) ∈ abbreviated p s) as I by (rewrite E; by left). unfold abbreviated in I.
    destruct (is_prefix (lit "--") s); [destruct (split_value s) as [k x]|]; apply list_elem_of_omap in I as ([q t2] & I & X); cbn [fst] in X.
    - destruct (is_prefix k q); [|done]. injection X as -> -> ->. exists (k ++ [61]). rewrite <- app_assoc. exact S.
    - destruct (str_eqb q (take 2 s)); [injection X as -> -> <-; exists (take 2 s); by rewrite take_drop|].
      destruct (is_prefix s q); [discriminate X | done]. }
  destruct (split_value s) as [k [x|]]; [|exact B]. destruct (assoc _ k); [|exact B].
  intros [= <- -> -> <-]. exists (k ++ [61]). by rewrite <- app_assoc.
Qed.

Lemma reads_good p argv l : reads p argv l -> Forall (fun s => good s = true) argv ->
  Forall (fun s => match s.2 with Some v => good v = true | None => True end) l.
Proof using G.
  intros R. induction R as [|s a argv l _ _ _ IH | s a c v argv l _ _ _ _ IH | s a c v argv l [_ [o C]] _ _ IH]; intros F.
  - constructor.
  - apply Forall_cons in F as [_ F]. constructor; [done | by apply IH].
  - apply Forall_cons in F as [_ [Fv F]%Forall_cons]. constructor; [done | by apply IH].
  - apply Forall_cons in F as [Fs F]. constructor; [|by apply IH]. cbn [snd]. apply classify_explicit in C as [b ->]. rewrite G in Fs. by bool_prop.
Qed.

Lemma text_attribute p argv ns a name : dests_ok p = true -> parse_args U p argv = Ok ns -> Forall (fun s => good s = true) argv ->
  a ∈ p -> ac_kind a = Store as_text -> dest a = lit name -> (forall s, ac_default a = AStr s -> good s = true) -> good [] = true ->
  good (text_of ns name) = true.
Proof using G.
  intros N (l & R & _ & A)%parse_args_spec F I K E D Z. destruct (assigned_attribute p argv l ns a N R A I) as (v & L & S).
  unfold text_of. rewrite <- E, L. destruct S as [-> | (e & Ie & V)]; [destruct (ac_default a); auto|].
  pose proof (reads_good p argv l R F) as Gd. rewrite Forall_forall in Gd. specialize (Gd _ Ie). cbn [snd] in Gd.
  unfold value_of in V. cbn [fst snd] in V. rewrite K in V. destruct e as [e|]; [|done].
  unfold converted in V. destruct (str_eqb e (lit "--")); [done|]. by injection V as <-.
Qed.
End Characters.

Section Parsed.
Context (p : Parser) (argv : list str) (ns : Namespace) (N : dests_ok p = true) (A : parse_args U p argv = Ok ns).

Lemma int_attribute (P : Z -> Prop) a read d name : a ∈ p -> ac_kind a = Store (as_int read) -> ac_default a = AInt d -> dest a = lit name ->
  P d -> (forall s n, read s = Ok n -> P n) -> P (int_of_arg ns name).
Proof using N A.
  intros I K D E H R. destruct (parsed_attribute p argv ns a N A I) as (v & L & S). unfold int_of_arg. rewrite <- E, L.
  destruct S as [-> | [[e|] V]]; [by rewrite D | |]; unfold value_of in V; cbn [fst snd] in V; rewrite K in V; [|done].
  unfold converted in V. destruct (str_eqb e (lit "--")); [done|]. unfold as_int in V.
  destruct (read e) as [n|x] eqn:Q; cbn in V; [injection V as <-; by apply (R e) | by destruct x].
Qed.

Lemma int_opt_attribute (P : Z -> Prop) a read name n : a ∈ p -> ac_kind a = Store (as_int read) -> ac_default a = ANone -> dest a = lit name ->
  (forall s n, read s = Ok n -> P n) -> int_opt ns name = Some n -> P n.
Proof using N A.
  intros I K D E R. destruct (parsed_attribute p argv ns a N A I) as (v & L & S). unfold int_opt. rewrite <- E, L.
  destruct S as [-> | [[e|] V]]; [by rewrite D | |]; unfold value_of in V; cbn [fst snd] in V; rewrite K in V; [|done].
  unfold converted in V. destruct (str_eqb e (lit "--")); [done|]. unfold as_int in V.
  destruct (read e) as [m|x] eqn:Q; cbn in V; [injection V as <-; intros [= <-]; by apply (R e) | by destruct x].
Qed.

Lemma float_attribute (P : pyfloat -> Prop) a read d name : a ∈ p -> ac_kind a = Store (as_float read) -> ac_default a = AFloat d -> dest a = lit name ->
  P d -> (forall s x, read s = Ok x -> P x) -> P (float_of_arg ns name).
Proof using N A.
  intros I K D E H R. destruct (parsed_attribute p argv ns a N A I) as (v & L & S). unfold float_of_arg. rewrite <- E, L.
  destruct S as [-> | [[e|] V]]; [by rewrite D | |]; unfold value_of in V; cbn [fst snd] in V; rewrite K in V; [|done].
  unfold converted in V. destruct (str_eqb e (lit "--")); [done|]. unfold as_float in V.
  destruct (read e) as [n|x] eqn:Q; cbn in V; [injection V as <-; by apply (R e) | by destruct x].
Qed.
End Parsed.
End Grammar.
