(* ===== verification/CliParser.v ===== *)
(** The argument table of the evidence command line, [build_parser] of
    [src/ics_deception/pqc_evidence/cli.py], and what each command is called with.

    [command_line] writes a command out; reading is its inverse. *)
From S2P Require Import Prelude PyText PyStr Json JsonFacts Models CryptoBackend ArgTypes ArgParse ArgParseFacts Cli.

Definition DEFAULT_REGISTRY : str := lit "runtime/pqc/registry.json".
Definition DEFAULT_STATE : str := lit "runtime/pqc/state.json".

(** ** Commands *)
Record SignerPaths := {
  sp_args : SignerArgs;
  sp_private_key : str;
  sp_state : str;
}.

Inductive Command :=
| Capabilities
| GenerateKey (a : GenerateArgs)
| RegisterKey (registry public_key : str) (a : RegisterArgs)
| RotateKey (registry node_id key_id public_key algorithm : str)
| RevokeKey (registry key_id reason : str)
| SignEvent (a : SignerPaths) (event : str) (output : option str) (print_record : bool)
| SignLog (a : SignerPaths) (input output : str) (max_events : option Z)
| VerifyEvent (registry event : str)
| VerifyLog (registry input : str) (include_results : bool)
| CreateArchive (input output recipient_public_key node_id : str) (key_id registry : option str) (require_valid_evidence force : bool)
| DecryptArchive (input : str) (output : option str) (recipient_private_key : str) (force : bool)
| VerifyArchive (input : str) (recipient_private_key registry : option str) (force : bool)
| Status (a : SignerPaths) (evidence : option str)
| RecoverState (a : SignerPaths) (evidence : option str) (confirm : bool)
| Benchmark (backend : option str) (algorithm : str) (iterations chain_events : Z) (no_archive : bool) (output csv : option str).

Section Table.
Context (U : UnicodeDigits).

(** ** [build_parser] *)
Definition main_options : Parser := [flag "--json"; flag "--allow-test-backend"].

Definition backend_option := text_option "--backend" None.
Definition algorithm_option := text_option "--algorithm" (Some DEFAULT_SIGNATURE_ALGORITHM).
Definition add_backend_options : Parser := [backend_option; algorithm_option].
Definition registry_option := text_option "--registry" (Some DEFAULT_REGISTRY).
Definition no_registry_option := text_option "--registry" None.
Definition state_option := text_option "--state" (Some DEFAULT_STATE).
Definition add_signer_options : Parser := [
  required_text "--node-id"; required_text "--key-id"; required_text "--private-key"; state_option; flag "--force"].
Definition stdin_option (name : string) := text_option name (Some (lit "-")).
Definition path_option (name : string) := text_option name None.
Definition max_events_option := stored "--max-events" (as_int (positive_int U)) ANone.
Definition count_option (name : string) (d : Z) := stored name (as_int (positive_int U)) (AInt d).

Definition capabilities_options : Parser := [].
Definition generate_key_options : Parser := add_backend_options ++ [required_text "--private-key"; path_option "--public-key"; flag "--force"].
Definition register_key_options : Parser := [registry_option; required_text "--node-id"; required_text "--key-id"; required_text "--public-key";
  algorithm_option; path_option "--activated-at"; path_option "--expires-at"; flag "--inactive"].
Definition rotate_key_options : Parser := [registry_option; required_text "--node-id"; required_text "--key-id"; required_text "--public-key"; algorithm_option].
Definition revoke_key_options : Parser := [registry_option; required_text "--key-id"; required_text "--reason"].
Definition sign_event_options : Parser := add_backend_options ++ add_signer_options ++ [stdin_option "--event"; path_option "--output"; flag "--print-record"].
Definition sign_log_options : Parser := add_backend_options ++ add_signer_options ++ [stdin_option "--input"; required_text "--output"; max_events_option].
Definition verify_event_options : Parser := [registry_option; stdin_option "--event"].
Definition verify_log_options : Parser := [registry_option; stdin_option "--input"; flag "--include-results"].
Definition create_archive_options : Parser := [required_text "--input"; required_text "--output"; required_text "--recipient-public-key"; required_text "--node-id";
  path_option "--key-id"; no_registry_option; flag "--require-valid-evidence"; flag "--force"].
Definition decrypt_archive_options : Parser := [required_text "--input"; path_option "--output"; required_text "--recipient-private-key"; flag "--force"].
Definition verify_archive_options : Parser := [required_text "--input"; path_option "--recipient-private-key"; no_registry_option; flag "--force"].
Definition status_options : Parser := add_backend_options ++ add_signer_options ++ [path_option "--evidence"].
Definition recover_state_options : Parser := add_backend_options ++ add_signer_options ++ [path_option "--evidence"; flag "--confirm"].
Definition benchmark_options : Parser := add_backend_options ++ [count_option "--iterations" 20; count_option "--chain-events" 200; flag "--no-archive";
  path_option "--output"; path_option "--csv"].

Definition subcommands : list (str * Parser) := [
  (lit "capabilities", capabilities_options);
  (lit "generate-key", generate_key_options);
  (lit "register-key", register_key_options);
  (lit "rotate-key", rotate_key_options);
  (lit "revoke-key", revoke_key_options);
  (lit "sign-event", sign_event_options);
  (lit "sign-log", sign_log_options);
  (lit "verify-event", verify_event_options);
  (lit "verify-log", verify_log_options);
  (lit "create-archive", create_archive_options);
  (lit "decrypt-archive", decrypt_archive_options);
  (lit "verify-archive", verify_archive_options);
  (lit "status", status_options);
  (lit "recover-state", recover_state_options);
  (lit "benchmark", benchmark_options)].

(** ** [args.func(args)] *)
Section Reading.
Context (allow : bool) (ns : Namespace).

Definition generate_args : GenerateArgs := {|
  ga_backend := text_opt ns "backend"; ga_algorithm := text_of ns "algorithm"; ga_allow_test_backend := allow;
  ga_private_key := text_of ns "private_key"; ga_public_key := text_opt ns "public_key"; ga_force := flag_of ns "force" |}.
Definition register_args : RegisterArgs := {|
  ra_key_id := text_of ns "key_id"; ra_node_id := text_of ns "node_id"; ra_algorithm := text_of ns "algorithm";
  ra_activated_at := text_opt ns "activated_at"; ra_expires_at := text_opt ns "expires_at"; ra_inactive := flag_of ns "inactive" |}.
Definition signer_args : SignerPaths := {|
  sp_args := {| sa_node_id := text_of ns "node_id"; sa_key_id := text_of ns "key_id"; sa_algorithm := text_opt ns "algorithm";
                sa_backend := text_opt ns "backend"; sa_allow_test_backend := allow; sa_force := flag_of ns "force" |};
  sp_private_key := text_of ns "private_key"; sp_state := text_of ns "state" |}.

Definition func (name : str) : option Command :=
  assoc [
    (lit "capabilities", Capabilities);
    (lit "generate-key", GenerateKey generate_args);
    (lit "register-key", RegisterKey (text_of ns "registry") (text_of ns "public_key") register_args);
    (lit "rotate-key", RotateKey (text_of ns "registry") (text_of ns "node_id") (text_of ns "key_id") (text_of ns "public_key") (text_of ns "algorithm"));
    (lit "revoke-key", RevokeKey (text_of ns "registry") (text_of ns "key_id") (text_of ns "reason"));
    (lit "sign-event", SignEvent signer_args (text_of ns "event") (text_opt ns "output") (flag_of ns "print_record"));
    (lit "sign-log", SignLog signer_args (text_of ns "input") (text_of ns "output") (int_opt ns "max_events"));
    (lit "verify-event", VerifyEvent (text_of ns "registry") (text_of ns "event"));
    (lit "verify-log", VerifyLog (text_of ns "registry") (text_of ns "input") (flag_of ns "include_results"));
    (lit "create-archive", CreateArchive (text_of ns "input") (text_of ns "output") (text_of ns "recipient_public_key") (text_of ns "node_id")
       (text_opt ns "key_id") (text_opt ns "registry") (flag_of ns "require_valid_evidence") (flag_of ns "force"));
    (lit "decrypt-archive", DecryptArchive (text_of ns "input") (text_opt ns "output") (text_of ns "recipient_private_key") (flag_of ns "force"));
    (lit "verify-archive", VerifyArchive (text_of ns "input") (text_opt ns "recipient_private_key") (text_opt ns "registry") (flag_of ns "force"));
    (lit "status", Status signer_args (text_opt ns "evidence"));
    (lit "recover-state", RecoverState signer_args (text_opt ns "evidence") (flag_of ns "confirm"));
    (lit "benchmark", Benchmark (text_opt ns "backend") (text_of ns "algorithm") (int_of_arg ns "iterations") (int_of_arg ns "chain_events")
       (flag_of ns "no_archive") (text_opt ns "output") (text_opt ns "csv"))] name.
End Reading.

Record Invocation := {
  in_json : bool;
  in_allow_test_backend : bool;
  in_command : Command;
}.

(** [parser.parse_args(argv)] *)
Definition read_command_line (argv : list str) : res Invocation :=
  '(args, name, ns) ← parse_command U main_options subcommands argv;
  let allow := flag_of args "allow_test_backend" in
  match func allow ns name with
  | Some c => Ok {| in_json := flag_of args "json"; in_allow_test_backend := allow; in_command := c |}
  | None => Err AttributeError
  end.

(** [main(argv)], [run] being the commands. *)
Definition cli_main {S A} (run : Invocation -> SE S (outcome A)) (argv : list str) : SE S (outcome A) :=
  i ← lift (read_command_line argv);
  main (run i).
End Table.
