(* ===== verification/CliParserFacts.v ===== *)
(** Every command of the evidence command line can be written, and is read as it was written;
    and what is read is within the bounds the commands rely on. *)
From S2P Require Import Prelude PyText PyStr Json JsonFacts Models CryptoBackend ArgTypes ArgParse ArgParseFacts Cli CliParser.

Section Facts.
Context (U : UnicodeDigits).

Abbreviation setting := (Action * option str)%type.

(** ** Writing *)
Definition given (a : Action) (v : str) : list setting := [(a, Some v)].
Definition given_opt (a : Action) (v : option str) : list setting := match v with Some s => [(a, Some s)] | None => [] end.
Definition given_int (a : Action) (v : option Z) : list setting := match v with Some n => [(a, Some (dec_digits n))] | None => [] end.
Definition given_flag (name : string) (b : bool) : list setting := if b then [(flag name, None)] else [].

Definition backend_settings (backend : option str) (algorithm : option str) : list setting :=
  given_opt backend_option backend ++ given_opt algorithm_option algorithm.
Definition signer_settings (a : SignerPaths) : list setting :=
  backend_settings (sa_backend (sp_args a)) (sa_algorithm (sp_args a)) ++
  given (required_text "--node-id") (sa_node_id (sp_args a)) ++ given (required_text "--key-id") (sa_key_id (sp_args a)) ++
  given (required_text "--private-key") (sp_private_key a) ++ given state_option (sp_state a) ++ given_flag "--force" (sa_force (sp_args a)).

Definition command_name (c : Command) : string :=
  match c with
  | Capabilities => "capabilities" | GenerateKey _ => "generate-key" | RegisterKey _ _ _ => "register-key"
  | RotateKey _ _ _ _ _ => "rotate-key" | RevokeKey _ _ _ => "revoke-key" | SignEvent _ _ _ _ => "sign-event" | SignLog _ _ _ _ => "sign-log"
  | VerifyEvent _ _ => "verify-event" | VerifyLog _ _ _ => "verify-log" | CreateArchive _ _ _ _ _ _ _ _ => "create-archive"
  | DecryptArchive _ _ _ _ => "decrypt-archive" | VerifyArchive _ _ _ _ => "verify-archive" | Status _ _ => "status"
  | RecoverState _ _ _ => "recover-state" | Benchmark _ _ _ _ _ _ _ => "benchmark"
  end.

Definition command_settings (c : Command) : list setting :=
  match c with
  | Capabilities => []
  | GenerateKey a => backend_settings (ga_backend a) (Some (ga_algorithm a)) ++ given (required_text "--private-key") (ga_private_key a) ++
      given_opt (path_option "--public-key") (ga_public_key a) ++ given_flag "--force" (ga_force a)
  | RegisterKey registry public_key a => given registry_option registry ++ given (required_text "--node-id") (ra_node_id a) ++
      given (required_text "--key-id") (ra_key_id a) ++ given (required_text "--public-key") public_key ++ given algorithm_option (ra_algorithm a) ++
      given_opt (path_option "--activated-at") (ra_activated_at a) ++ given_opt (path_option "--expires-at") (ra_expires_at a) ++
      given_flag "--inactive" (ra_inactive a)
  | RotateKey registry node_id key_id public_key algorithm => given registry_option registry ++ given (required_text "--node-id") node_id ++
      given (required_text "--key-id") key_id ++ given (required_text "--public-key") public_key ++ given algorithm_option algorithm
  | RevokeKey registry key_id reason => given registry_option registry ++ given (required_text "--key-id") key_id ++ given (required_text "--reason") reason
  | SignEvent a event output print_record => signer_settings a ++ given (stdin_option "--event") event ++
      given_opt (path_option "--output") output ++ given_flag "--print-record" print_record
  | SignLog a input output max_events => signer_settings a ++ given (stdin_option "--input") input ++ given (required_text "--output") output ++
      given_int (max_events_option U) max_events
  | VerifyEvent registry event => given registry_option registry ++ given (stdin_option "--event") event
  | VerifyLog registry input include => given registry_option registry ++ given (stdin_option "--input") input ++ given_flag "--include-results" include
  | CreateArchive input output recipient node_id key_id registry strict force => given (required_text "--input") input ++
      given (required_text "--output") output ++ given (required_text "--recipient-public-key") recipient ++ given (required_text "--node-id") node_id ++
      given_opt (path_option "--key-id") key_id ++ given_opt no_registry_option registry ++ given_flag "--require-valid-evidence" strict ++ given_flag "--force" force
  | DecryptArchive input output recipient force => given (required_text "--input") input ++ given_opt (path_option "--output") output ++
      given (required_text "--recipient-private-key") recipient ++ given_flag "--force" force
  | VerifyArchive input recipient registry force => given (required_text "--input") input ++ given_opt (path_option "--recipient-private-key") recipient ++
      given_opt no_registry_option registry ++ given_flag "--force" force
  | Status a evidence => signer_settings a ++ given_opt (path_option "--evidence") evidence
  | RecoverState a evidence confirm => signer_settings a ++ given_opt (path_option "--evidence") evidence ++ given_flag "--confirm" confirm
  | Benchmark backend algorithm iterations chain_events no_archive output csv => backend_settings backend (Some algorithm) ++
      given (count_option U "--iterations" 20) (dec_digits iterations) ++ given (count_option U "--chain-events" 200) (dec_digits chain_events) ++
      given_flag "--no-archive" no_archive ++ given_opt (path_option "--output") output ++ given_opt (path_option "--csv") csv
  end.

Definition command_line (i : Invocation) : list str :=
  written (given_flag "--json" (in_json i) ++ given_flag "--allow-test-backend" (in_allow_test_backend i)) ++
  lit (command_name (in_command i)) :: written (command_settings (in_command i)).

(** ** What can be written: texts that do not look like options, counts that are positive *)
Definition count_ok (n : Z) : bool := (1 <=? n) && (n <? INT_LIMIT).
Definition signer_ok (allow : bool) (a : SignerPaths) : bool :=
  eqb (sa_allow_test_backend (sp_args a)) allow && match sa_algorithm (sp_args a) with Some _ => true | None => false end.
Definition command_ok (allow : bool) (c : Command) : bool :=
  match c with
  | GenerateKey a => eqb (ga_allow_test_backend a) allow
  | SignEvent a _ _ _ | Status a _ | RecoverState a _ _ => signer_ok allow a
  | SignLog a _ _ n => signer_ok allow a && match n with Some n => count_ok n | None => true end
  | Benchmark _ _ n m _ _ _ => count_ok n && count_ok m
  | _ => true
  end.
Definition has_plain (s : setting) : bool := match s.2 with Some v => plain v | None => true end.
Definition writable (i : Invocation) : bool :=
  command_ok (in_allow_test_backend i) (in_command i) &&
  forallb has_plain (command_settings (in_command i)).

(** ** The table *)
Lemma main_options_ok : parser_ok main_options = true.
Proof. reflexivity. Qed.

Lemma subcommands_ok : forallb (fun nc => parser_ok nc.2 && plain nc.1) (subcommands U) = true.
Proof. vm_compute. reflexivity. Qed.

Lemma known_option : forallb (fun nc => forallb (fun a => is_ok (classify U main_options (ac_option a)) && negb (str_eqb (ac_option a) (lit "--"))) nc.2) (subcommands U) = true.
Proof. vm_compute. reflexivity. Qed.

(** The options of a command. *)
Definition options_of (c : Command) : Parser :=
  match c with
  | Capabilities => capabilities_options | GenerateKey _ => generate_key_options | RegisterKey _ _ _ => register_key_options
  | RotateKey _ _ _ _ _ => rotate_key_options | RevokeKey _ _ _ => revoke_key_options | SignEvent _ _ _ _ => sign_event_options
  | SignLog _ _ _ _ => sign_log_options U | VerifyEvent _ _ => verify_event_options | VerifyLog _ _ _ => verify_log_options
  | CreateArchive _ _ _ _ _ _ _ _ => create_archive_options | DecryptArchive _ _ _ _ => decrypt_archive_options
  | VerifyArchive _ _ _ _ => verify_archive_options | Status _ _ => status_options | RecoverState _ _ _ => recover_state_options
  | Benchmark _ _ _ _ _ _ _ => benchmark_options U
  end.

Lemma options_found c : assoc (subcommands U) (lit (command_name c)) = Some (options_of c).
Proof. destruct c; reflexivity. Qed.

Lemma options_in c : (lit (command_name c), options_of c) ∈ subcommands U.
Proof. apply assoc_In, options_found. Qed.

Lemma of_table (P : str * Parser -> bool) : forallb P (subcommands U) = true -> forall c, P (lit (command_name c), options_of c) = true.
Proof. intros H c. rewrite forallb_forall in H. apply H, list_elem_of_In, options_in. Qed.

(** ** Settings *)
Definition shaped (p : Parser) (s : setting) : Prop :=
  s.1 ∈ p /\ match ac_kind s.1, s.2 with StoreTrue, None => True | Store _, Some _ => True | _, _ => False end.

Definition readable (s : setting) : Prop :=
  match ac_kind s.1, s.2 with
  | StoreTrue, None => True
  | Store c, Some v => is_ok (c v) = true /\ plain v = true
  | _, _ => False
  end.

Definition settled_value (s : setting) : avalue :=
  match ac_kind s.1, s.2 with Store c, Some v => match c v with Ok x => x | Err _ => ANone end | _, _ => ABool true end.
Definition settled (l : list setting) (m : Namespace) : Namespace := fold_left (fun m s => <[dest s.1 := settled_value s]> m) l m.

Lemma plain_not_dashes v : plain v = true -> v <> lit "--".
Proof. by intros H ->. Qed.

Lemma assign_settled l : Forall readable l -> forall m, assign l m = Ok (settled l m).
Proof.
  induction 1 as [|[a e] l R _ IH]; intros m; [done|]. unfold assign. cbn [fold_res settled fold_left].
  assert (value_of (a, e) = Ok (settled_value (a, e))) as ->.
  { unfold readable, value_of, settled_value in *. cbn [fst snd] in *. destruct (ac_kind a) as [|c], e as [v|]; try done.
    destruct R as [R P]. unfold converted. rewrite (proj2 (str_eqb_neq _ _) (plain_not_dashes v P)). by destruct (c v). }
  cbn [mbind res_bind]. apply IH.
Qed.

Lemma fits_settings p l : parser_ok p = true -> Forall (shaped p) l -> Forall readable l -> Forall (fits U p) l.
Proof.
  intros O S R. rewrite Forall_forall in *. intros [a e] I. destruct (S _ I) as [Ia _]. specialize (R _ I). split; [done|].
  unfold readable in R. cbn [fst snd] in *. destruct (ac_kind a), e; try done. apply plain_value; [done | by destruct R].
Qed.

(** The main parser scans a command's arguments without complaint. *)
Lemma scanned c l : Forall (shaped (options_of c)) l -> Forall readable l -> exists toks, tokens U main_options (written l) = Ok toks.
Proof.
  intros S R. apply (written_tokens U); [|exact main_options_ok]. pose proof (of_table _ known_option c) as K. cbn [snd] in K. rewrite forallb_forall in K.
  induction S as [|[a e] l [Ia Sh] S IH]; [constructor|]. apply Forall_cons in R as [Ra R]. cbn [written flat_map fst snd] in *.
  specialize (K a (proj1 (list_elem_of_In _ _) Ia)). apply andb_true_iff in K as [K N]. constructor.
  - right. destruct (classify U main_options (ac_option a)) as [t|]; [|done]. exists t. split; [done|]. by apply str_eqb_neq, negb_true_iff.
  - unfold readable in Ra. cbn [fst snd] in Ra. destruct (ac_kind a), e; try done; cbn [option_list app]; [by apply IH|]. constructor; [left; by destruct Ra | by apply IH].
Qed.

(** ** Reading what was written *)
Lemma read_back json allow c :
  Forall (shaped (options_of c)) (command_settings c) -> Forall readable (command_settings c) ->
  required_given (options_of c) (command_settings c) ->
  func allow (settled (command_settings c) (defaults (options_of c))) (lit (command_name c)) = Some c ->
  read_command_line U (command_line {| in_json := json; in_allow_test_backend := allow; in_command := c |}) =
    Ok {| in_json := json; in_allow_test_backend := allow; in_command := c |}.
Proof.
  intros S R Q F. set (g := given_flag "--json" json ++ given_flag "--allow-test-backend" allow).
  pose proof (of_table _ subcommands_ok c) as O. cbn [fst snd] in O. apply andb_true_iff in O as [O P].
  assert (Forall readable g) as Rg by (unfold g; by destruct json, allow; repeat constructor).
  assert (Forall (shaped main_options) g) as Sg.
  { unfold g. destruct json, allow; repeat apply Forall_cons_2; try apply Forall_nil_2; (split; [|done]); apply list_elem_of_In; simpl; auto. }
  destruct (scanned c _ S R) as [toks T].
  assert (parse_command U main_options (subcommands U) (written g ++ lit (command_name c) :: written (command_settings c)) =
    Ok (settled g (defaults main_options), lit (command_name c), settled (command_settings c) (defaults (options_of c)))) as E.
  { apply parse_command_spec. exists (written g), (written (command_settings c)), g, (options_of c), (command_settings c), toks.
    split; [done|]. split; [apply written_reads; [exact main_options_ok|]; by apply fits_settings|].
    split; [intros a Ia Ra; apply list_elem_of_In in Ia; simpl in Ia; by destruct Ia as [<-|[<-|[]]]|].
    split; [by apply assign_settled|]. split; [by apply plain_value|]. split; [done|]. split; [apply options_found|].
    split; [apply written_reads; [done|]; by apply fits_settings|]. split; [done|]. by apply assign_settled. }
  unfold read_command_line, command_line. cbn [in_json in_allow_test_backend in_command]. fold g. rewrite E. cbn [mbind res_bind].
  assert (flag_of (settled g (defaults main_options)) "allow_test_backend" = allow) as -> by (by destruct json, allow).
  assert (flag_of (settled g (defaults main_options)) "json" = json) as -> by (by destruct json, allow). by rewrite F.
Qed.

(** *** Each command's settings *)
Lemma given_shaped p a v : a ∈ p -> (exists c, ac_kind a = Store c) -> Forall (shaped p) (given a v).
Proof. intros I [c K]. apply Forall_singleton. split; [done|]. cbn [fst snd]. by rewrite K. Qed.
Lemma opt_shaped p a v : a ∈ p -> (exists c, ac_kind a = Store c) -> Forall (shaped p) (given_opt a v).
Proof. intros I K. destruct v; [by apply given_shaped | constructor]. Qed.
Lemma int_shaped p a v : a ∈ p -> (exists c, ac_kind a = Store c) -> Forall (shaped p) (given_int a v).
Proof. intros I K. destruct v; [by apply given_shaped | constructor]. Qed.
Lemma flag_shaped p name b : flag name ∈ p -> Forall (shaped p) (given_flag name b).
Proof. intros I. destruct b; [|constructor]. by apply Forall_singleton. Qed.

Ltac declared := apply list_elem_of_In; repeat (first [left; reflexivity | right]).
Ltac shaped_settings :=
  repeat (apply Forall_app; split);
  first [apply given_shaped | apply opt_shaped | apply int_shaped | apply flag_shaped | apply Forall_nil_2];
  first [declared | by eexists].

Lemma settings_shaped c : Forall (shaped (options_of c)) (command_settings c).
Proof. destruct c; unfold command_settings, signer_settings, backend_settings, options_of; shaped_settings. Qed.

Lemma given_readable a v : ac_kind a = Store as_text -> forallb has_plain (given a v) = true -> Forall readable (given a v).
Proof. intros K P. apply Forall_singleton. unfold readable. cbn [fst snd]. rewrite K. split; [done|]. cbn in P. by bool_prop. Qed.
Lemma opt_readable a v : ac_kind a = Store as_text -> forallb has_plain (given_opt a v) = true -> Forall readable (given_opt a v).
Proof. intros K P. destruct v; [by apply given_readable | constructor]. Qed.
Lemma flag_readable name b : Forall readable (given_flag name b).
Proof. destruct b; [by apply Forall_singleton | constructor]. Qed.
Lemma count_read n : count_ok n = true -> positive_int U (dec_digits n) = Ok n.
Proof. unfold count_ok. intros H. bool_prop. apply bounded_int_ok. split; [apply py_int_digits; lia | lia]. Qed.
Lemma count_readable a n : ac_kind a = Store (as_int (positive_int U)) -> count_ok n = true -> forallb has_plain (given a (dec_digits n)) = true ->
  Forall readable (given a (dec_digits n)).
Proof.
  intros K C P. apply Forall_singleton. unfold readable. cbn [fst snd]. rewrite K. cbn in P. bool_prop. split; [|done].
  unfold as_int. by rewrite count_read.
Qed.

Ltac readable_settings :=
  repeat match goal with
  | H : forallb has_plain (_ ++ _) = true |- _ => rewrite forallb_app in H; apply andb_true_iff in H as [? ?]
  | H : andb _ _ = true |- _ => apply andb_true_iff in H as [? ?]
  end;
  repeat (apply Forall_app; split);
  first [by apply given_readable | by apply opt_readable | apply flag_readable | by apply count_readable | apply Forall_nil_2].

Lemma settings_readable allow c : command_ok allow c = true -> forallb has_plain (command_settings c) = true -> Forall readable (command_settings c).
Proof.
  intros C P. destruct c; unfold command_settings, signer_settings, backend_settings in *; cbn [command_ok] in C; try readable_settings.
  destruct max_events as [n|]; cbn [given_int] in *; readable_settings.
Qed.

Lemma required_checked p l : forallb (fun a => negb (ac_required a) || str_in (ac_option a) (seen l)) p = true -> required_given p l.
Proof.
  rewrite forallb_forall. intros H a I R. specialize (H a (proj1 (list_elem_of_In _ _) I)). rewrite R in H. by apply str_in_elem.
Qed.

(** All the ways the optional settings may be given. *)
Ltac each_way :=
  repeat match goal with
  | a : SignerPaths |- _ => destruct a as [[] ? ?]
  | a : GenerateArgs |- _ => destruct a
  | a : RegisterArgs |- _ => destruct a
  end; cbn [sa_backend sa_algorithm sa_node_id sa_key_id sa_force sa_allow_test_backend sp_args sp_private_key sp_state ga_backend ga_algorithm ga_private_key ga_public_key
            ga_force ga_allow_test_backend ra_key_id ra_node_id ra_algorithm ra_activated_at ra_expires_at ra_inactive command_ok signer_ok] in *;
  repeat match goal with
  | o : option _ |- _ => destruct o
  | b : bool |- _ => destruct b
  end.

Lemma settings_required c : required_given (options_of c) (command_settings c).
Proof. apply required_checked. destruct c; each_way; vm_compute; reflexivity. Qed.

Lemma count_settled a n : ac_kind a = Store (as_int (positive_int U)) -> count_ok n = true -> settled_value (a, Some (dec_digits n)) = AInt n.
Proof. intros K C. unfold settled_value. cbn [fst snd]. rewrite K. unfold as_int. by rewrite count_read. Qed.

Ltac flat := cbn [command_settings signer_settings backend_settings given given_opt given_int given_flag app settled fold_left fst snd
  sa_backend sa_algorithm sa_node_id sa_key_id sa_force sp_args sp_private_key sp_state].

Lemma settings_func allow c : command_ok allow c = true ->
  func allow (settled (command_settings c) (defaults (options_of c))) (lit (command_name c)) = Some c.
Proof.
  intros C. destruct c; each_way; try discriminate C; try reflexivity.
  all: repeat match goal with H : andb _ _ = true |- _ => apply andb_true_iff in H as [? ?] end; flat; rewrite !count_settled by done; reflexivity.
Qed.

(** C15. The command line says what the command does.  Every command, with any options its texts and
    counts allow, can be written as a command line, and the program reads back from it exactly
    that command - no option is lost, taken for another, or overridden by a default. *)
Theorem command_line_reads i : writable i = true -> read_command_line U (command_line i) = Ok i.
Proof.
  destruct i as [json allow c]. unfold writable. cbn [in_allow_test_backend in_command]. intros H. apply andb_true_iff in H as [C P].
  apply read_back; [apply settings_shaped | by apply (settings_readable allow) | apply settings_required | by apply settings_func].
Qed.

(** ** What a command is never called with *)
Lemma func_name allow ns name c : func allow ns name = Some c -> name = lit (command_name c).
Proof.
  unfold func. intros H%assoc_In. repeat (apply elem_of_cons in H as [[= -> ->] | H]; [done|]). by apply elem_of_nil in H.
Qed.

Lemma read_inv argv i : read_command_line U argv = Ok i -> exists ns pre rest,
  argv = pre ++ lit (command_name (in_command i)) :: rest /\ parse_args U (options_of (in_command i)) rest = Ok ns /\
  func (in_allow_test_backend i) ns (lit (command_name (in_command i))) = Some (in_command i).
Proof.
  unfold read_command_line. intros ([[args name] ns] & P & H)%bind_ok. destruct (func _ ns name) as [c|] eqn:F; [|done]. injection H as <-.
  cbn [in_command in_allow_test_backend]. pose proof (func_name _ _ _ _ F) as ->.
  apply parse_command_spec in P as (pre & rest & l & p & l' & toks & -> & _ & _ & _ & _ & _ & W & R & Q & A).
  rewrite options_found in W. injection W as <-. exists ns, pre, rest. split; [done|]. split; [|done]. apply parse_args_spec. eauto.
Qed.

(** Counts are positive, wherever they come from. *)
Theorem counts_positive argv i : read_command_line U argv = Ok i ->
  match in_command i with
  | SignLog _ _ _ (Some n) => 1 <= n
  | Benchmark _ _ iterations chain_events _ _ _ => 1 <= iterations /\ 1 <= chain_events
  | _ => True
  end.
Proof.
  intros (ns & pre & rest & _ & P & F)%read_inv. destruct (in_command i) as [ | | | | | |a input output [n|]| | | | | | | |backend algorithm n m] eqn:C; try done.
  - injection F as <- <- <- E. apply (int_opt_attribute U (sign_log_options U) rest ns eq_refl P (fun n => 1 <= n) (max_events_option U) (positive_int U) "max_events" n);
      [declared | done | done | done | | done]. intros s k K%bounded_int_ok. lia.
  - injection F as <- <- <- <- _ _ _. split.
    + apply (int_attribute U (benchmark_options U) rest ns eq_refl P (fun n => 1 <= n) (count_option U "--iterations" 20) (positive_int U) 20 "iterations");
        [declared | done | done | done | lia |]. intros s k K%bounded_int_ok. lia.
    + apply (int_attribute U (benchmark_options U) rest ns eq_refl P (fun n => 1 <= n) (count_option U "--chain-events" 200) (positive_int U) 200 "chain_events");
        [declared | done | done | done | lia |]. intros s k K%bounded_int_ok. lia.
Qed.

Lemma reads_given p argv l a e : reads U p argv l -> (a, e) ∈ l -> exists s explicit, s ∈ argv /\ names U p s a explicit.
Proof.
  intros R. induction R as [|s b argv l N K R IH | s b c v argv l N K V R IH | s b c v argv l N K R IH]; [by intros ?%elem_of_nil|..];
    intros [[= -> ->] | I]%elem_of_cons.
  1,3,5: exists s; eexists; split; [by left | exact N].
  all: destruct (IH I) as (x & ex & Ix & Nx); exists x, ex; (split; [set_solver | done]).
Qed.

(** State is rewritten from the log only on an explicit word of the operator. *)
Lemma confirmed_explicitly argv i a evidence : read_command_line U argv = Ok i -> in_command i = RecoverState a evidence true ->
  exists s explicit, s ∈ argv /\ names U recover_state_options s (flag "--confirm") explicit.
Proof.
  intros (ns & pre & rest & -> & P & F)%read_inv C. rewrite C in P, F. injection F as _ _ E.
  apply parse_args_spec in P as (l & R & _ & A).
  destruct (assigned_attribute U recover_state_options rest l ns (flag "--confirm") eq_refl R A) as (v & L & S); [declared|].
  unfold flag_of in E. change (lit "confirm") with (dest (flag "--confirm")) in E. rewrite L in E. destruct S as [-> | (e & I & _)]; [done|].
  destruct (reads_given _ _ _ _ _ R I) as (s & x & Is & N). exists s, x. split; [set_solver | done].
Qed.

Theorem recovery_is_explicit env backends lim py_str py_int now argv i a evidence confirm key freed d d' o :
  read_command_line U argv = Ok i -> in_command i = RecoverState a evidence confirm ->
  cmd_recover_state env backends lim py_str py_int now (sp_args a) key confirm freed d = (d', o) ->
  d' = d \/ exists s explicit, s ∈ argv /\ names U recover_state_options s (flag "--confirm") explicit.
Proof.
  intros R C E. destruct confirm; [right; by apply (confirmed_explicitly argv i a evidence)|]. left. by injection E as <- _.
Qed.
End Facts.

(** ** The commands of the README *)
Definition words (s : string) : list str := split_on 32 (lit s) [].
Definition readme : list string := [
  "status --node-id rpi-honeypot-01 --key-id rpi-honeypot-01-2026-01 --private-key keys/node.key --evidence runtime/pqc/evidence.jsonl";
  "capabilities";
  "generate-key --private-key keys/node.key --public-key keys/node.pub";
  "register-key --registry keys/registry.json --node-id rpi-honeypot-01 --key-id rpi-honeypot-01-2026-01 --public-key keys/node.pub";
  "sign-log --node-id rpi-honeypot-01 --key-id rpi-honeypot-01-2026-01 --private-key keys/node.key --state runtime/pqc/state.json --input runtime/events.jsonl --output runtime/pqc/evidence.jsonl";
  "verify-log --registry keys/registry.json --input runtime/pqc/evidence.jsonl";
  "--json verify-log --registry keys/registry.json --input runtime/pqc/evidence.jsonl";
  "rotate-key --registry keys/registry.json --node-id rpi-honeypot-01 --key-id rpi-honeypot-01-2026-02 --public-key keys/node-2026-02.pub";
  "create-archive --input runtime/pqc/evidence.jsonl --output archives/2026-08-05.pqcarch --recipient-public-key keys/archive.pub --node-id rpi-honeypot-01";
  "decrypt-archive --input archives/2026-08-05.pqcarch --output restored.jsonl --recipient-private-key keys/archive.key";
  "verify-archive --input archives/2026-08-05.pqcarch --recipient-private-key keys/archive.key --registry keys/registry.json";
  "benchmark --output runtime/bench.json --csv runtime/bench.csv"]%string.

Example readme_commands : forallb (fun s => is_ok (read_command_line no_digits (words s))) readme = true.
Proof. vm_compute. reflexivity. Qed.

(** [--json] belongs before the command; abbreviations are read; a value may look like a number
    but not like an option. *)
Example json_after_command : read_command_line no_digits (words "verify-log --json") = Err (SystemExit 2).
Proof. vm_compute. reflexivity. Qed.
Example abbreviated_option : in_command <$> read_command_line no_digits (words "--js verify-log --reg r.json --inc --inp=-") =
  Ok (VerifyLog (lit "r.json") (lit "-") true).
Proof. vm_compute. reflexivity. Qed.
Example ambiguous_abbreviation : read_command_line no_digits (words "verify-log --in -") = Err (SystemExit 2).
Proof. vm_compute. reflexivity. Qed.
Example no_events : map (fun s => read_command_line no_digits (words "sign-log --node-id n --key-id k --private-key p --output o --max-events" ++ [lit s])) ["0"; "-1"; "x"]%string =
  [Err (SystemExit 2); Err (SystemExit 2); Err (SystemExit 2)].
Proof. vm_compute. reflexivity. Qed.

Definition sample_invocation : Invocation := {|
  in_json := true; in_allow_test_backend := true;
  in_command := SignLog {| sp_args := {| sa_node_id := lit "n 1"; sa_key_id := lit "k=1"; sa_algorithm := Some (lit "ML-DSA-65"); sa_backend := Some (lit "-");
                                          sa_allow_test_backend := true; sa_force := true |}; sp_private_key := lit "k.key"; sp_state := lit "s.json" |}
                  (lit "-") (lit "out.jsonl") (Some 12) |}.

Lemma command_line_reads_witness : command_line no_digits sample_invocation <> [] /\
  read_command_line no_digits (command_line no_digits sample_invocation) = Ok sample_invocation.
Proof. split; [done|]. apply (command_line_reads no_digits sample_invocation). vm_compute. reflexivity. Defined.
