(* ===== verification/ModbusServer.v ===== *)
(** The Modbus/TCP decoy: [src/ics_deception/honeypots/modbus_server.py].

    A connection works on its register bank and on the two sides of its socket
    ([Sockets]).  The bank is shared by all connections; every request does one locked
    operation on it, so interleaved connections are a sequence of [dispatch] calls. *)
From S2P Require Import Prelude PyText Json Models Modbus Sockets.

Definition DEFAULT_REGISTERS := 256.
Definition MAX_BUFFER := 4 * MAX_ADU_LEN.

(** ** The register bank *)
Record RegisterBank := {
  size : Z;
  critical_start : Z;
  critical_end : Z;
  registers : list Z;
}.

Definition new_bank (size critical_start critical_end : Z) : RegisterBank := {|
  size := size; critical_start := critical_start; critical_end := critical_end;
  registers := replicate (Z.to_nat size) 0;
|}.

Definition is_critical (b : RegisterBank) (address : Z) : bool :=
  (critical_start b <=? address) && (address <=? critical_end b).

(** Addresses and quantities are decoded from bytes: no slice bound is negative. *)
Definition bank_read (b : RegisterBank) (address quantity : Z) : list Z :=
  slice (registers b) address (address + quantity).

(** [list] assignment: negative indices count from the end, others raise. *)
Definition bank_write (address value : Z) (b : RegisterBank) : res RegisterBank :=
  let n := zlen (registers b) in
  let i := if address <? 0 then address + n else address in
  if (0 <=? i) && (i <? n) then
    Ok {| size := size b; critical_start := critical_start b; critical_end := critical_end b;
          registers := <[Z.to_nat i := Z.land value 0xFFFF]> (registers b) |}
  else Err IndexError.

Definition snapshot (b : RegisterBank) : list Z := registers b.

(** ** Requests *)
Abbreviation Conn := (RegisterBank * Outgoing)%type.
Abbreviation request := (MbapHeader * bytes)%type.

Definition exception_to (h : MbapHeader) (fc exc : Z) : res bytes :=
  build_exception_response (transaction_id h) (unit_id h) fc exc.

Definition write_bank (address value : Z) : SE RegisterBank unit := fun b =>
  match bank_write address value b with Ok b' => (b', Ok tt) | Err e => (b, Err e) end.

Definition read_holding_registers (h : MbapHeader) (pdu : bytes) : SE Conn bytes :=
  if negb (zlen pdu =? 5) then lift (exception_to h FC_READ_HOLDING_REGISTERS EXC_ILLEGAL_DATA_VALUE)
  else
    let address := from_be (slice pdu 1 3) in
    let quantity := from_be (slice pdu 3 5) in
    if (quantity =? 0) || (125 <? quantity) then
      lift (exception_to h FC_READ_HOLDING_REGISTERS EXC_ILLEGAL_DATA_VALUE)
    else
      b ← gets fst;
      if size b <? address + quantity then
        lift (exception_to h FC_READ_HOLDING_REGISTERS EXC_ILLEGAL_DATA_ADDRESS)
      else
        payload ← lift (map_res to_be16 (bank_read b address quantity));
        let payload := concat payload in
        lift (require (zlen payload <? 256) (ValueError "bytes must be in range(0, 256)")) ;;
        lift (build_response (transaction_id h) (unit_id h)
                ([FC_READ_HOLDING_REGISTERS; zlen payload] ++ payload)).

Definition sabotage (address value : Z) : fields := [
  ("function_code", VInt FC_WRITE_SINGLE_REGISTER); ("address", VInt address);
  ("value", VInt value); ("alert", VStr (lit "write_to_critical_register"))]%string.

Definition write_single_register (p : Peer) (h : MbapHeader) (pdu : bytes) : SE Conn bytes :=
  if negb (zlen pdu =? 5) then lift (exception_to h FC_WRITE_SINGLE_REGISTER EXC_ILLEGAL_DATA_VALUE)
  else
    let address := from_be (slice pdu 1 3) in
    let value := from_be (slice pdu 3 5) in
    b ← gets fst;
    if size b <=? address then
      lift (exception_to h FC_WRITE_SINGLE_REGISTER EXC_ILLEGAL_DATA_ADDRESS)
    else
      on_fst (write_bank address value) ;;
      (if is_critical b address
       then on_snd (emit_event p "sabotage_detected" (sabotage address value)) else mret tt) ;;
      lift (build_response (transaction_id h) (unit_id h) pdu).

(** [l[i]] for [i >= 0]. *)
Definition item {A} (l : list A) (i : Z) : res A :=
  match l !! Z.to_nat i with Some x => Ok x | None => Err IndexError end.

Definition dispatch (p : Peer) (h : MbapHeader) (pdu : bytes) : SE Conn bytes :=
  function_code ← lift (item pdu 0);
  if function_code =? FC_READ_HOLDING_REGISTERS then read_holding_registers h pdu
  else if function_code =? FC_WRITE_SINGLE_REGISTER then write_single_register p h pdu
  else
    on_snd (emit_event p "modbus_unsupported_function" [("function_code", VInt function_code)]%string) ;;
    lift (exception_to h function_code EXC_ILLEGAL_FUNCTION).

(** ** One connection: [_Handler.handle] *)

(** What the buffer holds: too little, something malformed, or a complete frame. *)
Inductive next :=
| Wait
| Malformed (why : fields)
| Frame (h : MbapHeader) (frame rest : bytes).

Definition next_frame (buffer : bytes) : next :=
  match parse_mbap buffer with
  | None => Wait
  | Some h =>
    if negb (protocol_id h =? MODBUS_PROTOCOL_ID) then
      Malformed [("reason", VStr (lit "bad_protocol_id")); ("protocol_id", VInt (protocol_id h))]%string
    else if negb ((MIN_MBAP_LENGTH <=? length_field h) && (length_field h <=? MAX_MBAP_LENGTH)) then
      Malformed [("reason", VStr (lit "bad_mbap_length")); ("length", VInt (length_field h))]%string
    else if zlen buffer <? total_frame_len h then Wait
    else let n := Z.to_nat (total_frame_len h) in Frame h (take n buffer) (drop n buffer)
  end.

Definition traffic (h : MbapHeader) (function_code : Z) (what : string) (n : Z) : fields :=
  [("unit_id", VInt (unit_id h)); ("function_code", VInt function_code); (what, VInt n)]%string.

(** A complete frame: request event, dispatch, reply, response event. *)
Definition exchange (p : Peer) (h : MbapHeader) (frame : bytes) : SE Conn unit :=
  let pdu := drop (Z.to_nat MBAP_HEADER_LEN) frame in
  fc ← lift (item pdu 0);
  on_snd (emit_event p "modbus_request" (traffic h fc "bytes_in" (zlen frame))) ;;
  response ← dispatch p h pdu;
  on_snd (send_all "short write on Modbus response" response) ;;
  rfc ← lift (item response MBAP_HEADER_LEN);
  on_snd (emit_event p "modbus_response" (traffic h rfc "bytes_out" (zlen response))).

(** The inner loop.  [None]: the handler returns; otherwise the bytes left in the buffer. *)
Fixpoint drain (p : Peer) (fuel : nat) (buffer : bytes) : SE Conn (option bytes) :=
  match fuel with
  | O => raise OutOfFuel
  | S fuel =>
    match next_frame buffer with
    | Wait => mret (Some buffer)
    | Malformed why => on_snd (emit_event p "modbus_malformed" why) ;; mret None
    | Frame h frame rest => exchange p h frame ;; drain p fuel rest
    end
  end.

Definition drain_all (p : Peer) (buffer : bytes) : SE Conn (option bytes) := drain p (S (length buffer)) buffer.

Definition overflow (n : Z) : fields :=
  [("reason", VStr (lit "buffer_overflow")); ("buffered", VInt n)]%string.

(** The outer loop.  [on_snd (on_snd _)] is the outgoing side of the connection. *)
Fixpoint serve (p : Peer) (fuel : nat) (buffer : bytes) : SE (Incoming * Conn) unit :=
  match fuel with
  | O => raise OutOfFuel
  | S fuel =>
    stop ← on_fst stopping;
    if stop : bool then mret tt else
    chunk ← on_fst (receive 4096);
    match chunk with
    | TimedOut => on_snd (on_snd (emit_event p "modbus_timeout" []))
    | RecvFailed m => on_snd (on_snd (emit_event p "modbus_connection_error" [("error", VStr (lit m))]%string))
    | Data [] => mret tt
    | Data chunk =>
      let buffer := buffer ++ chunk in
      if MAX_BUFFER <? zlen buffer then
        on_snd (on_snd (emit_event p "modbus_malformed" (overflow (zlen buffer))))
      else
        kept ← on_snd (drain_all p buffer);
        match kept with None => mret tt | Some buffer => serve p fuel buffer end
    end
  end.

(** The handler, with fuel for as many rounds as there are bytes and events to arrive. *)
Definition handle (p : Peer) : SE (Incoming * Conn) unit :=
  on_snd (on_snd (emit_event p "modbus_connection" [])) ;;
  incoming ← gets fst;
  se_finally (serve p (S (backlog incoming)) [])
    (on_snd (on_snd (emit_event p "modbus_connection_closed" []))).

(** ** Specification: what a whole stream asks for

    The frames of a stream, what makes the rest of it malformed, if anything, and that
    rest. *)
Fixpoint frames (fuel : nat) (stream : bytes) : list (MbapHeader * bytes) * option fields * bytes :=
  match fuel with
  | O => ([], None, stream)
  | S fuel =>
    match next_frame stream with
    | Wait => ([], None, stream)
    | Malformed why => ([], Some why, stream)
    | Frame h frame rest => let '(l, why, kept) := frames fuel rest in ((h, frame) :: l, why, kept)
    end
  end.

Definition parse (stream : bytes) : list (MbapHeader * bytes) * option fields * bytes :=
  frames (S (length stream)) stream.

Fixpoint exchanges (p : Peer) (l : list (MbapHeader * bytes)) : SE Conn unit :=
  match l with
  | [] => mret tt
  | (h, frame) :: l => exchange p h frame ;; exchanges p l
  end.

(** Answering a whole stream: one exchange per frame, then the complaint. *)
Definition answer (p : Peer) (stream : bytes) : SE Conn unit :=
  let '(l, why, _) := parse stream in
  exchanges p l ;;
  match why with Some why => on_snd (emit_event p "modbus_malformed" why) | None => mret tt end.

(** A connection whose peer sends [stream] and then closes. *)
Definition serve_stream (p : Peer) (stream : bytes) : SE Conn unit :=
  on_snd (emit_event p "modbus_connection" []) ;;
  se_finally (answer p stream) (on_snd (emit_event p "modbus_connection_closed" [])).

(** What a request may write: the address and the value, if it is an accepted FC06. *)
Definition accepted_write (n : Z) (pdu : bytes) : option (Z * Z) :=
  match pdu with
  | [fc; a; b; c; d] =>
    if (fc =? FC_WRITE_SINGLE_REGISTER) && (from_be [a; b] <? n) then Some (from_be [a; b], from_be [c; d])
    else None
  | _ => None
  end.

(** The value a register holds after a history of requests: the last accepted write to it. *)
Definition last_write (n : Z) (history : list bytes) (address : Z) : Z :=
  fold_left (fun v pdu => match accepted_write n pdu with
                          | Some (a, w) => if a =? address then w else v
                          | None => v
                          end) history 0.

(** The response to a request, by the protocol: an echo for an accepted write, the words
    for an accepted read, the exception that fits otherwise. *)
Definition be16 (v : Z) : bytes := [v / 256; v mod 256].
Definition exception (fc exc : Z) : bytes := [Z.land (Z.lor fc 0x80) 0xFF; Z.land exc 0xFF].

Definition reply_pdu (n : Z) (words : Z -> Z -> list Z) (pdu : bytes) : bytes :=
  match pdu with
  | [] => []
  | fc :: args =>
    if fc =? FC_READ_HOLDING_REGISTERS then
      match args with
      | [a; b; c; d] =>
        let address := from_be [a; b] in
        let quantity := from_be [c; d] in
        if (quantity =? 0) || (125 <? quantity) then exception fc EXC_ILLEGAL_DATA_VALUE
        else if n <? address + quantity then exception fc EXC_ILLEGAL_DATA_ADDRESS
        else [fc; 2 * quantity] ++ concat (map be16 (words address quantity))
      | _ => exception fc EXC_ILLEGAL_DATA_VALUE
      end
    else if fc =? FC_WRITE_SINGLE_REGISTER then
      match args with
      | [a; b; c; d] => if n <=? from_be [a; b] then exception fc EXC_ILLEGAL_DATA_ADDRESS else pdu
      | _ => exception fc EXC_ILLEGAL_DATA_VALUE
      end
    else exception fc EXC_ILLEGAL_FUNCTION
  end.

(** The ADU around it: transaction and unit identifiers are echoed. *)
Definition adu (h : MbapHeader) (pdu : bytes) : bytes :=
  be16 (transaction_id h) ++ [0; 0] ++ be16 (zlen pdu + 1) ++ [unit_id h mod 256] ++ pdu.

(** The register file after a request, and the events about it. *)
Definition after_write (pdu : bytes) (b : RegisterBank) : RegisterBank :=
  match accepted_write (size b) pdu with
  | Some (a, v) => {| size := size b; critical_start := critical_start b; critical_end := critical_end b;
                      registers := <[Z.to_nat a := v]> (registers b) |}
  | None => b
  end.

Definition alerts (p : Peer) (b : RegisterBank) (pdu : bytes) : list (str * dict) :=
  match pdu with
  | [] => []
  | fc :: _ =>
    if fc =? FC_READ_HOLDING_REGISTERS then []
    else if fc =? FC_WRITE_SINGLE_REGISTER then
      match accepted_write (size b) pdu with
      | Some (a, v) => if is_critical b a then [report p "sabotage_detected" (sabotage a v)] else []
      | None => []
      end
    else [report p "modbus_unsupported_function" [("function_code", VInt fc)]%string]
  end.

Definition log (l : list (str * dict)) (o : Outgoing) : Outgoing :=
  {| outcomes := outcomes o; delivered := delivered o; trace := trace o ++ l |}.

(** Requests of any number of connections, in the order the bank sees them. *)
Fixpoint dispatches (l : list (Peer * request)) : SE Conn (list bytes) :=
  match l with
  | [] => mret []
  | (p, (h, pdu)) :: l => r ← dispatch p h pdu; rs ← dispatches l; mret (r :: rs)
  end.

(** ** Facts about framing *)
Lemma parse_mbap_app a b h : parse_mbap a = Some h -> parse_mbap (a ++ b) = Some h.
Proof.
  unfold parse_mbap, MBAP_HEADER_LEN. zlen. pose proof (zlen_nonneg b).
  case_match eqn:L; [done|]. bool_prop. intros [= <-].
  replace (zlen a + zlen b <? 7) with false by (symmetry; lia).
  unfold zlen in L. f_equal. unfold slice.
  rewrite !drop_app_le by lia. rewrite !take_app_le by (rewrite ?length_drop; lia).
  f_equal. rewrite app_nth1 by lia. done.
Qed.

Lemma next_frame_app a b :
  next_frame (a ++ b) = match next_frame a with
                        | Wait => next_frame (a ++ b)
                        | Malformed why => Malformed why
                        | Frame h frame rest => Frame h frame (rest ++ b)
                        end.
Proof.
  unfold next_frame. destruct (parse_mbap a) as [h|] eqn:E; [|done].
  rewrite (parse_mbap_app _ b _ E). repeat (case_match; [done|]).
  destruct (zlen a <? total_frame_len h) eqn:L; [done|]. bool_prop.
  pose proof (zlen_nonneg b). unfold zlen in *.
  rewrite length_app. rewrite (proj2 (Z.ltb_ge _ _)) by lia.
  by rewrite take_app_le, drop_app_le by lia.
Qed.

(** A frame is between 8 and [MAX_ADU_LEN] bytes; a stream that waits is shorter. *)
Lemma next_frame_size b h frame rest : next_frame b = Frame h frame rest ->
  b = frame ++ rest /\ 8 <= zlen frame <= MAX_ADU_LEN /\ zlen frame = total_frame_len h /\
  parse_mbap b = Some h /\ is_valid_mbap h = true.
Proof.
  unfold next_frame, is_valid_mbap. destruct (parse_mbap b) as [h'|]; [|done].
  repeat (case_match; [done|]). intros [= -> <- <-].
  rewrite take_drop. bool_prop.
  unfold total_frame_len, MAX_ADU_LEN, MBAP_HEADER_LEN, MAX_MBAP_LENGTH, MIN_MBAP_LENGTH, MAX_PDU_LEN in *.
  unfold zlen in *. rewrite length_take.
  rewrite (proj2 (Z.eqb_eq _ _)) by done. simpl.
  split; [done|]. split; [lia|]. split; [lia|]. split; [done|].
  apply andb_true_iff. rewrite !Z.leb_le. done.
Qed.

Lemma next_frame_wait b : next_frame b = Wait -> zlen b < MAX_ADU_LEN.
Proof.
  unfold next_frame, parse_mbap. intros H. change MAX_ADU_LEN with 260.
  destruct (zlen b <? MBAP_HEADER_LEN) eqn:L.
  { apply Z.ltb_lt in L. unfold MBAP_HEADER_LEN in L. lia. }
  repeat (case_match; [done|]). destruct (zlen b <? total_frame_len _) eqn:L'; [|done]. bool_prop.
  unfold total_frame_len, MBAP_HEADER_LEN, MAX_MBAP_LENGTH, MAX_PDU_LEN in *. lia.
Qed.

(** ** Parsing a stream *)
Lemma frames_fuel n : forall m b, (length b < n)%nat -> (length b < m)%nat -> frames n b = frames m b.
Proof.
  induction n as [|n IH]; intros [|m] b ? ?; [lia | lia | lia |]. simpl.
  destruct (next_frame b) as [| |h frame rest] eqn:E; [done | done |].
  apply next_frame_size in E as (-> & L & _). rewrite length_app in *. unfold zlen in L.
  by rewrite (IH m) by lia.
Qed.

Lemma parse_eq b : parse b = match next_frame b with
                             | Wait => ([], None, b)
                             | Malformed why => ([], Some why, b)
                             | Frame h frame rest =>
                               let '(l, why, kept) := parse rest in ((h, frame) :: l, why, kept)
                             end.
Proof.
  unfold parse at 1. cbn [frames].
  destruct (next_frame b) as [| |h frame rest] eqn:E; [done | done |].
  apply next_frame_size in E as (-> & L & _). unfold parse, zlen in *.
  by rewrite (frames_fuel _ (S (length rest))) by (rewrite ?length_app; lia).
Qed.

(** Parsing is incremental: what is left waiting is parsed again with what follows. *)
Lemma parse_app a : forall b, parse (a ++ b) =
  let '(l, why, kept) := parse a in
  match why with
  | Some _ => (l, why, kept ++ b)
  | None => let '(l', why', kept') := parse (kept ++ b) in (l ++ l', why', kept')
  end.
Proof.
  induction a as [a IH] using (induction_ltof1 _ (@length Z)). intros b.
  rewrite (parse_eq a), parse_eq, next_frame_app.
  destruct (next_frame a) as [| |h frame rest] eqn:E.
  - rewrite <- parse_eq. by destruct (parse (a ++ b)) as [[l why] kept].
  - done.
  - apply next_frame_size in E as (-> & L & _). unfold zlen in L.
    rewrite (IH rest) by (unfold ltof; rewrite length_app; lia).
    destruct (parse rest) as [[l [why|]] kept]; [done|].
    by destruct (parse (kept ++ b)) as [[l' why'] kept'].
Qed.

(** What is left without a complaint is waiting. *)
Lemma parse_waits a : forall l kept, parse a = (l, None, kept) -> next_frame kept = Wait.
Proof.
  induction a as [a IH] using (induction_ltof1 _ (@length Z)). intros l kept.
  rewrite parse_eq. destruct (next_frame a) as [| |h frame rest] eqn:E.
  - by intros [= <- <-].
  - done.
  - apply next_frame_size in E as (-> & L & _). unfold zlen in L.
    destruct (parse rest) as [[l' why] kept'] eqn:P. intros [= <- -> ->].
    eapply (IH rest); [unfold ltof; rewrite length_app; lia | done].
Qed.

(** ** The loops run the reference *)
Definition settle (p : Peer) (r : list (MbapHeader * bytes) * option fields * bytes) : SE Conn (option bytes) :=
  let '(l, why, kept) := r in
  exchanges p l ;;
  match why with
  | Some why => on_snd (emit_event p "modbus_malformed" why) ;; mret None
  | None => mret (Some kept)
  end.

Lemma drain_parse p n : forall b c, (length b < n)%nat -> drain p n b c = settle p (parse b) c.
Proof.
  induction n as [|n IH]; intros b c ?; [lia|]. rewrite parse_eq. cbn [drain].
  destruct (next_frame b) as [| |h frame rest] eqn:E; [done | done |].
  apply next_frame_size in E as (-> & L & _). unfold zlen in L. rewrite length_app in *.
  destruct (parse rest) as [[l why] kept] eqn:P. unfold settle. cbn [exchanges].
  destruct (exchange p h frame c) as [c' [[]|e]] eqn:X.
  - rewrite (se_bind_eq _ _ _ _ _ X), IH, P by lia. unfold settle.
    unfold mbind, se_bind. by rewrite X.
  - unfold mbind, se_bind. by rewrite X.
Qed.

Lemma exchanges_app p l k c : exchanges p (l ++ k) c = (exchanges p l ;; exchanges p k) c.
Proof.
  revert c. induction l as [|[h frame] l IH]; intros c; simpl; [done|].
  unfold mbind, se_bind. destruct (exchange p h frame c) as [c' [[]|e]]; [|done].
  by rewrite IH.
Qed.

(** The longest segment that cannot overflow the buffer, whatever waits in it. *)
Definition SAFE_SEGMENT := MAX_BUFFER - (MAX_ADU_LEN - 1).
Abbreviation small := (fun s => 0 < zlen s <= SAFE_SEGMENT).

(** Reading a small segment takes it whole. *)
Lemma receive_segment s segs : 0 < zlen s <= SAFE_SEGMENT ->
  receive 4096 (segments (s :: segs)) = (segments segs, Ok (Data s)).
Proof.
  unfold receive, segments, zlen. simpl. intros [_ H]. change SAFE_SEGMENT with 781 in H.
  rewrite (proj2 (Nat.leb_le _ _)); [done|]. apply Nat2Z.inj_le. lia.
Qed.

Lemma serve_segments p segs : forall b c fuel,
  next_frame b = Wait -> Forall small segs -> (backlog (segments segs) < fuel)%nat ->
  exists i, serve p fuel b (segments segs, c) =
    let '(c', r) := answer p (b ++ concat segs) c in ((i, c'), r).
Proof.
  induction segs as [|s segs IH]; intros b c [|fuel] W F L; try lia.
  - exists (segments []). simpl. unfold answer. rewrite app_nil_r, parse_eq, W. done.
  - apply Forall_cons in F as [Hs F]. cbn [serve].
    rewrite (se_bind_eq _ _ _ (segments (s :: segs), c) false) by done.
    assert (R : on_fst (receive 4096) (segments (s :: segs), c) = ((segments segs, c), Ok (Data s))).
    { unfold on_fst. simpl. by rewrite receive_segment. }
    rewrite (se_bind_eq _ _ _ _ _ R). destruct s as [|x s']; [change (zlen []) with 0 in Hs; lia|].
    set (s := x :: s') in *. apply next_frame_wait in W.
    rewrite (proj2 (Z.ltb_ge _ _)).
    2: { zlen. change SAFE_SEGMENT with 781 in Hs. change MAX_ADU_LEN with 260 in W. change MAX_BUFFER with 1040. lia. }
    unfold answer. rewrite concat_cons, (assoc_L (++)), parse_app.
    unfold drain_all. unfold mbind at 1, se_bind at 1, on_snd at 1. simpl fst. simpl snd.
    rewrite drain_parse by lia.
    pose proof (parse_waits (b ++ s)) as K.
    destruct (parse (b ++ s)) as [[l why] kept]. specialize (K l kept). unfold settle.
    destruct why as [why|].
    + exists (segments segs). unfold mbind, se_bind. destruct (exchanges p l c) as [c' [[]|e]]; [|done]. done.
    + specialize (K eq_refl). unfold mbind at 1, se_bind at 1.
      destruct (exchanges p l c) as [c' [[]|e]] eqn:X.
      * simpl. destruct (IH kept c' fuel K F) as [i ->].
        { change (backlog (segments (s :: segs))) with (S (length s) + backlog (segments segs))%nat in L. lia. }
        exists i. unfold answer. destruct (parse (kept ++ concat segs)) as [[l' why'] kept'].
        unfold mbind, se_bind. rewrite exchanges_app. unfold mbind, se_bind. by rewrite X.
      * exists (segments segs). destruct (parse (kept ++ concat segs)) as [[l' why'] kept'].
        unfold mbind, se_bind. rewrite exchanges_app. unfold mbind, se_bind. by rewrite X.
Qed.

Lemma handle_segments p segs c (H : Forall (fun s => 0 < zlen s <= SAFE_SEGMENT) segs) :
  let '((_, c'), r) := handle p (segments segs, c) in
  (c', r) = serve_stream p (concat segs) c.
Proof.
  unfold handle, serve_stream. set (log := emit_event p "modbus_connection" []).
  destruct (on_snd log c) as [c0 r0] eqn:E.
  assert (r0 = Ok tt) as -> by (by injection E as _ <-).
  rewrite (se_bind_eq _ _ _ _ _ E), (se_bind_eq _ _ _ (segments segs, c0) tt).
  2: { unfold on_snd at 1. cbn [fst snd]. by rewrite E. }
  rewrite (se_bind_eq _ _ _ (segments segs, c0) (segments segs)) by done. unfold se_finally.
  destruct (serve_segments p segs [] c0 (S (backlog (segments segs)))) as [i ->]; [done | done | lia |].
  destruct (answer p ([] ++ concat segs) c0) as [[b o] r] eqn:A. simpl in A. by rewrite A.
Qed.

(** C16. However the network cuts a client's byte stream into segments - any sizes up to the
    one that could overflow the buffer - the handler answers the stream exactly as if it had
    been parsed at once: the same replies in the same order, the same register writes and the
    same telemetry, also when a send fails or the rest of the stream is malformed. *)
Theorem stream_reassembly p segs c (H : Forall (fun s => 0 < zlen s <= SAFE_SEGMENT) segs) :
  let '((_, c'), r) := handle p (segments segs, c) in
  (c', r) = serve_stream p (concat segs) c.
Proof. by apply handle_segments. Qed.

(** ** Dispatching *)

(** The register file: as long as the size says, every register 16 bits wide. *)
Record bank_ok (b : RegisterBank) : Prop := {
  ok_size : zlen (registers b) = size b;
  ok_words : Forall (fun v => 0 <= v < 65536) (registers b);
}.

(** A request the framing lets through. *)
Record request_ok (h : MbapHeader) (pdu : bytes) : Prop := {
  ok_tid : 0 <= transaction_id h < 65536;
  ok_pdu : Bytes pdu;
  ok_len : 1 <= zlen pdu <= MAX_PDU_LEN;
}.

Lemma build_ok h pdu : 0 <= transaction_id h < 65536 -> zlen pdu <= MAX_PDU_LEN ->
  build_response (transaction_id h) (unit_id h) pdu = Ok (adu h pdu).
Proof. intros. rewrite build_response_spec; [done | done |]. change MAX_PDU_LEN with 253 in *. lia. Qed.

Lemma exception_ok h fc exc : 0 <= transaction_id h < 65536 ->
  exception_to h fc exc = Ok (adu h (exception fc exc)).
Proof. intros. by apply build_ok. Qed.

Lemma words_ok l : Forall (fun v => 0 <= v < 65536) l -> map_res to_be16 l = Ok (map be16 l).
Proof. induction 1 as [|v l ? _ IH]; simpl; [done|]. by rewrite to_be16_ok, IH. Qed.

Lemma zlen_words l : zlen (concat (map be16 l)) = 2 * zlen l.
Proof.
  induction l as [|v l IH]; [done|]. cbn [map concat]. rewrite zlen_app, IH, zlen_cons.
  change (zlen (be16 v)) with 2. lia.
Qed.

Lemma land_16 v : 0 <= v < 65536 -> Z.land v 0xFFFF = v.
Proof. intros. change 0xFFFF with (Z.ones 16). rewrite Z.land_ones by lia. by apply Z.mod_small. Qed.

Lemma accepted_range n pdu a v : Bytes pdu -> accepted_write n pdu = Some (a, v) ->
  0 <= a < n /\ 0 <= a < 65536 /\ 0 <= v < 65536.
Proof.
  unfold accepted_write. intros H. destruct pdu as [|fc [|x [|y [|z [|w [|]]]]]]; try done.
  case_match eqn:E; [|done]. intros [= <- <-]. bool_prop.
  rewrite !Forall_cons in H. destruct H as (_ & ? & ? & ? & ? & _).
  pose proof (from_be16_range x y ltac:(done) ltac:(done)).
  pose proof (from_be16_range z w ltac:(done) ltac:(done)). lia.
Qed.

Lemma after_write_ok pdu b : Bytes pdu -> bank_ok b -> bank_ok (after_write pdu b).
Proof.
  intros H [S W]. unfold after_write. case_match eqn:E; [|done]. destruct p as [a v].
  apply accepted_range in E as (? & ? & ?); [|done]. split; simpl.
  - unfold zlen in *. by rewrite length_insert.
  - by apply Forall_insert.
Qed.

Lemma bank_read_words b address quantity : bank_ok b ->
  0 <= address -> 0 <= quantity -> address + quantity <= size b ->
  Forall (fun v => 0 <= v < 65536) (bank_read b address quantity) /\ zlen (bank_read b address quantity) = quantity.
Proof.
  intros [S W] ? ? ?. split.
  - by apply Forall_take, Forall_drop.
  - unfold bank_read. rewrite zlen_slice; lia.
Qed.

(** FC03: the words asked for, or the exception. *)
Lemma read_spec h pdu b o : request_ok h pdu -> bank_ok b -> pdu !! 0%nat = Some FC_READ_HOLDING_REGISTERS ->
  read_holding_registers h pdu (b, o) = ((b, o), Ok (adu h (reply_pdu (size b) (bank_read b) pdu))).
Proof.
  intros [T B L] K F. unfold read_holding_registers. rewrite !exception_ok by done.
  destruct pdu as [|fc [|x [|y [|z [|w [|u r]]]]]]; simpl in F; try done; injection F as ->.
  - done.
  - done.
  - done.
  - done.
  - cbn [reply_pdu]. rewrite Z.eqb_refl. change (negb _) with false. cbv iota.
    rewrite !Forall_cons in B. destruct B as (_ & ? & ? & ? & ? & _).
    change (slice _ 1 3) with [x; y]. change (slice _ 3 5) with [z; w].
    pose proof (from_be16_range x y ltac:(done) ltac:(done)).
    pose proof (from_be16_range z w ltac:(done) ltac:(done)).
    destruct ((_ =? 0) || _) eqn:Q; [done|]. unfold mbind at 1, se_bind at 1, gets. cbn [fst].
    case_match eqn:A; [done|]. bool_prop.
    destruct (bank_read_words b (from_be [x; y]) (from_be [z; w])) as [W N]; [done | lia | lia | lia |].
    rewrite words_ok by done. unfold lift, mbind, se_bind. rewrite zlen_words, N.
    rewrite (proj2 (Z.ltb_lt _ _)) by lia. simpl.
    rewrite build_ok; [done | done |]. zlen. rewrite zlen_words, N. change MAX_PDU_LEN with 253. lia.
  - unfold reply_pdu. rewrite Z.eqb_refl. rewrite (proj2 (Z.eqb_neq _ _)); [done|].
    pose proof (zlen_nonneg r). zlen. lia.
Qed.

Lemma log_nil o : log [] o = o.
Proof. destruct o. unfold log. simpl. by rewrite app_nil_r. Qed.

Lemma bank_write_ok b a v : bank_ok b -> 0 <= a < size b -> 0 <= v < 65536 ->
  bank_write a v b = Ok {| size := size b; critical_start := critical_start b;
    critical_end := critical_end b; registers := <[Z.to_nat a := v]> (registers b) |}.
Proof.
  intros [S _] ? ?. unfold bank_write. rewrite (proj2 (Z.ltb_ge a 0)) by lia. rewrite S.
  rewrite (proj2 (Z.leb_le 0 a)), (proj2 (Z.ltb_lt a _)) by lia. simpl. by rewrite land_16.
Qed.

(** FC06: the write, its alert, the echo, or the exception. *)
Lemma write_spec p h pdu b o : request_ok h pdu -> bank_ok b -> pdu !! 0%nat = Some FC_WRITE_SINGLE_REGISTER ->
  write_single_register p h pdu (b, o) =
    ((after_write pdu b, log (alerts p b pdu) o), Ok (adu h (reply_pdu (size b) (bank_read b) pdu))).
Proof.
  intros [T B L] K F. unfold write_single_register, after_write, alerts. rewrite !exception_ok by done.
  destruct pdu as [|fc [|x [|y [|z [|w [|u r]]]]]]; simpl in F; try done; injection F as ->.
  1-4: simpl; by rewrite log_nil.
  - unfold accepted_write, reply_pdu. change (FC_WRITE_SINGLE_REGISTER =? FC_READ_HOLDING_REGISTERS) with false.
    change (FC_WRITE_SINGLE_REGISTER =? FC_WRITE_SINGLE_REGISTER) with true.
    change (negb _) with false. cbn [andb]. cbv iota.
    rewrite !Forall_cons in B. destruct B as (_ & ? & ? & ? & ? & _).
    change (slice _ 1 3) with [x; y]. change (slice _ 3 5) with [z; w].
    pose proof (from_be16_range x y ltac:(done) ltac:(done)).
    pose proof (from_be16_range z w ltac:(done) ltac:(done)).
    unfold mbind at 1, se_bind at 1, gets. cbn [fst]. destruct (size b <=? from_be [x; y]) eqn:A; bool_prop.
    + rewrite (proj2 (Z.ltb_ge _ _)) by lia. by rewrite log_nil.
    + rewrite (proj2 (Z.ltb_lt _ _)) by lia. unfold on_fst, write_bank, mbind, se_bind. cbn [fst].
      rewrite bank_write_ok by (done || lia). rewrite build_ok by done. unfold lift. cbv iota.
      destruct (is_critical b (from_be [x; y])); [done|]. by rewrite log_nil.
  - rewrite (proj2 (Z.eqb_neq _ _)).
    + simpl. by rewrite log_nil.
    + pose proof (zlen_nonneg r). zlen. lia.
Qed.

Lemma other_spec fc r n b p : fc <> FC_READ_HOLDING_REGISTERS -> fc <> FC_WRITE_SINGLE_REGISTER ->
  after_write (fc :: r) b = b /\ reply_pdu n (bank_read b) (fc :: r) = exception fc EXC_ILLEGAL_FUNCTION /\
  alerts p b (fc :: r) = [report p "modbus_unsupported_function" [("function_code", VInt fc)]%string].
Proof.
  intros N3 N6. apply Z.eqb_neq in N3, N6. unfold after_write, accepted_write, reply_pdu, alerts.
  rewrite N3, N6. destruct r as [|? [|? [|? [|? [|]]]]]; done.
Qed.

Lemma dispatch_eq p h pdu b o : request_ok h pdu -> bank_ok b ->
  dispatch p h pdu (b, o) =
    ((after_write pdu b, log (alerts p b pdu) o), Ok (adu h (reply_pdu (size b) (bank_read b) pdu))).
Proof.
  intros R K. destruct pdu as [|fc r]; [by destruct R as [_ _ [L _]]|].
  unfold dispatch. change (item (fc :: r) 0) with (Ok fc). unfold lift, mbind, se_bind.
  destruct (fc =? FC_READ_HOLDING_REGISTERS) eqn:E3; [|destruct (fc =? FC_WRITE_SINGLE_REGISTER) eqn:E6].
  - apply Z.eqb_eq in E3 as ->. rewrite read_spec by done.
    assert (after_write (FC_READ_HOLDING_REGISTERS :: r) b = b) as ->.
    { unfold after_write, accepted_write. destruct r as [|? [|? [|? [|? [|]]]]]; done. }
    by rewrite log_nil.
  - apply Z.eqb_eq in E6 as ->. by rewrite write_spec.
  - apply Z.eqb_neq in E3, E6. destruct (other_spec fc r (size b) b p E3 E6) as (-> & -> & ->).
    destruct R as [T _ _]. by rewrite exception_ok.
Qed.

(** Every request the framing lets through is answered by the protocol: FC03 returns the
    words asked for, FC06 writes the register and echoes the request, and a wrong length, a
    quantity outside 1..125, an address outside the bank and an unsupported function each get
    their exception; a write to the critical range and an unsupported function are reported;
    only an accepted FC06 changes a register. *)
Theorem dispatch_spec p h pdu b o (R : request_ok h pdu) (K : bank_ok b) :
  dispatch p h pdu (b, o) =
    ((after_write pdu b, log (alerts p b pdu) o), Ok (adu h (reply_pdu (size b) (bank_read b) pdu))).
Proof. by apply dispatch_eq. Qed.

(** ** Bounds of the responses *)
Lemma Bytes_be16 v : 0 <= v < 65536 -> Bytes (be16 v).
Proof. intros. unfold be16. repeat constructor; auto with pybytes. Qed.

Lemma Bytes_exception fc exc : Bytes (exception fc exc).
Proof. unfold exception. rewrite !land_ff. repeat constructor; apply is_byte_mod. Qed.

Lemma Bytes_words l : Forall (fun v => 0 <= v < 65536) l -> Bytes (concat (map be16 l)).
Proof. induction 1 as [|v l ? _ IH]; [constructor|]. apply Forall_app; split; [by apply Bytes_be16 | done]. Qed.

Lemma is_byte_le v : 0 <= v <= 255 -> is_byte v = true.
Proof. intros. unfold is_byte. apply andb_true_iff. rewrite !Z.leb_le. lia. Qed.

Lemma reply_pdu_bounds b pdu : Bytes pdu -> 1 <= zlen pdu -> bank_ok b ->
  Bytes (reply_pdu (size b) (bank_read b) pdu) /\ 2 <= zlen (reply_pdu (size b) (bank_read b) pdu) <= MAX_PDU_LEN.
Proof.
  change MAX_PDU_LEN with 253. intros B L K. pose proof Bytes_exception as X.
  destruct pdu as [|fc r]; [done|]. apply Forall_cons in B as [Bf B].
  assert (XX : forall e, Bytes (exception fc e) /\ 2 <= zlen (exception fc e) <= 253) by (intros; split; [done|]; done).
  unfold reply_pdu. case_match eqn:E3; [|case_match eqn:E6; [|done]].
  - destruct r as [|x [|y [|z [|w [|u r]]]]]; try done. repeat (case_match; [done|]). bool_prop.
    rewrite !Forall_cons in B. destruct B as (? & ? & ? & ? & _).
    pose proof (from_be16_range x y ltac:(done) ltac:(done)).
    pose proof (from_be16_range z w ltac:(done) ltac:(done)).
    destruct (bank_read_words b (from_be [x; y]) (from_be [z; w])) as [W N]; [done | lia | lia | lia |].
    split; [|zlen; rewrite zlen_words; lia].
    repeat (constructor; [done || apply is_byte_le; lia|]). by apply Bytes_words.
  - destruct r as [|x [|y [|z [|w [|u r]]]]]; try done. case_match; [done|]. split; [by constructor | done].
Qed.

(** The header of a response, and the frame it makes for whoever reads it. *)
Definition echo (h : MbapHeader) (pdu : bytes) : MbapHeader := {|
  transaction_id := transaction_id h; protocol_id := 0; length_field := zlen pdu + 1; unit_id := unit_id h mod 256 |}.

Lemma zlen_adu h pdu : zlen (adu h pdu) = MBAP_HEADER_LEN + zlen pdu.
Proof. unfold adu, be16. zlen. change MBAP_HEADER_LEN with 7. lia. Qed.

Lemma parse_adu h pdu rest : 0 <= transaction_id h < 65536 -> zlen pdu <= MAX_PDU_LEN ->
  parse_mbap (adu h pdu ++ rest) = Some (echo h pdu).
Proof.
  intros T L. change MAX_PDU_LEN with 253 in L. pose proof (zlen_nonneg pdu). pose proof (zlen_nonneg rest).
  unfold parse_mbap. rewrite zlen_app, zlen_adu. change MBAP_HEADER_LEN with 7.
  rewrite (proj2 (Z.ltb_ge _ _)) by lia. unfold adu, be16, slice, echo. simpl.
  by rewrite !from_be16 by lia.
Qed.

Lemma next_frame_adu h pdu rest : 0 <= transaction_id h < 65536 -> 1 <= zlen pdu <= MAX_PDU_LEN ->
  next_frame (adu h pdu ++ rest) = Frame (echo h pdu) (adu h pdu) rest.
Proof.
  intros T L. unfold next_frame. rewrite parse_adu by (done || lia).
  change MAX_PDU_LEN with 253 in L. unfold total_frame_len, echo. cbn [protocol_id length_field].
  change MIN_MBAP_LENGTH with 2. change MAX_MBAP_LENGTH with 254.
  rewrite (proj2 (Z.leb_le 2 _)), (proj2 (Z.leb_le _ 254)) by lia. cbn [negb andb].
  change (negb (0 =? MODBUS_PROTOCOL_ID)) with false. cbv iota. pose proof (zlen_nonneg rest).
  replace (MBAP_HEADER_LEN - 1 + (zlen pdu + 1)) with (zlen (adu h pdu)) by (rewrite zlen_adu; lia).
  rewrite zlen_app, (proj2 (Z.ltb_ge _ _)) by lia. unfold zlen. rewrite Nat2Z.id.
  by rewrite take_app_length, drop_app_length.
Qed.

(** Whatever bytes a client puts in a PDU, the response is a frame of at most [MAX_ADU_LEN]
    bytes, each of them a byte, which parses back to the request's transaction and unit
    identifiers and to its own length; and the register file keeps its size and its 16-bit
    words. *)
Theorem dispatch_bounds p h pdu b o (R : request_ok h pdu) (K : bank_ok b) : exists c response,
  dispatch p h pdu (b, o) = (c, Ok response) /\ bank_ok c.1 /\ size c.1 = size b /\
  Bytes response /\ MBAP_HEADER_LEN + 2 <= zlen response <= MAX_ADU_LEN /\
  exists header, parse_mbap response = Some header /\ is_valid_mbap header = true /\
    transaction_id header = transaction_id h /\ unit_id header = unit_id h mod 256 /\
    total_frame_len header = zlen response.
Proof.
  rewrite dispatch_eq by done. eexists _, _. split; [done|]. destruct R as [T B L].
  destruct (reply_pdu_bounds b pdu) as [RB RL]; [done | lia | done |].
  set (r := reply_pdu _ _ _) in *. change MAX_PDU_LEN with 253 in RL. cbn [fst].
  split; [by apply after_write_ok|]. split; [unfold after_write; by repeat case_match|].
  split; [|split].
  - unfold adu. rewrite !Forall_app. repeat split; [by apply Bytes_be16 | | apply Bytes_be16; lia | | done].
    + by repeat constructor.
    + repeat constructor. apply is_byte_mod.
  - unfold adu, be16. zlen. change MAX_ADU_LEN with 260. change MBAP_HEADER_LEN with 7. lia.
  - exists (echo h r). split; [|split; [|split; [done|split; [done|]]]].
    + rewrite <- (app_nil_r (adu h r)). apply parse_adu; [done|]. change MAX_PDU_LEN with 253. lia.
    + unfold is_valid_mbap. simpl. apply andb_true_iff. rewrite !Z.leb_le.
      change MIN_MBAP_LENGTH with 2. change MAX_MBAP_LENGTH with 254. lia.
    + rewrite zlen_adu. unfold total_frame_len. simpl. lia.
Qed.

(** ** The bank under any interleaving of connections *)
Definition bank_after (l : list bytes) (b : RegisterBank) : RegisterBank := fold_left (fun b pdu => after_write pdu b) l b.

Abbreviation pdus := (map (fun r : Peer * request => r.2.2)).

Lemma after_write_size pdu b : size (after_write pdu b) = size b.
Proof. unfold after_write. by repeat case_match. Qed.

Lemma dispatches_bank l : forall b o,
  Forall (fun r : Peer * request => request_ok r.2.1 r.2.2) l -> bank_ok b -> exists o' rs,
  dispatches l (b, o) = ((bank_after (pdus l) b, o'), Ok rs) /\ bank_ok (bank_after (pdus l) b) /\
  size (bank_after (pdus l) b) = size b.
Proof.
  induction l as [|[p [h pdu]] l IH]; intros b o F K; [by eexists _, _|].
  apply Forall_cons in F as [R F]. simpl in R. cbn [dispatches map].
  pose proof (dispatch_eq p h pdu b o R K) as E.
  destruct (IH (after_write pdu b) (log (alerts p b pdu) o) F) as (o' & rs & D & K' & S).
  { by apply after_write_ok; [destruct R|]. }
  rewrite (se_bind_eq _ _ _ _ _ E), (se_bind_eq _ _ _ _ _ D). rewrite after_write_size in S.
  eexists _, _. split; [done|]. split; done.
Qed.

(** One accepted write updates one cell of the abstract file. *)
Lemma registers_insert n (f : Z -> Z) a v : 0 <= a < n ->
  <[Z.to_nat a := v]> (map f (seqZ 0 n)) = map (fun x => if a =? x then v else f x) (seqZ 0 n).
Proof.
  intros H. apply list_eq. intros i. destruct (decide (i < Z.to_nat n)%nat) as [Li|Gi].
  - rewrite !list_lookup_fmap. destruct (decide (i = Z.to_nat a)) as [->|N].
    + rewrite list_lookup_insert_eq by (rewrite length_map, length_seqZ; lia).
      rewrite lookup_seqZ_lt by lia. simpl. rewrite (proj2 (Z.eqb_eq _ _)); [done | lia].
    + rewrite list_lookup_insert_ne by done. rewrite list_lookup_fmap, lookup_seqZ_lt by lia. simpl.
      rewrite (proj2 (Z.eqb_neq _ _)); [done | lia].
  - rewrite !lookup_ge_None_2; [done | |]; rewrite ?length_insert, length_map, length_seqZ; lia.
Qed.

Definition write_over (n address v : Z) (pdu : bytes) : Z :=
  match accepted_write n pdu with Some (a, w) => if a =? address then w else v | None => v end.

Lemma bank_after_registers l : forall b f, Forall Bytes l -> bank_ok b ->
  registers b = map f (seqZ 0 (size b)) ->
  registers (bank_after l b) = map (fun a => fold_left (write_over (size b) a) l (f a)) (seqZ 0 (size b)).
Proof.
  induction l as [|pdu l IH]; intros b f F K E; [done|]. apply Forall_cons in F as [Hp F].
  change (bank_after (pdu :: l) b) with (bank_after l (after_write pdu b)).
  rewrite (IH _ (fun a => write_over (size b) a (f a) pdu)), after_write_size; [done | done | |].
  - by apply after_write_ok.
  - rewrite after_write_size. unfold after_write, write_over.
    destruct (accepted_write (size b) pdu) as [[a v]|] eqn:A; [|done].
    apply accepted_range in A as (? & _ & _); [|done]. simpl. rewrite E. by apply registers_insert.
Qed.

Lemma new_bank_ok n cs ce : 0 <= n -> bank_ok (new_bank n cs ce).
Proof.
  intros. split; simpl.
  - unfold zlen. rewrite length_replicate. lia.
  - apply Forall_replicate. lia.
Qed.

Lemma new_bank_zero n cs ce : registers (new_bank n cs ce) = map (fun _ => 0) (seqZ 0 (size (new_bank n cs ce))).
Proof.
  simpl. unfold seqZ. rewrite map_map. apply list_eq. intros i. rewrite list_lookup_fmap.
  destruct (decide (i < Z.to_nat n)%nat).
  - rewrite lookup_seq_lt by done. simpl. by apply lookup_replicate_2.
  - rewrite !lookup_ge_None_2; [done | |]; rewrite ?length_replicate, ?length_seq; lia.
Qed.

Lemma slice_seqZ {A} (f : Z -> A) n a q : 0 <= a -> 0 <= q -> a + q <= n ->
  slice (map f (seqZ 0 n)) a (a + q) = map f (seqZ a q).
Proof.
  intros. unfold slice. apply list_eq. intros i. destruct (decide (i < Z.to_nat q)%nat).
  - rewrite lookup_take_lt by lia. rewrite lookup_drop, !list_lookup_fmap, !lookup_seqZ_lt by lia.
    simpl. do 2 f_equal. lia.
  - rewrite !lookup_ge_None_2; [done | |]; rewrite ?length_take, ?length_drop, ?length_map, ?length_seqZ; lia.
Qed.

(** C17. The bank is a register file: after any interleaving of requests of any number of
    connections, reading registers answers, for each address asked for, the value of the last
    accepted write to that address, or zero if there was none. *)
Theorem registers_linear n cs ce o l p h (a1 a0 q1 q0 : Z)
  (N : 0 <= n) (F : Forall (fun r : Peer * request => request_ok r.2.1 r.2.2) l)
  (R : request_ok h [FC_READ_HOLDING_REGISTERS; a1; a0; q1; q0])
  (Q : 1 <= from_be [q1; q0] <= 125) (A : from_be [a1; a0] + from_be [q1; q0] <= n) :
  exists c rs c', dispatches l (new_bank n cs ce, o) = (c, Ok rs) /\
  dispatch p h [FC_READ_HOLDING_REGISTERS; a1; a0; q1; q0] c = (c', Ok (adu h
    ([FC_READ_HOLDING_REGISTERS; 2 * from_be [q1; q0]] ++
     concat (map be16 (map (last_write n (pdus l)) (seqZ (from_be [a1; a0]) (from_be [q1; q0]))))))).
Proof.
  destruct (dispatches_bank l (new_bank n cs ce) o F) as (o' & rs & D & K & S); [by apply new_bank_ok|].
  eexists _, rs, _. split; [done|]. rewrite dispatch_eq by done. rewrite S. cbn [size new_bank].
  destruct R as [T B _]. rewrite !Forall_cons in B. destruct B as (_ & ? & ? & ? & ? & _).
  pose proof (from_be16_range a1 a0 ltac:(done) ltac:(done)).
  unfold reply_pdu. rewrite Z.eqb_refl.
  rewrite (proj2 (Z.eqb_neq _ _)) by lia. rewrite (proj2 (Z.ltb_ge _ _)) by lia. cbn [orb]. cbv iota.
  rewrite (proj2 (Z.ltb_ge _ _)) by lia. unfold bank_read.
  rewrite (bank_after_registers _ _ (fun _ => 0)); [| | by apply new_bank_ok | apply new_bank_zero].
  - cbn [size new_bank]. by rewrite slice_seqZ by lia.
  - apply Forall_map. eapply Forall_impl; [exact F|]. by intros ? [_ ? _].
Qed.

(** ** Every connection ends *)

(** What a step of the handler may do to the bank and the telemetry, and how it may fail. *)
Record tame {A} (c : Conn) (o : Conn * res A) : Prop := {
  tame_bank : bank_ok o.1.1;
  tame_size : size o.1.1 = size c.1;
  tame_trace : exists l, trace o.1.2 = trace c.2 ++ l;
  tame_error : forall e, o.2 = Err e -> exists m, e = OSError m;
}.

Lemma tame_ret {A} c (a : A) : bank_ok c.1 -> tame c (c, Ok a).
Proof. split; [done | done | exists []; by rewrite app_nil_r | done]. Qed.

Lemma tame_bind {A B} c (m : SE Conn A) (f : A -> SE Conn B) :
  tame c (m c) -> (forall c' a, m c = (c', Ok a) -> bank_ok c'.1 -> tame c' (f a c')) -> tame c ((m ≫= f) c).
Proof.
  intros [K S [l T] E] H. unfold mbind, se_bind. destruct (m c) as [c' [a|e]] eqn:M; simpl in *.
  - destruct (H c' a eq_refl K) as [K' S' [l' T'] E']. split; [done | congruence | | done].
    exists (l ++ l'). by rewrite T', T, (assoc_L (++)).
  - split; [done | done | by exists l |]. intros e' [= <-]. by apply E.
Qed.

Lemma tame_result {A B} c c' (r : res A) (r' : res B) :
  tame c (c', r) -> (forall e, r' = Err e -> r = Err e) -> tame c (c', r').
Proof. intros [K S T E] H. split; [done | done | done |]. intros e Hr. apply E, H, Hr. Qed.

Lemma tame_emit p ty d (c : Conn) : bank_ok c.1 -> tame c (on_snd (emit_event p ty d) c).
Proof. intros. split; [done | done | by eexists | done]. Qed.

Lemma tame_send short b (c : Conn) : bank_ok c.1 -> tame c (on_snd (send_all short b) c).
Proof.
  intros K. unfold on_snd. destruct (send_all short b c.2) as [o r] eqn:E.
  apply send_all_spec in E as (T & sent & rest & _ & _ & R). split; simpl; [done | done | |].
  - exists []. by rewrite app_nil_r.
  - intros e ->. done.
Qed.

Lemma tame_dispatch p h pdu (c : Conn) : request_ok h pdu -> bank_ok c.1 -> tame c (dispatch p h pdu c).
Proof.
  destruct c as [b o]. intros R K. rewrite dispatch_eq by done. split; simpl.
  - apply after_write_ok; [by destruct R | done].
  - apply after_write_size.
  - by eexists.
  - done.
Qed.

#[export] Hint Resolve tame_ret tame_emit tame_send tame_dispatch : tame.

(** The header and PDU of a frame that parses make a request the dispatcher accepts. *)
Lemma parse_mbap_tid b h : Bytes b -> parse_mbap b = Some h -> 0 <= transaction_id h < 65536.
Proof.
  unfold parse_mbap. intros B. case_match eqn:L; [done|]. intros [= <-]. simpl.
  change MBAP_HEADER_LEN with 7 in L. bool_prop.
  destruct b as [|x [|y b]]; [by change (zlen []) with 0 in L | by change (zlen [x]) with 1 in L |].
  rewrite !Forall_cons in B. destruct B as (? & ? & _). by apply from_be16_range.
Qed.

Lemma frame_request b h frame rest : Bytes b -> next_frame b = Frame h frame rest ->
  request_ok h (drop (Z.to_nat MBAP_HEADER_LEN) frame) /\ Bytes rest /\ (length rest < length b)%nat.
Proof.
  intros B E. apply next_frame_size in E as (E & L & T & P & V).
  pose proof (parse_mbap_tid _ _ B P). rewrite E in B. apply Forall_app in B as [Bf Br].
  change MAX_ADU_LEN with 260 in L. change MBAP_HEADER_LEN with 7.
  split; [|split; [done|]].
  - split; [done | by apply Forall_drop |]. change MAX_PDU_LEN with 253. unfold zlen in *. rewrite length_drop. lia.
  - rewrite E, length_app. unfold zlen in L. lia.
Qed.

Lemma tame_item {A} (l : list A) i c (Q : bank_ok c.1) : 0 <= i < zlen l -> tame c (lift (item l i) c).
Proof.
  intros H. unfold item, lift. destruct (lookup_lt_is_Some_2 l (Z.to_nat i)) as [x ->].
  - unfold zlen in H. lia.
  - by apply tame_ret.
Qed.

Lemma tame_exchange p h frame c : request_ok h (drop (Z.to_nat MBAP_HEADER_LEN) frame) -> bank_ok c.1 ->
  tame c (exchange p h frame c).
Proof.
  intros R K. unfold exchange. set (pdu := drop _ _) in *. assert (L := ok_len _ _ R).
  apply tame_bind; [apply tame_item; [done | lia]|]. intros c1 fc _ K1.
  apply tame_bind; [by apply tame_emit|]. intros [b2 o2] _ _ K2.
  apply tame_bind; [by apply tame_dispatch|]. intros c3 resp D K3. rewrite dispatch_eq in D by done.
  injection D as _ <-. destruct (reply_pdu_bounds b2 pdu) as [_ N]; [by destruct R | lia | done |].
  apply tame_bind; [by apply tame_send|]. intros c4 _ _ K4.
  apply tame_bind; [|intros; by apply tame_emit].
  apply tame_item; [done|]. unfold adu, be16. zlen. change MBAP_HEADER_LEN with 7. lia.
Qed.

Lemma item_ok {A} (l : list A) i : 0 <= i < zlen l -> exists x, item l i = Ok x.
Proof.
  intros H. unfold item. destruct (lookup_lt_is_Some_2 l (Z.to_nat i)) as [x ->]; [unfold zlen in H; lia | eauto].
Qed.

Definition give (b : bytes) (o : Outgoing) : Outgoing :=
  {| outcomes := []; delivered := delivered o ++ b; trace := trace o |}.

Lemma emit_step p ty d (b : RegisterBank) o : on_snd (emit_event p ty d) (b, o) = ((b, log [report p ty d] o), Ok tt).
Proof. done. Qed.

Lemma send_step short r (b : RegisterBank) o : outcomes o = [] ->
  on_snd (send_all short r) (b, o) = ((b, give r o), Ok tt).
Proof. intros O. unfold on_snd. cbn [fst snd]. by rewrite send_all_free. Qed.

(** An exchange over a network that takes everything. *)
Lemma exchange_free p h frame b o (pdu := drop (Z.to_nat MBAP_HEADER_LEN) frame) :
  request_ok h pdu -> bank_ok b -> outcomes o = [] -> exists l,
  exchange p h frame (b, o) =
    ((after_write pdu b, {| outcomes := []; trace := trace o ++ l;
       delivered := delivered o ++ adu h (reply_pdu (size b) (bank_read b) pdu) |}), Ok tt).
Proof.
  intros R K O. destruct R as [T B L]. destruct (item_ok pdu 0) as [fc E]; [lia|].
  destruct (reply_pdu_bounds b pdu) as [_ N]; [done | lia | done |].
  set (r := adu h (reply_pdu (size b) (bank_read b) pdu)).
  destruct (item_ok r MBAP_HEADER_LEN) as [rfc E'].
  { unfold r. rewrite zlen_adu. change MBAP_HEADER_LEN with 7. lia. }
  eexists. unfold exchange. fold pdu. rewrite E. rewrite (se_bind_eq _ _ _ (b, o) fc) by done.
  rewrite (se_bind_eq _ _ _ _ _ (emit_step p _ _ b o)).
  rewrite (se_bind_eq _ _ _ _ _ (dispatch_eq p h pdu b _ ltac:(done) K)). fold r.
  rewrite (se_bind_eq _ _ _ _ _ (send_step _ r _ (log _ (log _ o)) O)). rewrite E'.
  rewrite (se_bind_eq _ _ _ (_, _) rfc) by done. rewrite emit_step. unfold log, give. cbn.
  rewrite <- !(assoc_L (++)). done.
Qed.

Lemma tame_drain p n : forall b c, (length b < n)%nat -> Bytes b -> bank_ok c.1 ->
  tame c (drain p n b c) /\ (forall c' kept, drain p n b c = (c', Ok (Some kept)) -> Bytes kept).
Proof.
  induction n as [|n IH]; intros b c L B K; [lia|]. cbn [drain].
  destruct (next_frame b) as [|why|h frame rest] eqn:E.
  - split; [by apply tame_ret|]. by intros c' kept [= _ <-].
  - split; [|done]. apply tame_bind; [by apply tame_emit|]. intros. by apply tame_ret.
  - apply frame_request in E as (R & Br & Lr); [|done]. pose proof (tame_exchange p h frame c R K) as X.
    split.
    + apply tame_bind; [done|]. intros c' _ _ K'. apply IH; [lia | done | done].
    + intros c' kept D. apply se_bind_ok in D as (c1 & [] & X1 & D). rewrite X1 in X. destruct X as [K1 _ _ _].
      destruct (IH rest c1) as [_ H]; [lia | done | done |]. by eapply H.
Qed.

(** Bytes arrive as bytes. *)
Definition arrival_ok (a : arrival) : Prop := match a with Segment b => Bytes b | _ => True end.

Lemma receive_bytes n s s' b : Forall arrival_ok (inbox s) -> receive n s = (s', Ok (Data b)) -> Bytes b.
Proof.
  unfold receive. intros F. destruct (inbox s) as [|[x| |m] l]; [by intros [= _ <-] | | done | done].
  apply Forall_cons in F as [F _]. case_match; intros [= _ <-]; [done | by apply Forall_take].
Qed.

Lemma receive_arrivals n s : Forall arrival_ok (inbox s) -> Forall arrival_ok (inbox (receive n s).1).
Proof.
  unfold receive. intros F. destruct (inbox s) as [|[x| |m] l] eqn:E; [cbn [fst]; by rewrite E | | by inversion F | by inversion F].
  apply Forall_cons in F as [F Fl]. case_match; simpl; [done|]. constructor; [by apply Forall_drop | done].
Qed.

(** The outgoing side of a loop that reads too. *)
Definition tame_io {A} (c : Incoming * Conn) (o : (Incoming * Conn) * res A) : Prop := tame c.2 (o.1.2, o.2).

Lemma tame_serve p n : forall b s c, (backlog s < n)%nat -> Forall arrival_ok (inbox s) -> Bytes b -> bank_ok c.1 ->
  tame_io (s, c) (serve p n b (s, c)).
Proof.
  induction n as [|n IH]; intros b s c L F B K; [lia|]. cbn [serve].
  destruct (stopping_ok s) as (s1 & stop & Es & Ei).
  rewrite (se_bind_eq _ _ _ (s1, c) stop) by (unfold on_fst; cbn [fst snd]; by rewrite Es).
  assert (backlog s1 = backlog s) as L1 by (unfold backlog; by rewrite Ei).
  rewrite <- Ei in F. clear Ei Es. destruct stop; [by apply tame_ret|].
  destruct (receive_ok 4096 s1) as (s2 & r & Er & Lr). pose proof (receive_arrivals 4096 s1 F) as F2.
  rewrite (se_bind_eq _ _ _ (s2, c) r) by (unfold on_fst; cbn [fst snd]; by rewrite Er). rewrite Er in F2.
  destruct r as [chunk| |m]; [|by apply (tame_emit _ _ _ c) | by apply (tame_emit _ _ _ c)].
  destruct chunk as [|x chunk]; [by apply tame_ret|]. apply receive_bytes in Er; [|done].
  set (buffer := b ++ x :: chunk) in *. assert (Bytes buffer) as Bb by (by apply Forall_app).
  cbn zeta. case_match; [by apply (tame_emit _ _ _ c)|].
  destruct (tame_drain p (S (length buffer)) buffer c) as [D Dk]; [lia | done | done |].
  unfold tame_io, drain_all, on_snd, mbind, se_bind in *. cbn [fst snd] in *.
  destruct (drain p (S (length buffer)) buffer c) as [c' [[kept|]|e]] eqn:E.
  2: by apply (tame_result _ _ _ _ D).
  2: { apply (tame_result _ _ _ _ D). by intros ? [= ->]. }
  destruct D as [K' S' [l T'] _]. specialize (Dk _ _ eq_refl).
  destruct (IH kept s2 c') as [K2 S2 [l2 T2] E2]; [|done|done|done|].
  { specialize (Lr ltac:(lia) ltac:(done)). lia. }
  cbn [fst snd] in *. split; [done | cbn; congruence | | done].
  cbn [fst snd]. exists (l ++ l2). by rewrite T2, T', (assoc_L (++)).
Qed.

(** C31. Every connection ends: whatever arrives - segments of any size, malformed frames,
    timeouts, errors, the peer's close, the server's stop - the handler returns, or raises the
    [OSError] of a failed send; it reports the connection first and its closing last, and leaves
    a well-formed bank of the same size.  The fuel of [handle] is never what stops it. *)
Theorem handle_terminates p s c (F : Forall arrival_ok (inbox s)) (K : bank_ok c.1) :
  exists s' c' r l, handle p (s, c) = ((s', c'), r) /\ (r = Ok tt \/ exists m, r = Err (OSError m)) /\
  bank_ok c'.1 /\ size c'.1 = size c.1 /\
  trace c'.2 = trace c.2 ++ [report p "modbus_connection" []] ++ l ++ [report p "modbus_connection_closed" []].
Proof.
  unfold handle. set (c0 := (on_snd (emit_event p "modbus_connection" []) c).1).
  rewrite (se_bind_eq _ _ _ (s, c0) tt) by done.
  rewrite (se_bind_eq _ _ _ (s, c0) s) by done. unfold se_finally.
  destruct (tame_serve p (S (backlog s)) [] s c0) as [K' S' [l T'] E]; [lia | done | done | done |].
  destruct (serve p (S (backlog s)) [] (s, c0)) as [[s' [b o]] r]. cbn [fst snd] in *.
  eexists s', _, r, l. split; [done|]. split; [|split; [done|]; split; [done|]].
  - destruct r as [[]|e]; [by left|]. right. destruct (E e eq_refl) as [m ->]. by exists m.
  - cbn. rewrite T'. unfold c0. cbn. by rewrite <- !(assoc_L (++)).
Qed.

(** ** Witnesses *)
Definition sample_peer : Peer := {| peer_ip := lit "10.0.0.7"; peer_port := 40000 |}.
Definition sample_out : Outgoing := {| outcomes := []; delivered := []; trace := [] |}.
Definition sample_header : MbapHeader := {| transaction_id := 1; protocol_id := 0; length_field := 6; unit_id := 9 |}.
Definition sample_write : bytes := [6; 0; 2; 1; 44].
Definition sample_bank : RegisterBank := new_bank 4 2 3.

Lemma sample_request_ok : request_ok sample_header sample_write.
Proof. split; [done | by repeat constructor | done]. Qed.

Definition sample_segments : list bytes := [[0; 1; 0; 0; 0]; [6; 9; 6; 0; 2; 1]; [44]].

Lemma stream_reassembly_witness :
  (let '((_, c'), r) := handle sample_peer (segments sample_segments, (sample_bank, sample_out)) in
   (c', r) = serve_stream sample_peer (concat sample_segments) (sample_bank, sample_out)) /\
  registers (handle sample_peer (segments sample_segments, (sample_bank, sample_out))).1.2.1 = [0; 0; 300; 0].
Proof.
  split; [|by vm_compute].
  apply (stream_reassembly sample_peer sample_segments (sample_bank, sample_out)). by repeat constructor.
Defined.

Lemma dispatch_spec_witness :
  dispatch sample_peer sample_header sample_write (sample_bank, sample_out) =
    ((after_write sample_write sample_bank, log (alerts sample_peer sample_bank sample_write) sample_out),
     Ok [0; 1; 0; 0; 0; 6; 9; 6; 0; 2; 1; 44]) /\
  alerts sample_peer sample_bank sample_write = [report sample_peer "sabotage_detected" (sabotage 2 300)].
Proof.
  split; [|by vm_compute].
  exact (dispatch_spec sample_peer sample_header sample_write sample_bank sample_out
    sample_request_ok (new_bank_ok 4 2 3 ltac:(lia))).
Defined.

Lemma dispatch_bounds_witness : exists c response,
  dispatch sample_peer sample_header sample_write (sample_bank, sample_out) = (c, Ok response) /\ bank_ok c.1 /\
  Bytes response.
Proof.
  destruct (dispatch_bounds sample_peer sample_header sample_write sample_bank sample_out
    sample_request_ok (new_bank_ok 4 2 3 ltac:(lia))) as (c & response & ? & ? & _ & ? & _).
  by exists c, response.
Defined.

Lemma registers_linear_witness : exists c rs c',
  dispatches [(sample_peer, (sample_header, sample_write))] (new_bank 4 2 3, sample_out) = (c, Ok rs) /\
  dispatch sample_peer sample_header [3; 0; 1; 0; 2] c = (c', Ok [0; 1; 0; 0; 0; 7; 9; 3; 4; 0; 0; 1; 44]).
Proof.
  apply (registers_linear 4 2 3 sample_out [(sample_peer, (sample_header, sample_write))] sample_peer sample_header 0 1 0 2).
  - lia.
  - repeat constructor; try done; by repeat constructor.
  - split; [done | by repeat constructor | done].
  - done.
  - done.
Defined.

Lemma handle_terminates_witness : exists s' c' r l,
  handle sample_peer (segments [[1; 2; 3]], (sample_bank, sample_out)) = ((s', c'), r) /\
  (r = Ok tt \/ exists m, r = Err (OSError m)) /\
  trace c'.2 = [report sample_peer "modbus_connection" []] ++ l ++ [report sample_peer "modbus_connection_closed" []].
Proof.
  destruct (handle_terminates sample_peer (segments [[1; 2; 3]]) (sample_bank, sample_out))
    as (s' & c' & r & l & ? & ? & _ & _ & ?).
  - by repeat constructor.
  - by apply new_bank_ok.
  - by exists s', c', r, l.
Defined.
