(* ===== verification/FakePlc.v ===== *)
(** The fake PLC: [src/ics_deception/iot_nodes/fake_plc.py].

    It polls the Modbus decoy ([ModbusServer]) over a socket ([Sockets]) and leaves its last
    reading in a state file the controller serves ([Controller]).  The clock, the network and
    the outcomes of file operations are arguments. *)
From S2P Require Import Prelude PyText Json JsonFacts IsoTime Models Canonicalizer EvidenceStore Modbus Sockets ModbusServer.

(** ** Reading a response *)

(** [_recv_exact]: every [recv] gives at least a byte, so [count] rounds are enough. *)
Fixpoint recv_loop (fuel remaining : nat) (chunks : bytes) : SE Incoming bytes :=
  match remaining with
  | O => mret chunks
  | _ =>
    match fuel with
    | O => raise OutOfFuel
    | S fuel =>
      r ← receive remaining;
      match r with
      | Data [] => raise (OSError "connection closed while reading Modbus response")
      | Data chunk => recv_loop fuel (remaining - length chunk) (chunks ++ chunk)
      | TimedOut => raise (OSError "timed out")
      | RecvFailed m => raise (OSError m)
      end
    end
  end.

Definition recv_exact (count : Z) : SE Incoming bytes := recv_loop (Z.to_nat count) (Z.to_nat count) [].

Record Poll := {
  poll_ok : bool;
  poll_function_code : Z;
  poll_exception_code : option Z;
  poll_registers : list Z;
}.

(** Two bytes a register; a lone last byte would be one too. *)
Fixpoint words_of (data : bytes) : list Z :=
  match data with
  | a :: b :: data => from_be [a; b] :: words_of data
  | [a] => [from_be [a]]
  | [] => []
  end.

(** What a PDU says. *)
Definition read_pdu (pdu : bytes) : res Poll :=
  function_code ← item pdu 0;
  if negb (Z.land function_code 0x80 =? 0) then
    Ok {| poll_ok := false; poll_function_code := Z.land function_code 0x7F;
          poll_exception_code := pdu !! 1%nat; poll_registers := [] |}
  else
    require (negb (negb (function_code =? 0x03) || (zlen pdu <? 2))) (ValueError "unexpected response function code") ;;
    byte_count ← item pdu 1;
    let data := slice pdu 2 (2 + byte_count) in
    require (zlen data =? byte_count) (ValueError "truncated register payload in response") ;;
    Ok {| poll_ok := true; poll_function_code := function_code;
          poll_exception_code := None; poll_registers := words_of data |}.

(** [connect] and [sendall] are the outcomes of opening the connection and sending to it. *)
Definition poll_once (connect : res unit) (sendall : bytes -> res unit) (unit_id address quantity transaction_id : Z)
    : SE Incoming Poll :=
  request ← lift (build_read_holding_registers_request transaction_id unit_id address quantity);
  lift connect ;;
  lift (sendall request) ;;
  header_bytes ← recv_exact MBAP_HEADER_LEN;
  match parse_mbap header_bytes with
  | None => raise (ValueError "invalid MBAP header in response")
  | Some header =>
    lift (require (protocol_id header =? MODBUS_PROTOCOL_ID) (ValueError "invalid MBAP header in response")) ;;
    lift (require (2 <=? length_field header) (ValueError "invalid MBAP length in response")) ;;
    pdu ← recv_exact (pdu_len header);
    lift (read_pdu pdu)
  end.

(** ** The state file *)

(** The file, and the temporary file next to it if one was left. *)
Record Files := {
  target : option bytes;
  temporary : option bytes;
}.

(** Outcomes: opening the temporary file, writing and syncing it, replacing, unlinking. *)
Record WriteFaults := {
  wf_open : io;
  wf_write : io;
  wf_replace : io;
  wf_unlink : bool;
}.

Definition state_cfg (float_repr : spec_float -> str) : cfg := {|
  c_ascii := true; c_sort := true; c_isep := [44]; c_ksep := [58; 32]; c_indent := Some 2%nat;
  c_float := float_repr |}.

Definition set_temporary (t : option bytes) (f : Files) : Files := {| target := target f; temporary := t |}.

(** [except BaseException: unlink, raise]; a dead process runs no handler. *)
Definition discard_temporary (unlinked : bool) (e : exn) : SE Files unit :=
  match e with
  | Crash _ => raise e
  | _ => (if unlinked then modify (set_temporary None) else mret tt) ;; raise e
  end.

Definition write_state_atomically (float_repr : spec_float -> str) (w : WriteFaults) (state : value) : SE Files unit :=
  lift (io_result (wf_open w) "cannot create a temporary file") ;;
  modify (set_temporary (Some [])) ;;
  se_try
    (text ← lift (dumps (state_cfg float_repr) state);
     encoded ← lift (utf8_encode text);
     modify (set_temporary (Some (written [] encoded (wf_write w)))) ;;
     lift (io_result (wf_write w) "write failed") ;;
     (if replaced (wf_replace w) then modify (fun f => {| target := temporary f; temporary := None |}) else mret tt) ;;
     lift (io_result (wf_replace w) "replace failed"))
    (discard_temporary (wf_unlink w)).

(** ** The polling loop *)
Definition next_transaction_id (t : Z) : Z := let t := (t + 1) mod 0xFFFF in if t =? 0 then 1 else t.

Record Settings := {
  st_target : str;
  st_unit_id : Z;
  st_address : Z;
  st_quantity : Z;
}.

Definition opt_int (o : option Z) : value := match o with Some z => VInt z | None => VNone end.
Definition ints (l : list Z) : value := VList (map VInt l).

(** [str(exc)] of the exceptions a poll is expected to raise; [None] for the others. *)
Definition poll_error (e : exn) : option str :=
  match e with OSError m | ValueError m => Some (lit m) | _ => None end.

Definition state_head (a : Settings) (timestamp : str) : list (str * value) := [
  (lit "timestamp", VStr timestamp); (lit "target", VStr (st_target a)); (lit "unit_id", VInt (st_unit_id a));
  (lit "address", VInt (st_address a)); (lit "quantity", VInt (st_quantity a))].

Definition poll_state (a : Settings) (timestamp : str) (r : Poll + str) : value :=
  VDict (as_dict (state_head a timestamp ++
    match r with
    | inl p => [(lit "ok", VBool (poll_ok p)); (lit "function_code", VInt (poll_function_code p));
                (lit "exception_code", opt_int (poll_exception_code p));
                (lit "registers", ints (poll_registers p)); (lit "error", VNone)]
    | inr error => [(lit "ok", VBool false); (lit "registers", VList []); (lit "error", VStr error)]
    end)).

Definition poll_event (a : Settings) (r : Poll + str) : str * dict :=
  match r with
  | inl p => (lit "fake_plc_poll", as_dict [
      (lit "target", VStr (st_target a)); (lit "ok", VBool (poll_ok p)); (lit "registers", ints (poll_registers p))])
  | inr error => (lit "fake_plc_poll_failed", as_dict [(lit "target", VStr (st_target a)); (lit "error", VStr error)])
  end.

(** What one round meets. *)
Record Weather := {
  we_connect : res unit;
  we_send : bytes -> res unit;
  we_arrivals : Incoming;
  we_now : str;
  we_files : WriteFaults;
}.

Abbreviation Plc := (Files * list (str * dict))%type.

Definition tell (e : str * dict) : SE Plc unit := modify (fun s => (s.1, s.2 ++ [e])).

(** The rest of a round once the poll has a result: report it, write it. *)
Definition publish_result (float_repr : spec_float -> str) (a : Settings) (w : Weather) (r : Poll + str) : SE Plc unit :=
  tell (poll_event a r) ;;
  se_try (on_fst (write_state_atomically float_repr (we_files w) (poll_state a (we_now w) r)))
    (fun e => match e with
              | OSError m => tell (lit "error", as_dict [(lit "error", VStr (lit m)); (lit "message", VStr (lit "fake_plc_state_write_failed"))])
              | _ => raise e
              end).

(** One round of [main]'s loop: the next transaction id and the exit code. *)
Definition round (float_repr : spec_float -> str) (a : Settings) (w : Weather) (transaction_id : Z) : SE Plc (Z * Z) :=
  let transaction_id := next_transaction_id transaction_id in
  let outcome := (poll_once (we_connect w) (we_send w) (st_unit_id a) (st_address a) (st_quantity a)
                    transaction_id (we_arrivals w)).2 in
  r ← lift (match outcome with
            | Ok p => Ok (inl p)
            | Err e => match poll_error e with Some error => Ok (inr error) | None => Err e end
            end);
  publish_result float_repr a w r ;;
  mret (transaction_id, match r with inl _ => 0 | inr _ => 1 end).

Fixpoint rounds (float_repr : spec_float -> str) (a : Settings) (l : list Weather) (transaction_id exit_code : Z) : SE Plc Z :=
  match l with
  | [] => mret exit_code
  | w :: l => r ← round float_repr a w transaction_id; rounds float_repr a l r.1 r.2
  end.

(** ** Facts *)
Lemma words_of_be16 l : Forall (fun v => 0 <= v < 65536) l -> words_of (concat (map be16 l)) = l.
Proof.
  induction 1 as [|v l ? _ IH]; [done|]. cbn [map concat]. unfold be16 at 1. cbn [app words_of].
  by rewrite from_be16, IH.
Qed.

(** Reading what was cut into non-empty segments. *)
Lemma recv_loop_segments fuel : forall count acc segs x y, Forall (fun s : bytes => s <> []) segs ->
  concat segs = x ++ y -> length x = count -> (count <= fuel)%nat -> exists segs',
  recv_loop fuel count acc (segments segs) = (segments segs', Ok (acc ++ x)) /\ concat segs' = y /\
  Forall (fun s : bytes => s <> []) segs'.
Proof.
  induction fuel as [|fuel IH]; intros count acc segs x y F E L G.
  - destruct x; [|simpl in L; lia]. simpl in L. subst count. exists segs. simpl. by rewrite app_nil_r.
  - destruct count as [|count].
    { destruct x; [|done]. exists segs. simpl. by rewrite app_nil_r. }
    destruct segs as [|s segs]; [by destruct x|]. apply Forall_cons in F as [Hs F]. simpl in E.
    cbn [recv_loop]. destruct (Nat.leb_spec (length s) (S count)) as [Ls|Ls].
    + assert (R : receive (S count) (segments (s :: segs)) = (segments segs, Ok (Data s))).
      { unfold receive, segments. cbn [inbox map]. by rewrite (proj2 (Nat.leb_le _ _)). }
      rewrite (se_bind_eq _ _ _ _ _ R). destruct s as [|c s']; [done|]. set (s := c :: s') in *.
      assert (x = s ++ drop (length s) x) as Ex.
      { rewrite <- (take_drop (length s) x) at 1. f_equal.
        apply (f_equal (take (length s))) in E. rewrite take_app_length, take_app_le in E by lia.
        done. }
      destruct (IH (S count - length s)%nat (acc ++ s) segs (drop (length s) x) y) as (segs' & -> & ? & ?).
      * done.
      * rewrite Ex, <- app_assoc in E. by apply app_inv_head in E.
      * rewrite length_drop. lia.
      * unfold s. simpl. lia.
      * exists segs'. rewrite <- app_assoc, <- Ex. done.
    + assert (R : receive (S count) (segments (s :: segs)) = (segments (drop (S count) s :: segs), Ok (Data (take (S count) s)))).
      { unfold receive, segments. cbn [inbox map]. by rewrite (proj2 (Nat.leb_gt _ _)). }
      rewrite (se_bind_eq _ _ _ _ _ R).
      assert (take (S count) s = x) as Ex.
      { apply (f_equal (take (S count))) in E. rewrite take_app_le in E by lia.
        rewrite E, <- L. by rewrite take_app_length. }
      rewrite Ex. destruct x as [|c x']; [done|]. set (x := c :: x') in *. rewrite L, Nat.sub_diag.
      exists (drop (S count) s :: segs). split; [|split].
      * by destruct fuel.
      * simpl. apply (app_inv_head x). rewrite <- E, <- Ex, app_assoc, take_drop. done.
      * constructor; [|done]. intros D. apply (f_equal length) in D. rewrite length_drop in D. simpl in D. lia.
Qed.

Lemma recv_exact_segments count segs x y : Forall (fun s : bytes => s <> []) segs ->
  concat segs = x ++ y -> zlen x = count -> exists segs',
  recv_exact count (segments segs) = (segments segs', Ok x) /\ concat segs' = y /\
  Forall (fun s : bytes => s <> []) segs'.
Proof. intros F E L. unfold recv_exact. apply (recv_loop_segments _ _ []); [done | done | unfold zlen in L; lia | done]. Qed.

Lemma read_pdu_words l : Forall (fun v => 0 <= v < 65536) l -> 1 <= zlen l <= 125 ->
  read_pdu ([FC_READ_HOLDING_REGISTERS; 2 * zlen l] ++ concat (map be16 l)) =
    Ok {| poll_ok := true; poll_function_code := 3; poll_exception_code := None; poll_registers := l |}.
Proof.
  intros W L. pose proof (zlen_words l) as N. unfold read_pdu, item. simpl.
  rewrite !zlen_cons, N, (proj2 (Z.ltb_ge _ _)) by lia. simpl.
  unfold slice. rewrite Z.add_simpl_l. change (Z.to_nat 2) with 2%nat. cbn [drop].
  rewrite take_ge by (rewrite drop_0; unfold zlen in *; lia). rewrite drop_0, N, Z.eqb_refl. simpl. by rewrite words_of_be16.
Qed.

(** ** Polling the decoy *)
Definition read_request (transaction_id unit_id address quantity : Z) : bytes :=
  adu {| transaction_id := transaction_id; protocol_id := 0; length_field := 6; unit_id := unit_id |}
      ([FC_READ_HOLDING_REGISTERS] ++ be16 address ++ be16 quantity).

Lemma build_request_eq t u a q : 0 <= t < 65536 -> 0 <= a < 65536 -> 0 <= q < 65536 ->
  build_read_holding_registers_request t u a q = Ok (read_request t u a q).
Proof.
  intros. unfold build_read_holding_registers_request. rewrite !to_be16_ok by done. simpl.
  apply (build_ok {| transaction_id := t; protocol_id := 0; length_field := 6; unit_id := u |}); done.
Qed.

(** What the decoy answers to a read within its bank. *)
Definition read_response (transaction_id unit_id : Z) (words : list Z) : bytes :=
  adu {| transaction_id := transaction_id; protocol_id := 0; length_field := 6; unit_id := unit_id mod 256 |}
      ([FC_READ_HOLDING_REGISTERS; 2 * zlen words] ++ concat (map be16 words)).

Lemma serve_read p b o t u a q : bank_ok b -> outcomes o = [] ->
  0 <= t < 65536 -> 0 <= a -> 1 <= q <= 125 -> a + q <= size b -> a < 65536 ->
  exists l, serve_stream p (read_request t u a q) (b, o) =
    ((b, {| outcomes := []; delivered := delivered o ++ read_response t u (bank_read b a q); trace := trace o ++ l |}), Ok tt).
Proof.
  intros K O T A Q S A2. set (pdu := [FC_READ_HOLDING_REGISTERS] ++ be16 a ++ be16 q).
  set (h := {| transaction_id := t; protocol_id := 0; length_field := 6; unit_id := u mod 256 |}).
  assert (R : request_ok h pdu).
  { split; [done | | done]. apply Forall_app; split; [by repeat constructor|].
    apply Forall_app; split; apply Bytes_be16; lia. }
  assert (P : parse (read_request t u a q) = ([(h, read_request t u a q)], None, [])).
  { rewrite parse_eq, <- (app_nil_r (read_request t u a q)). unfold read_request at 1.
    rewrite next_frame_adu by done. by rewrite parse_eq, app_nil_r. }
  assert (V : reply_pdu (size b) (bank_read b) pdu = [FC_READ_HOLDING_REGISTERS; 2 * q] ++ concat (map be16 (bank_read b a q))).
  { unfold pdu, be16. cbn [app reply_pdu]. rewrite !from_be16 by lia. rewrite Z.eqb_refl.
    rewrite (proj2 (Z.eqb_neq _ _)), !(proj2 (Z.ltb_ge _ _)) by lia. done. }
  destruct (bank_read_words b a q) as [_ N]; [done | lia | lia | lia |].
  assert (D : drop (Z.to_nat MBAP_HEADER_LEN) (read_request t u a q) = pdu) by done.
  set (o1 := log [report p "modbus_connection" []] o).
  destruct (exchange_free p h (read_request t u a q) b o1) as [l X]; [by rewrite D | done | done |].
  rewrite D, V in X. assert (after_write pdu b = b) as W by done. rewrite W in X.
  unfold serve_stream, answer. rewrite (se_bind_eq _ _ _ _ _ (emit_step p _ _ b o)), P. fold o1.
  exists ([report p "modbus_connection" []] ++ l ++ [report p "modbus_connection_closed" []]).
  unfold se_finally. cbn [exchanges]. unfold mbind, se_bind. rewrite X.
  unfold mret, se_ret. cbv beta iota. rewrite emit_step.
  unfold log, read_response. rewrite N. cbn. by rewrite <- !(assoc_L (++)).
Qed.

(** C19. The fake PLC and the decoy compose: polling a bank for a range it has - however the
    network cuts the request and the response into segments - returns exactly the bank's
    registers of that range, and leaves the bank as it was. *)
Theorem poll_reads_registers p b o t u a q request segs rsegs
  (K : bank_ok b) (O : outcomes o = []) (T : 0 <= t < 65536) (A : 0 <= a < 65536)
  (Q : 1 <= q <= 125) (S : a + q <= size b)
  (B : build_read_holding_registers_request t u a q = Ok request)
  (F : Forall (fun s => 0 < zlen s <= SAFE_SEGMENT) segs) (C : concat segs = request)
  (F' : Forall (fun s : bytes => s <> []) rsegs)
  (C' : delivered o ++ concat rsegs = delivered (handle p (segments segs, (b, o))).1.2.2) :
  (poll_once (Ok tt) (fun _ => Ok tt) u a q t (segments rsegs)).2 =
    Ok {| poll_ok := true; poll_function_code := 3; poll_exception_code := None;
          poll_registers := slice (registers b) a (a + q) |} /\
  (handle p (segments segs, (b, o))).1.2.1 = b.
Proof.
  rewrite build_request_eq in B by lia. injection B as <-.
  pose proof (handle_segments p segs (b, o) F) as H. rewrite C in H.
  destruct (serve_read p b o t u a q) as [l E]; [done | done | done | lia | done | done | lia |].
  rewrite E in H. destruct (handle p (segments segs, (b, o))) as [[i c'] r]. injection H as -> _.
  cbn [fst snd delivered] in *. apply app_inv_head in C'. split; [|done].
  destruct (bank_read_words b a q) as [W N]; [done | lia | lia | lia |].
  unfold poll_once. rewrite build_request_eq by lia.
  set (words := bank_read b a q) in *. set (pdu := [FC_READ_HOLDING_REGISTERS; 2 * zlen words] ++ concat (map be16 words)).
  set (h := {| transaction_id := t; protocol_id := 0; length_field := 6; unit_id := u mod 256 |}).
  assert (zlen pdu = 2 + 2 * q) as L by (unfold pdu; zlen; rewrite zlen_words; lia).
  assert (read_response t u words = take 7 (adu h pdu) ++ pdu) as Hr by done. rewrite Hr in C'.
  destruct (recv_exact_segments 7 rsegs _ _ F' C') as (segs1 & R1 & C1 & F1); [done|].
  destruct (recv_exact_segments (zlen pdu) segs1 pdu []) as (segs2 & R2 & _ & _); [done | by rewrite app_nil_r | done |].
  assert (parse_mbap (take 7 (adu h pdu)) = Some (echo h pdu)) as P.
  { unfold adu, be16, echo. cbn [app take transaction_id unit_id h]. unfold parse_mbap, slice. simpl.
    by rewrite !from_be16 by lia. }
  rewrite (se_bind_eq _ _ _ (segments rsegs) (read_request t u a q)) by done.
  rewrite (se_bind_eq _ _ _ (segments rsegs) tt) by done.
  rewrite (se_bind_eq _ _ _ (segments rsegs) tt) by done.
  change MBAP_HEADER_LEN with 7. rewrite (se_bind_eq _ _ _ _ _ R1), P.
  rewrite (se_bind_eq _ _ _ (segments segs1) tt) by done.
  rewrite (se_bind_eq _ _ _ (segments segs1) tt).
  2: { cbn [length_field echo]. rewrite (proj2 (Z.leb_le _ _)) by lia. done. }
  unfold pdu_len. cbn [length_field echo]. rewrite Z.add_simpl_r, (se_bind_eq _ _ _ _ _ R2).
  unfold lift, pdu. cbn [snd]. rewrite read_pdu_words by (done || lia). done.
Qed.

(** ** Every poll ends in a reading or an expected error *)
Definition expected (e : exn) : Prop := exists m, e = OSError m \/ e = ValueError m.

Lemma recv_loop_outcome fuel : forall remaining acc s, (remaining <= fuel)%nat -> Forall arrival_ok (inbox s) -> Bytes acc ->
  exists s' r, recv_loop fuel remaining acc s = (s', r) /\ Forall arrival_ok (inbox s') /\
    match r with Ok b => Bytes b /\ length b = (length acc + remaining)%nat | Err e => expected e end.
Proof.
  induction fuel as [|fuel IH]; intros remaining acc s L F B.
  - assert (remaining = 0%nat) as -> by lia. eexists _, _. simpl. split; [done|]. split; [done|]. split; [done | lia].
  - destruct remaining as [|n]. { eexists _, _. simpl. split; [done|]. split; [done|]. split; [done | lia]. }
    cbn [recv_loop]. destruct (receive_ok (S n) s) as (s1 & r & Er & _).
    rewrite (se_bind_eq _ _ _ _ _ Er). pose proof (receive_arrivals (S n) s F) as F1. rewrite Er in F1.
    destruct r as [[|c chunk]| |m]; try (eexists _, _; split; [done|]; split; [done|]; eexists; by left).
    assert (length (c :: chunk) <= S n)%nat as Lc by by eapply receive_small.
    apply receive_bytes in Er; [|done].
    destruct (IH (S n - length (c :: chunk))%nat (acc ++ c :: chunk) s1) as (s2 & r & -> & ? & R).
    + simpl in *. lia.
    + done.
    + by apply Forall_app.
    + eexists s2, r. split; [done|]. split; [done|]. destruct r; [|done]. destruct R as [? R]. split; [done|].
      rewrite R, length_app. lia.
Qed.

(** What a reading may hold. *)
Record poll_range (p : Poll) : Prop := {
  pr_function_code : 0 <= poll_function_code p <= 255;
  pr_exception_code : forall z, poll_exception_code p = Some z -> 0 <= z <= 255;
  pr_registers : Forall (fun v => 0 <= v < 65536) (poll_registers p);
}.

Lemma is_byte_range x : is_byte x = true -> 0 <= x <= 255.
Proof. unfold is_byte. intros. bool_prop. lia. Qed.

Lemma words_of_range n : forall b, (length b <= n)%nat -> Bytes b -> Forall (fun v => 0 <= v < 65536) (words_of b).
Proof.
  induction n as [|n IH]; intros [|x [|y b]] L B; simpl in *; try lia; try by constructor.
  - constructor; [|constructor]. apply Forall_cons in B as [B _]. apply is_byte_range in B. unfold from_be. simpl. lia.
  - rewrite !Forall_cons in B. destruct B as (? & ? & B). constructor; [by apply from_be16_range|]. apply IH; [lia | done].
Qed.

Lemma Bytes_lookup (b : bytes) i x : Bytes b -> b !! i = Some x -> 0 <= x <= 255.
Proof. intros B H. apply is_byte_range. by apply (Forall_lookup_1 _ _ _ _ B H). Qed.

Lemma item_range b i x : Bytes b -> item b i = Ok x -> 0 <= x <= 255.
Proof. unfold item. intros B. case_match eqn:E; [|done]. intros [= <-]. by apply (Bytes_lookup b _ _ B E). Qed.

Lemma read_pdu_outcome pdu : Bytes pdu -> 1 <= zlen pdu ->
  match read_pdu pdu with Ok p => poll_range p | Err e => expected e end.
Proof.
  intros B L. unfold read_pdu. destruct (item_ok pdu 0) as [fc E]; [lia|]. rewrite E. cbn [mbind res_bind].
  apply item_range in E; [|done].
  destruct (negb (Z.land fc 0x80 =? 0)).
  - split; cbn [poll_function_code poll_exception_code poll_registers].
    + change 0x7F with (Z.ones 7). rewrite Z.land_ones by lia. pose proof (Z.mod_pos_bound fc (2 ^ 7)). lia.
    + intros z Hz. by apply (Bytes_lookup _ _ _ B Hz).
    + done.
  - destruct (negb (negb (fc =? 3) || (zlen pdu <? 2))) eqn:G; simpl; [|eexists; by right].
    bool_prop. destruct (item_ok pdu 1) as [n E1]; [lia|]. rewrite E1. simpl.
    destruct (_ =? n); simpl; [|eexists; by right]. split; simpl; [done | done |].
    eapply words_of_range; [done | by apply Bytes_slice].
Qed.

(** Connecting and sending fail only with [OSError]; bytes arrive; no process dies. *)
Definition os_failure {A} (m : res A) : Prop := match m with Ok _ => True | Err e => exists m, e = OSError m end.
Definition survivable (o : io) : Prop := match o with IoCrash _ => False | _ => True end.

Record weather_ok (w : Weather) : Prop := {
  wo_connect : os_failure (we_connect w);
  wo_send : forall b, os_failure (we_send w b);
  wo_arrivals : Forall arrival_ok (inbox (we_arrivals w));
  wo_now : str_ok (we_now w) = true;
  wo_open : survivable (wf_open (we_files w));
  wo_write : survivable (wf_write (we_files w));
  wo_replace : survivable (wf_replace (we_files w));
}.

Lemma expected_os {A} (m : res A) e : os_failure m -> m = Err e -> expected e.
Proof. intros H ->. destruct H as [x ->]. exists x. by left. Qed.

Lemma recv_exact_outcome n s : 0 <= n -> Forall arrival_ok (inbox s) -> exists s' r,
  recv_exact n s = (s', r) /\ Forall arrival_ok (inbox s') /\
  match r with Ok b => Bytes b /\ zlen b = n | Err e => expected e end.
Proof.
  intros L F. unfold recv_exact.
  destruct (recv_loop_outcome (Z.to_nat n) (Z.to_nat n) [] s) as (s' & r & E & F' & R); [done | done | constructor |].
  exists s', r. split; [done|]. split; [done|]. destruct r; [|done]. destruct R as [? R]. split; [done|].
  unfold zlen. rewrite R. simpl. lia.
Qed.

Lemma poll_once_outcome c f u a q t s : os_failure c -> (forall b, os_failure (f b)) -> Forall arrival_ok (inbox s) ->
  0 <= t < 65536 -> 0 <= a < 65536 -> 0 <= q < 65536 ->
  match (poll_once c f u a q t s).2 with Ok p => poll_range p | Err e => expected e end.
Proof.
  intros C S F T A Q. unfold poll_once. rewrite build_request_eq by done.
  rewrite (se_bind_eq _ _ _ s (read_request t u a q)) by done.
  destruct c as [[]|e]; [|by apply (expected_os _ _ C)]. rewrite (se_bind_eq _ _ _ s tt) by done.
  destruct (f (read_request t u a q)) as [[]|e] eqn:Ef; [|by apply (expected_os _ _ (S _) Ef)].
  rewrite (se_bind_eq _ _ _ s tt) by done.
  destruct (recv_exact_outcome MBAP_HEADER_LEN s) as (s1 & r1 & R1 & F1 & B1); [done | done |].
  unfold mbind at 1, se_bind at 1. rewrite R1. destruct r1 as [hb|e]; [|done].
  destruct (parse_mbap hb) as [h|]; [|eexists; by right].
  destruct (protocol_id h =? MODBUS_PROTOCOL_ID); [|eexists; by right]. rewrite (se_bind_eq _ _ _ s1 tt) by done.
  destruct (2 <=? length_field h) eqn:L; [|eexists; by right]. rewrite (se_bind_eq _ _ _ s1 tt) by done. bool_prop.
  destruct (recv_exact_outcome (pdu_len h) s1) as (s2 & r2 & R2 & _ & B2); [unfold pdu_len; lia | done |].
  unfold mbind, se_bind. rewrite R2. destruct r2 as [pdu|e]; [|done]. destruct B2 as [B2 L2].
  apply read_pdu_outcome; [done|]. unfold pdu_len in L2. lia.
Qed.

(** ** The state file's text *)
#[export] Instance state_layout fr : Layout (state_cfg fr).
Proof. split; [exists []; done | exists [32]; split; [done | by repeat constructor]]. Qed.

Definition state_text (fr : spec_float -> str) (v : value) : str := dump (state_cfg fr) 0 v.

Lemma state_encodes fr v : wf v = true -> dumps (state_cfg fr) v = Ok (state_text fr v) /\
  utf8_encode (state_text fr v) = Ok (state_text fr v).
Proof.
  intros W. unfold dumps. rewrite wf_dump_check by done. split; [done|]. apply utf8_encode_ascii. by apply dump_ascii.
Qed.

Lemma state_decodes fr v : wf v = true -> utf8_decode (state_text fr v) = Ok (state_text fr v).
Proof.
  intros W. destruct (state_encodes fr v W) as [_ E].
  assert (str_ok (state_text fr v) = true) as S by (apply ascii_scalar; by apply dump_ascii).
  pose proof (utf8_encode_enc _ S) as E'. rewrite E in E'. injection E' as E'.
  rewrite E' at 1. by apply decode_enc.
Qed.

(** Everything a write may do to the state file. *)
Lemma write_outcome fr w v f f' r : wf v = true -> write_state_atomically fr w v f = (f', r) ->
  (target f' = target f \/ target f' = Some (state_text fr v)) /\
  match r with
  | Ok _ => target f' = Some (state_text fr v) /\ temporary f' = None
  | Err e => ((exists m, e = OSError m) /\ target f' = target f /\
              (temporary f' = None \/ temporary f' = temporary f \/ wf_unlink w = false)) \/
             (exists m, e = Crash m)
  end.
Proof.
  intros W. destruct (state_encodes fr v W) as [D E]. unfold write_state_atomically.
  destruct (wf_open w) as [|n|n] eqn:O; simpl io_result.
  2: { intros [= <- <-]. split; [by left|]. left. split; [eauto|]. split; [done|]. by right; left. }
  2: { intros [= <- <-]. split; [by left|]. right. eauto. }
  rewrite (se_bind_eq _ _ _ f tt) by done. rewrite (se_bind_eq _ _ _ (set_temporary (Some []) f) tt) by done.
  unfold se_try. rewrite D. rewrite (se_bind_eq _ _ _ (set_temporary (Some []) f) (state_text fr v)) by done.
  rewrite E. rewrite (se_bind_eq _ _ _ (set_temporary (Some []) f) (state_text fr v)) by done.
  set (t := state_text fr v).
  rewrite (se_bind_eq _ _ _ (set_temporary (Some (written [] t (wf_write w))) f) tt) by done.
  destruct (wf_write w) as [|n|n]; cbn.
  - destruct (wf_replace w) as [|n|[|n]]; cbn.
    + intros [= <- <-]. split; [by right | done].
    + destruct (wf_unlink w) eqn:U; intros [= <- <-]; (split; [by left|]); left; (split; [eauto|]); (split; [done|]).
      * by left.
      * by right; right.
    + intros [= <- <-]. split; [by left|]. right. eauto.
    + intros [= <- <-]. split; [by right|]. right. eauto.
  - destruct (wf_unlink w) eqn:U; intros [= <- <-]; (split; [by left|]); left; (split; [eauto|]); (split; [done|]).
    + by left.
    + by right; right.
  - intros [= <- <-]. split; [by left|]. right. eauto.
Qed.

(** The state file is replaced whole or not at all: whatever fails, and wherever the process
    dies, the controller finds the previous content or the complete new document; a write that
    returns has put the new one in place, and no failure leaves the temporary file behind
    unless the process died or unlinking it failed too. *)
Theorem state_file_atomic fr w v f f' r (W : wf v = true) (H : write_state_atomically fr w v f = (f', r)) :
  (target f' = target f \/ target f' = Some (state_text fr v)) /\
  match r with
  | Ok _ => target f' = Some (state_text fr v) /\ temporary f' = None
  | Err e => ((exists m, e = OSError m) /\ target f' = target f /\
              (temporary f' = None \/ temporary f' = temporary f \/ wf_unlink w = false)) \/
             (exists m, e = Crash m)
  end.
Proof. by apply write_outcome. Qed.

(** ** The document a round writes *)
Lemma lit_ascii_scalar s : str_ok (lit s) = true.
Proof.
  unfold lit, str_ok. apply forallb_Forall, Forall_map, Forall_forall. intros a _.
  pose proof (Ascii.N_ascii_bounded a). unfold is_scalar, is_surrogate. zdec. done.
Qed.

Record settings_ok (a : Settings) : Prop := {
  so_target : str_ok (st_target a) = true;
  so_unit : 0 <= st_unit_id a <= 255;
  so_address : 0 <= st_address a < 65536;
  so_quantity : 0 <= st_quantity a < 65536;
}.

Definition result_ok (r : Poll + str) : Prop :=
  match r with inl p => poll_range p | inr error => str_ok error = true end.

Lemma wf_small_int z : 0 <= z < 65536 -> wf (VInt z) = true.
Proof. intros. simpl. pose proof limit_large. zdec. done. Qed.

Lemma wf_as_dict l : Forall (fun kv => str_ok kv.1 = true /\ wf kv.2 = true) l -> NoDup (map fst l) ->
  wf (VDict (as_dict l)) = true.
Proof.
  intros F N. apply wf_dict. split; [|by rewrite as_dict_keys]. unfold as_dict. apply Forall_map.
  eapply Forall_impl; [exact F|]. done.
Qed.

Lemma no_crash fr w v f f' m : wf v = true -> weather_ok w ->
  write_state_atomically fr (we_files w) v f = (f', Err (Crash m)) -> False.
Proof.
  intros V [_ _ _ _ O W R]. destruct (state_encodes fr v V) as [D E].
  unfold write_state_atomically, mbind, se_bind, lift, se_try, modify. rewrite D, E.
  destruct (wf_open (we_files w)), (wf_write (we_files w)), (wf_replace (we_files w)); try done; cbn;
    destruct (wf_unlink (we_files w)); cbn; intros [=].
Qed.

Lemma wf_ints l : Forall (fun v => 0 <= v < 65536) l -> wf (ints l) = true.
Proof.
  intros F. unfold ints. cbn [wf]. apply forallb_Forall, Forall_map.
  eapply Forall_impl; [exact F|]. intros v Hv. by apply wf_small_int.
Qed.

Lemma poll_state_wf a t r : settings_ok a -> str_ok t = true -> result_ok r -> wf (poll_state a t r) = true.
Proof.
  intros [Ht Hu Ha Hq] Hn Hr. unfold poll_state. apply wf_as_dict.
  - apply Forall_app. split.
    { unfold state_head. repeat constructor; simpl fst; simpl snd; try apply lit_ascii_scalar; try done; apply wf_small_int; lia. }
    destruct r as [p|error].
    + destruct Hr as [Hf He Hw]. repeat constructor; simpl fst; simpl snd; try apply lit_ascii_scalar; try done.
      * apply wf_small_int. lia.
      * destruct (poll_exception_code p) as [z|]; [|done]. apply wf_small_int. specialize (He z eq_refl). lia.
      * by apply wf_ints.
    + repeat constructor; simpl fst; simpl snd; try apply lit_ascii_scalar; done.
  - destruct r; apply (bool_decide_eq_true_1 _); vm_compute; reflexivity.
Qed.

Lemma next_transaction_id_range t : 0 <= t -> 1 <= next_transaction_id t < 65535.
Proof.
  intros. unfold next_transaction_id. pose proof (Z.mod_pos_bound (t + 1) 0xFFFF ltac:(lia)).
  case_match eqn:E; bool_prop; lia.
Qed.

Lemma poll_error_expected e : expected e -> exists error, poll_error e = Some error /\ str_ok error = true.
Proof. intros [m [-> | ->]]; exists (lit m); (split; [done | apply lit_ascii_scalar]). Qed.

Lemma publish_outcome fr a w r s : settings_ok a -> weather_ok w -> result_ok r -> exists s' l,
  publish_result fr a w r s = (s', Ok tt) /\ s'.2 = s.2 ++ poll_event a r :: l /\
  (target s'.1 = target s.1 \/ target s'.1 = Some (state_text fr (poll_state a (we_now w) r))).
Proof.
  intros A W R. pose proof (poll_state_wf a (we_now w) r A (wo_now _ W) R) as V. unfold publish_result.
  rewrite (se_bind_eq _ _ _ (s.1, s.2 ++ [poll_event a r]) tt) by done. unfold se_try, on_fst. cbn [fst snd].
  destruct (write_state_atomically _ _ _ s.1) as [f' o] eqn:E.
  destruct (write_outcome _ _ _ _ _ _ V E) as [Tg C]. destruct o as [[]|e].
  - by exists (f', s.2 ++ [poll_event a r]), [].
  - assert (exists m, e = OSError m) as [m ->].
    { destruct C as [(? & _) | [m ->]]; [done|]. exfalso. by apply (no_crash _ _ _ _ _ _ V W E). }
    eexists _, _. split; [done|]. cbn [fst snd]. split; [by rewrite <- (assoc_L (++)) | done].
Qed.

Lemma round_outcome fr a w t s : settings_ok a -> weather_ok w -> 0 <= t -> exists s' r l,
  round fr a w t s = (s', Ok (next_transaction_id t, match r with inl _ => 0 | inr _ => 1 end)) /\
  s'.2 = s.2 ++ poll_event a r :: l /\
  (target s'.1 = target s.1 \/ target s'.1 = Some (state_text fr (poll_state a (we_now w) r))).
Proof.
  intros A W T. pose proof (next_transaction_id_range t T) as Ht. unfold round.
  set (t' := next_transaction_id t) in *.
  pose proof (poll_once_outcome (we_connect w) (we_send w) (st_unit_id a) (st_address a) (st_quantity a) t'
    (we_arrivals w) (wo_connect _ W) (wo_send _ W) (wo_arrivals _ W) ltac:(lia) (so_address _ A) (so_quantity _ A)) as O.
  destruct (poll_once _ _ _ _ _ _ _).2 as [p|e].
  - destruct (publish_outcome fr a w (inl p) s A W O) as (s' & l & E & L).
    exists s', (inl p), l. split; [|done]. rewrite (se_bind_eq _ _ _ s (inl p)) by done.
    by rewrite (se_bind_eq _ _ _ _ _ E).
  - destruct (poll_error_expected e O) as (error & -> & Hs).
    destruct (publish_outcome fr a w (inr error) s A W Hs) as (s' & l & E & L).
    exists s', (inr error), l. split; [|done]. rewrite (se_bind_eq _ _ _ s (inr error)) by done.
    by rewrite (se_bind_eq _ _ _ _ _ E).
Qed.

(** The fake PLC never stops on its own: whatever the network and the disk do short of killing
    the process - refused connections, timeouts, truncated or malformed responses, failing file
    operations - every round ends, is reported by one event of its own, and the next one
    follows; the exit code is 0 or 1. *)
Theorem rounds_survive fr a l (A : settings_ok a) (W : Forall weather_ok l) : forall t code s,
  0 <= t -> code = 0 \/ code = 1 -> exists s' code', rounds fr a l t code s = (s', Ok code') /\
  (code' = 0 \/ code' = 1) /\ exists events, s'.2 = s.2 ++ events /\ (length l <= length events)%nat.
Proof.
  induction W as [|w l Hw _ IH]; intros t code s Ht Hc.
  - exists s, code. split; [done|]. split; [done|]. exists []. by rewrite app_nil_r.
  - destruct (round_outcome fr a w t s A Hw Ht) as (s1 & r & ev & E & T1 & _).
    pose proof (next_transaction_id_range t Ht). cbn [rounds]. rewrite (se_bind_eq _ _ _ _ _ E). cbn [fst snd].
    destruct (IH (next_transaction_id t) (match r with inl _ => 0 | inr _ => 1 end) s1) as (s2 & c2 & -> & C2 & ev2 & T2 & L2).
    + lia.
    + destruct r; auto.
    + exists s2, c2. split; [done|]. split; [done|]. exists (poll_event a r :: ev ++ ev2). split.
      * rewrite T2, T1, <- (assoc_L (++)). done.
      * simpl. rewrite length_app. lia.
Qed.

(** A response with an odd byte count is not a well-formed one, but it is read: its last byte
    becomes a register. *)
Lemma odd_byte_count_read : read_pdu [3; 3; 0; 1; 7] =
  Ok {| poll_ok := true; poll_function_code := 3; poll_exception_code := None; poll_registers := [1; 7] |}.
Proof. reflexivity. Qed.

(** ** Witnesses *)
Definition full_bank : RegisterBank := {| size := 3; critical_start := 0; critical_end := 0; registers := [7; 300; 65535] |}.
Definition sample_reply : bytes := [0; 5; 0; 0; 0; 7; 1; 3; 4; 1; 44; 255; 255].

Lemma poll_reads_registers_witness :
  (poll_once (Ok tt) (fun _ => Ok tt) 1 1 2 5 (segments [take 3 sample_reply; drop 3 sample_reply])).2 =
    Ok {| poll_ok := true; poll_function_code := 3; poll_exception_code := None; poll_registers := [300; 65535] |} /\
  (handle sample_peer (segments [[0; 5; 0; 0]; [0; 6; 1; 3; 0; 1; 0; 2]], (full_bank, sample_out))).1.2.1 = full_bank.
Proof.
  apply (poll_reads_registers sample_peer full_bank sample_out 5 1 1 2 [0; 5; 0; 0; 0; 6; 1; 3; 0; 1; 0; 2]
           [[0; 5; 0; 0]; [0; 6; 1; 3; 0; 1; 0; 2]] [take 3 sample_reply; drop 3 sample_reply]);
    try done; try lia.
  - split; [done | by repeat constructor].
  - by repeat constructor.
  - by repeat constructor.
Defined.

Definition calm : WriteFaults := {| wf_open := IoOk; wf_write := IoOk; wf_replace := IoOk; wf_unlink := true |}.
Definition disk_full : WriteFaults := {| wf_open := IoOk; wf_write := IoError 4; wf_replace := IoOk; wf_unlink := true |}.
Definition sample_files : Files := {| target := Some [123; 125]; temporary := None |}.
Definition sample_settings : Settings := {| st_target := lit "127.0.0.1:5020"; st_unit_id := 1; st_address := 0; st_quantity := 2 |}.
Definition sample_state : value := poll_state sample_settings (lit "t") (inr (lit "timed out")).
Definition fr0 : spec_float -> str := fun _ => [].

Lemma state_file_atomic_witness :
  target (write_state_atomically fr0 disk_full sample_state sample_files).1 = Some [123; 125] /\
  temporary (write_state_atomically fr0 disk_full sample_state sample_files).1 = None /\
  target (write_state_atomically fr0 calm sample_state sample_files).1 = Some (state_text fr0 sample_state).
Proof.
  split; [by vm_compute|]. split; [by vm_compute|].
  destruct (write_state_atomically fr0 calm sample_state sample_files) as [f r] eqn:E.
  pose proof (state_file_atomic fr0 calm sample_state sample_files f r ltac:(by vm_compute) E) as [_ H].
  assert (r = Ok tt) as -> by (apply (f_equal snd) in E; vm_compute in E; by rewrite E). by destruct H.
Defined.

Definition sample_weather : Weather := {|
  we_connect := Ok tt; we_send := fun _ => Ok tt; we_arrivals := segments [sample_reply]; we_now := lit "t"; we_files := calm |}.
Definition stormy : Weather := {|
  we_connect := Err (OSError "refused"); we_send := fun _ => Ok tt; we_arrivals := segments []; we_now := lit "t"; we_files := disk_full |}.

Lemma rounds_survive_witness : exists s' code', rounds fr0 sample_settings [sample_weather; stormy] 0 0 (sample_files, []) = (s', Ok code') /\
  (code' = 0 \/ code' = 1) /\ exists events, s'.2 = [] ++ events /\ (2 <= length events)%nat.
Proof.
  apply (rounds_survive fr0 sample_settings [sample_weather; stormy]); [by split | | done | by left].
  constructor; [|constructor; [|constructor]]; split; try done.
  - by repeat constructor.
  - by exists "refused"%string.
Defined.
