(* ===== verification/Dnp3Sensor.v ===== *)
(** The DNP3-inspired interaction sensor: [src/ics_deception/honeypots/dnp3_sensor.py].

    A session works on what arrives, on the number of bytes counted so far, and on the
    outgoing side of the connection ([Sockets]). *)
From S2P Require Import Prelude PyText Json Models Hashes Sockets.

Definition LINK_START : bytes := [0x05; 0x64].
Definition MAX_SESSION_BYTES := 64 * 1024.
Definition MAX_SAMPLE_BYTES := 32.
Definition BANNER : bytes := LINK_START ++ [0x05; 0xC4; 0x01; 0x02; 0x03; 0x04].

Abbreviation Sensing := (Incoming * (Z * Outgoing))%type.

Definition emit (p : Peer) (event_type : string) (details : fields) : SE Sensing unit :=
  on_snd (on_snd (emit_event p event_type details)).
Definition reply (payload : bytes) : SE Sensing unit :=
  on_snd (on_snd (send_all "short write on DNP3 reply" payload)).
Definition set_session_bytes (n : Z) : SE Sensing unit := on_snd (on_fst (modify (fun _ => n))).

Definition interaction (data : bytes) (session_bytes : Z) : fields := [
  ("length", VInt (zlen data)); ("session_bytes", VInt session_bytes);
  ("hex_sample", VStr (hex (slice data 0 MAX_SAMPLE_BYTES)));
  ("truncated", VBool (MAX_SAMPLE_BYTES <? zlen data)%Z)]%string.

(** The loop of [_Handler.handle]. *)
Fixpoint sense (p : Peer) (fuel : nat) : SE Sensing unit :=
  match fuel with
  | O => raise OutOfFuel
  | S fuel =>
    stop ← on_fst stopping;
    if stop : bool then mret tt else
    r ← on_fst (receive 4096);
    match r with
    | TimedOut => emit p "dnp3_timeout" []
    | RecvFailed m => emit p "dnp3_connection_error" [("error", VStr (lit m))]%string
    | Data [] => mret tt
    | Data data =>
      before ← gets (fun s => s.2.1);
      let session_bytes := before + zlen data in
      set_session_bytes session_bytes ;;
      emit p "dnp3_interaction" (interaction data session_bytes) ;;
      if MAX_SESSION_BYTES <? session_bytes then
        emit p "dnp3_session_limit" [("session_bytes", VInt session_bytes)]%string
      else
        reply (LINK_START ++ [0x0B; 0x44] ++ slice data 0 4) ;;
        sense p fuel
    end
  end.

(** The handler: a failed send is reported, the closing always is. *)
Definition handle (p : Peer) : SE Sensing unit :=
  emit p "dnp3_connection" [] ;;
  set_session_bytes 0 ;;
  incoming ← gets fst;
  se_finally
    (se_try (reply BANNER ;; sense p (S (backlog incoming)))
      (fun e => match e with
                | OSError m => emit p "dnp3_connection_error" [("error", VStr (lit m))]%string
                | _ => raise e
                end))
    (total ← gets (fun s => s.2.1); emit p "dnp3_connection_closed" [("session_bytes", VInt total)]%string).

(** ** What a session is held to *)

(** No event records more than [MAX_SAMPLE_BYTES] bytes of what the peer sent. *)
Definition sample_bounded (e : str * dict) : bool :=
  match dict_get e.2 (lit "hex_sample") with
  | Some (VStr h) => zlen h <=? 2 * MAX_SAMPLE_BYTES
  | _ => true
  end.

(** The counter, the events and the replies of a stretch of the session. *)
Record held (n : Z) (o : Outgoing) (s : Sensing * res unit) : Prop := {
  he_count : n <= s.1.2.1 <= MAX_SESSION_BYTES + 4096;
  he_trace : exists l, trace s.1.2.2 = trace o ++ l /\ Forall (fun e => sample_bounded e = true) l /\
    zlen (delivered s.1.2.2) <= zlen (delivered o) + 8 * zlen l;
  he_error : forall e, s.2 = Err e -> exists m, e = OSError m;
}.

Lemma zlen_hex b : zlen (hex b) = 2 * zlen b.
Proof. unfold hex. induction b as [|x b IH]; [done|]. simpl. rewrite !zlen_cons, IH. lia. Qed.

Lemma interaction_bounded p data n : sample_bounded (report p "dnp3_interaction" (interaction data n)) = true.
Proof.
  change (zlen (hex (slice data 0 MAX_SAMPLE_BYTES)) <=? 2 * MAX_SAMPLE_BYTES = true).
  apply Z.leb_le. rewrite zlen_hex. unfold slice, zlen. rewrite length_take. unfold MAX_SAMPLE_BYTES. lia.
Qed.

(** A sending step, an emitting step. *)
Lemma reply_step b (i : Incoming) (n : Z) o : exists o' r, reply b (i, (n, o)) = ((i, (n, o')), r) /\
  trace o' = trace o /\ zlen (delivered o') <= zlen (delivered o) + zlen b /\
  (forall e, r = Err e -> exists m, e = OSError m).
Proof.
  unfold reply, on_snd. cbn [fst snd]. destruct (send_all _ b o) as [o' r] eqn:E. exists o', r. split; [done|].
  apply send_all_spec in E as (T & sent & rest & -> & D & R). split; [done|]. split.
  - rewrite D. zlen. pose proof (zlen_nonneg rest). lia.
  - intros e ->. done.
Qed.

Definition log (l : list (str * dict)) (o : Outgoing) : Outgoing :=
  {| outcomes := outcomes o; delivered := delivered o; trace := trace o ++ l |}.

Lemma sample_emit_step p ty d (i : Incoming) (n : Z) o : emit p ty d (i, (n, o)) = ((i, (n, log [report p ty d] o)), Ok tt).
Proof. done. Qed.

Lemma held_event p ty d (i : Incoming) n o : sample_bounded (report p ty d) = true ->
  n <= MAX_SESSION_BYTES + 4096 -> held n o (emit p ty d (i, (n, o))).
Proof.
  intros B N. split; simpl; [lia | | done]. eexists. split; [done|]. split; [by repeat constructor|]. zlen. lia.
Qed.

Lemma held_done (i : Incoming) n o : n <= MAX_SESSION_BYTES + 4096 -> held n o ((i, (n, o)), Ok tt).
Proof. split; simpl; [lia | | done]. exists []. rewrite app_nil_r. split; [done|]. split; [constructor|]. zlen. lia. Qed.

(** Going on after an event and at most eight bytes of reply. *)
Lemma held_trans n n' o o' e s : n <= n' -> trace o' = trace o ++ [e] -> sample_bounded e = true ->
  zlen (delivered o') <= zlen (delivered o) + 8 -> held n' o' s -> held n o s.
Proof.
  intros N T B D [C (l & T' & F & D') E]. split; [lia | | done]. exists (e :: l).
  split; [by rewrite T', T, <- (assoc_L (++))|]. split; [by constructor|]. zlen. lia.
Qed.

Lemma sense_held p fuel : forall i n o, (backlog i < fuel)%nat -> 0 <= n <= MAX_SESSION_BYTES ->
  held n o (sense p fuel (i, (n, o))).
Proof.
  change MAX_SESSION_BYTES with 65536.
  induction fuel as [|fuel IH]; intros i n o L N; [lia|]. cbn [sense].
  destruct (stopping_ok i) as (i1 & stop & Es & Ei).
  rewrite (se_bind_eq _ _ _ (i1, (n, o)) stop) by (unfold on_fst; cbn [fst snd]; by rewrite Es).
  assert (backlog i1 = backlog i) as L1 by (unfold backlog; by rewrite Ei).
  assert (n <= MAX_SESSION_BYTES + 4096) as N' by (change MAX_SESSION_BYTES with 65536; lia).
  destruct stop; [by apply held_done|]. destruct (receive_ok 4096 i1) as (i2 & r & Er & Lr).
  rewrite (se_bind_eq _ _ _ (i2, (n, o)) r) by (unfold on_fst; cbn [fst snd]; by rewrite Er).
  destruct r as [data| |m]; [|by apply held_event | by apply held_event].
  destruct data as [|x data]; [by apply held_done|]. set (d := x :: data) in *.
  pose proof (receive_small _ _ _ _ Er) as Ld. specialize (Lr ltac:(lia) ltac:(done)).
  assert (0 < zlen d <= 4096) as Zd by (unfold zlen; split; [unfold d; simpl; lia | lia]).
  cbn zeta. rewrite (se_bind_eq _ _ _ (i2, (n, o)) n) by done.
  rewrite (se_bind_eq _ _ _ (i2, (n + zlen d, o)) tt) by done.
  set (n' := n + zlen d) in *. set (e := report p "dnp3_interaction" (interaction d n')).
  rewrite (se_bind_eq _ _ _ _ _ (sample_emit_step _ _ _ _ _ _)). fold e.
  assert (sample_bounded e = true) as Be by apply interaction_bounded.
  destruct (MAX_SESSION_BYTES <? n') eqn:M; bool_prop; change MAX_SESSION_BYTES with 65536 in M.
  { apply (held_trans _ n' _ (log [e] o) e); [lia | done | done | simpl; lia |].
    apply held_event; [done|]. change MAX_SESSION_BYTES with 65536. lia. }
  destruct (reply_step (LINK_START ++ [0x0B; 0x44] ++ slice d 0 4) i2 n' (log [e] o)) as (o' & r & R & T & D & E).
  assert (zlen (delivered o') <= zlen (delivered o) + 8) as D'.
  { rewrite !zlen_app in D. change (zlen LINK_START) with 2 in D. change (zlen [0x0B; 0x44]) with 2 in D.
    assert (zlen (slice d 0 4) <= 4) by (unfold slice, zlen; rewrite length_take; lia). simpl in D. lia. }
  unfold mbind, se_bind. rewrite R. destruct r as [[]|x'].
  - apply (held_trans _ n' _ o' e); [lia | done | done | done |]. apply IH; lia.
  - split; cbn [fst snd]; [change MAX_SESSION_BYTES with 65536; lia | | done].
    exists [e]. split; [done|]. split; [by repeat constructor|]. zlen. lia.
Qed.

(** A session is bounded and always ends by reporting itself: whatever the peer sends and
    whatever the network does, the handler returns; it counts at most [MAX_SESSION_BYTES] plus
    one read; no event quotes more than [MAX_SAMPLE_BYTES] bytes of the peer's data; and it
    sends at most eight bytes per event, so it cannot be used to amplify traffic. *)
Theorem session_bounded p i n o : exists i' n' o' l,
  handle p (i, (n, o)) = ((i', (n', o')), Ok tt) /\ 0 <= n' <= MAX_SESSION_BYTES + 4096 /\
  trace o' = trace o ++ [report p "dnp3_connection" []] ++ l ++
             [report p "dnp3_connection_closed" [("session_bytes", VInt n')]%string] /\
  Forall (fun e => sample_bounded e = true) l /\
  zlen (delivered o') <= zlen (delivered o) + 8 * (1 + zlen l).
Proof.
  unfold handle. rewrite (se_bind_eq _ _ _ _ _ (sample_emit_step _ _ _ _ _ _)).
  set (o1 := log _ o). rewrite (se_bind_eq _ _ _ (i, (0, o1)) tt) by done.
  rewrite (se_bind_eq _ _ _ (i, (0, o1)) i) by done. unfold se_finally, se_try.
  destruct (reply_step BANNER i 0 o1) as (o2 & r & R & T & D & E). unfold mbind at 1, se_bind at 1. rewrite R.
  change (zlen BANNER) with 8 in D. assert (zlen (delivered o1) = zlen (delivered o)) as Do by done.
  assert (trace o1 = trace o ++ [report p "dnp3_connection" []]) as To by done.
  destruct r as [[]|e].
  - destruct (sense_held p (S (backlog i)) i 0 o2) as [C (l & Tl & F & Dl) Es]; [lia | by split |].
    destruct (sense p (S (backlog i)) (i, (0, o2))) as [[i3 [n3 o3]] [[]|e]]; cbn [fst snd] in *.
    + exists i3, n3, (log [report p "dnp3_connection_closed" [("session_bytes", VInt n3)]%string] o3), l.
      split; [done|]. split; [done|]. split; [|split; [done | cbn; lia]].
      cbn. by rewrite Tl, T, To, <- !(assoc_L (++)).
    + destruct (Es e eq_refl) as [m ->]. set (ev := report p "dnp3_connection_error" [("error", VStr (lit m))]%string).
      exists i3, n3, (log [report p "dnp3_connection_closed" [("session_bytes", VInt n3)]%string] (log [ev] o3)), (l ++ [ev]).
      split; [done|]. split; [done|]. split; [|split; [apply Forall_app; split; [done | by repeat constructor] | cbn; zlen; lia]].
      cbn. by rewrite Tl, T, To, <- !(assoc_L (++)).
  - destruct (E e eq_refl) as [m ->]. set (ev := report p "dnp3_connection_error" [("error", VStr (lit m))]%string).
    exists i, 0, (log [report p "dnp3_connection_closed" [("session_bytes", VInt 0)]%string] (log [ev] o2)), [ev].
    split; [done|]. split; [by split|]. split; [|split; [by repeat constructor | cbn; zlen; lia]].
    cbn. by rewrite T, To, <- !(assoc_L (++)).
Qed.
