(* ===== verification/Capture.v ===== *)
(** Captures: [src/ics_deception/datasets/pcap_utils.py] (path validation, replay targets) and
    [src/ics_deception/datasets/pcap_loader.py] (analysis and replay).

    Reading a capture is Scapy's work: a packet is what the code asks of it.  The file system
    behind [Path.resolve] and [Path.is_file] is an argument. *)
From S2P Require Import Prelude PyText PyStr Json JsonFacts IsoTime Canonicalizer Models Hashes Modbus Sockets ModbusServer.

(** ** [validate_pcap_path] *)

Definition ALLOWED_PCAP_SUFFIXES : list str := [lit ".pcap"; lit ".pcapng"].

(** [root in p.parents or p == root] *)
Definition within (root p : path) : bool := bool_decide (take (length root) p = root).

Inductive pcap_error :=
| Unsupported
| Traversal
| NotFound
| PathError (e : exn).

Section FileSystem.
Context (resolve : path -> res path) (is_file : path -> bool).

(** [approved] is [Path(approved_dir).expanduser()]'s components. *)
Definition validate_pcap_path (candidate : str) (approved : path) : path + pcap_error :=
  if negb (str_in (lower (suffix candidate)) ALLOWED_PCAP_SUFFIXES) then inr Unsupported
  else
    match resolve approved with
    | Err e => inr (PathError e)
    | Ok approved =>
      match resolve (if is_absolute candidate then parts candidate else approved ++ parts candidate) with
      | Err e => inr (PathError e)
      | Ok resolved =>
        if negb (within approved resolved) then inr Traversal
        else if negb (is_file resolved) then inr NotFound
        else inl resolved
      end
    end.
End FileSystem.

(** ** [parse_host_port] *)

Section Targets.
Context (U : UnicodeDigits).

Definition parse_port (text : str) : res Z :=
  require (isdigit U text) (ValueError "invalid port in target") ;;
  port ← int_of U text;
  require ((1 <=? port) && (port <=? 65535)) (ValueError "port out of range in target") ;;
  Ok port.

(** What the text says, before the host is checked. *)
Definition target_of (text : str) (default_port : Z) : res (str * Z) :=
  if starts 91 text then
    match partition 93 (tail text) with
    | None => Err (ValueError "unterminated IPv6 literal")
    | Some (host, remainder) =>
      if str_eqb remainder [] then Ok (host, default_port)
      else if starts 58 remainder then port ← parse_port (tail remainder); Ok (host, port)
      else Err (ValueError "invalid IPv6 target")
    end
  else if (1 <? count_char 58 text)%nat then Ok (text, default_port)
  else match partition 58 text with
       | Some (host, port_text) => port ← parse_port port_text; Ok (host, port)
       | None => Ok (text, default_port)
       end.

Definition parse_host_port (v : str) (default_port : Z) : res (str * Z) :=
  let text := strip v in
  require (negb (str_eqb text [])) (ValueError "empty host specification") ;;
  '(host, port) ← target_of text default_port;
  require (negb (str_eqb host [])) (ValueError "missing host in target") ;;
  Ok (host, port).
End Targets.

(** ** [analyse_capture] *)
Definition MODBUS_PORT := 502.
Definition DNP3_PORT := 20000.
Definition DEFAULT_MAX_PACKETS := 5000.
Definition MAX_SAMPLE_BYTES := 32.

(** What the analysis asks of a packet: TCP ports, raw load, addresses. *)
Record Packet := {
  pk_ports : option (Z * Z);       (* sport, dport *)
  pk_load : option bytes;
  pk_endpoints : option (str * str);
}.

Record ReplayTargets := {
  modbus_host : str;
  modbus_port : Z;
  dnp3_host : str;
  dnp3_port : Z;
}.

Record Summary := {
  packets_seen : Z;
  packets_matched : Z;
  packets_replayed : Z;
  errors : Z;
  by_modbus : Z;
  by_dnp3 : Z;
}.

Definition no_packets : Summary := {|
  packets_seen := 0; packets_matched := 0; packets_replayed := 0; errors := 0; by_modbus := 0; by_dnp3 := 0 |}.

Definition summary_fields (s : Summary) : fields := [
  ("packets_seen", VInt (packets_seen s)); ("packets_matched", VInt (packets_matched s));
  ("packets_replayed", VInt (packets_replayed s)); ("errors", VInt (errors s));
  ("by_protocol", VDict (as_dict [(lit "modbus", VInt (by_modbus s)); (lit "dnp3", VInt (by_dnp3 s))]))]%string.

Definition parse_modbus (payload : bytes) : option fields :=
  if zlen payload <? MBAP_HEADER_LEN + 1 then None
  else
    let protocol_id := from_be (slice payload 2 4) in
    if negb (protocol_id =? MODBUS_PROTOCOL_ID) then None
    else
      let length := from_be (slice payload 4 6) in
      if negb ((MIN_MBAP_LENGTH <=? length) && (length <=? MAX_MBAP_LENGTH)) then None
      else Some [
        ("transaction_id", VInt (from_be (slice payload 0 2))); ("protocol_id", VInt protocol_id);
        ("mbap_length", VInt length); ("unit_id", VInt (nth 6 payload 0)); ("function_code", VInt (nth 7 payload 0));
        ("payload_len", VInt (zlen payload));
        ("length_consistent", VBool (MBAP_HEADER_LEN - 1 + length <=? zlen payload)%Z)]%string.

Definition parse_dnp3 (payload : bytes) : option fields :=
  if zlen payload <? 2 then None
  else Some [
    ("payload_len", VInt (zlen payload)); ("link_start", VStr (hex (slice payload 0 2)));
    ("looks_like_dnp3", VBool (str_eqb (slice payload 0 2) [0x05; 0x64]));
    ("hex_sample", VStr (hex (slice payload 0 MAX_SAMPLE_BYTES)))]%string.

(** One run: the counters, the telemetry, the transmissions attempted. *)
Record Transmission := {
  tx_host : str;
  tx_port : Z;
  tx_payload : bytes;
}.

Record Run := {
  summary : Summary;
  events : list (str * dict);
  transmissions : list Transmission;
}.

Definition set_summary (f : Summary -> Summary) : SE Run unit := modify (fun r =>
  {| summary := f (summary r); events := events r; transmissions := transmissions r |}).
Definition note (event_type : string) (details : fields) : SE Run unit := modify (fun r =>
  {| summary := summary r; transmissions := transmissions r;
     events := events r ++ [(lit event_type, as_dict (map (fun kv => (lit kv.1, kv.2)) details))] |}).
Definition transmit (t : Transmission) : SE Run unit := modify (fun r =>
  {| summary := summary r; events := events r; transmissions := transmissions r ++ [t] |}).

Definition saw (s : Summary) : Summary := {| packets_seen := packets_seen s + 1; packets_matched := packets_matched s;
  packets_replayed := packets_replayed s; errors := errors s; by_modbus := by_modbus s; by_dnp3 := by_dnp3 s |}.
Definition matched (is_modbus : bool) (s : Summary) : Summary := {| packets_seen := packets_seen s;
  packets_matched := packets_matched s + 1; packets_replayed := packets_replayed s; errors := errors s;
  by_modbus := by_modbus s + (if is_modbus then 1 else 0); by_dnp3 := by_dnp3 s + (if is_modbus then 0 else 1) |}.
Definition replayed (s : Summary) : Summary := {| packets_seen := packets_seen s; packets_matched := packets_matched s;
  packets_replayed := packets_replayed s + 1; errors := errors s; by_modbus := by_modbus s; by_dnp3 := by_dnp3 s |}.
Definition failed (s : Summary) : Summary := {| packets_seen := packets_seen s; packets_matched := packets_matched s;
  packets_replayed := packets_replayed s; errors := errors s + 1; by_modbus := by_modbus s; by_dnp3 := by_dnp3 s |}.

Definition endpoint (host : str) (port : Z) : str := host ++ [58] ++ dec_digits port.

Section Analysis.
Context (replay : bool) (targets : ReplayTargets) (max_packets : Z) (pcap : str).

Definition target_text (host : str) (port : Z) : value := if replay then VStr (endpoint host port) else VNone.

(** [_replay], its transmission attempted and then reported: [outcome] is the message of the
    [OSError] it raised, if any. *)
Definition replay_payload (is_modbus : bool) (payload : bytes) (outcome : option string) : SE Run unit :=
  let host := if is_modbus then modbus_host targets else dnp3_host targets in
  let port := if is_modbus then modbus_port targets else dnp3_port targets in
  transmit {| tx_host := host; tx_port := port; tx_payload := payload |} ;;
  match outcome with
  | None =>
    set_summary replayed ;;
    note (if is_modbus then "modbus_replayed" else "dnp3_replayed")
      [("target", VStr (endpoint host port)); ("bytes_sent", VInt (zlen payload))]%string
  | Some m =>
    set_summary failed ;;
    note (if is_modbus then "modbus_replay_error" else "dnp3_replay_error")
      [("target", VStr (endpoint host port)); ("error", VStr (lit m))]%string
  end.

(** The body of the loop, its [continue]s as branches. *)
Definition process_packet (packet : Packet) (outcome : option string) : SE Run unit :=
  match pk_ports packet, pk_load packet, pk_endpoints packet with
  | Some (sport, dport), Some payload, Some (src, dst) =>
    let is_modbus := (MODBUS_PORT =? dport) || (MODBUS_PORT =? sport) in
    let is_dnp3 := (DNP3_PORT =? dport) || (DNP3_PORT =? sport) in
    if negb (is_modbus || is_dnp3) then mret tt
    else
      let service_port := if is_modbus then MODBUS_PORT else DNP3_PORT in
      let client_to_server := dport =? service_port in
      match (if is_modbus then parse_modbus payload else parse_dnp3 payload) with
      | None => mret tt
      | Some metadata =>
        set_summary (matched is_modbus) ;;
        note (if is_modbus then "modbus_packet" else "dnp3_packet")
          ([("src", VStr (endpoint src sport)); ("dst", VStr (endpoint dst dport));
            ("direction", VStr (lit (if client_to_server then "client_to_server" else "server_to_client")))]%string ++ metadata) ;;
        if replay && client_to_server then replay_payload is_modbus payload outcome else mret tt
      end
  | _, _, _ => mret tt
  end.

(** The packets the reader yields, with the fate of their replay; the reader may also raise. *)
Fixpoint packet_loop (l : list (res Packet * option string)) : SE Run unit :=
  match l with
  | [] => mret tt
  | (Err e, _) :: _ => raise e
  | (Ok packet, outcome) :: l =>
    s ← gets summary;
    if max_packets <=? packets_seen s then
      note "pcap_packet_limit_reached" [("limit", VInt max_packets); ("pcap", VStr pcap)]%string
    else
      set_summary saw ;;
      process_packet packet outcome ;;
      packet_loop l
  end.

Definition analyse_capture (l : list (res Packet * option string)) : SE Run Summary :=
  note "pcap_analysis_started" [("pcap", VStr pcap); ("replay", VBool replay); ("max_packets", VInt max_packets);
    ("modbus_target", target_text (modbus_host targets) (modbus_port targets));
    ("dnp3_target", target_text (dnp3_host targets) (dnp3_port targets))]%string ;;
  packet_loop l ;;
  s ← gets summary;
  note "pcap_analysis_finished" (("pcap", VStr pcap)%string :: summary_fields s) ;;
  mret s.

(** ** What a run is held to *)
Definition from_client (l : list (res Packet * option string)) (t : Transmission) : Prop :=
  exists packet outcome sport dport, (Ok packet, outcome) ∈ l /\ pk_ports packet = Some (sport, dport) /\
    pk_load packet = Some (tx_payload t) /\
    ((dport = MODBUS_PORT /\ tx_host t = modbus_host targets /\ tx_port t = modbus_port targets /\
      is_Some (parse_modbus (tx_payload t))) \/
     (dport = DNP3_PORT /\ tx_host t = dnp3_host targets /\ tx_port t = dnp3_port targets /\
      is_Some (parse_dnp3 (tx_payload t)))).

Record run_ok (l : list (res Packet * option string)) (r : Run) : Prop := {
  ro_seen : 0 <= packets_seen (summary r) <= Z.max 0 max_packets;
  ro_matched : 0 <= packets_matched (summary r) <= packets_seen (summary r);
  ro_protocols : packets_matched (summary r) = by_modbus (summary r) + by_dnp3 (summary r);
  ro_replayed : packets_replayed (summary r) + errors (summary r) = zlen (transmissions r);
  ro_attempts : zlen (transmissions r) <= packets_matched (summary r);
  ro_counts : 0 <= packets_replayed (summary r) /\ 0 <= errors (summary r) /\ 0 <= by_modbus (summary r) /\ 0 <= by_dnp3 (summary r);
  ro_passive : replay = false -> transmissions r = [];
  ro_clients : Forall (from_client l) (transmissions r);
}.

(** One packet keeps what the run is held to, once it is counted. *)
Lemma process_keeps l packet outcome r : (Ok packet, outcome) ∈ l -> run_ok l r ->
  packets_matched (summary r) < packets_seen (summary r) ->
  exists r', process_packet packet outcome r = (r', Ok tt) /\ run_ok l r' /\ packets_seen (summary r') = packets_seen (summary r).
Proof.
  intros I K M. unfold process_packet.
  destruct (pk_ports packet) as [[sport dport]|] eqn:P; [|by exists r].
  destruct (pk_load packet) as [payload|] eqn:L; [|by exists r].
  destruct (pk_endpoints packet) as [[src dst]|]; [|by exists r].
  set (is_modbus := (MODBUS_PORT =? dport) || (MODBUS_PORT =? sport)).
  set (is_dnp3 := (DNP3_PORT =? dport) || (DNP3_PORT =? sport)).
  destruct (negb (is_modbus || is_dnp3)); [by exists r|].
  destruct (if is_modbus then _ else _) as [metadata|] eqn:D; [|by exists r].
  destruct K as [H1 H2 H3 H4 H5 H6 H7 H8]. destruct (replay && _) eqn:C.
  - bool_prop.
    destruct outcome as [m|]; eexists; (split; [reflexivity|]); cbn; (split; [|done]); split; cbn; zlen; try lia; try congruence;
      try (destruct is_modbus; lia); apply Forall_app; (split; [done|]); repeat constructor.
    all: eexists packet, _, sport, dport; split; [exact I|]; split; [done|]; split; [done|]; destruct is_modbus; [left|right]; simpl; eauto.
  - eexists. split; [reflexivity|]. cbn. split; [|done]. split; cbn; try lia; try done; destruct is_modbus; lia.
Qed.

Lemma saw_keeps l r : run_ok l r -> packets_seen (summary r) < max_packets ->
  run_ok l (set_summary saw r).1 /\ packets_matched (summary (set_summary saw r).1) < packets_seen (summary (set_summary saw r).1).
Proof. intros [H1 H2 H3 H4 H5 H6 H7 H8] M. split; [|simpl; lia]. split; simpl; try done; lia. Qed.

Lemma note_keeps l r ty d : run_ok l r -> run_ok l (note ty d r).1.
Proof. by intros [H1 H2 H3 H4 H5 H6 H7 H8]. Qed.

Lemma loop_keeps l l' : forall r, l' ⊆ l -> run_ok l r -> exists r' o,
  packet_loop l' r = (r', o) /\ run_ok l r' /\ (o = Ok tt \/ exists e m, (Err e, m) ∈ l /\ o = Err e).
Proof.
  induction l' as [|[[packet|e] outcome] l' IH]; intros r I K.
  - exists r, (Ok tt). split; [done|]. split; [done|]. by left.
  - cbn [packet_loop]. rewrite (se_bind_eq _ _ _ r (summary r)) by done.
    destruct (max_packets <=? packets_seen (summary r)) eqn:M.
    + eexists _, _. split; [done|]. split; [by apply note_keeps | by left].
    + apply Z.leb_gt in M. destruct (saw_keeps l r K M) as [K1 M1]. set (r1 := (set_summary saw r).1) in *.
      rewrite (se_bind_eq _ _ _ r1 tt) by done.
      destruct (process_keeps l packet outcome r1) as (r2 & E & K2 & _); [apply I; by left | done | done |].
      rewrite (se_bind_eq _ _ _ _ _ E). apply IH; [|done]. intros x Hx. apply I. by right.
  - exists r, (Err e). split; [done|]. split; [done|]. right. exists e, outcome. split; [|done]. apply I. by left.
Qed.

(** A run accounts for what it did: at most [max_packets] packets are looked at, the matched
    ones are counted by protocol, every attempted transmission is counted as replayed or as an
    error; without the replay flag nothing is transmitted at all; and every transmission is the
    payload of a client-to-server packet of the capture, valid for its protocol, sent to the
    laboratory target of that protocol.  Only the capture's reader can make the run fail. *)
Theorem analysis_accounts l ev : exists r o,
  analyse_capture l {| summary := no_packets; events := ev; transmissions := [] |} = (r, o) /\ run_ok l r /\
  (o = Ok (summary r) \/ exists e m, (Err e, m) ∈ l /\ o = Err e).
Proof.
  set (r0 := {| summary := no_packets; events := ev; transmissions := [] |}). unfold analyse_capture.
  assert (run_ok l r0) as K by (split; simpl; try done; try lia; constructor).
  set (start := note "pcap_analysis_started" _). pose proof (note_keeps l r0 _ _ K : run_ok l (start r0).1) as K0.
  rewrite (se_bind_eq start _ r0 (start r0).1 tt) by done.
  destruct (loop_keeps l l (start r0).1) as (r1 & o & E & K1 & O); [done | done |].
  destruct O as [-> | (e & m & I & ->)].
  - rewrite (se_bind_eq _ _ _ _ _ E). eexists _, _. split; [reflexivity|]. split; [|left; reflexivity].
    by apply note_keeps.
  - rewrite (se_bind_err _ _ _ _ _ E). exists r1, (Err e). split; [done|]. split; [done|]. right. eauto.
Qed.
End Analysis.

(** ** The analyser and the decoy agree on what a frame is *)
Definition consistent (m : fields) : Prop := last m = Some ("length_consistent"%string, VBool true).

(** The analyser's metadata and the decoy's framing never disagree: a payload begins with a
    complete frame the Modbus decoy would dispatch exactly when the analyser recognises it and
    calls its length consistent. *)
Theorem analyser_agrees payload :
  (exists h frame rest, next_frame payload = Frame h frame rest) <->
  (exists m, parse_modbus payload = Some m /\ consistent m).
Proof.
  unfold next_frame, parse_modbus, parse_mbap, consistent, total_frame_len.
  change (MBAP_HEADER_LEN + 1) with 8. change MBAP_HEADER_LEN with 7. change MIN_MBAP_LENGTH with 2. change MAX_MBAP_LENGTH with 254.
  destruct (Z.ltb_spec (zlen payload) 8) as [L8|L8]; destruct (Z.ltb_spec (zlen payload) 7) as [L7|L7]; try lia.
  - split; [by intros (? & ? & ? & ?) | by intros (? & ? & ?)].
  - split; [|by intros (? & ? & ?)]. intros (h & frame & rest & H). simpl in H.
    repeat (case_match; [done|]). bool_prop. lia.
  - cbn [protocol_id length_field].
    destruct (negb (from_be (slice payload 2 4) =? MODBUS_PROTOCOL_ID)); [split; [by intros (? & ? & ? & ?) | by intros (? & ? & ?)]|].
    destruct (negb ((2 <=? from_be (slice payload 4 6)) && _)); [split; [by intros (? & ? & ? & ?) | by intros (? & ? & ?)]|].
    rewrite Z.ltb_antisym. destruct (7 - 1 + _ <=? zlen payload) eqn:T.
    + split; intros _; [eexists; split; [done|]; done | by eexists _, _, _].
    + split; [by intros (? & ? & ? & ?)|]. intros (m & [= <-] & C). done.
Qed.

(** ** Paths *)
Lemma within_spec root p : within root p = true <-> exists rest, p = root ++ rest.
Proof.
  unfold within. rewrite bool_decide_eq_true. split.
  - intros E. exists (drop (length root) p). by rewrite <- E at 1; rewrite take_drop.
  - intros [rest ->]. apply take_app_length.
Qed.

(** A capture that passes validation is a regular file with an accepted extension that
    lies, after every link and [..] has been resolved, in the approved directory; any other
    candidate is rejected, in the documented order: extension, traversal, existence. *)
Theorem validate_pcap_path_spec resolve is_file candidate approved :
  match validate_pcap_path resolve is_file candidate approved with
  | inl p => str_in (lower (suffix candidate)) ALLOWED_PCAP_SUFFIXES = true /\ is_file p = true /\
      exists root rest, resolve approved = Ok root /\ p = root ++ rest /\
        resolve (if is_absolute candidate then parts candidate else root ++ parts candidate) = Ok p
  | inr Unsupported => str_in (lower (suffix candidate)) ALLOWED_PCAP_SUFFIXES = false
  | inr Traversal => exists root p, resolve approved = Ok root /\
      resolve (if is_absolute candidate then parts candidate else root ++ parts candidate) = Ok p /\
      ~ (exists rest, p = root ++ rest)
  | inr NotFound => exists root rest, resolve approved = Ok root /\
      resolve (if is_absolute candidate then parts candidate else root ++ parts candidate) = Ok (root ++ rest) /\
      is_file (root ++ rest) = false
  | inr (PathError e) => resolve approved = Err e \/ exists root, resolve approved = Ok root /\
      resolve (if is_absolute candidate then parts candidate else root ++ parts candidate) = Err e
  end.
Proof.
  unfold validate_pcap_path. destruct (str_in _ _) eqn:S; simpl; [|done].
  destruct (resolve approved) as [root|e] eqn:A; [|by left].
  destruct (resolve (if is_absolute candidate then _ else _)) as [p|e] eqn:C; [|right; eauto].
  destruct (within root p) eqn:W; simpl.
  - apply within_spec in W as [rest ->]. destruct (is_file _) eqn:F; simpl; [|eauto].
    split; [done|]. split; [done|]. exists root, rest. done.
  - exists root, p. split; [done|]. split; [done|]. intros N. apply within_spec in N. congruence.
Qed.

(** ** Targets *)
Section TargetFacts.
Context (U : UnicodeDigits).

Lemma parse_port_digits p : 1 <= p <= 65535 -> parse_port U (dec_digits p) = Ok p.
Proof.
  intros H. destruct (dec_digits_spec p) as (d & ds & E & F & V & _); [lia|].
  assert (zlen (d :: ds) <= INT_MAX_STR_DIGITS) as L.
  { rewrite <- E. apply JsonFacts.dec_digits_len. pose proof JsonFacts.limit_large. lia. }
  unfold parse_port, isdigit. rewrite E.
  assert (forallb (isdigit1 U) (d :: ds) = true) as ->.
  { apply forallb_forall. intros c Hc%list_elem_of_In. rewrite Forall_forall in F. unfold isdigit1, digit_value.
    by rewrite (F c Hc). }
  simpl. unfold int_of. rewrite ascii_digits by done. fold (from_digits (d :: ds)). rewrite V.
  rewrite (proj2 (Z.leb_le _ _)) by done. simpl.
  rewrite (proj2 (Z.leb_le 1 p)), (proj2 (Z.leb_le p 65535)) by lia. done.
Qed.

Lemma parse_port_range s p : parse_port U s = Ok p -> 1 <= p <= 65535.
Proof. unfold parse_port. intros H. inv_res. bool_prop. lia. Qed.

(** A host as it is written in a target: not empty, no blanks. *)
Definition host_ok (host : str) : Prop := host <> [] /\ Forall (fun c => is_space c = false) host.

Lemma digits_not c s : is_digit c = false -> Forall (fun c => is_digit c = true) s -> Forall (fun x => x <> c) s.
Proof. intros Hc F. eapply Forall_impl; [exact F|]. intros x Hx ->. simpl in Hx. congruence. Qed.

Lemma digit_not_space c : is_digit c = true -> is_space c = false.
Proof. unfold is_digit, is_space. intros. bool_prop. repeat (apply orb_false_iff; split); try apply andb_false_iff; zdec; auto. Qed.

Lemma strip_target x mid y : is_space x = false -> is_digit y = true -> strip (x :: mid ++ [y]) = x :: mid ++ [y].
Proof. intros. apply Canonicalizer.strip_id; [done | by apply digit_not_space]. Qed.

(** A text that starts with no blank and ends in a port has nothing to strip. *)
Lemma strip_port x mid p : is_space x = false -> 1 <= p -> strip (x :: mid ++ dec_digits p) = x :: mid ++ dec_digits p.
Proof.
  intros Hx Hp. destruct (dec_digits_spec p) as (d & ds & E & F & _); [lia|].
  destruct (exists_last (l := dec_digits p)) as (init & y & Ei); [by rewrite E|].
  rewrite Ei, app_assoc. apply strip_target; [done|].
  rewrite <- E, Ei in F. apply Forall_app in F as [_ F]. by inversion F.
Qed.

Lemma accept_target v text d host port : strip v = text -> text <> [] -> host <> [] ->
  target_of U text d = Ok (host, port) -> parse_host_port U v d = Ok (host, port).
Proof.
  intros E T N H. unfold parse_host_port. rewrite E, (proj2 (str_eqb_neq _ _) T). cbn [negb require mbind res_bind].
  rewrite H. cbn [mbind res_bind]. by rewrite (proj2 (str_eqb_neq _ _) N).
Qed.

Lemma target_of_range text d h p : target_of U text d = Ok (h, p) -> 1 <= d <= 65535 -> 1 <= p <= 65535.
Proof.
  unfold target_of. repeat case_match; intros; inv_res; try done;
    match goal with H : parse_port _ _ = Ok _ |- _ => by apply parse_port_range in H end.
Qed.

Lemma host_port_of host port d : Forall (fun c => c <> 58) host -> starts 91 (host ++ [58] ++ dec_digits port) = false ->
  1 <= port <= 65535 -> target_of U (host ++ [58] ++ dec_digits port) d = Ok (host, port).
Proof.
  intros C S P. unfold target_of. rewrite S.
  assert (count_char 58 (host ++ [58] ++ dec_digits port) = 1%nat) as ->.
  { rewrite !count_char_app, count_char_none by done. destruct (dec_digits_spec port) as (x & ds & -> & F & _); [lia|].
    rewrite (count_char_none 58 (x :: ds)); [done | by apply digits_not]. }
  simpl Nat.ltb. cbv iota. cbn [app]. by rewrite (partition_first 58 host), parse_port_digits.
Qed.

(** A target written as HOST:PORT or [HOST]:PORT is read back as that host and port, and no
    text yields an empty host or a port outside 1..65535. *)
Theorem target_roundtrip host port d (H : host_ok host) (P : 1 <= port <= 65535) (D : 1 <= d <= 65535) :
  (Forall (fun c => c <> 58) host -> head host <> Some 91 ->
   parse_host_port U (host ++ [58] ++ dec_digits port) d = Ok (host, port)) /\
  (Forall (fun c => c <> 93) host ->
   parse_host_port U ([91] ++ host ++ [93; 58] ++ dec_digits port) d = Ok (host, port)) /\
  (forall v h p, parse_host_port U v d = Ok (h, p) -> h <> [] /\ 1 <= p <= 65535).
Proof.
  destruct H as [N B]. split; [|split].
  - intros C Hd. destruct host as [|x host]; [done|]. apply Forall_cons in B as [Bx B].
    apply (accept_target _ ((x :: host) ++ [58] ++ dec_digits port)); [|done|done|].
    + rewrite <- app_comm_cons, (app_assoc host), strip_port by (done || lia). done.
    + apply host_port_of; [done | | done]. simpl. apply Z.eqb_neq. intros ->. by apply Hd.
  - intros C. apply (accept_target _ ([91] ++ host ++ [93; 58] ++ dec_digits port)); [|done|done|].
    + change ([91] ++ host ++ [93; 58] ++ dec_digits port) with (91 :: (host ++ [93; 58] ++ dec_digits port)).
      rewrite (app_assoc host). apply strip_port; [done | lia].
    + unfold target_of. cbn [app starts tail]. rewrite Z.eqb_refl, partition_first by done.
      simpl (str_eqb _ _). cbn [starts tail]. rewrite Z.eqb_refl. by rewrite parse_port_digits.
  - intros v h p E. unfold parse_host_port in E. inv_res.
    match goal with H : target_of _ _ _ = Ok _ |- _ => apply target_of_range in H; [|done] end.
    match goal with H : negb (str_eqb h []) = true |- _ => apply negb_true_iff, str_eqb_neq in H end. done.
Qed.

End TargetFacts.

(** ** Witnesses *)

Lemma target_roundtrip_witness :
  parse_host_port no_digits (lit "plc.lab:5020") 502 = Ok (lit "plc.lab", 5020) /\
  parse_host_port no_digits (lit "[::1]:20000") 502 = Ok (lit "::1", 20000).
Proof.
  assert (H : forall h, h = lit "plc.lab" \/ h = lit "::1" -> host_ok h) by (intros h [-> | ->]; split; [done | by repeat constructor | done | by repeat constructor]).
  split.
  - apply (proj1 (target_roundtrip no_digits (lit "plc.lab") 5020 502 (H _ (or_introl eq_refl)) ltac:(lia) ltac:(lia))).
    + by repeat constructor.
    + done.
  - apply (proj1 (proj2 (target_roundtrip no_digits (lit "::1") 20000 502 (H _ (or_intror eq_refl)) ltac:(lia) ltac:(lia)))).
    by repeat constructor.
Defined.
