(* ===== verification/ControllerConfig.v ===== *)
(** The controller's configuration: [src/ics_deception/controller/config.py], with the log
    paths of [src/ics_deception/common/paths.py].

    Pydantic turns a JSON document into typed fields; that part, [coerce], is an argument.
    The checks declared on the fields and the repository's own validators follow it.  The
    file system behind [Path.resolve], [is_file] and [os.access] is an argument too. *)
From S2P Require Import Prelude PyText PyStr Json Models KeyRegistry Capture.

(** ** Characters *)
Section Characters.

(** [str.isalnum] on characters beyond ASCII. *)
Context (other_alnum : Z -> bool).

Definition isalnum1 (c : Z) : bool := if c <? 128 then is_alnum c else other_alnum c.
Definition isalnum (s : str) : bool := negb (str_eqb s []) && forallb isalnum1 s.

(** [paths.component_log_path]: the file's name without its suffix. *)
Definition safe_name (name : str) : str :=
  map (fun c => if isalnum1 c || (c =? 45) || (c =? 95) then c else 95) name.
Definition component_log_path (runtime_dir : path) (name : str) : path :=
  runtime_dir ++ [lit "components"; safe_name name ++ lit ".log"].

(** ** Components *)
Inductive component_kind := Python | Binary.

Record ComponentConfig := {
  kind : component_kind;
  args : list str;
  command : list str;
  enabled : bool;
  autostart : bool;
  description : str;
}.

Definition no_empty_tokens (l : list str) : res unit :=
  iter_res (fun token => require (negb (str_eqb (strip token) [])) (ValueError "command tokens must be non-empty strings")) l.

Definition validate_shape (c : ComponentConfig) : res unit :=
  match kind c with
  | Python =>
    require (negb (bool_decide (args c = []))) (ValueError "kind 'python' requires non-empty 'args'") ;;
    require (bool_decide (command c = [])) (ValueError "kind 'python' must not set 'command'")
  | Binary =>
    require (negb (bool_decide (command c = []))) (ValueError "kind 'binary' requires non-empty 'command'") ;;
    require (bool_decide (args c = [])) (ValueError "kind 'binary' must not set 'args'")
  end.

Record ControllerConfig := {
  host : str;
  port : Z;
  cfg_pcap_dir : option str;
  max_replay_packets : Z;
  components : list (str * ComponentConfig);   (* a dict, in its order *)
}.

Definition valid_name (name : str) : bool :=
  negb (str_eqb name []) && isalnum (List.filter (fun c => negb (c =? 45) && negb (c =? 95)) name).

Definition validate_components (l : list (str * ComponentConfig)) : res unit :=
  iter_res (fun nc =>
    require (valid_name nc.1) (ValueError "invalid component name") ;;
    validate_shape nc.2) l.

(** The validators in pydantic's order: a component's fields, then the model's. *)
Definition validate (c : ControllerConfig) : res unit :=
  iter_res (fun nc => no_empty_tokens (args nc.2) ;; no_empty_tokens (command nc.2)) (components c) ;;
  require ((1 <=? port c) && (port c <=? 65535)) (ValueError "port") ;;
  require ((1 <=? max_replay_packets c) && (max_replay_packets c <=? 1000000)) (ValueError "max_replay_packets") ;;
  validate_components (components c).

Definition enabled_components (c : ControllerConfig) : list (str * ComponentConfig) :=
  List.filter (fun nc => enabled nc.2) (components c).

(** ** The shipped configuration *)
Definition python_component (tokens : list string) (text : string) : ComponentConfig := {|
  kind := Python; args := map lit tokens; command := []; enabled := false; autostart := false; description := lit text |}.
Definition binary_component (tokens : list string) (text : string) : ComponentConfig := {|
  kind := Binary; args := []; command := map lit tokens; enabled := false; autostart := false; description := lit text |}.

Definition default_config : ControllerConfig := {|
  host := lit "127.0.0.1"; port := 8000; cfg_pcap_dir := None; max_replay_packets := 5000;
  components := [
    (lit "modbus_python", python_component
       ["-m"; "ics_deception.honeypots.modbus_server"; "--host"; "127.0.0.1"; "--port"; "5020"]
       "Standard-library Modbus/TCP deception server (FC03/FC06 subset)");
    (lit "modbus_native", binary_component
       ["build/modbus_honeypot"; "--bind"; "127.0.0.1"; "--port"; "5020"]
       "Native C++ Modbus/TCP honeypot (build with 'make build')");
    (lit "dnp3", python_component
       ["-m"; "ics_deception.honeypots.dnp3_sensor"; "--host"; "127.0.0.1"; "--port"; "20000"]
       "DNP3-inspired interaction sensor (NOT a DNP3 outstation)");
    (lit "fake_plc", python_component
       ["-m"; "ics_deception.iot_nodes.fake_plc"; "--target-host"; "127.0.0.1"; "--target-port"; "5020"; "--interval"; "30"]
       "Fake PLC node polling the Modbus honeypot with valid FC03 requests")]%string |}.

(** ** Loading *)
Section Loading.
Context (lim : nat) (coerce : value -> option ControllerConfig).

(** [ConfigError] is the program's own; what else escapes keeps its class. *)
Inductive config_error :=
| ConfigError
| Escapes (e : exn).

Definition load_config (f : option registry_file) : ControllerConfig + config_error :=
  match f with
  | None | Some Missing => inl default_config
  | Some Unreadable => inr ConfigError
  | Some (Content b) =>
    match (text ← utf8_decode b; loads default_hooks lim text) with
    | Err (UnicodeError | JSONDecodeError) => inr ConfigError
    | Err e => inr (Escapes e)
    | Ok raw =>
      match coerce raw with
      | None => inr ConfigError
      | Some c => match validate c with Ok _ => inl c | Err _ => inr ConfigError end
      end
    end
  end.
End Loading.

(** ** Executables *)
Section Executables.
Context (resolve : path -> res path) (is_file executable : path -> bool).

(** [None]: the interpreter that runs the controller. *)
Definition resolve_executable (project_root : path) (c : ComponentConfig) : res (option path) :=
  match kind c with
  | Python => Ok None
  | Binary =>
    match command c with
    | [] => Err IndexError
    | raw :: _ =>
      candidate ←
        (if is_absolute raw then resolve (parts raw)
         else
           root ← resolve project_root;
           candidate ← resolve (root ++ parts raw);
           require (within root candidate) (ValueError "executable path escapes the project root") ;;
           Ok candidate);
      require (is_file candidate) (ValueError "executable not found") ;;
      require (executable candidate) (ValueError "executable is not executable") ;;
      Ok (Some candidate)
    end
  end.
End Executables.
End Characters.

(** ** Facts *)
Section Facts.
Context (other_alnum : Z -> bool).

Definition name_char (c : Z) : bool := isalnum1 other_alnum c || (c =? 45) || (c =? 95).

Lemma valid_name_chars name : valid_name other_alnum name = true -> name <> [] /\ Forall (fun c => name_char c = true) name.
Proof.
  unfold valid_name, isalnum. intros H. bool_prop. split; [by apply str_eqb_neq|].
  apply List.Forall_forall. intros c Hc. unfold name_char.
  destruct (c =? 45) eqn:E1; [by rewrite orb_true_r|]. destruct (c =? 95) eqn:E2; [by rewrite orb_true_r|].
  match goal with H : forallb _ _ = true |- _ => rewrite forallb_forall in H; rewrite (H c); [done|] end.
  apply filter_In. by rewrite E1, E2.
Qed.

Lemma safe_name_id name : Forall (fun c => name_char c = true) name -> safe_name other_alnum name = name.
Proof.
  induction 1 as [|c name Hc _ IH]; [done|]. unfold safe_name. simpl. unfold name_char in Hc. rewrite Hc. by f_equal.
Qed.

Lemma name_char_no c : name_char c = true -> c <> 47 /\ c <> 46 /\ c <> 0.
Proof.
  unfold name_char, isalnum1. intros H. split; [|split]; intros ->; vm_compute in H; discriminate.
Qed.

(** What a component needs to be started. *)
Definition startable (c : ComponentConfig) : Prop :=
  Forall (fun t => strip t <> []) (args c ++ command c) /\
  match kind c with
  | Python => args c <> [] /\ command c = []
  | Binary => command c <> [] /\ args c = []
  end.

Lemma tokens_ok l : no_empty_tokens l = Ok tt -> Forall (fun t => strip t <> []) l.
Proof.
  intros H. apply iter_res_ok in H. eapply Forall_impl; [exact H|]. intros t Ht. cbv beta in Ht.
  apply require_ok, negb_true_iff, str_eqb_neq in Ht. done.
Qed.

Lemma shape_ok c : validate_shape c = Ok tt -> match kind c with
  | Python => args c <> [] /\ command c = []
  | Binary => command c <> [] /\ args c = []
  end.
Proof. unfold validate_shape. destruct (kind c); intros H; inv_res; bool_prop; done. Qed.

Lemma validate_inv c : validate other_alnum c = Ok tt ->
  1 <= port c <= 65535 /\ 1 <= max_replay_packets c <= 1000000 /\
  Forall (fun nc => valid_name other_alnum nc.1 = true /\ startable nc.2) (components c).
Proof.
  unfold validate. intros H. apply bind_ok in H as ([] & T & H). apply bind_ok in H as ([] & P & H).
  apply bind_ok in H as ([] & R & C). apply require_ok in P, R. bool_prop. split; [done|]. split; [done|].
  unfold validate_components in C. apply iter_res_ok in T, C. rewrite Forall_forall in *. intros nc Hn.
  specialize (T nc Hn). specialize (C nc Hn). cbv beta in T, C.
  apply bind_ok in T as ([] & T1 & T2). apply bind_ok in C as ([] & V & S). apply require_ok in V.
  split; [done|]. split; [|by apply shape_ok]. apply Forall_app. split; by apply tokens_ok.
Qed.

(** C35. A configuration that passes validation is safe to act on: the port and the replay budget
    are in range, every component has exactly the command line its kind needs, and every
    component's name is a plain file name - so different components log to different files,
    inside the log directory. *)
Theorem accepted_config c (H : validate other_alnum c = Ok tt) :
  1 <= port c <= 65535 /\ 1 <= max_replay_packets c <= 1000000 /\
  (forall n k, (n, k) ∈ components c -> startable k /\ n <> [] /\ Forall (fun x => x <> 47 /\ x <> 46 /\ x <> 0) n /\
    forall dir, component_log_path other_alnum dir n = dir ++ [lit "components"; n ++ lit ".log"]) /\
  (forall n k n' k' dir, (n, k) ∈ components c -> (n', k') ∈ components c ->
    component_log_path other_alnum dir n = component_log_path other_alnum dir n' -> n = n').
Proof.
  apply validate_inv in H as (P & R & F). rewrite Forall_forall in F.
  assert (forall n k dir, (n, k) ∈ components c -> component_log_path other_alnum dir n = dir ++ [lit "components"; n ++ lit ".log"]) as L.
  { intros n k dir I. destruct (F _ I) as [V _]. apply valid_name_chars in V as [_ V]. unfold component_log_path.
    by rewrite safe_name_id. }
  split; [done|]. split; [done|]. split.
  - intros n k I. destruct (F _ I) as [V S]. apply valid_name_chars in V as [N V].
    split; [done|]. split; [done|]. split; [|intros; by apply (L n k)].
    eapply Forall_impl; [exact V|]. intros x Hx. by apply name_char_no.
  - intros n k n' k' dir I I' E. rewrite (L n k), (L n' k') in E by done.
    apply app_inv_head in E. injection E as E. by apply app_inv_tail in E.
Qed.

(** The shipped configuration is valid and starts nothing, and it is what a missing file
    yields. *)
Theorem default_config_inert lim coerce :
  validate other_alnum default_config = Ok tt /\ enabled_components default_config = [] /\
  load_config other_alnum lim coerce None = inl default_config /\
  Forall (fun nc => autostart nc.2 = false) (components default_config).
Proof.
  split; [|split; [reflexivity|split; [reflexivity|]]].
  - reflexivity.
  - by repeat constructor.
Qed.
End Facts.

(** The executable of a binary component exists, is a regular file and is executable, and
    a relative one lies under the project root once links and [..] are resolved. *)
Theorem executable_confined resolve is_file executable root c p
  (H : resolve_executable resolve is_file executable root c = Ok (Some p)) :
  kind c = Binary /\ is_file p = true /\ executable p = true /\
  exists raw rest, command c = raw :: rest /\
    (is_absolute raw = false -> exists r below, resolve root = Ok r /\ p = r ++ below).
Proof.
  unfold resolve_executable in H. destruct (kind c); [done|]. destruct (command c) as [|raw rest]; [done|].
  apply bind_ok in H as (q & Q & H). inv_res. split; [done|]. split; [done|]. split; [done|].
  exists raw, rest. split; [done|]. intros A. rewrite A in Q. inv_res.
  match goal with H : within _ _ = true |- _ => apply within_spec in H as [below ->] end. eauto.
Qed.

(** ** Witnesses *)
Definition ascii_only : Z -> bool := fun _ => false.

Lemma accepted_config_witness : validate ascii_only default_config = Ok tt /\ 1 <= port default_config <= 65535 /\
  component_log_path ascii_only [lit "run"] (lit "dnp3") = [lit "run"; lit "components"; lit "dnp3.log"].
Proof.
  assert (H : validate ascii_only default_config = Ok tt) by reflexivity. split; [exact H|].
  destruct (accepted_config ascii_only default_config H) as (P & _ & F & _). split; [exact P|].
  assert (I : (lit "dnp3", python_component
       ["-m"; "ics_deception.honeypots.dnp3_sensor"; "--host"; "127.0.0.1"; "--port"; "20000"]%string
       "DNP3-inspired interaction sensor (NOT a DNP3 outstation)") ∈ components default_config)
    by (right; right; left).
  exact (proj2 (proj2 (proj2 (F _ _ I))) [lit "run"]).
Defined.

Definition same_path : path -> res path := fun p => Ok p.

Lemma executable_confined_witness :
  let c := binary_component ["build/modbus_honeypot"]%string "native" in
  let p := [lit "srv"; lit "build"; lit "modbus_honeypot"] in
  resolve_executable same_path (fun _ => true) (fun _ => true) [lit "srv"] c = Ok (Some p) /\ kind c = Binary.
Proof.
  split; [reflexivity|].
  exact (proj1 (executable_confined same_path (fun _ => true) (fun _ => true) [lit "srv"]
    (binary_component ["build/modbus_honeypot"]%string "native") [lit "srv"; lit "build"; lit "modbus_honeypot"] eq_refl)).
Defined.
