(* ===== verification/ControllerCli.v ===== *)
(** The controller's command line, [src/ics_deception/controller/cli.py], the runtime paths of
    [src/ics_deception/common/paths.py], and the parts of [controller/config.py] that face the
    operator: the printed command of a component and the written default configuration.

    [Path.expanduser().resolve()] is an argument, as is Pydantic's coercion. *)
From S2P Require Import Prelude PyText PyStr Json JsonFacts Canonicalizer Models CryptoBackend KeyRegistry EvidenceStore Capture ArgTypes ControllerConfig.

(** ** Runtime paths *)
Section Paths.
Context (cwd : path) (absolute : str -> res path) (resolve : path -> res path).

(** The three environment variables. *)
Record PathEnv := { pe_runtime_dir : option str; pe_event_log : option str; pe_pcap_dir : option str }.

(** [if override] *)
Definition overridden (override : option str) (otherwise : res path) : res path :=
  match override with Some ((_ :: _) as p) => absolute p | _ => otherwise end.

Definition runtime_dir (e : PathEnv) : res path := overridden (pe_runtime_dir e) (resolve (cwd ++ [lit "runtime"])).
Definition event_log_path (e : PathEnv) : res path :=
  overridden (pe_event_log e) (d ← runtime_dir e; Ok (d ++ [lit "events.jsonl"])).
Definition plc_state_path (e : PathEnv) : res path := d ← runtime_dir e; Ok (d ++ [lit "plc_state.json"]).
Definition pcap_dir (e : PathEnv) : res path := overridden (pe_pcap_dir e) (resolve (cwd ++ [lit "data"; lit "pcaps"])).

(** All mutable state moves with the one variable: state file and component logs lie below the
    runtime directory, and so does the event log, unless it has a variable of its own. *)
Lemma state_below other_alnum e d : runtime_dir e = Ok d ->
  plc_state_path e = Ok (d ++ [lit "plc_state.json"]) /\
  (forall name, exists below, component_log_path other_alnum d name = d ++ below) /\
  (default [] (pe_event_log e) = [] -> event_log_path e = Ok (d ++ [lit "events.jsonl"])).
Proof.
  intros H. unfold plc_state_path, event_log_path, component_log_path. rewrite H. split; [done|]. split; [eauto|].
  unfold overridden. by destruct (pe_event_log e) as [[|]|].
Qed.
End Paths.

(** ** [shlex.quote] *)

(** [\w@%+=:,./-] under [re.ASCII] *)
Definition shell_safe (c : Z) : bool :=
  is_alnum c || (c =? 95) || existsb (fun x => c =? x) (lit "@%+=:,./-").

(** The single quotes of a text, each closed, double-quoted and reopened. *)
Fixpoint requoted (s : str) : str :=
  match s with
  | [] => []
  | c :: s => if c =? 39 then [39; 34; 39; 34; 39] ++ requoted s else c :: requoted s
  end.

Definition quote (s : str) : str :=
  match s with
  | [] => [39; 39]
  | _ => if forallb shell_safe s then s else [39] ++ requoted s ++ [39]
  end.

Definition component_tokens (c : ComponentConfig) : list str :=
  match kind c with Binary => command c | Python => lit "<python>" :: args c end.

Definition describe_command (c : ControllerConfig) (name : str) : res str :=
  match assoc (components c) name with
  | None => Err KeyError
  | Some component => Ok (join [32] (map quote (component_tokens component)))
  end.

(** What a shell reads: blanks separate words; between single quotes everything stands for
    itself, between double quotes everything but the expansion characters; outside quotes only
    safe characters are words by themselves.  [None]: anything else. *)
Inductive quoting := Bare | Single | Double.

Fixpoint shell_words (q : quoting) (s : str) (word : option str) : option (list str) :=
  match s with
  | [] => match q with Bare => Some (match word with Some w => [w] | None => [] end) | _ => None end
  | c :: s =>
    match q with
    | Single => if c =? 39 then shell_words Bare s word else shell_words Single s (Some (default [] word ++ [c]))
    | Double =>
      if c =? 34 then shell_words Bare s word
      else if existsb (fun x => c =? x) [36; 92; 96] then None
      else shell_words Double s (Some (default [] word ++ [c]))
    | Bare =>
      if c =? 32 then words ← shell_words Bare s None; Some (match word with Some w => w :: words | None => words end)
      else if c =? 39 then shell_words Single s (Some (default [] word))
      else if c =? 34 then shell_words Double s (Some (default [] word))
      else if shell_safe c then shell_words Bare s (Some (default [] word ++ [c]))
      else None
    end
  end.

Lemma safe_not c : shell_safe c = true -> (c =? 32) = false /\ (c =? 39) = false /\ (c =? 34) = false.
Proof. intros H. split_and!; apply Z.eqb_neq; intros ->; vm_compute in H; discriminate. Qed.

Lemma bare_reads s rest : forall w, forallb shell_safe s = true -> s <> [] ->
  shell_words Bare (s ++ rest) w = shell_words Bare rest (Some (default [] w ++ s)).
Proof.
  induction s as [|c s IH]; intros w H N; [done|]. simpl in H. apply andb_true_iff in H as [Hc H].
  destruct (safe_not c Hc) as (E1 & E2 & E3). cbn [app shell_words]. rewrite E1, E2, E3, Hc.
  destruct s as [|c' s]; [done|]. rewrite IH by done. cbn [from_option id]. by rewrite <- app_assoc.
Qed.

Lemma single_reads s rest : forall w, shell_words Single (requoted s ++ 39 :: rest) (Some w) = shell_words Bare rest (Some (w ++ s)).
Proof.
  induction s as [|c s IH]; intros w; [by rewrite app_nil_r|]. cbn [requoted].
  destruct (Z.eqb_spec c 39) as [->|N].
  - cbn. rewrite IH. by rewrite <- app_assoc.
  - cbn [app shell_words]. rewrite (proj2 (Z.eqb_neq c 39) N), IH. cbn [from_option id]. by rewrite <- app_assoc.
Qed.

Lemma quote_reads s rest : shell_words Bare (quote s ++ rest) None = shell_words Bare rest (Some s).
Proof.
  unfold quote. destruct s as [|c s]; [done|]. destruct (forallb shell_safe (c :: s)) eqn:S; [by apply bare_reads|].
  assert (([39] ++ requoted (c :: s) ++ [39]) ++ rest = 39 :: (requoted (c :: s) ++ 39 :: rest)) as ->
    by (rewrite <- !app_assoc; done).
  change (shell_words Single (requoted (c :: s) ++ 39 :: rest) (Some []) = shell_words Bare rest (Some (c :: s))). by rewrite single_reads.
Qed.

Lemma words_read l : shell_words Bare (join [32] (map quote l)) None = Some l.
Proof.
  induction l as [|x l IH]; [done|]. destruct l as [|y l].
  - cbn [map join]. rewrite <- (app_nil_r (quote x)), quote_reads. done.
  - change (join [32] (map quote (x :: y :: l))) with (quote x ++ 32 :: join [32] (map quote (y :: l))).
    rewrite quote_reads. cbn [shell_words]. by rewrite IH.
Qed.

(** The command an operator is shown is the command: a shell that reads
    [describe_command]'s text gets exactly the component's tokens, whatever characters they
    hold - quotes, blanks, line breaks, expansion characters. *)
Theorem described_command_reads c name component : assoc (components c) name = Some component ->
  exists text, describe_command c name = Ok text /\ shell_words Bare text None = Some (component_tokens component).
Proof. intros E. unfold describe_command. rewrite E. eexists. split; [reflexivity | apply words_read]. Qed.

(** ** The written default configuration *)

(** [model_dump] *)
Definition component_dump (c : ComponentConfig) : value := VDict (as_dict [
  (lit "kind", VStr (match kind c with Python => lit "python" | Binary => lit "binary" end));
  (lit "args", VList (map VStr (args c))); (lit "command", VList (map VStr (command c)));
  (lit "enabled", VBool (enabled c)); (lit "autostart", VBool (autostart c)); (lit "description", VStr (description c))]).
Definition config_dump (c : ControllerConfig) : value := VDict (as_dict [
  (lit "host", VStr (host c)); (lit "port", VInt (port c)); (lit "pcap_dir", opt_str (cfg_pcap_dir c));
  (lit "max_replay_packets", VInt (max_replay_packets c));
  (lit "components", VDict (as_dict (map (fun nc => (nc.1, component_dump nc.2)) (components c))))]).

(** [json.dumps(..., indent=2)] *)
Definition indented_cfg : cfg := {|
  c_ascii := true; c_sort := false; c_isep := [44]; c_ksep := [58; 32]; c_indent := Some 2%nat; c_float := fun _ => [] |}.

Definition default_config_text : res bytes :=
  text ← dumps indented_cfg (config_dump default_config); utf8_encode (text ++ [10]).

(** ** [main] *)
Section Main.
Context (other_alnum : Z -> bool) (lim : nat) (coerce : value -> option ControllerConfig).

Record Options := {
  op_config : str;
  op_host : option str;
  op_port : option Z;                     (* [port_number] *)
  op_write_default_config : option str;
}.

(** What [main] ends in: the exit status, or the web server's address and whether the operator
    has been warned. *)
Inductive ending :=
| Exits (status : Z)
| Serves (config : ControllerConfig) (warned : bool).

Definition with_address (c : ControllerConfig) (host : option str) (port : option Z) : ControllerConfig := {|
  host := default (ControllerConfig.host c) host; port := default (ControllerConfig.port c) port; cfg_pcap_dir := cfg_pcap_dir c;
  max_replay_packets := max_replay_packets c; components := components c |}.

Definition LOOPBACK : list str := map lit ["127.0.0.1"; "::1"; "localhost"]%string.

Abbreviation Files := (gmap path registry_file).
Definition look (fs : Files) (p : path) : registry_file := default Missing (fs !! p).

(** The directory is made first, the file truncated - or not even opened - last. *)
Definition write_default_config (p : path) (opened o : io) : SE Files unit :=
  text ← lift default_config_text;
  lift (io_result opened "open") ;;
  modify (<[p := Content (written [] text o)]>) ;;
  lift (io_result o "config").

(** A relative configuration is looked up below the project root, one to write below the working
    directory.  [start] is the outcome of making the publisher and the application. *)
Definition main (cwd root : path) (start : ControllerConfig -> res unit) (o : Options) (opened w : io) : SE Files ending :=
  match op_write_default_config o with
  | Some ((_ :: _) as p) => write_default_config (if is_absolute p then parts p else cwd ++ parts p) opened w ;; mret (Exits 0)
  | _ =>
    fs ← gets id;
    let config_path := if is_absolute (op_config o) then parts (op_config o) else root ++ parts (op_config o) in
    match load_config other_alnum lim coerce (Some (look fs config_path)) with
    | inr ConfigError => mret (Exits 2)
    | inr (Escapes e) => raise e
    | inl config =>
      let config := with_address config (op_host o) (op_port o) in
      lift (start config) ;;
      mret (Serves config (negb (str_in (host config) LOOPBACK)))
    end
  end.
End Main.

(** ** Facts *)
#[export] Instance indented_layout : Layout indented_cfg.
Proof. split; [exists []; done | exists [32]; split; [done | by repeat constructor]]. Qed.

Section MainFacts.
Context (other_alnum : Z -> bool) (lim : nat) (coerce : value -> option ControllerConfig).

Lemma load_validated f c : load_config other_alnum lim coerce f = inl c -> validate other_alnum c = Ok tt.
Proof.
  assert (validate other_alnum default_config = Ok tt) as D by reflexivity.
  unfold load_config. destruct f as [[| |b]|]; [by intros [= <-] | done | | by intros [= <-]].
  destruct (text ← utf8_decode b; loads default_hooks lim text) as [raw|e]; [|by destruct e].
  destruct (coerce raw) as [c0|]; [|done]. destruct (validate other_alnum c0) as [[]|e] eqn:V; [|done]. by intros [= <-].
Qed.

(** The controller serves a validated configuration only: its port is in range, every component
    can be started and logs to its own file, and unless the operator was warned it listens on
    the loopback interface; nothing is written to the file system. *)
Theorem controller_serves cwd root start o opened w fs fs' c warned :
  main other_alnum lim coerce cwd root start o opened w fs = (fs', Ok (Serves c warned)) ->
  (forall p, op_port o = Some p -> 1 <= p <= 65535) ->
  fs' = fs /\ 1 <= port c <= 65535 /\ (warned = false -> host c ∈ LOOPBACK) /\ start c = Ok tt /\
  Forall (fun nc => valid_name other_alnum nc.1 = true /\ startable nc.2) (components c).
Proof.
  unfold main. intros E P.
  assert ((fs0 ← gets id;
    match load_config other_alnum lim coerce (Some (look fs0 (if is_absolute (op_config o) then parts (op_config o) else root ++ parts (op_config o)))) with
    | inr ConfigError => mret (Exits 2)
    | inr (Escapes e) => raise e
    | inl config => lift (start (with_address config (op_host o) (op_port o))) ;;
      mret (Serves (with_address config (op_host o) (op_port o)) (negb (str_in (host (with_address config (op_host o) (op_port o))) LOOPBACK)))
    end) fs = (fs', Ok (Serves c warned))) as M.
  { destruct (op_write_default_config o) as [[|x q]|]; [exact E | | exact E]. unfold write_default_config in E.
    apply se_bind_ok in E as (fs1 & [] & _ & E). injection E as _ E. discriminate E. }
  clear E. unfold gets in M. rewrite (se_bind_eq _ _ fs fs fs) in M by done.
  destruct (load_config _ _ _ _) as [c0|[|e]] eqn:L; [|done..]. apply load_validated, validate_inv in L as (Pc & _ & F).
  apply lift_bind_cases in M as [(e & _ & _ & [=])|([] & S & M)]. injection M as -> <- <-. split; [done|]. split.
  { cbn. destruct (op_port o) as [p|]; [by apply P | done]. }
  split; [|done]. intros W. apply str_in_elem. by apply negb_false_iff.
Qed.

(** The default configuration round-trips through its file: what --write-default-config
    writes is read back, and the controller that starts from it listens on the loopback
    interface and runs nothing - given that Pydantic accepts what it dumped. *)
Theorem default_config_file cwd root start p fs :
  coerce (config_dump default_config) = Some default_config -> (5 <= lim)%nat -> start default_config = Ok tt ->
  is_absolute p = true -> exists fs', 
  main other_alnum lim coerce cwd root start {| op_config := lit "config/controller.json"; op_host := None; op_port := None; op_write_default_config := Some p |}
    IoOk IoOk fs = (fs', Ok (Exits 0)) /\
  main other_alnum lim coerce cwd root start {| op_config := p; op_host := None; op_port := None; op_write_default_config := None |} IoOk IoOk fs' =
    (fs', Ok (Serves default_config false)) /\ enabled_components default_config = [].
Proof.
  intros Hc Hl Hs Ha. destruct p as [|x p]; [done|].
  assert (wf (config_dump default_config) = true) as W by (vm_compute; reflexivity).
  set (d := config_dump default_config) in *. set (text := dump indented_cfg 0 d).
  assert (exists b, utf8_encode (text ++ [10]) = Ok b) as [b B].
  { assert (is_ok (utf8_encode (text ++ [10])) = true) as X by (vm_compute; reflexivity). destruct (utf8_encode (text ++ [10])); [eauto | done]. }
  assert (default_config_text = Ok b) as T by (unfold default_config_text, dumps; fold d; rewrite wf_dump_check by done; exact B).
  exists (<[parts (x :: p) := Content b]> fs). split; [|split; [|reflexivity]].
  - unfold main. cbn [op_write_default_config]. rewrite Ha. unfold write_default_config. rewrite T. reflexivity.
  - unfold main. cbn [op_write_default_config op_config]. rewrite Ha. set (fs1 := <[_ := _]> fs).
    rewrite (se_bind_eq (gets id) _ fs1 fs1 fs1) by done. unfold look, fs1. rewrite lookup_insert_eq. cbn [from_option id]. unfold load_config.
    assert (utf8_decode b = Ok (text ++ [10])) as -> by (eapply utf8_decode_encode; [|exact B]; apply Forall_app; split; [by apply dump_range | repeat constructor; lia]).
    cbn [mbind res_bind]. unfold text. rewrite (loads_dump_ws indented_cfg default_hooks lim 0 d [10]); [| done | | by repeat constructor].
    2: { transitivity 5%nat; [|done]. apply Nat.leb_le. vm_compute. reflexivity. }
    change (normal (c_sort indented_cfg) d) with d. rewrite Hc. 
    change (validate other_alnum default_config) with (Ok tt : res unit). cbn [op_host op_port]. 
    change (with_address default_config None None) with default_config. rewrite lift_bind, Hs. reflexivity.
Qed.
End MainFacts.

(** *** A coercion that knows the one document *)
Definition coerce_default (v : value) : option ControllerConfig :=
  match v with VDict _ => Some default_config | _ => None end.

Lemma default_config_file_witness : exists fs',
  main ascii_only 50 coerce_default [] [lit "srv"] (fun _ => Ok tt)
    {| op_config := lit "config/controller.json"; op_host := None; op_port := None; op_write_default_config := Some (lit "/etc/c.json") |} IoOk IoOk ∅ = (fs', Ok (Exits 0)) /\
  main ascii_only 50 coerce_default [] [lit "srv"] (fun _ => Ok tt)
    {| op_config := lit "/etc/c.json"; op_host := None; op_port := None; op_write_default_config := None |} IoOk IoOk fs' = (fs', Ok (Serves default_config false)).
Proof.
  destruct (default_config_file ascii_only 50 coerce_default [] [lit "srv"] (fun _ => Ok tt) (lit "/etc/c.json") ∅ eq_refl
    ltac:(lia) eq_refl eq_refl) as (fs' & E1 & E2 & _).
  exists fs'. split; [exact E1 | exact E2].
Defined.

(** [describe_command] of a token with everything a shell would expand. *)
Definition odd_config : ControllerConfig := {|
  host := lit "::1"; port := 1; cfg_pcap_dir := None; max_replay_packets := 1;
  components := [(lit "odd", {| kind := Binary; args := []; command := [lit "a b"; lit "it's $HOME"; lit "x.y"]; enabled := false;
                               autostart := false; description := [] |})] |}.

Example odd_command : describe_command odd_config (lit "odd") = Ok (lit "'a b' 'it'" ++ [34; 39; 34] ++ lit "'s $HOME' x.y").
Proof. vm_compute. reflexivity. Qed.

Lemma described_command_reads_witness : exists text, describe_command odd_config (lit "odd") = Ok text /\
  shell_words Bare text None = Some [lit "a b"; lit "it's $HOME"; lit "x.y"].
Proof.
  exact (described_command_reads odd_config (lit "odd") {| kind := Binary; args := []; command := [lit "a b"; lit "it's $HOME"; lit "x.y"]; enabled := false;
                               autostart := false; description := [] |} eq_refl).
Defined.
