(* ===== verification/Supervisor.v ===== *)
(** Supervision of child processes: [src/ics_deception/controller/process.py].

    The machine keeps a table of the processes ever spawned, the index being the process:
    [None] while it runs, its exit status once it is gone.  What the operating system does -
    whether a file opens, whether a program starts, whether a signalled process exits in time -
    is an argument of each operation; children may also exit by themselves between operations.
    The supervisor's lock makes each operation one step.  Log file handles are left out. *)
From S2P Require Import Prelude PyText PyStr Json Models Sockets Capture ControllerConfig.

(** ** The machine *)
Record Machine := {
  table : list (option Z);
  trace : list (str * dict);
}.

Definition set_status (pid : nat) (status : option Z) (m : Machine) : Machine :=
  {| table := <[pid := status]> (table m); trace := trace m |}.
Definition add_process (m : Machine) : Machine := {| table := table m ++ [None]; trace := trace m |}.
Definition say (e : str * dict) (m : Machine) : Machine := {| table := table m; trace := trace m ++ [e] |}.

Definition running (m : Machine) (pid : nat) : bool := bool_decide (table m !! pid = Some None).

(** ** One supervised child *)
Record ManagedProcess := {
  config : ComponentConfig;
  proc : option nat;
  last_error : option str;
}.

Definition set_proc (p : option nat) (c : ManagedProcess) : ManagedProcess :=
  {| config := config c; proc := p; last_error := last_error c |}.
Definition set_last_error (e : option str) (c : ManagedProcess) : ManagedProcess :=
  {| config := config c; proc := proc c; last_error := e |}.

Abbreviation Child := (ManagedProcess * Machine)%type.

(** What a start meets: the executable's validation, the log file, [Popen]. *)
Record StartFaults := {
  sf_executable : res (option path);
  sf_log : option string;
  sf_spawn : option string;
  sf_log_file : str;   (* the log file's path *)
}.

(** What a stop meets: the exit status within the grace period after each signal, if any. *)
Record StopFaults := {
  st_term : option Z;
  st_kill : option Z;
}.

Definition emit (event_type : string) (details : fields) : SE Child unit :=
  on_snd (modify (say (lit event_type, as_dict (map (fun kv => (lit kv.1, kv.2)) details)))).
Definition update (f : ManagedProcess -> ManagedProcess) : SE Child unit := on_fst (modify f).

Definition is_running (s : Child) : bool := match proc s.1 with Some pid => running s.2 pid | None => false end.

(** [ManagedProcess.status] *)
Definition status (s : Child) : str :=
  match proc s.1 with
  | None => if last_error s.1 then lit "failed" else lit "stopped"
  | Some pid =>
    match table s.2 !! pid with
    | Some (Some code) => lit "exited(" ++ (if code <? 0 then 45 :: dec_digits (- code) else dec_digits code) ++ lit ")"
    | _ => lit "running"
    end
  end.

(** [ManagedProcess.info] *)
Definition info (name log_file : str) (s : Child) : dict := as_dict [
  (lit "name", VStr name);
  (lit "kind", VStr (lit (match kind (config s.1) with Python => "python" | Binary => "binary" end)));
  (lit "enabled", VBool (enabled (config s.1)));
  (lit "autostart", VBool (autostart (config s.1)));
  (lit "description", VStr (description (config s.1)));
  (lit "status", VStr (status s));
  (lit "pid", match proc s.1 with Some pid => if running s.2 pid then VInt (Z.of_nat pid) else VNone | None => VNone end);
  (lit "log_file", VStr log_file);
  (lit "last_error", match last_error s.1 with Some e => VStr e | None => VNone end)].

(** [build_argv]: the interpreter is [sys.executable]. *)
Definition slashed (p : path) : str := match p with [] => [47] | _ => concat (map (fun c => 47 :: c) p) end.
Definition build_argv (sys_executable : str) (executable : res (option path)) (c : ComponentConfig) : res (list str) :=
  match kind c with
  | Python => Ok (sys_executable :: args c)
  | Binary =>
    e ← executable;
    match e with
    | None => Err AssertionError
    | Some p => Ok (slashed p :: tail (command c))
    end
  end.

(** [Popen] refuses an argument with a NUL before it asks the system. *)
Definition popen (argv : list str) (outcome : option string) : res unit :=
  require (forallb (fun a => negb (existsb (fun c => c =? 0) a)) argv) (ValueError "embedded null byte") ;;
  match outcome with None => Ok tt | Some m => Err (OSError m) end.

(** [ValueError] and the subclasses the path functions raise. *)
Definition value_error (e : exn) : option string :=
  match e with ValueError m => Some m | UnicodeError => Some "unicode error"%string | _ => None end.

Definition fail_start (name : str) (error : str) : SE Child bool :=
  update (set_last_error (Some error)) ;;
  emit "component_start_failed" [("name", VStr name); ("error", VStr error)]%string ;;
  mret false.

Definition start (sys_executable : str) (name : str) (f : StartFaults) : SE Child bool := fun s =>
  if is_running s then (s, Ok true)
  else if negb (enabled (config s.1)) then
    let reason := lit "component is disabled in configuration" in
    (update (set_last_error (Some reason)) ;;
     emit "component_start_refused" [("name", VStr name); ("reason", VStr reason)]%string ;;
     mret false) s
  else
    match build_argv sys_executable (sf_executable f) (config s.1) with
    | Err e => match value_error e with Some m => fail_start name (lit m) s | None => (s, Err e) end
    | Ok argv =>
      match sf_log f with
      | Some m => fail_start name (lit m) s
      | None =>
        match popen argv (sf_spawn f) with
        | Err (OSError m) => (update (set_proc None) ;; fail_start name (lit m)) s
        | Err e => (s, Err e)
        | Ok _ =>
          let pid := length (table s.2) in
          (on_snd (modify add_process) ;;
           update (set_proc (Some pid)) ;;
           update (set_last_error None) ;;
           emit "component_started" [("name", VStr name); ("pid", VInt (Z.of_nat pid)); ("argv", VList (map VStr argv));
             ("log_file", VStr (sf_log_file f))]%string ;;
           mret true) s
        end
      end
    end.

(** [proc.wait(timeout)] after a signal: [true] when the process is gone. *)
Definition wait (pid : nat) (outcome : option Z) : SE Child bool := fun s =>
  if running s.2 pid then
    match outcome with
    | Some code => ((s.1, set_status pid (Some code) s.2), Ok true)
    | None => (s, Ok false)
    end
  else (s, Ok true).

Definition naming (name : str) (pid : nat) : fields := [("name", VStr name); ("pid", VInt (Z.of_nat pid))]%string.

Definition stop (name : str) (f : StopFaults) : SE Child bool := fun s =>
  match proc s.1 with
  | None => (s, Ok true)
  | Some pid =>
    (gone ←
       (if running s.2 pid then
          emit "component_stopping" (naming name pid) ;;
          gone ← wait pid (st_term f);
          if gone : bool then mret true
          else
            emit "component_kill" (naming name pid) ;;
            gone ← wait pid (st_kill f);
            if gone : bool then mret true
            else emit "component_stop_failed" (naming name pid) ;; mret false
        else mret true);
     if gone : bool then
       code ← gets (fun s => table s.2 !! pid);
       emit "component_stopped" [("name", VStr name);
         ("returncode", match code with Some (Some c) => VInt c | _ => VNone end)]%string ;;
       update (set_proc None) ;;
       mret true
     else mret false) s
  end.

(** ** The supervisor: components by name, in the configuration's order *)
Abbreviation Registry := (list (str * ManagedProcess)).
Abbreviation Supervisor := (Registry * Machine)%type.

Definition new_supervisor (c : list (str * ComponentConfig)) : Registry :=
  map (fun nc => (nc.1, {| config := nc.2; proc := None; last_error := None |})) c.

Fixpoint find (name : str) (l : Registry) : option ManagedProcess :=
  match l with
  | [] => None
  | (n, c) :: l => if str_eqb n name then Some c else find name l
  end.

Fixpoint put (name : str) (c : ManagedProcess) (l : Registry) : Registry :=
  match l with
  | [] => []
  | (n, c') :: l => if str_eqb n name then (n, c) :: l else (n, c') :: put name c l
  end.

(** An operation on one component; an unknown name yields [default]. *)
Definition on_component {A} (name : str) (default : A) (m : SE Child A) : SE Supervisor A := fun s =>
  match find name s.1 with
  | None => (s, Ok default)
  | Some c => let '((c', machine), r) := m (c, s.2) in ((put name c' s.1, machine), r)
  end.

Definition start_component (py : str) (name : str) (f : StartFaults) : SE Supervisor bool :=
  on_component name false (start py name f).
Definition stop_component (name : str) (f : StopFaults) : SE Supervisor bool :=
  on_component name false (stop name f).

Fixpoint start_each (py : str) (faults : str -> StartFaults) (names : list str) : SE Supervisor (list (str * bool)) :=
  match names with
  | [] => mret []
  | n :: names =>
    r ← start_component py n (faults n);
    rs ← start_each py faults names;
    mret ((n, r) :: rs)
  end.

(** [start_autostart] *)
Definition start_autostart (py : str) (faults : str -> StartFaults) : SE Supervisor (list (str * bool)) := fun s =>
  start_each py faults
    (map fst (List.filter (fun nc => enabled (config nc.2) && autostart (config nc.2)) s.1)) s.

Fixpoint stop_each (faults : str -> StopFaults) (names : list str) : SE Supervisor unit :=
  match names with
  | [] => mret tt
  | n :: names => stop_component n (faults n) ;; stop_each faults names
  end.
Definition stop_all (faults : str -> StopFaults) : SE Supervisor unit := fun s => stop_each faults (map fst s.1) s.

(** A child exits by itself. *)
Definition child_exits (pid : nat) (code : Z) (m : Machine) : Machine :=
  if running m pid then set_status pid (Some code) m else m.

(** ** What an operation may do to its component *)
Record tended (s s' : Child) : Prop := {
  td_config : config s'.1 = config s.1;
  td_table : (length (table s.2) <= length (table s'.2))%nat;
  td_proc : proc s'.1 = proc s.1 \/ proc s'.1 = None \/
    (proc s'.1 = Some (length (table s.2)) /\ length (table s'.2) = S (length (table s.2)));
  td_running : forall pid, running s'.2 pid = true ->
    (running s.2 pid = true /\ (proc s.1 = Some pid -> proc s'.1 = Some pid)) \/
    (pid = length (table s.2) /\ proc s'.1 = Some pid /\ enabled (config s.1) = true);
}.

Lemma running_spec m pid : running m pid = true <-> table m !! pid = Some None.
Proof. unfold running. apply bool_decide_eq_true. Qed.

Lemma tended_refl s : tended s s.
Proof. split; [done | done | by left |]. intros pid H. by left. Qed.

(** Same table: only the record of the component and the telemetry change. *)
Lemma tended_record s s' : config s'.1 = config s.1 -> table s'.2 = table s.2 ->
  proc s'.1 = proc s.1 \/ (proc s'.1 = None /\ is_running s = false) -> tended s s'.
Proof.
  intros C T P. split; [done | by rewrite T | destruct P as [? | [? _]]; auto |].
  intros pid R. left. unfold running in *. rewrite T in R. split; [done|]. intros E.
  destruct P as [-> | [_ N]]; [done|]. unfold is_running in N. rewrite E in N. unfold running in N. congruence.
Qed.

Lemma spawned_running m pid : running (add_process m) pid = true -> running m pid = true \/ pid = length (table m).
Proof.
  rewrite !running_spec. unfold add_process. cbn [table]. intros H. apply lookup_app_Some in H as [H | [L H]]; [by left|].
  right. destruct (pid - length (table m))%nat eqn:E; [lia | by destruct n].
Qed.

Lemma tended_spawn s s' : config s'.1 = config s.1 -> table s'.2 = table s.2 ++ [None] ->
  proc s'.1 = Some (length (table s.2)) -> is_running s = false -> enabled (config s.1) = true -> tended s s'.
Proof.
  intros C T P R E. assert (length (table s'.2) = S (length (table s.2))) as L by (rewrite T, length_app; simpl; lia).
  split; [done | lia | by right; right |]. intros pid H. unfold running in H. rewrite T in H.
  apply (spawned_running s.2) in H as [H | ->]; [|by right].
  left. split; [done|]. intros Hp. unfold is_running in R. rewrite Hp in R. congruence.
Qed.

Lemma start_tended py name f s : tended s (start py name f s).1.
Proof.
  unfold start. destruct (is_running s) eqn:R; [apply tended_refl|].
  destruct (enabled (config s.1)) eqn:E; simpl negb; cbv iota; [|apply tended_record; auto].
  destruct (build_argv _ _ _) as [argv|e].
  2: { destruct (value_error e); [apply tended_record; auto | apply tended_refl]. }
  destruct (sf_log f); [apply tended_record; auto|].
  destruct (popen argv (sf_spawn f)) as [[]|e].
  - by apply tended_spawn.
  - destruct e; try apply tended_refl. apply tended_record; auto.
Qed.

Lemma set_status_running m pid code p : running (set_status pid (Some code) m) p = true -> running m p = true /\ p <> pid.
Proof.
  rewrite !running_spec. unfold set_status. cbn [table]. destruct (decide (p = pid)) as [->|N].
  - intros H. apply list_lookup_insert_Some in H as [(_ & [=] & _) | (N & _)]. done.
  - rewrite list_lookup_insert_ne by done. done.
Qed.

Lemma tended_exit s s' pid code : config s'.1 = config s.1 -> proc s.1 = Some pid -> proc s'.1 = None ->
  table s'.2 = <[pid := Some code]> (table s.2) -> tended s s'.
Proof.
  intros C P N T. split; [done | by rewrite T, length_insert | by right; left |].
  intros p H. assert (running (set_status pid (Some code) s.2) p = true) as H' by (unfold running in *; by rewrite T in H).
  apply set_status_running in H' as [H1 H2]. left. split; [done|]. intros E. congruence.
Qed.

(** [stop]: true exactly when the component is left with no child. *)
Lemma stop_outcome name f s : exists s' b, stop name f s = (s', Ok b) /\ tended s s' /\
  (b = true -> proc s'.1 = None) /\ (b = false -> is_running s = true /\ st_term f = None /\ st_kill f = None /\ is_running s' = true).
Proof.
  unfold stop. destruct (proc s.1) as [pid|] eqn:P.
  2: { exists s, true. split; [done|]. split; [apply tended_refl | done]. }
  destruct (running s.2 pid) eqn:R.
  - unfold emit, on_snd, modify, wait, update, on_fst, gets, mbind, se_bind, mret, se_ret. cbn [fst snd].
    change (running (say _ s.2) pid) with (running s.2 pid). rewrite R. destruct (st_term f) as [code|].
    + eexists _, true. split; [reflexivity|]. split; [by apply (tended_exit s _ pid code) | done].
    + cbn [fst snd]. change (running (say _ (say _ s.2)) pid) with (running s.2 pid). rewrite R.
      destruct (st_kill f) as [code|].
      * eexists _, true. split; [reflexivity|]. split; [by apply (tended_exit s _ pid code) | done].
      * eexists _, false. split; [reflexivity|]. split; [by apply tended_record; auto|]. split; [done|]. intros _.
        unfold is_running. cbn [fst snd proc]. rewrite P. done.
  - eexists _, true. split; [reflexivity|]. split; [|done]. apply tended_record; [done | done |]. right.
    split; [done|]. unfold is_running. by rewrite P.
Qed.

(** ** The supervisor's invariant *)
Definition names (l : Registry) : list str := map fst l.
Definition configs (l : Registry) : list (str * ComponentConfig) := map (fun nc => (nc.1, config nc.2)) l.

Lemma find_elem name l c : find name l = Some c -> (name, c) ∈ l.
Proof.
  induction l as [|[n c'] l IH]; simpl; [done|]. case_match eqn:E.
  - intros [= ->]. apply str_eqb_eq in E as ->. left.
  - intros H. right. by apply IH.
Qed.

Lemma elem_find name l c : NoDup (names l) -> (name, c) ∈ l -> find name l = Some c.
Proof.
  induction l as [|[n c'] l IH]; simpl; [by intros _ ?%not_elem_of_nil|].
  intros N H. apply NoDup_cons in N as [N1 N2]. apply elem_of_cons in H as [[= <- <-] | H]; [by rewrite str_eqb_refl|].
  assert (n <> name) as D by (intros ->; apply N1, list_elem_of_In, in_map_iff; exists (name, c); split; [done | by apply list_elem_of_In]).
  rewrite (proj2 (str_eqb_neq _ _) D). by apply IH.
Qed.

Lemma put_names name c l : names (put name c l) = names l.
Proof. induction l as [|[n c'] l IH]; simpl; [done|]. case_match; simpl; [done | by rewrite IH]. Qed.

Lemma put_configs name c c0 l : find name l = Some c0 -> config c = config c0 -> configs (put name c l) = configs l.
Proof.
  induction l as [|[n c'] l IH]; simpl; [done|]. case_match; simpl; [intros [= ->] -> ; done | intros; by rewrite IH].
Qed.

Lemma find_put name c c0 l n : find name l = Some c0 -> find n (put name c l) = if str_eqb name n then Some c else find n l.
Proof.
  induction l as [|[m c'] l IH]; simpl; [done|]. destruct (str_eqb m name) eqn:E.
  - apply str_eqb_eq in E as ->. intros _. simpl. by destruct (str_eqb name n).
  - intros F. simpl. rewrite (IH F). destruct (str_eqb m n) eqn:E2; [|done]. apply str_eqb_eq in E2 as ->.
    destruct (str_eqb name n) eqn:E3; [|done]. apply str_eqb_eq in E3 as ->. by rewrite str_eqb_refl in E.
Qed.

(** The supervisor's processes in a table that it shares: [F] are the processes of others. *)
Record supervised (F : nat -> Prop) (s : Supervisor) : Prop := {
  sv_pids : forall n c pid, find n s.1 = Some c -> proc c = Some pid -> (pid < length (table s.2))%nat;
  sv_distinct : forall n c n' c' pid, find n s.1 = Some c -> find n' s.1 = Some c' ->
    proc c = Some pid -> proc c' = Some pid -> n = n';
  sv_apart : forall n c pid, find n s.1 = Some c -> proc c = Some pid -> ~ F pid;
  sv_others : forall pid, F pid -> (pid < length (table s.2))%nat;
  sv_owned : forall pid, running s.2 pid = true -> F pid \/
    exists n c, find n s.1 = Some c /\ proc c = Some pid /\ enabled (config c) = true;
}.

Section Sharing.
Context (O : nat -> Prop).

Lemma on_component_supervised {A} name (d : A) m s :
  (forall c, find name s.1 = Some c -> tended (c, s.2) (m (c, s.2)).1) ->
  supervised O s -> supervised O (on_component name d m s).1 /\ configs (on_component name d m s).1.1 = configs s.1.
Proof.
  intros T [P D Q W R]. unfold on_component. destruct (find name s.1) as [c|] eqn:F; [|done]. specialize (T c eq_refl).
  destruct (m (c, s.2)) as [[c' M] r]. cbn [fst snd] in *. destruct T as [Tc Tt Tp Tr]. cbn [fst snd] in *.
  split; [|by apply (put_configs _ _ c)]. split; cbn [fst snd].
  - intros n c1 pid. rewrite (find_put _ _ _ _ _ F). destruct (str_eqb name n) eqn:E.
    + intros [= <-] Hp. destruct Tp as [Tp | [Tp | [Tp L]]]; [|congruence|].
      * rewrite Tp in Hp. specialize (P _ _ _ F Hp). lia.
      * rewrite Tp in Hp. injection Hp as <-. lia.
    + intros Hf Hp. specialize (P _ _ _ Hf Hp). lia.
  - intros n c1 n' c2 pid. rewrite !(find_put _ _ _ _ _ F).
    assert (forall n c1, find n s.1 = Some c1 -> proc c1 = Some pid -> proc c' = Some pid -> name = n) as U.
    { intros n0 c0 Hf H0 H'. destruct Tp as [Tp | [Tp | [Tp L]]]; [|congruence|].
      - rewrite Tp in H'. by apply (D _ _ _ _ pid F Hf).
      - rewrite Tp in H'. injection H' as <-. specialize (P _ _ _ Hf H0). lia. }
    destruct (str_eqb name n) eqn:E1, (str_eqb name n') eqn:E2.
    + apply str_eqb_eq in E1 as <-. apply str_eqb_eq in E2 as <-. done.
    + apply str_eqb_eq in E1 as <-. intros [= <-] Hf H1 H2. by apply (U n' c2).
    + apply str_eqb_eq in E2 as <-. intros Hf [= <-] H1 H2. symmetry. by apply (U n c1).
    + by apply D.
  - intros n c1 pid. rewrite (find_put _ _ _ _ _ F). destruct (str_eqb name n) eqn:E; [|by apply Q].
    intros [= <-] Hp. destruct Tp as [Tp | [Tp | [Tp L]]]; [|congruence|].
    + rewrite Tp in Hp. by apply (Q _ _ _ F).
    + rewrite Tp in Hp. injection Hp as <-. intros H%W. lia.
  - intros pid H%W. lia.
  - intros pid Rp. destruct (Tr pid Rp) as [[R0 Hk] | (-> & Hp & He)].
    + destruct (R pid R0) as [?|(n & c0 & F0 & P0 & E0)]; [by left|]. right. destruct (str_eqb name n) eqn:E.
      * apply str_eqb_eq in E as <-. rewrite F in F0. injection F0 as <-. exists name, c'.
        rewrite (find_put _ _ _ _ _ F), str_eqb_refl, Tc. auto.
      * exists n, c0. rewrite (find_put _ _ _ _ _ F), E. done.
    + right. exists name, c'. rewrite (find_put _ _ _ _ _ F), str_eqb_refl, Tc. done.
Qed.

Lemma start_component_supervised py name f s : supervised O s ->
  supervised O (start_component py name f s).1 /\ configs (start_component py name f s).1.1 = configs s.1.
Proof. intros. apply on_component_supervised; [|done]. intros. apply start_tended. Qed.

Lemma stop_component_supervised name f s : supervised O s ->
  supervised O (stop_component name f s).1 /\ configs (stop_component name f s).1.1 = configs s.1.
Proof.
  intros. apply on_component_supervised; [|done]. intros c _.
  destruct (stop_outcome name f (c, s.2)) as (s' & b & -> & T & _). done.
Qed.

(** Supervised, with the configuration [k]. *)
Definition kept (k : list (str * ComponentConfig)) (s : Supervisor) : Prop := supervised O s /\ configs s.1 = k.

Lemma kept_bind {A B} k (m : SE Supervisor A) (f : A -> SE Supervisor B) s :
  kept k (m s).1 -> (forall s1 a, kept k s1 -> kept k (f a s1).1) -> kept k ((m ≫= f) s).1.
Proof. intros H F. unfold mbind, se_bind. destruct (m s) as [s1 [a|e]]; [by apply F | done]. Qed.

Lemma start_each_supervised py faults k l : forall s, kept k s -> kept k (start_each py faults l s).1.
Proof.
  induction l as [|n l IH]; intros s H; [done|]. cbn [start_each]. destruct H as [H C].
  apply kept_bind; [destruct (start_component_supervised py n (faults n) s H); by rewrite <- C|].
  intros s1 b H1. apply kept_bind; [by apply IH | done].
Qed.

Lemma stop_each_supervised faults k l : forall s, kept k s -> kept k (stop_each faults l s).1.
Proof.
  induction l as [|n l IH]; intros s H; [done|]. cbn [stop_each]. destruct H as [H C].
  apply kept_bind; [destruct (stop_component_supervised n (faults n) s H); by rewrite <- C|].
  intros s1 b H1. by apply IH.
Qed.

Lemma ended_supervised pid code s : supervised O s -> supervised O (s.1, set_status pid (Some code) s.2).
Proof.
  intros [P D Q W R]. split; cbn [fst snd]; [| done | done | |].
  - intros n c p F Hp. unfold set_status. cbn [table]. rewrite length_insert. by apply (P n c).
  - intros p H%W. unfold set_status. cbn [table]. by rewrite length_insert.
  - intros p Hp. apply set_status_running in Hp as [Hp _]. by apply R.
Qed.

Lemma child_exits_supervised pid code s : supervised O s -> supervised O (s.1, child_exits pid code s.2).
Proof.
  intros H. unfold child_exits. destruct (running s.2 pid); [|by destruct s]. by apply ended_supervised.
Qed.

End Sharing.

(** A supervisor with a table of its own. *)
Definition nobody : nat -> Prop := fun _ => False.

(** ** Everything that can happen *)
Inductive step (py : str) : Supervisor -> Supervisor -> Prop :=
| StepStart name f s : step py s (start_component py name f s).1
| StepStop name f s : step py s (stop_component name f s).1
| StepAutostart faults s : step py s (start_autostart py faults s).1
| StepStopAll faults s : step py s (stop_all faults s).1
| StepExit pid code s : step py s (s.1, child_exits pid code s.2).

Lemma step_supervised py s s' : step py s s' -> supervised nobody s -> supervised nobody s' /\ configs s'.1 = configs s.1.
Proof.
  destruct 1; intros H.
  - by apply start_component_supervised.
  - by apply stop_component_supervised.
  - by apply start_each_supervised.
  - by apply stop_each_supervised.
  - split; [by apply child_exits_supervised | done].
Qed.

Definition initial (c : list (str * ComponentConfig)) : Supervisor := (new_supervisor c, {| table := []; trace := [] |}).

Lemma find_new name c m : find name (new_supervisor c) = Some m -> proc m = None.
Proof.
  induction c as [|[n k] c IH]; simpl; [done|]. case_match; [by intros [= <-] | done].
Qed.

Lemma configs_new c : configs (new_supervisor c) = c.
Proof. unfold configs, new_supervisor. rewrite map_map. induction c as [|[n k] c IH]; simpl; [done | by f_equal]. Qed.

Lemma initial_supervised c F : (forall pid, ~ F pid) -> supervised F (initial c).
Proof.
  intros N. split; cbn [fst snd initial].
  - intros n m pid H. by rewrite (find_new _ _ _ H).
  - intros n m n' m' pid H. by rewrite (find_new _ _ _ H).
  - intros n m pid _ _. apply N.
  - intros pid H. by apply N in H.
  - intros pid R. by apply running_spec in R.
Qed.

Lemma reachable_supervised py c s : rtc (step py) (initial c) s -> supervised nobody s /\ configs s.1 = c.
Proof.
  remember (initial c) as s0 eqn:E. intros R.
  assert (supervised nobody s0 /\ configs s0.1 = c) as H by (rewrite E; split; [apply initial_supervised; by intros pid [] | apply configs_new]).
  clear E. induction R as [s|s s1 s2 S _ IH]; [done|]. apply IH. destruct H as [H <-]. by apply (step_supervised py).
Qed.

(** However the controller's operations and the children's own exits interleave, every running
    process is the current child of exactly one component, and that component is enabled in the
    configuration: there is never a second live child of a component, an orphan the supervisor
    has lost, or a process of a disabled component; and the configuration is never changed. *)
Theorem supervision_invariant py c s (R : rtc (step py) (initial c) s) :
  configs s.1 = c /\
  (forall pid, running s.2 pid = true -> exists n m, find n s.1 = Some m /\ proc m = Some pid /\
     enabled (config m) = true /\ (n, config m) ∈ c /\
     forall n' m', find n' s.1 = Some m' -> proc m' = Some pid -> n' = n).
Proof.
  apply reachable_supervised in R as [[P D _ _ O] C]. split; [done|]. intros pid Hp.
  destruct (O pid Hp) as [[]|(n & m & F & Hm & E)]. exists n, m. split; [done|]. split; [done|]. split; [done|]. split.
  - rewrite <- C. apply list_elem_of_In, in_map_iff. exists (n, m). split; [done|]. by apply list_elem_of_In, find_elem.
  - intros n' m' F' H'. by apply (D _ _ _ _ pid F' F).
Qed.

(** ** Stopping *)
Definition killable (faults : str -> StopFaults) : Prop :=
  forall n, st_term (faults n) <> None \/ st_kill (faults n) <> None.

(** The component has no child. *)
Definition idle (n : str) (s : Supervisor) : Prop := forall c, find n s.1 = Some c -> proc c = None.

Lemma stop_component_idle name f s : st_term f <> None \/ st_kill f <> None -> exists s' b,
  stop_component name f s = (s', Ok b) /\ idle name s' /\ (forall n, idle n s -> idle n s').
Proof.
  intros K. unfold stop_component, on_component. destruct (find name s.1) as [c0|] eqn:F.
  2: { exists s, false. split; [done|]. split; [|done]. intros c Hc. congruence. }
  destruct (stop_outcome name f (c0, s.2)) as ([c1 M] & b & -> & _ & T & N).
  assert (proc c1 = None) as P.
  { destruct b; [by apply T|]. destruct (N eq_refl) as (_ & E1 & E2 & _). destruct K; congruence. }
  eexists _, b. split; [done|]. split.
  - intros c. cbn [fst]. rewrite (find_put _ _ _ _ _ F), str_eqb_refl. by intros [= <-].
  - intros n H c. cbn [fst]. rewrite (find_put _ _ _ _ _ F). destruct (str_eqb name n); [by intros [= <-] | apply H].
Qed.

Lemma stop_each_idle faults l : killable faults -> forall s, exists s',
  stop_each faults l s = (s', Ok tt) /\ (forall n, n ∈ l \/ idle n s -> idle n s').
Proof.
  intros K. induction l as [|n l IH]; intros s.
  - exists s. split; [done|]. intros n [?%not_elem_of_nil | ?]; done.
  - destruct (stop_component_idle n (faults n) s (K n)) as (s1 & b & E & I & P).
    destruct (IH s1) as (s2 & E2 & H2). exists s2. cbn [stop_each]. rewrite (se_bind_eq _ _ _ _ _ E).
    split; [done|]. intros m [[-> | Hm]%elem_of_cons | Hm]; apply H2; auto.
Qed.

(** In a shared table, what still runs is the others'. *)
Lemma stop_all_shared O faults s : supervised O s -> killable faults -> exists s',
  stop_all faults s = (s', Ok tt) /\ supervised O s' /\ configs s'.1 = configs s.1 /\ forall pid, running s'.2 pid = true -> O pid.
Proof.
  intros H K. unfold stop_all. destruct (stop_each_idle faults (names s.1) K s) as (s' & E & I).
  destruct (stop_each_supervised O faults (configs s.1) (names s.1) s (conj H eq_refl)) as [S' C']. rewrite E in S', C'. cbn [fst] in *.
  exists s'. split; [done|]. split; [done|]. split; [done|]. intros pid Hp.
  destruct (sv_owned _ _ S' pid Hp) as [?|(n & m & F & P & _)]; [done|].
  assert (idle n s') as N.
  { apply I. left. assert (names s.1 = names s'.1) as ->.
    { unfold names. apply (f_equal (map fst)) in C'. unfold configs in C'. rewrite !map_map in C'. done. }
    apply find_elem in F. apply list_elem_of_In, in_map_iff. exists (n, m). split; [done|]. by apply list_elem_of_In. }
  rewrite (N m F) in P. done.
Qed.

(** Shutting down leaves nothing behind: from any reachable state, if every child yields to
    one of the two signals, [stop_all] ends without an error and no process is running. *)
Theorem stop_all_leaves_nothing py c s faults (R : rtc (step py) (initial c) s) (K : killable faults) : exists s',
  stop_all faults s = (s', Ok tt) /\ forall pid, running s'.2 pid = false.
Proof.
  apply reachable_supervised in R as [H _]. destruct (stop_all_shared nobody faults s H K) as (s' & E & _ & _ & N).
  exists s'. split; [done|]. intros pid. destruct (running s'.2 pid) eqn:Hp; [|done]. by apply N in Hp.
Qed.

(** ** Starting *)

(** What [resolve_executable] gives a component of the kind. *)
Definition resolved (c : ComponentConfig) (r : res (option path)) : Prop :=
  match r with
  | Ok e => kind c = Binary -> e <> None
  | Err e => value_error e <> None
  end.

Definition has_nul (argv : list str) : Prop := exists a, a ∈ argv /\ 0 ∈ a.

Lemma nul_found argv : forallb (fun a => negb (existsb (fun c => c =? 0) a)) argv = false -> has_nul argv.
Proof.
  induction argv as [|a argv IH]; [done|]. cbn [forallb]. intros [H|H]%andb_false_iff.
  - apply negb_false_iff, existsb_exists in H as (x & Hx & E). apply Z.eqb_eq in E as ->.
    exists a. split; [left | by apply list_elem_of_In].
  - destruct (IH H) as (b & Hb & N). exists b. split; [by right | done].
Qed.

Lemma popen_outcome argv o : match popen argv o with
  | Ok _ => o = None
  | Err e => (exists m, e = OSError m) \/ (e = ValueError "embedded null byte" /\ has_nul argv)
  end.
Proof.
  unfold popen. destruct (forallb _ argv) eqn:N; cbn [require mbind res_bind].
  - destruct o; [left; eauto | done].
  - right. split; [done | by apply nul_found].
Qed.

(** The answer of [start], and what it leaves. *)
Lemma start_result py name f s : resolved (config s.1) (sf_executable f) ->
  match start py name f s with
  | (s', Ok b) => is_running s' = b /\ (b = false -> last_error s'.1 <> None) /\
      (b = false -> table s'.2 = table s.2 /\ is_running s = false)
  | (s', Err e) => e = ValueError "embedded null byte" /\ s' = s /\
      exists argv, build_argv py (sf_executable f) (config s.1) = Ok argv /\ has_nul argv
  end.
Proof.
  intros V. unfold start. destruct (is_running s) eqn:R; [done|].
  destruct (enabled (config s.1)); cbn [negb]; cbv iota; [|done].
  destruct (build_argv py (sf_executable f) (config s.1)) as [argv|e] eqn:B.
  - destruct (sf_log f); [done|]. pose proof (popen_outcome argv (sf_spawn f)) as P.
    destruct (popen argv (sf_spawn f)) as [[]|e].
    + split; [|done]. change (running (add_process s.2) (length (table s.2)) = true). apply running_spec.
      unfold add_process. cbn [table]. by rewrite lookup_app_r, Nat.sub_diag.
    + destruct P as [[m ->] | [-> N]]; [done|]. eauto.
  - assert (value_error e <> None) as E.
    { unfold build_argv in B. destruct (kind (config s.1)) eqn:Hk; [done|]. destruct (sf_executable f) as [o|e'].
      - cbn [mbind res_bind] in B. destruct o; [done|]. exfalso. by apply V.
      - cbn [mbind res_bind] in B. injection B as <-. exact V. }
    destruct (value_error e) as [m|]; done.
Qed.

(** Starting a component reports what happened: the answer is true exactly when the component
    then has a running child, a refusal leaves the reason in [last_error] and launches nothing;
    the only failure that escapes is [Popen]'s for an argument holding a NUL. *)
Theorem start_outcome py name f s (V : resolved (config s.1) (sf_executable f)) :
  match start py name f s with
  | (s', Ok b) => is_running s' = b /\ (b = false -> last_error s'.1 <> None) /\
      (b = false -> table s'.2 = table s.2 /\ is_running s = false)
  | (s', Err e) => e = ValueError "embedded null byte" /\ s' = s /\
      exists argv, build_argv py (sf_executable f) (config s.1) = Ok argv /\ has_nul argv
  end.
Proof. by apply start_result. Qed.

(** A configured argument with a NUL - which no validator rejects - makes [start] raise, although
    it promises never to. *)
Definition nul_component : ComponentConfig := {|
  kind := Python; args := [lit "-m"; [97; 0]]; command := []; enabled := true; autostart := true; description := [] |}.
Definition empty_machine : Machine := {| table := []; trace := [] |}.
Definition easy_start : StartFaults := {| sf_executable := Ok None; sf_log := None; sf_spawn := None; sf_log_file := [] |}.
Definition fresh (c : ComponentConfig) : ManagedProcess := {| config := c; proc := None; last_error := None |}.

Lemma nul_argument_raises :
  validate ascii_only {| host := []; port := 1; cfg_pcap_dir := None; max_replay_packets := 1; components := [(lit "x", nul_component)] |} = Ok tt /\
  (start (lit "python") (lit "x") easy_start (fresh nul_component, empty_machine)).2 = Err (ValueError "embedded null byte").
Proof. split; reflexivity. Qed.

(** ** Autostart *)

(** Processes of components that were not both enabled and autostart: none. *)
Definition only_autostart (s : Supervisor) : Prop := forall n c, find n s.1 = Some c -> proc c <> None ->
  enabled (config c) && autostart (config c) = true.

Lemma start_each_only py faults l : forall s, NoDup (names s.1) -> only_autostart s ->
  (forall n c, n ∈ l -> find n s.1 = Some c -> enabled (config c) && autostart (config c) = true) ->
  only_autostart (start_each py faults l s).1.
Proof.
  induction l as [|n l IH]; intros s N O H; [done|]. cbn [start_each].
  assert (K : only_autostart (start_component py n (faults n) s).1 /\ NoDup (names (start_component py n (faults n) s).1.1) /\
    (forall m c, m ∈ l -> find m (start_component py n (faults n) s).1.1 = Some c -> enabled (config c) && autostart (config c) = true)).
  { unfold start_component, on_component. destruct (find n s.1) as [c0|] eqn:F.
    2: { split; [done|]. split; [done|]. intros m c Hm. apply H. by right. }
    pose proof (start_tended py n (faults n) (c0, s.2)) as T.
    destruct (start py n (faults n) (c0, s.2)) as [[c1 M] r]. destruct T as [Tc _ _ _]. cbn [fst snd] in *.
    assert (forall m c, find m (put n c1 s.1) = Some c -> find m s.1 = Some c \/ (m = n /\ c = c1)) as Q.
    { intros m c. rewrite (find_put _ _ _ _ _ F). destruct (str_eqb n m) eqn:E; [|by left].
      apply str_eqb_eq in E as <-. intros [= <-]. by right. }
    split; [|split; [by rewrite put_names|]].
    - intros m c Hm Hp. destruct (Q m c Hm) as [Hm' | [-> ->]]; [by apply (O m)|]. rewrite Tc. apply (H n); [left | done].
    - intros m c Hl Hm. destruct (Q m c Hm) as [Hm' | [-> ->]]; [apply (H m); [by right | done]|].
      rewrite Tc. apply (H n); [left | done]. }
  destruct K as (K1 & K2 & K3). unfold mbind at 1, se_bind at 1.
  destruct (start_component py n (faults n) s) as [s1 [b|e]]; [|done]. cbn [fst] in *.
  specialize (IH s1 K2 K1 K3). unfold mbind, se_bind. destruct (start_each py faults l s1) as [s2 [rs|e]]; done.
Qed.

(** At start-up only components marked both enabled and autostart are launched. *)
Theorem autostart_only py faults c (N : NoDup (map fst c)) : forall pid,
  running (start_autostart py faults (initial c)).1.2 pid = true ->
  exists n k, (n, k) ∈ c /\ enabled k = true /\ autostart k = true /\
    exists m, find n (start_autostart py faults (initial c)).1.1 = Some m /\ proc m = Some pid /\ config m = k.
Proof.
  intros pid R. unfold start_autostart in *. set (l := map fst (List.filter _ _)) in *.
  assert (Nm : names (new_supervisor c) = map fst c) by (unfold names, new_supervisor; by rewrite map_map).
  assert (F : forall n m, (n, m) ∈ new_supervisor c -> find n (new_supervisor c) = Some m) by (intros n m; apply elem_find; by rewrite Nm).
  destruct (start_each_supervised nobody py faults c l (initial c)) as [S C]; [split; [apply initial_supervised; by intros p [] | apply configs_new]|].
  assert (O : only_autostart (start_each py faults l (initial c)).1).
  { apply start_each_only.
    - change (NoDup (names (new_supervisor c))). by rewrite Nm.
    - intros n m H. by rewrite (find_new _ _ _ H).
    - intros n m Hn Hf. apply list_elem_of_In, in_map_iff in Hn as ([n' m'] & <- & H). apply filter_In in H as [H E].
      apply list_elem_of_In, F in H. cbn [fst snd] in *.
      change (find n' (new_supervisor c) = Some m) in Hf. rewrite H in Hf. by injection Hf as <-. }
  destruct (sv_owned _ _ S pid R) as [[]|(n & m & Hf & Hp & He)]. specialize (O n m Hf). rewrite Hp in O.
  specialize (O ltac:(done)). apply andb_true_iff in O as [_ A]. exists n, (config m). split.
  - rewrite <- C. apply list_elem_of_In, in_map_iff. exists (n, m). split; [done|]. by apply list_elem_of_In, find_elem.
  - split; [done|]. split; [done|]. by exists m.
Qed.

(** ** Witnesses *)
Definition sample_component : ComponentConfig := {|
  kind := Python; args := [lit "-m"; lit "x"]; command := []; enabled := true; autostart := true; description := [] |}.
Definition sample_components : list (str * ComponentConfig) := [(lit "a", sample_component)].
Definition stubborn : str -> StopFaults := fun _ => {| st_term := None; st_kill := Some (-9) |}.
Definition sample_run : Supervisor := (start_component (lit "python") (lit "a") easy_start (initial sample_components)).1.

Lemma sample_reachable : rtc (step (lit "python")) (initial sample_components) sample_run.
Proof. apply rtc_once. constructor. Qed.

Lemma supervision_invariant_witness : configs sample_run.1 = sample_components /\
  exists n m, find n sample_run.1 = Some m /\ proc m = Some 0%nat /\ enabled (config m) = true.
Proof.
  destruct (supervision_invariant (lit "python") sample_components sample_run sample_reachable) as [C O]. split; [exact C|].
  destruct (O 0%nat eq_refl) as (n & m & F & P & E & _). by exists n, m.
Defined.

Lemma stop_all_leaves_nothing_witness : running sample_run.2 0 = true /\ exists s',
  stop_all stubborn sample_run = (s', Ok tt) /\ forall pid, running s'.2 pid = false.
Proof.
  split; [reflexivity|]. apply (stop_all_leaves_nothing (lit "python") sample_components sample_run stubborn sample_reachable).
  intros n. right. done.
Defined.

Lemma start_outcome_witness : exists s', start (lit "python") (lit "a") easy_start (fresh sample_component, empty_machine) = (s', Ok true) /\
  is_running s' = true.
Proof.
  eexists. split; [reflexivity|].
  exact (proj1 (start_outcome (lit "python") (lit "a") easy_start (fresh sample_component, empty_machine) ltac:(done))).
Defined.

Lemma autostart_only_witness : exists n k, (n, k) ∈ sample_components /\ enabled k = true /\ autostart k = true.
Proof.
  destruct (autostart_only (lit "python") (fun _ => easy_start) sample_components ltac:(repeat constructor; by intros ?%not_elem_of_nil) 0%nat eq_refl)
    as (n & k & ? & ? & ? & _). by exists n, k.
Defined.
