(* ===== verification/Controller.v ===== *)
(** The controller's HTTP operations: [src/ics_deception/controller/app.py].

    FastAPI's routing, validation of query parameters and rendering of responses are not
    modelled: an endpoint is a function of its parsed parameters that answers a status and a
    body, or lets an exception escape (which FastAPI turns into a 500).  Replay jobs run on the
    machine of [Supervisor]. *)
From S2P Require Import Prelude PyText PyStr Json JsonFacts IsoTime Canonicalizer Models KeyRegistry EvidenceStore Integration Capture ControllerConfig Supervisor FakePlc.

(** ** Responses *)
Inductive response :=
| Reply (status : Z) (body : value)
| Problem (status : Z)            (* [HTTPException] *)
| Escaped (e : exn).

Definition reply_fields (l : list (string * value)) : response :=
  Reply 200 (VDict (as_dict (map (fun kv => (lit kv.1, kv.2)) l))).

(** ** [ReplayManager] *)
Record Replays := {
  rm_active : option dict;
  rm_proc : option nat;
}.

Abbreviation Jobs := (Replays * Machine)%type.

Definition no_job : Replays := {| rm_active := None; rm_proc := None |}.

(** [self._proc is not None and self._proc.poll() is None] *)
Definition job_running (s : Jobs) : bool := match rm_proc s.1 with Some pid => running s.2 pid | None => false end.

(** The [active] property: a finished job is forgotten. *)
Definition active : SE Jobs (option dict) := fun s =>
  match rm_proc s.1 with
  | Some pid => if running s.2 pid then (s, Ok (rm_active s.1)) else ((no_job, s.2), Ok None)
  | None => (s, Ok (rm_active s.1))
  end.

(** [open_error]: the log file; [spawn]: [Popen]. *)
Definition start_job (argv : list str) (log_path : str) (description : list (str * value)) (open_error spawn : option string) : SE Jobs bool := fun s =>
  if job_running s then (s, Ok false)
  else
    match open_error with
    | Some m => (s, Err (OSError m))
    | None =>
      match popen argv spawn with
      | Err e => (s, Err e)
      | Ok _ =>
        let pid := length (table s.2) in
        (({| rm_active := Some (as_dict (description ++ [(lit "pid", VInt (Z.of_nat pid)); (lit "log_file", VStr log_path)]));
             rm_proc := Some pid |}, add_process s.2), Ok true)
      end
    end.

(** The reaper thread of a job that has ended: it releases the slot only if it is still its own. *)
Definition reap (pid : nat) (returncode : Z) (s : Jobs) : Jobs :=
  let r := if bool_decide (rm_proc s.1 = Some pid) then no_job else s.1 in
  (r, say (lit "replay_finished", as_dict [(lit "returncode", VInt returncode)]) s.2).

(** [stop]: terminate, and kill what does not end in time; the slot is left to the reaper. *)
Definition stop_job (f : StopFaults) (s : Jobs) : Jobs :=
  match rm_proc s.1 with
  | Some pid =>
    if running s.2 pid then
      match (match st_term f with Some c => Some c | None => st_kill f end) with
      | Some c => (s.1, set_status pid (Some c) s.2)
      | None => s
      end
    else s
  | None => s
  end.

(** ** [POST /replay] *)
Record ReplayRequest := {
  rq_pcap_path : str;
  rq_max_packets : option Z;
  rq_modbus_target : str;
  rq_dnp3_target : str;
}.

Definition truthy_packets (o : option Z) (d : Z) : Z := match o with Some n => if n =? 0 then d else n | None => d end.

Definition replay_argv (py : str) (capture approved_dir : path) (max_packets : Z) (r : ReplayRequest) : list str := [
  py; lit "-m"; lit "ics_deception.datasets.pcap_loader"; lit "--pcap"; slashed capture;
  lit "--approved-dir"; slashed approved_dir; lit "--replay"; lit "--max-packets"; dec_digits max_packets;
  lit "--modbus-target"; rq_modbus_target r; lit "--dnp3-target"; rq_dnp3_target r].

Definition replay_description (capture : path) (max_packets : Z) (r : ReplayRequest) : list (str * value) := [
  (lit "pcap", VStr (slashed capture)); (lit "max_packets", VInt max_packets);
  (lit "modbus_target", VStr (rq_modbus_target r)); (lit "dnp3_target", VStr (rq_dnp3_target r))].

Definition say_job (ty : string) (d : dict) : SE Jobs unit := modify (fun s => (s.1, say (lit ty, d) s.2)).

Section Replay.
Context (resolve : path -> res path) (is_file : path -> bool) (py : str) (approved_dir : path) (log_path : str).

Definition budget (config : ControllerConfig) (r : ReplayRequest) : Z :=
  Z.min (truthy_packets (rq_max_packets r) (max_replay_packets config)) (max_replay_packets config).

(** The capture is accepted: start the job and say so. *)
Definition launch (capture : path) (max_packets : Z) (r : ReplayRequest) (open_error spawn : option string) : SE Jobs response := fun s =>
  let description := replay_description capture max_packets r in
  match start_job (replay_argv py capture approved_dir max_packets r) log_path description open_error spawn s with
  | (s, Err (OSError _)) => (s, Ok (Problem 500))
  | (s, Err e) => (s, Ok (Escaped e))
  | (s, Ok false) => (s, Ok (Problem 409))
  | (s, Ok true) =>
    (say_job "replay_started" (as_dict description) ;;
     job ← active;
     mret (Reply 200 (VDict ((KStr (lit "status"), VStr (lit "replay_started")) :: default (as_dict description) job)))) s
  end.

Definition replay (config : ControllerConfig) (r : ReplayRequest) (open_error spawn : option string) : SE Jobs response :=
  say_job "replay_requested" (as_dict [(lit "pcap_path", VStr (rq_pcap_path r))]) ;;
  match validate_pcap_path resolve is_file (rq_pcap_path r) approved_dir with
  | inr Unsupported => mret (Problem 400)
  | inr Traversal => mret (Problem 403)
  | inr NotFound => mret (Problem 404)
  | inr (PathError e) => mret (Escaped e)
  | inl capture => launch capture (budget config r) r open_error spawn
  end.
End Replay.

(** ** [POST /components/{name}/start] and [/stop] *)
Definition component_reply (verb name log_file : str) (s : Supervisor) : response :=
  match find name s.1 with
  | None => Problem 404
  | Some c => Reply 200 (VDict (as_dict [(verb, VStr name); (lit "status", VDict (info name log_file (c, s.2)))]))
  end.

Definition post_start (py name log_file : str) (f : StartFaults) : SE Supervisor response := fun s =>
  match find name s.1 with
  | None => (s, Ok (Problem 404))
  | Some c =>
    if negb (enabled (config c)) then (s, Ok (Problem 409))
    else
      match start_component py name f s with
      | (s, Ok true) => (s, Ok (component_reply (lit "started") name log_file s))
      | (s, Ok false) => (s, Ok (Problem 500))
      | (s, Err e) => (s, Ok (Escaped e))
      end
  end.

Definition post_stop (name log_file : str) (f : StopFaults) : SE Supervisor response := fun s =>
  match find name s.1 with
  | None => (s, Ok (Problem 404))
  | Some _ =>
    match stop_component name f s with
    | (s, Ok true) => (s, Ok (component_reply (lit "stopped") name log_file s))
    | (s, Ok false) => (s, Ok (Problem 500))
    | (s, Err e) => (s, Ok (Escaped e))
    end
  end.

(** ** [GET /ics-values] and [GET /logs] *)
Section Reading.
Context (lim : nat).

Definition ics_values (f : registry_file) : response :=
  match f with
  | Missing => Problem 404
  | Unreadable => Problem 503
  | Content b =>
    match (text ← utf8_decode b; loads default_hooks lim text) with
    | Ok data => Reply 200 data
    | Err (UnicodeError | JSONDecodeError | OSError _) => Problem 503
    | Err e => Escaped e
    end
  end.

Definition unparsed (text : str) : value := VDict (as_dict [(lit "_unparsed", VStr (take 1000 text))]).

(** One line of the log: nothing for a blank one. *)
Definition log_entry (line : str) : res (option value) :=
  let text := strip line in
  if str_eqb text [] then Ok None
  else
    match loads default_hooks lim text with
    | Ok (VDict d) => Ok (Some (VDict d))
    | Ok _ | Err JSONDecodeError => Ok (Some (unparsed text))
    | Err e => Err e
    end.

(** [deque(handle, maxlen=limit)] *)
Definition last_lines (limit : nat) (lines : list str) : list str := drop (length lines - limit) lines.

Definition log_entries (limit : nat) (lines : list str) : res (list value) :=
  parsed ← map_res log_entry (last_lines limit lines);
  Ok (omap (M := list) (fun o : option value => o) parsed).

Definition logs_reply (event_log : str) (l : list value) : response :=
  reply_fields [("logs", VList l); ("count", VInt (zlen l)); ("event_log", VStr event_log)]%string.

Definition logs (event_log : str) (limit : nat) (f : registry_file) : response :=
  match f with
  | Missing => logs_reply event_log []
  | Unreadable => Problem 500
  | Content b =>
    match log_entries limit (text_lines (utf8_decode_replace b)) with
    | Ok l => logs_reply event_log l
    | Err e => Escaped e
    end
  end.
End Reading.

(** ** At most one replay *)
Record exclusive (s : Jobs) : Prop := {
  ex_owner : forall pid, running s.2 pid = true -> rm_proc s.1 = Some pid;
  ex_known : forall pid, rm_proc s.1 = Some pid -> (pid < length (table s.2))%nat;
}.

(** Everything that can happen to the manager: requests, the reaper of a job that has ended,
    the shutdown, and the job's own exit. *)
Inductive job_step : Jobs -> Jobs -> Prop :=
| JobStart argv log d o sp s : job_step s (start_job argv log d o sp s).1
| JobActive s : job_step s (active s).1
| JobReap pid code s : running s.2 pid = false -> job_step s (reap pid code s)
| JobStop f s : job_step s (stop_job f s)
| JobExit pid code s : job_step s (s.1, child_exits pid code s.2).

Lemma exit_exclusive pid code (s : Jobs) : exclusive s -> exclusive (s.1, set_status pid (Some code) s.2).
Proof.
  intros [O K]. split; cbn [fst snd].
  - intros p H. apply set_status_running in H as [H _]. by apply O.
  - intros p H. unfold set_status. cbn [table]. rewrite length_insert. by apply K.
Qed.

Lemma job_step_exclusive s s' : job_step s s' -> exclusive s -> exclusive s'.
Proof.
  intros S H. destruct S as [argv log d o sp s | s | pid code s N | f s | pid code s].
  - unfold start_job. destruct (job_running s) eqn:R; [done|]. destruct o; [done|].
    destruct (popen argv sp) as [[]|e]; [|done]. destruct H as [O K]. split; cbn [fst snd rm_proc].
    + intros pid [Hp | ->]%spawned_running; [|done]. specialize (O pid Hp). unfold job_running in R.
      rewrite O, Hp in R. done.
    + intros pid [= <-]. unfold add_process. cbn [table]. rewrite length_app. simpl. lia.
  - unfold active. destruct (rm_proc s.1) as [pid|] eqn:P; [|done]. destruct (running s.2 pid) eqn:R; [done|].
    destruct H as [O K]. split; cbn [fst snd]; [|done]. intros p Hp. specialize (O p Hp). congruence.
  - unfold reap. destruct H as [O K]. split; cbn [fst snd]; intros p; case_bool_decide as E; try done.
    + intros Hp. assert (running s.2 p = true) as Hp' by done. specialize (O p Hp'). congruence.
    + intros Hp. by apply O.
    + by apply K.
  - unfold stop_job. destruct (rm_proc s.1) as [pid|]; [|done]. destruct (running s.2 pid); [|done].
    destruct (match st_term f with Some c => Some c | None => st_kill f end); [by apply exit_exclusive | done].
  - unfold child_exits. destruct (running s.2 pid); [by apply exit_exclusive | by destruct s].
Qed.

Lemma reachable_exclusive s : rtc job_step (no_job, empty_machine) s -> exclusive s.
Proof.
  remember (no_job, empty_machine) as s0 eqn:E. intros R.
  assert (exclusive s0) as H by (subst s0; split; [intros pid R0; by apply running_spec in R0 | done]).
  clear E. induction R as [s|s s1 s2 S _ IH]; [done|]. apply IH. by apply (job_step_exclusive s).
Qed.

(** At most one replay runs at a time: however requests, finished jobs, their reapers and the
    shutdown interleave, two running replay processes are the same process, and it is the one
    the manager knows - a late reaper of an earlier job never frees the slot of a running one. *)
Theorem replay_exclusive s (R : rtc job_step (no_job, empty_machine) s) : forall pid pid',
  running s.2 pid = true -> running s.2 pid' = true -> pid = pid' /\ rm_proc s.1 = Some pid /\ job_running s = true.
Proof.
  apply reachable_exclusive in R as [O K]. intros pid pid' H H'. pose proof (O pid H) as P. pose proof (O pid' H') as P'.
  split; [congruence|]. split; [done|]. unfold job_running. by rewrite P.
Qed.

Lemma active_running j m pid : rm_proc j = Some pid -> running m pid = true -> active (j, m) = ((j, m), Ok (rm_active j)).
Proof. intros P R. unfold active. cbn [fst snd]. by rewrite P, R. Qed.

Lemma spawned_runs e m : running (say e (add_process m)) (length (table m)) = true.
Proof. apply running_spec. unfold say, add_process. cbn [table]. by rewrite lookup_app_r, Nat.sub_diag. Qed.

(** A replay request is answered by its documented status, and what is launched is bounded:
    an accepted one runs a capture that passed validation, with a packet budget between 1 and
    the configured maximum, and only when no other replay was running. *)
Theorem replay_request resolve is_file py approved log_path config r o sp s
  (M : 1 <= max_replay_packets config) (Q : forall n, rq_max_packets r = Some n -> 1 <= n) :
  let v := validate_pcap_path resolve is_file (rq_pcap_path r) approved in
  match replay resolve is_file py approved log_path config r o sp s with
  | (s', Ok (Reply status body)) => status = 200 /\ exists capture, v = inl capture /\ job_running s = false /\ job_running s' = true /\
      1 <= budget config r <= max_replay_packets config /\
      popen (replay_argv py capture approved (budget config r) r) sp = Ok tt
  | (s', Ok (Problem status)) => table s'.2 = table s.2 /\
      (status = 400 /\ v = inr Unsupported \/ status = 403 /\ v = inr Traversal \/ status = 404 /\ v = inr NotFound \/
       (exists capture, v = inl capture) /\ (status = 409 /\ job_running s = true \/ status = 500 /\ job_running s = false))
  | (s', Ok (Escaped e)) => table s'.2 = table s.2 /\ (v = inr (PathError e) \/ exists capture, v = inl capture)
  | (s', Err e) => False
  end.
Proof.
  intros v. assert (1 <= budget config r <= max_replay_packets config) as B.
  { unfold budget, truthy_packets. destruct (rq_max_packets r) as [n|]; [|lia]. specialize (Q n eq_refl). case_match; bool_prop; lia. }
  unfold replay, say_job, modify, mbind at 1, se_bind at 1. fold v.
  set (s1 := (s.1, _)). assert (job_running s1 = job_running s) as J by done.
  destruct v as [capture|[]]; cbn; try (split; [done|]; eauto 10).
  unfold launch, start_job. rewrite J. destruct (job_running s) eqn:R; [split; [done|]; eauto 10|].
  destruct o as [m|]; [split; [done|]; eauto 10|].
  pose proof (popen_outcome (replay_argv py capture approved (budget config r) r) sp) as P.
  destruct (popen _ sp) as [[]|e] eqn:E.
  - set (j := {| rm_active := _; rm_proc := _ |}).
    assert (forall e, active (j, say e (add_process s1.2)) = ((j, say e (add_process s1.2)), Ok (rm_active j))) as A.
    { intros e. apply active_running with (length (table s1.2)); [done | apply (spawned_runs e s1.2)]. }
    cbv zeta. rewrite (se_bind_eq (say_job _ _) _ _ (j, say (lit "replay_started", as_dict (replay_description capture (budget config r) r)) (add_process s1.2)) tt) by done.
    rewrite (se_bind_eq _ _ _ _ _ (A _)). unfold mret, se_ret.
    split; [done|]. exists capture. split; [done|]. split; [done|]. split; [|done].
    unfold job_running. cbn [fst snd rm_proc j]. apply spawned_runs.
  - destruct P as [[m ->] | [-> _]]; (split; [done|]); eauto 10.
Qed.

(** ** What the fake PLC leaves, the controller serves *)
Definition served (t : option bytes) : registry_file := match t with None => Missing | Some b => Content b end.

Lemma ics_values_state lim fr v : wf v = true -> (nesting v <= lim)%nat ->
  ics_values lim (served (Some (state_text fr v))) = Reply 200 (normal true v).
Proof.
  intros W N. unfold ics_values, served. rewrite state_decodes by done.
  cbn [mbind res_bind]. unfold state_text. by rewrite (loads_dump (state_cfg fr) default_hooks).
Qed.

(** C30. The controller never serves half a reading: whatever fails while the fake PLC writes, and
    wherever it dies, [GET /ics-values] answers what it answered before, or the complete new
    state; once the write has returned, the new state. *)
Theorem ics_values_consistent lim fr w v f f' r (W : wf v = true) (N : (nesting v <= lim)%nat)
  (H : write_state_atomically fr w v f = (f', r)) :
  (ics_values lim (served (target f')) = ics_values lim (served (target f)) \/
   ics_values lim (served (target f')) = Reply 200 (normal true v)) /\
  (r = Ok tt -> ics_values lim (served (target f')) = Reply 200 (normal true v)).
Proof.
  destruct (write_outcome _ _ _ _ _ _ W H) as [T C]. split.
  - destruct T as [-> | ->]; [by left | right; by apply ics_values_state].
  - intros ->. destruct C as [-> _]. by apply ics_values_state.
Qed.

(** ** What publishers log, [GET /logs] returns *)
#[export] Instance event_layout fr : Layout (event_cfg fr).
Proof. split; exists [32]; (split; [done | by repeat constructor]). Qed.

Definition event_line (fr : spec_float -> str) (e : Event) : str := dump (event_cfg fr) 0 (event_dict e).

(** The bytes a publisher has appended for some events. *)
Definition event_log (fr : spec_float -> str) (es : list Event) : bytes :=
  concat (map (fun e => enc (event_line fr e ++ [10])) es).

Record loggable (lim : nat) (e : Event) : Prop := {
  lo_wf : wf (event_dict e) = true;
  lo_nesting : (nesting (event_dict e) <= lim)%nat;
}.

Lemma event_line_chars fr e : wf (event_dict e) = true ->
  str_ok (event_line fr e) = true /\ one_line (event_line fr e) = true.
Proof.
  intros W. split.
  - apply (dump_chars (event_cfg fr) is_scalar); try done. intros x Hx. apply is_scalar_spec. lia.
  - apply (dump_chars (event_cfg fr) (fun c => negb ((c =? 10) || (c =? 13)))); try done;
      intros x **; apply negb_true_iff, orb_false_iff; rewrite !Z.eqb_neq; lia.
Qed.

Lemma event_line_strip fr e : strip (event_line fr e) = event_line fr e.
Proof.
  assert (exists l, event_line fr e = 123 :: l ++ [125]) as [l ->]; [|by apply strip_id].
  unfold event_line, event_dict. cbn [dump]. rewrite wrap_shape.
  destruct (map _ _) as [|i l]; [by exists []|]. rewrite !app_assoc. by eexists.
Qed.

Lemma event_log_text fr es : Forall (fun e => wf (event_dict e) = true) es ->
  utf8_decode_replace (event_log fr es) = concat (map (fun e => event_line fr e ++ [10]) es).
Proof.
  intros F. assert (event_log fr es = enc (concat (map (fun e => event_line fr e ++ [10]) es))) as ->.
  { unfold event_log. clear F. induction es as [|e es IH]; [done|]. cbn [map concat]. by rewrite (enc_app (event_line fr e ++ [10])), IH. }
  apply decode_enc. induction F as [|e es We _ IH]; [done|]. cbn [map concat]. rewrite !str_ok_app, IH.
  by destruct (event_line_chars fr e We) as [-> _].
Qed.

Lemma event_log_lines fr es : Forall (fun e => wf (event_dict e) = true) es ->
  text_lines (concat (map (fun e => event_line fr e ++ [10]) es)) = map (event_line fr) es.
Proof.
  induction 1 as [|e es We _ IH]; [done|]. unfold text_lines in *. cbn [map concat]. rewrite <- app_assoc. cbn [app].
  rewrite split_lines_line by apply (event_line_chars fr e We). simpl. by f_equal.
Qed.

Lemma log_entry_event lim fr e : loggable lim e -> log_entry lim (event_line fr e) = Ok (Some (normal false (event_dict e))).
Proof.
  intros [W N]. unfold log_entry. rewrite event_line_strip.
  assert (event_line fr e <> []) as NE by (intros E; destruct (dump_head (event_cfg fr) 0 (event_dict e) W) as (x & t & E' & _); unfold event_line in E; congruence).
  rewrite (proj2 (str_eqb_neq _ _) NE). unfold event_line. by rewrite (loads_dump (event_cfg fr) default_hooks).
Qed.

Lemma log_entries_events lim fr limit es : Forall (loggable lim) es ->
  log_entries lim limit (map (event_line fr) es) = Ok (map (fun e => normal false (event_dict e)) (drop (length es - limit) es)).
Proof.
  intros F. unfold log_entries, last_lines. rewrite length_map, <- fmap_drop.
  apply (Forall_drop _ (length es - limit)) in F. set (l := drop _ es) in *. clearbody l.
  assert (map_res (log_entry lim) (map (event_line fr) l) = Ok (map (fun e => Some (normal false (event_dict e))) l)) as E.
  { induction F as [|e l He _ IH]; [done|]. cbn [map map_res]. rewrite log_entry_event by done. cbn [mbind res_bind].
    by rewrite IH. }
  change (event_line fr <$> l) with (map (event_line fr) l). rewrite E. cbn [mbind res_bind]. f_equal. clear.
  induction l as [|e l IH]; [done|]. cbn. by f_equal.
Qed.

(** The log is read back as it was written: for events a publisher appended, [GET /logs]
    answers exactly the last [limit] of them, in order, each as the JSON object that was
    emitted. *)
Theorem logs_return_events lim fr path limit es (F : Forall (loggable lim) es) :
  logs lim path limit (Content (event_log fr es)) =
    logs_reply path (map (fun e => normal false (event_dict e)) (drop (length es - limit) es)).
Proof.
  assert (Forall (fun e => wf (event_dict e) = true) es) as W by (eapply Forall_impl; [exact F | by intros ? []]).
  unfold logs. by rewrite event_log_text, event_log_lines, log_entries_events.
Qed.

(** A line nested beyond the interpreter's recursion limit takes the whole answer down, although
    unreadable lines are promised to stay visible. *)
Lemma deep_line_escapes path : logs 1 path 100 (Content (lit "[[1]]" ++ [10])) = Escaped RecursionError.
Proof. reflexivity. Qed.

(** Starting through the API never starts what it should not: an unknown component is a 404, a
    disabled one a 409 with nothing launched, a 200 means the component has a running child, and
    a refusal leaves the machine's processes as they were. *)
Theorem post_start_spec py name log f s
  (V : forall c, find name s.1 = Some c -> resolved (config c) (sf_executable f)) :
  match post_start py name log f s with
  | (s', Ok (Reply status _)) => status = 200 /\ exists c, find name s'.1 = Some c /\ enabled (config c) = true /\ is_running (c, s'.2) = true
  | (s', Ok (Problem status)) => table s'.2 = table s.2 /\
      (status = 404 /\ find name s.1 = None \/
       exists c, find name s.1 = Some c /\
         (status = 409 /\ enabled (config c) = false \/ status = 500 /\ enabled (config c) = true /\ is_running (c, s.2) = false))
  | (s', Ok (Escaped e)) => e = ValueError "embedded null byte" /\ table s'.2 = table s.2
  | (s', Err _) => False
  end.
Proof.
  unfold post_start. destruct (find name s.1) as [c|] eqn:F; [|auto]. specialize (V c eq_refl).
  destruct (enabled (config c)) eqn:E; cbn [negb]; cbv iota; [|split; [done|]; right; eauto].
  unfold start_component, on_component. rewrite F.
  pose proof (start_result py name f (c, s.2) V) as R. pose proof (start_tended py name f (c, s.2)) as T.
  destruct (start py name f (c, s.2)) as [[c' M] [b|e]]; cbn [fst snd] in *.
  - destruct R as (Rr & Rf & Rt). destruct b.
    + unfold component_reply. cbn [fst snd]. rewrite (find_put _ _ _ _ _ F), str_eqb_refl. split; [done|].
      exists c'. destruct T as [Tc _ _ _]. cbn [fst snd] in *. by rewrite Tc.
    + destruct (Rt eq_refl) as [Tt Tr]. cbn [fst snd] in *. split; [done|]. right. exists c. split; [done|]. right. done.
  - destruct R as (-> & X & _). by injection X as -> ->.
Qed.

(** ** Witnesses *)
Definition sample_request : ReplayRequest := {|
  rq_pcap_path := lit "a.pcap"; rq_max_packets := Some 7; rq_modbus_target := lit "127.0.0.1:5020"; rq_dnp3_target := lit "127.0.0.1:20000" |}.
Definition sample_replay (s : Jobs) : Jobs * res response :=
  replay same_path (fun _ => true) (lit "python") [lit "data"] (lit "replay.log") default_config sample_request None None s.

Lemma replay_request_witness :
  match sample_replay (no_job, empty_machine) with
  | (s', Ok (Reply status _)) => status = 200 /\ job_running s' = true /\ 1 <= budget default_config sample_request <= 5000
  | _ => False
  end.
Proof.
  pose proof (replay_request same_path (fun _ => true) (lit "python") [lit "data"] (lit "replay.log") default_config
    sample_request None None (no_job, empty_machine) ltac:(done) ltac:(by intros n [= <-])) as H.
  change (replay _ _ _ _ _ _ _ _ _ _) with (sample_replay (no_job, empty_machine)) in H.
  destruct (sample_replay (no_job, empty_machine)) as [s' [[status body|status|e]|e]] eqn:E; cbv zeta in H.
  - destruct H as (? & capture & _ & _ & ? & ? & _). done.
  - apply (f_equal snd) in E. vm_compute in E. discriminate E.
  - apply (f_equal snd) in E. vm_compute in E. discriminate E.
  - done.
Defined.

Definition one_job : Jobs := (start_job [lit "python"] (lit "log") [] None None (no_job, empty_machine)).1.

Lemma replay_exclusive_witness : running one_job.2 0 = true /\ rm_proc one_job.1 = Some 0%nat.
Proof.
  split; [reflexivity|].
  exact (proj1 (proj2 (replay_exclusive one_job (rtc_once _ _ (JobStart _ _ _ _ _ _)) 0%nat 0%nat eq_refl eq_refl))).
Defined.

Lemma ics_values_consistent_witness :
  ics_values 100 (served (target (write_state_atomically fr0 calm sample_state sample_files).1)) = Reply 200 (normal true sample_state).
Proof.
  destruct (write_state_atomically fr0 calm sample_state sample_files) as [f r] eqn:E.
  assert (r = Ok tt) as R by (apply (f_equal snd) in E; vm_compute in E; by rewrite E).
  exact (proj2 (ics_values_consistent 100 fr0 calm sample_state sample_files f r ltac:(by vm_compute) ltac:(by apply Nat.leb_le) E) R).
Defined.

Definition sample_event (n : Z) : Event := build_event (lit "modbus") (lit "modbus_request") [(KStr (lit "unit_id"), VInt n)] (lit "2026-08-05T00:00:00+00:00").

Lemma logs_return_events_witness :
  logs 100 (lit "events.jsonl") 1 (Content (event_log fr0 [sample_event 1; sample_event 2])) =
  logs_reply (lit "events.jsonl") [normal false (event_dict (sample_event 2))].
Proof.
  apply (logs_return_events 100 fr0 (lit "events.jsonl") 1 [sample_event 1; sample_event 2]).
  repeat constructor; solve [by vm_compute | by apply Nat.leb_le].
Defined.

Lemma post_start_spec_witness : exists s' body, post_start (lit "python") (lit "a") (lit "a.log") easy_start (initial sample_components) = (s', Ok (Reply 200 body)) /\
  exists c, find (lit "a") s'.1 = Some c /\ enabled (config c) = true /\ is_running (c, s'.2) = true.
Proof.
  eexists _, _. split; [reflexivity|].
  exact (proj2 (post_start_spec (lit "python") (lit "a") (lit "a.log") easy_start (initial sample_components) ltac:(intros c [= <-]; done))).
Defined.
