(* ===== verification/Programs.v ===== *)
(** The programs of the decoys: the command lines and the [main] functions of
    [honeypots/modbus_server.py], [honeypots/dnp3_sensor.py], [iot_nodes/fake_plc.py],
    [datasets/pcap_loader.py], and the command line of [controller/cli.py].

    A program is a function of its arguments.  What making the publisher, binding the address
    and serving end in is given; a serving loop ends by an interrupt or by an exception. *)
From S2P Require Import Prelude PyText PyStr Json JsonFacts Models CryptoBackend EvidenceStore Modbus Sockets ModbusServer FakePlc Dnp3Sensor Capture ArgTypes ArgParse ArgParseFacts ControllerConfig ControllerCli Supervisor.

(** [float(text)] of a literal of the source. *)
Definition float_literal_of (s : string) : pyfloat := default zero (float_of no_digits (lit s)).

(** The value of a float in an event. *)
Definition float_value (x : pyfloat) : value :=
  VFloat (match x with
          | NaN => S754_nan
          | Inf n => S754_infinity n
          | Dyadic (Zpos m) e => S754_finite false m e
          | Dyadic (Zneg m) e => S754_finite true m e
          | Dyadic 0 _ => S754_zero false
          end).

Section Programs.
Context (U : UnicodeDigits).

(** ** Command lines *)
Definition int_option (name : string) (read : str -> res Z) (d : Z) : Action := stored name (as_int read) (AInt d).
Definition float_option (name : string) (d : string) : Action :=
  stored name (as_float (positive_float U)) (AFloat (float_literal_of d)).
Definition LOCALHOST : str := lit "127.0.0.1".

Definition modbus_parser : Parser := [
  text_option "--host" (Some LOCALHOST); int_option "--port" (port_number U) 5020;
  int_option "--registers" (bounded_int U 1 (Some 65536)) DEFAULT_REGISTERS;
  int_option "--crit-start" (bounded_int U 0 (Some 0xFFFF)) 100; int_option "--crit-end" (bounded_int U 0 (Some 0xFFFF)) 110;
  float_option "--timeout" "30.0"; text_option "--log" None].

Definition dnp3_parser : Parser := [
  text_option "--host" (Some LOCALHOST); int_option "--port" (port_number U) 20000; float_option "--timeout" "20.0";
  text_option "--log" None].

Definition plc_parser : Parser := [
  text_option "--target-host" (Some LOCALHOST); int_option "--target-port" (port_number U) 5020;
  int_option "--unit-id" (bounded_int U 0 (Some 255)) 1; int_option "--address" (bounded_int U 0 (Some 0xFFFF)) 0;
  int_option "--quantity" (bounded_int U 1 (Some 125)) 8; float_option "--interval" "10.0"; float_option "--timeout" "3.0";
  flag "--once"; text_option "--state-file" None; text_option "--log" None].

Definition pcap_parser : Parser := [
  required_text "--pcap"; text_option "--approved-dir" None; flag "--replay";
  text_option "--modbus-target" (Some (lit "127.0.0.1:5020")); text_option "--dnp3-target" (Some (lit "127.0.0.1:20000"));
  int_option "--max-packets" (positive_int U) DEFAULT_MAX_PACKETS; float_option "--replay-timeout" "2.0"; text_option "--log" None].

Definition controller_parser : Parser := [
  text_option "--config" (Some (lit "config/controller.json")); text_option "--host" None;
  stored "--port" (as_int (port_number U)) ANone; text_option "--log" None; text_option "--write-default-config" None].

(** ** The servers *)
Abbreviation Event := (str * dict)%type.

(** A server that has been serving, with what it was given. *)
Inductive Server :=
| Modbus_ (host : str) (port : Z) (bank : RegisterBank) (client_timeout : pyfloat)
| Dnp3_ (host : str) (port : Z) (client_timeout : pyfloat).

Record Host := {
  ho_events : list Event;
  ho_served : list Server;
}.

(** What the system answers: the publisher, the bound address, and how serving ends - [None] for
    an interrupt. *)
Record Serving := {
  sv_publisher : res unit;
  sv_bind : str -> Z -> res (str * Z);
  sv_serve : option exn;
}.

Definition announce (event_type : string) (details : fields) : SE Host unit := modify (fun h =>
  {| ho_events := ho_events h ++ [(lit event_type, as_dict (map (fun kv => (lit kv.1, kv.2)) details))]; ho_served := ho_served h |}).
Definition serve_forever (server : Server) (end_ : option exn) : SE Host unit := fun h =>
  ({| ho_events := ho_events h; ho_served := ho_served h ++ [server] |}, match end_ with None => Ok tt | Some e => Err e end).

(** [try: m finally: f]; a process that dies does not get there. *)
Definition finally {S A} (m : SE S A) (f : SE S unit) : SE S A := fun s =>
  match m s with
  | (s', Err (Crash d)) => (s', Err (Crash d))
  | (s', r) => match f s' with (s'', Ok _) => (s'', r) | (s'', Err e) => (s'', Err e) end
  end.

Definition address (bound : str * Z) : fields := [("host", VStr bound.1); ("port", VInt bound.2)]%string.

Definition modbus_main (w : Serving) (argv : list str) : SE Host Z :=
  args ← lift (parse_args U modbus_parser argv);
  if int_of_arg args "crit_end" <? int_of_arg args "crit_start" then mret 2
  else
    lift (sv_publisher w) ;;
    let bank := new_bank (int_of_arg args "registers") (int_of_arg args "crit_start") (int_of_arg args "crit_end") in
    bound ← lift (sv_bind w (text_of args "host") (int_of_arg args "port"));
    announce "modbus_server_startup" (address bound) ;;
    finally (serve_forever (Modbus_ (text_of args "host") (int_of_arg args "port") bank (float_of_arg args "timeout")) (sv_serve w))
      (announce "modbus_server_shutdown" (address bound)) ;;
    mret 0.

Definition dnp3_main (w : Serving) (argv : list str) : SE Host Z :=
  args ← lift (parse_args U dnp3_parser argv);
  lift (sv_publisher w) ;;
  bound ← lift (sv_bind w (text_of args "host") (int_of_arg args "port"));
  announce "dnp3_sensor_startup" (address bound ++
    [("note", VStr (lit "DNP3-inspired interaction sensor; not a protocol implementation"))]%string) ;;
  finally (serve_forever (Dnp3_ (text_of args "host") (int_of_arg args "port") (float_of_arg args "timeout")) (sv_serve w))
    (announce "dnp3_sensor_shutdown" (address bound)) ;;
  mret 0.

(** ** The fake PLC *)
Section FakePlcMain.
Context (float_repr : spec_float -> str).

Definition plc_settings (args : Namespace) : Settings := {|
  st_target := text_of args "target_host" ++ [58] ++ dec_digits (int_of_arg args "target_port");
  st_unit_id := int_of_arg args "unit_id"; st_address := int_of_arg args "address"; st_quantity := int_of_arg args "quantity" |}.

(** [str(Path(s))]: one slash between the components, two at the start where there are
    exactly two. *)
Definition path_text (s : str) : str :=
  let root := if is_absolute s then (if starts_with (lit "//") s && negb (starts_with (lit "///") s) then lit "//" else lit "/") else [] in
  match root ++ join [47] (parts s) with [] => [46] | text => text end.
Example path_texts : map path_text (map lit ["a//b/./c/"; "//srv/x"; "///x"; "/"; ""; "../x"]%string) =
  map lit ["a/b/c"; "//srv/x"; "/x"; "/"; "."; "../x"]%string.
Proof. reflexivity. Qed.

(** The loop, one round after another until the sleep after the last is interrupted. *)
Fixpoint plc_loop (once : bool) (a : Settings) (w : Weather) (l : list Weather) (transaction_id : Z) : SE Plc Z :=
  r ← round float_repr a w transaction_id;
  if once then mret r.2
  else
    match l with
    | [] => tell (lit "fake_plc_shutdown", []) ;; mret 0
    | w :: l => plc_loop once a w l r.1
    end.

Definition plc_main (publisher : res unit) (state_path : res path) (w : Weather) (l : list Weather) (argv : list str) : SE Plc Z :=
  args ← lift (parse_args U plc_parser argv);
  lift publisher ;;
  state_file ← lift (match text_opt args "state_file" with
                     | Some ((_ :: _) as p) => Ok (path_text p)
                     | _ => p ← state_path; Ok (slashed p)
                     end);
  let a := plc_settings args in
  tell (lit "fake_plc_startup", as_dict [
    (lit "target_host", VStr (text_of args "target_host")); (lit "target_port", VInt (int_of_arg args "target_port"));
    (lit "interval", float_value (float_of_arg args "interval")); (lit "state_file", VStr state_file)]) ;;
  plc_loop (flag_of args "once") a w l 0.
End FakePlcMain.

(** ** Captures *)
Section CaptureMain.
Context (cwd : path) (absolute : str -> res path) (resolve : path -> res path) (is_file : path -> bool).

Definition is_value_error (e : exn) : bool := match value_error e with Some _ => true | None => false end.

(** [scapy]: what it reads from a capture, if it is installed. *)
Definition pcap_main (env : PathEnv) (publisher : res unit) (scapy : option (path -> list (res Packet * option string)))
    (argv : list str) : SE Run Z :=
  args ← lift (parse_args U pcap_parser argv);
  lift publisher ;;
  approved ← lift (match text_opt args "approved_dir" with
                   | Some ((_ :: _) as d) => absolute d
                   | _ => pcap_dir cwd absolute resolve env
                   end);
  match validate_pcap_path resolve is_file (text_of args "pcap") approved with
  | inr (PathError e) => if is_value_error e then mret 2 else raise e
  | inr _ => mret 2
  | inl capture =>
    modbus ← lift (parse_host_port U (text_of args "modbus_target") 5020);
    dnp3 ← lift (parse_host_port U (text_of args "dnp3_target") 20000);
    let targets := {| modbus_host := modbus.1; modbus_port := modbus.2; dnp3_host := dnp3.1; dnp3_port := dnp3.2 |} in
    match scapy with
    | None => mret 3
    | Some read =>
      analyse_capture (flag_of args "replay") targets (int_of_arg args "max_packets") (slashed capture) (read capture) ;;
      mret 0
    end
  end.
End CaptureMain.

(** ** The controller *)
Definition controller_options (args : Namespace) : Options := {|
  op_config := text_of args "config"; op_host := text_opt args "host"; op_port := int_opt args "port";
  op_write_default_config := text_opt args "write_default_config" |}.

Definition controller_main (other_alnum : Z -> bool) (lim : nat) (coerce : value -> option ControllerConfig) (cwd root : path)
    (start : ControllerConfig -> res unit) (opened w : io) (argv : list str) : SE (gmap path KeyRegistry.registry_file) ending :=
  args ← lift (parse_args U controller_parser argv);
  main other_alnum lim coerce cwd root start (controller_options args) opened w.
End Programs.
