(* ===== verification/ProgramsFacts.v ===== *)
(** What the decoys' programs do for every command line. *)
From S2P Require Import Prelude PyText PyStr Json JsonFacts Models CryptoBackend EvidenceStore Modbus Sockets ModbusServer FakePlc Dnp3Sensor Capture ArgTypes ArgParse ArgParseFacts ControllerConfig ControllerCli Supervisor Programs.

Section Facts.
Context (U : UnicodeDigits).

Lemma bounded lo hi s n : bounded_int U lo (Some hi) s = Ok n -> lo <= n <= hi.
Proof. intros H%bounded_int_ok. lia. Qed.

Definition positive (x : pyfloat) : Prop := exists m e, x = Dyadic m e /\ 0 < m.

Lemma positive_read s x : positive_float U s = Ok x -> positive x.
Proof. apply positive_float_ok. Qed.

(** Options are found where they are declared. *)
Ltac declared := apply list_elem_of_In; simpl; repeat (first [left; reflexivity | right]).
Ltac int_arg A P i :=
  match type of A with parse_args _ ?p _ = Ok _ =>
    eapply (int_attribute U p _ _ (eq_refl : dests_ok p = true) A P i) end; [declared | done | done | done | | intros ? ?].
Ltac float_arg A P i :=
  match type of A with parse_args _ ?p _ = Ok _ =>
    eapply (float_attribute U p _ _ (eq_refl : dests_ok p = true) A P i) end; [declared | done | done | done | | intros ? ?].

(** ** The servers *)
Record good_bank (b : RegisterBank) : Prop := {
  gb_size : 1 <= size b <= 65536;
  gb_registers : zlen (registers b) = size b;
  gb_critical : 0 <= critical_start b <= critical_end b /\ critical_end b <= 0xFFFF;
}.

Definition good_server (s : Server) : Prop :=
  match s with
  | Modbus_ _ port bank timeout => 1 <= port <= 65535 /\ good_bank bank /\ positive timeout
  | Dnp3_ _ port timeout => 1 <= port <= 65535 /\ positive timeout
  end.

Lemma modbus_arguments argv args : parse_args U (modbus_parser U) argv = Ok args ->
  1 <= int_of_arg args "port" <= 65535 /\ 1 <= int_of_arg args "registers" <= 65536 /\
  0 <= int_of_arg args "crit_start" <= 0xFFFF /\ 0 <= int_of_arg args "crit_end" <= 0xFFFF /\ positive (float_of_arg args "timeout").
Proof.
  intros A. split; [|split; [|split; [|split]]].
  - int_arg A (fun n => 1 <= n <= 65535) (int_option "--port" (port_number U) 5020); [lia | apply bounded].
  - int_arg A (fun n => 1 <= n <= 65536) (int_option "--registers" (bounded_int U 1 (Some 65536)) DEFAULT_REGISTERS); [by unfold DEFAULT_REGISTERS | apply bounded].
  - int_arg A (fun n => 0 <= n <= 0xFFFF) (int_option "--crit-start" (bounded_int U 0 (Some 0xFFFF)) 100); [lia | apply bounded].
  - int_arg A (fun n => 0 <= n <= 0xFFFF) (int_option "--crit-end" (bounded_int U 0 (Some 0xFFFF)) 110); [lia | apply bounded].
  - float_arg A positive (float_option U "--timeout" "30.0"); [by eexists _, _ | apply positive_read].
Qed.

Lemma dnp3_arguments argv args : parse_args U (dnp3_parser U) argv = Ok args ->
  1 <= int_of_arg args "port" <= 65535 /\ positive (float_of_arg args "timeout").
Proof.
  intros A. split.
  - int_arg A (fun n => 1 <= n <= 65535) (int_option "--port" (port_number U) 20000); [lia | apply bounded].
  - float_arg A positive (float_option U "--timeout" "20.0"); [by eexists _, _ | apply positive_read].
Qed.

Definition heard (event_type : string) (d : fields) : str * dict := (lit event_type, as_dict (map (fun kv => (lit kv.1, kv.2)) d)).

(** How a server's run ends, after its startup event. *)
Definition session (up down : str * dict) (server : Server) (end_ : option exn) (h : Host) : Host * res Z :=
  ({| ho_events := ho_events h ++ match end_ with Some (Crash _) => [up] | _ => [up; down] end; ho_served := ho_served h ++ [server] |},
   match end_ with None => Ok 0 | Some e => Err e end).

Lemma session_spec up down d d' server e h :
  (announce up d ;; finally (serve_forever server e) (announce down d') ;; mret 0) h =
    session (heard up d) (heard down d') server e h.
Proof.
  unfold session, announce, serve_forever, finally, modify, mbind, se_bind. cbn [fst snd ho_events ho_served].
  destruct e as [e|]; [destruct e|]; cbn; by rewrite <- ?app_assoc.
Qed.

Lemma new_bank_good n a b : 1 <= n <= 65536 -> 0 <= a <= b -> b <= 0xFFFF -> good_bank (new_bank n a b).
Proof. intros. split; [done | | done]. cbn [new_bank registers size]. unfold zlen. rewrite length_replicate. lia. Qed.

(** Nothing serves that should not: whatever the command line of a decoy, either it exits - or
    fails - before anything is bound for service, leaving no event behind, or exactly one server
    serves, with a port, a register bank and a timeout within their bounds, its startup event
    followed by its shutdown event however serving ends short of the process dying. *)
Definition decoy_outcome (w : Serving) (up down : string) (h h' : Host) (r : res Z) : Prop :=
  (h' = h /\ (r = Ok 2 \/ exists e, r = Err e)) \/
  (exists server bound d, good_server server /\ session (heard up (address bound ++ d)) (heard down (address bound)) server (sv_serve w) h = (h', r)).

Lemma modbus_outcome w argv h h' r : modbus_main U w argv h = (h', r) -> decoy_outcome w "modbus_server_startup" "modbus_server_shutdown" h h' r.
Proof.
  unfold modbus_main. intros [(e & _ & -> & ->) | (args & A & E)]%lift_bind_cases; [left; eauto|].
  destruct (modbus_arguments argv args A) as (P & R & C & D & T).
  destruct (int_of_arg args "crit_end" <? int_of_arg args "crit_start") eqn:X; [injection E as <- <-; left; auto|]. bool_prop.
  apply lift_bind_cases in E as [(e & _ & -> & ->) | ([] & _ & E)]; [left; eauto|]. cbv zeta in E.
  apply lift_bind_cases in E as [(e & _ & -> & ->) | (bound & _ & E)]; [left; eauto|].
  right. eexists _, bound, []. rewrite app_nil_r. rewrite session_spec in E. split; [|exact E]. split; [done|]. split; [|done]. apply new_bank_good; lia.
Qed.

Lemma dnp3_outcome w argv h h' r : dnp3_main U w argv h = (h', r) -> decoy_outcome w "dnp3_sensor_startup" "dnp3_sensor_shutdown" h h' r.
Proof.
  unfold dnp3_main. intros [(e & _ & -> & ->) | (args & A & E)]%lift_bind_cases; [left; eauto|].
  destruct (dnp3_arguments argv args A) as (P & T).
  apply lift_bind_cases in E as [(e & _ & -> & ->) | ([] & _ & E)]; [left; eauto|].
  apply lift_bind_cases in E as [(e & _ & -> & ->) | (bound & _ & E)]; [left; eauto|].
  right. eexists _, bound, _. rewrite session_spec in E. split; [|exact E]. by split.
Qed.

(** C18. Nothing serves that should not: whatever the command line, the Modbus decoy and the DNP3
    sensor either stop before they serve, leaving no event behind, or serve exactly once, with
    a port, a register bank and a timeout within their bounds, the startup event followed by
    the shutdown event however serving ends short of the process dying. *)
Theorem decoys_serve_safely w argv h :
  (let '(h', r) := modbus_main U w argv h in decoy_outcome w "modbus_server_startup" "modbus_server_shutdown" h h' r) /\
  (let '(h', r) := dnp3_main U w argv h in decoy_outcome w "dnp3_sensor_startup" "dnp3_sensor_shutdown" h h' r).
Proof.
  split; [destruct (modbus_main U w argv h) eqn:E; by apply (modbus_outcome w argv) | destruct (dnp3_main U w argv h) eqn:E; by apply (dnp3_outcome w argv)].
Qed.

(** ** The fake PLC *)
Section Plc.
Context (fr : spec_float -> str).

Lemma texts_append a b : str_ok (a ++ b) = str_ok a && str_ok b.
Proof. apply forallb_app. Qed.

Lemma plc_arguments argv args : parse_args U (plc_parser U) argv = Ok args -> Forall (fun s => str_ok s = true) argv ->
  settings_ok (plc_settings args) /\ 1 <= st_quantity (plc_settings args) <= 125 /\ 1 <= int_of_arg args "target_port" <= 65535 /\
  positive (float_of_arg args "interval") /\ positive (float_of_arg args "timeout").
Proof.
  intros A F.
  assert (1 <= int_of_arg args "target_port" <= 65535) as P
    by (int_arg A (fun n => 1 <= n <= 65535) (int_option "--target-port" (port_number U) 5020); [lia | apply bounded]).
  assert (1 <= int_of_arg args "quantity" <= 125) as Q
    by (int_arg A (fun n => 1 <= n <= 125) (int_option "--quantity" (bounded_int U 1 (Some 125)) 8); [lia | apply bounded]).
  split; [|split; [exact Q | split; [exact P | split]]].
  - split; cbn [plc_settings st_target st_unit_id st_address st_quantity].
    + rewrite !texts_append. apply andb_true_iff. split; [|apply andb_true_iff; split; [done|]].
      * apply (text_attribute U str_ok texts_append (plc_parser U) argv args (text_option "--target-host" (Some LOCALHOST))); try done; [declared|].
        by intros s [= <-].
      * destruct (dec_digits_spec (int_of_arg args "target_port") ltac:(lia)) as (d & ds & -> & Fd & _). apply forallb_Forall.
        eapply Forall_impl; [exact Fd|]. intros c Hc. unfold is_digit in Hc. bool_prop. apply is_scalar_spec. lia.
    + int_arg A (fun n => 0 <= n <= 255) (int_option "--unit-id" (bounded_int U 0 (Some 255)) 1); [lia | apply bounded].
    + assert (0 <= int_of_arg args "address" <= 0xFFFF); [|lia].
      int_arg A (fun n => 0 <= n <= 0xFFFF) (int_option "--address" (bounded_int U 0 (Some 0xFFFF)) 0); [lia | apply bounded].
    + lia.
  - float_arg A positive (float_option U "--interval" "10.0"); [by eexists _, _ | apply positive_read].
  - float_arg A positive (float_option U "--timeout" "3.0"); [by eexists _, _ | apply positive_read].
Qed.

Lemma plc_loop_outcome once a l : settings_ok a -> Forall weather_ok l -> forall w t s, weather_ok w -> 0 <= t ->
  exists s' code, plc_loop fr once a w l t s = (s', Ok code) /\ (code = 0 \/ code = 1) /\
    exists events, s'.2 = s.2 ++ events /\ ((if once then 1 else S (length l)) <= length events)%nat.
Proof.
  intros A F. induction F as [|w' l Hw' F IH]; intros w t s W T;
    destruct (round_outcome fr a w t s A W T) as (s1 & r & ev & E & T1 & _); cbn [plc_loop]; rewrite (se_bind_eq _ _ _ _ _ E); cbn [fst snd];
    destruct once.
  1,3: exists s1, (match r with inl _ => 0 | inr _ => 1 end); split; [done|]; split; [destruct r; auto|]; eexists; (split; [exact T1 | simpl; lia]).
  - eexists _, 0. split; [reflexivity|]. split; [by left|]. eexists. cbn [snd]. rewrite T1, <- app_assoc. split; [done|]. simpl. rewrite length_app. simpl. lia.
  - destruct (IH w' (next_transaction_id t) s1 Hw') as (s2 & c & E2 & C2 & ev2 & T2 & L2); [pose proof (next_transaction_id_range t T); lia|].
    exists s2, c. split; [done|]. split; [done|]. eexists. rewrite T2, T1, <- app_assoc. split; [done|]. simpl. rewrite length_app. lia.
Qed.

(** The fake PLC as a program: a command line is refused with 2 (or 0 for help) before anything
    happens; one that is accepted makes it poll until it is interrupted, whatever the network
    and the disk do, one report a round - or once, if asked to -, with exit status 0 or 1. *)
Theorem plc_program publisher state_path w l argv s : Forall (fun x => str_ok x = true) argv -> Forall weather_ok (w :: l) ->
  match plc_main U fr publisher state_path w l argv s with
  | (s', Ok code) => (code = 0 \/ code = 1) /\ exists args events, parse_args U (plc_parser U) argv = Ok args /\
      s'.2 = s.2 ++ events /\ ((if flag_of args "once" then 2 else S (S (length l))) <= length events)%nat
  | (s', Err e) => s' = s /\ (parse_args U (plc_parser U) argv = Err e \/ publisher = Err e \/ state_path = Err e)
  end.
Proof.
  intros F [W Wl]%Forall_cons. unfold plc_main. rewrite lift_bind. destruct (parse_args U (plc_parser U) argv) as [args|e] eqn:A; [|auto].
  rewrite lift_bind. destruct publisher as [[]|e]; [|auto]. rewrite lift_bind.
  destruct (match text_opt args "state_file" with Some ((_ :: _) as p) => Ok (path_text p) | _ => p ← state_path; Ok (slashed p) end) as [sf|e] eqn:S.
  - destruct (plc_arguments argv args A F) as (So & _). set (up := (lit "fake_plc_startup", _)).
    rewrite (se_bind_eq (tell up) _ s (s.1, s.2 ++ [up]) tt) by done.
    destruct (plc_loop_outcome (flag_of args "once") (plc_settings args) l So Wl w 0 (s.1, s.2 ++ [up]) W) as (s' & c & -> & C & ev & E & L); [lia|].
    split; [done|]. exists args, (up :: ev). cbn [snd] in E. rewrite E, <- app_assoc. split; [done|]. split; [done|]. destruct (flag_of args "once"); simpl; lia.
  - split; [done|]. right; right. destruct (text_opt args "state_file") as [[|]|]; [| done |]; by destruct state_path; [done | injection S as ->].
Qed.
End Plc.
End Facts.
