(* ===== verification/Deployment.v ===== *)
(** The programs as the controller runs them: the replay job it starts, the components it ships
    with, and its own command line.

    Of [pathlib] the controller and its job rely on [Path.resolve] giving normalised absolute
    paths that resolve to themselves. *)
From S2P Require Import Prelude PyText PyStr Json JsonFacts Models CryptoBackend KeyRegistry EvidenceStore Modbus Sockets ModbusServer FakePlc Dnp3Sensor Capture ArgTypes ArgParse ArgParseFacts ControllerConfig ControllerCli Supervisor Controller Programs ProgramsFacts.

(** ** Paths printed and read back *)
Definition component_ok (c : str) : bool :=
  negb (str_eqb c []) && negb (str_eqb c [46]) && forallb (fun x => negb (x =? 47)) c.
Definition normal_path (p : path) : Prop := Forall (fun c => component_ok c = true) p.

Lemma split_component c : forall rest cur, Forall (fun x => (x =? 47) = false) c ->
  split_on 47 (c ++ rest) cur = split_on 47 rest (cur ++ c).
Proof.
  induction c as [|x c IH]; intros rest cur F; [by rewrite app_nil_r|]. apply Forall_cons in F as [Hx F].
  cbn [app split_on]. rewrite Hx, IH by done. by rewrite <- app_assoc.
Qed.

Lemma split_slashed p : normal_path p -> forall cur, split_on 47 (concat (map (fun c => 47 :: c) p)) cur = cur :: p.
Proof.
  induction 1 as [|c p Hc _ IH]; intros cur; [done|]. cbn [map concat app split_on Z.eqb Pos.eqb].
  unfold component_ok in Hc. bool_prop. f_equal. rewrite split_component; [by rewrite IH|].
  apply List.Forall_forall. intros x Hx. match goal with H : forallb _ c = true |- _ => rewrite forallb_forall in H; specialize (H x Hx) end. by bool_prop; apply Z.eqb_neq.
Qed.

Lemma parts_slashed p : normal_path p -> parts (slashed p) = p.
Proof.
  intros N. assert (forall l, normal_path l -> List.filter (fun q => negb (str_eqb q []) && negb (str_eqb q [46])) l = l) as F.
  { induction 1 as [|c l Hc _ IH]; [done|]. simpl. unfold component_ok in Hc. apply andb_true_iff in Hc as [-> _]. by f_equal. }
  destruct p as [|c p]; [done|]. unfold parts, slashed. rewrite split_slashed by done. exact (F (c :: p) N).
Qed.

Lemma slashed_absolute p : is_absolute (slashed p) = true.
Proof. by destruct p. Qed.

Lemma slashed_plain p : plain (slashed p) = true.
Proof. by destruct p. Qed.

(** ** The replay job *)
Section Job.
Context (U : UnicodeDigits) (cwd : path) (absolute : str -> res path) (resolve : path -> res path) (is_file : path -> bool).
Context (Resolved : forall p q, resolve p = Ok q -> resolve q = Ok q /\ normal_path q).
Context (Absolute : forall p, normal_path p -> absolute (slashed p) = resolve p).

(** The arguments after the interpreter and its [-m module]. *)
Definition job_arguments (argv : list str) : list str := drop 3 argv.

Definition allowed_suffix (p : path) : bool := str_in (lower (suffix (slashed p))) ALLOWED_PCAP_SUFFIXES.

(** A capture the controller accepts is one its job accepts, if its resolved name has the suffix
    of a capture. *)
Lemma revalidated d approved candidate capture : resolve d = Ok approved ->
  validate_pcap_path resolve is_file candidate approved = inl capture ->
  absolute (slashed approved) = Ok approved /\
  validate_pcap_path resolve is_file (slashed capture) approved = if allowed_suffix capture then inl capture else inr Unsupported.
Proof using Resolved Absolute.
  intros D V. destruct (Resolved d approved D) as [Ra Na]. split; [by rewrite Absolute|].
  unfold validate_pcap_path in *. rewrite Ra in *. destruct (negb (str_in (lower (suffix candidate)) ALLOWED_PCAP_SUFFIXES)); [done|].
  destruct (resolve (if is_absolute candidate then parts candidate else approved ++ parts candidate)) as [q|] eqn:Q; [|done].
  destruct (Resolved _ _ Q) as [Rq Nq].
  destruct (within approved q) eqn:W; [|done]. destruct (is_file q) eqn:I; [|done]. cbn [negb] in V. injection V as <-.
  unfold allowed_suffix. rewrite slashed_absolute, parts_slashed, Rq, W, I by done. by destruct (str_in _ _).
Qed.

Definition target_ok (s : str) : bool :=
  match classify U (pcap_parser U) s with Ok (Word _) => negb (str_eqb s (lit "--")) | _ => false end.

Lemma target_ok_spec s : target_ok s = true <-> is_value U (pcap_parser U) s.
Proof.
  unfold target_ok, is_value. split.
  - destruct (classify U (pcap_parser U) s) as [[w| | |]|] eqn:C; try done. intros H. bool_prop. apply str_eqb_neq in H.
    split; [done|]. destruct (classify_raw U _ _ _ C) as [R _]. cbn [raw] in R. by subst.
  - intros [N ->]. by apply negb_true_iff, str_eqb_neq.
Qed.

(** What the job makes of its targets. *)
Definition job_targets (r : ReplayRequest) : res ReplayTargets :=
  modbus ← parse_host_port U (rq_modbus_target r) 5020;
  dnp3 ← parse_host_port U (rq_dnp3_target r) 20000;
  Ok {| modbus_host := modbus.1; modbus_port := modbus.2; dnp3_host := dnp3.1; dnp3_port := dnp3.2 |}.

Definition job_run (scapy : option (path -> list (res Packet * option string))) (capture : path) (n : Z) (r : ReplayRequest) : SE Run Z :=
  targets ← lift (job_targets r);
  match scapy with
  | None => mret 3
  | Some read => analyse_capture true targets n (slashed capture) (read capture) ;; mret 0
  end.

(** The options the controller writes. *)
Definition job_settings (capture approved : path) (n : Z) (r : ReplayRequest) : list (Action * option str) := [
  (required_text "--pcap", Some (slashed capture)); (text_option "--approved-dir" None, Some (slashed approved));
  (flag "--replay", None); (int_option "--max-packets" (positive_int U) DEFAULT_MAX_PACKETS, Some (dec_digits n));
  (text_option "--modbus-target" (Some (lit "127.0.0.1:5020")), Some (rq_modbus_target r));
  (text_option "--dnp3-target" (Some (lit "127.0.0.1:20000")), Some (rq_dnp3_target r))].

Lemma job_written py capture approved n r : job_arguments (replay_argv py capture approved n r) = written (job_settings capture approved n r).
Proof. reflexivity. Qed.

Lemma digits_value n : 1 <= n < INT_LIMIT -> positive_int U (dec_digits n) = Ok n /\ plain (dec_digits n) = true /\ dec_digits n <> lit "--".
Proof.
  intros H. split; [apply bounded_int_ok; split; [apply py_int_digits; lia | lia]|].
  destruct (dec_digits_spec n) as (d & ds & -> & F & _); [lia|]. apply Forall_cons in F as [Hd _]. unfold is_digit in Hd. bool_prop.
  unfold plain, starts. destruct (Z.eqb_spec d 45) as [->|N]; [lia|]. split; [done|]. intros [= -> _]. lia.
Qed.

(** The namespace the job reads them into. *)
Definition job_namespace (capture approved : path) (n : Z) (r : ReplayRequest) : Namespace :=
  <[lit "dnp3_target" := AStr (rq_dnp3_target r)]> (<[lit "modbus_target" := AStr (rq_modbus_target r)]> (
  <[lit "max_packets" := AInt n]> (<[lit "replay" := ABool true]> (<[lit "approved_dir" := AStr (slashed approved)]> (
  <[lit "pcap" := AStr (slashed capture)]> (defaults (pcap_parser U))))))).

Lemma converted_text s : s <> lit "--" -> converted as_text s = Ok (AStr s).
Proof. intros N. unfold converted. by rewrite (proj2 (str_eqb_neq _ _) N). Qed.

Lemma slashed_not_dashes p : slashed p <> lit "--".
Proof. by destruct p. Qed.

Lemma job_assigned capture approved n r : 1 <= n < INT_LIMIT -> rq_modbus_target r <> lit "--" -> rq_dnp3_target r <> lit "--" ->
  assign (job_settings capture approved n r) (defaults (pcap_parser U)) = Ok (job_namespace capture approved n r).
Proof.
  intros H M D. destruct (digits_value n H) as (P & _ & Nd). unfold assign, job_settings. cbn [fold_res]. unfold value_of. cbn [fst snd ac_kind required_text text_option stored flag int_option].
  rewrite !converted_text by (done || apply slashed_not_dashes).
  assert (converted (as_int (positive_int U)) (dec_digits n) = Ok (AInt n)) as ->.
  { unfold converted. rewrite (proj2 (str_eqb_neq _ _) Nd). unfold as_int. by rewrite P. }
  reflexivity.
Qed.

Lemma assigned_prefix k capture approved n r : 1 <= n < INT_LIMIT -> rq_modbus_target r <> lit "--" -> rq_dnp3_target r <> lit "--" ->
  exists ns, assign (take k (job_settings capture approved n r)) (defaults (pcap_parser U)) = Ok ns.
Proof.
  intros H M D. pose proof (job_assigned capture approved n r H M D) as J. rewrite <- (take_drop k (job_settings capture approved n r)) in J.
  unfold assign in *. rewrite fold_res_app in J. apply bind_ok in J as (ns & J & _). eauto.
Qed.

Lemma pcap_parser_ok : parser_ok (pcap_parser U) = true.
Proof. reflexivity. Qed.

Ltac declared := apply list_elem_of_In; simpl; repeat (first [left; reflexivity | right]).

Lemma settings_read capture approved n r k : 1 <= n < INT_LIMIT ->
  Forall (fun s => match s.2 with Some v => is_value U (pcap_parser U) v | None => True end) (take k (job_settings capture approved n r)) ->
  reads U (pcap_parser U) (written (take k (job_settings capture approved n r))) (take k (job_settings capture approved n r)).
Proof.
  intros H F. apply written_reads; [exact pcap_parser_ok|].
  assert (Forall (fun s : Action * option str => s.1 ∈ pcap_parser U /\ match ac_kind s.1, s.2 with StoreTrue, None => True | Store _, Some _ => True | _, _ => False end)
    (job_settings capture approved n r)) as G by (repeat constructor; declared).
  apply (Forall_take _ k) in G. rewrite Forall_forall in *. intros [a e] I. destruct (G _ I) as [Ia Ka]. specialize (F _ I).
  split; [done|]. cbn [fst snd] in *. by destruct (ac_kind a), e.
Qed.

Lemma own_values capture approved n r : 1 <= n < INT_LIMIT ->
  Forall (fun s : Action * option str => match s.2 with Some v => is_value U (pcap_parser U) v | None => True end) (take 4 (job_settings capture approved n r)).
Proof.
  intros H. destruct (digits_value n H) as (_ & P & _).
  cbn [job_settings take]. repeat apply Forall_cons_2; cbn [snd]; [by apply plain_value, slashed_plain..| done | by apply plain_value | apply Forall_nil_2].
Qed.

Lemma job_parsed py capture approved n r : 1 <= n < INT_LIMIT ->
  parse_args U (pcap_parser U) (job_arguments (replay_argv py capture approved n r)) =
    if target_ok (rq_modbus_target r) && target_ok (rq_dnp3_target r) then Ok (job_namespace capture approved n r) else Err (SystemExit 2).
Proof.
  intros H. rewrite job_written. pose proof (own_values capture approved n r H) as Own. set (l := job_settings capture approved n r) in *.
  destruct (target_ok (rq_modbus_target r)) eqn:M; cbn [andb].
  - apply target_ok_spec in M. pose proof M as [Nm _].
    assert (Forall (fun s : Action * option str => match s.2 with Some v => is_value U (pcap_parser U) v | None => True end) (take 5 l)) as F5
      by (change (take 5 l) with (take 4 l ++ [(text_option "--modbus-target" (Some (lit "127.0.0.1:5020")), Some (rq_modbus_target r))]);
          apply Forall_app; split; [done | by apply Forall_singleton]).
    destruct (target_ok (rq_dnp3_target r)) eqn:D.
    + apply target_ok_spec in D. pose proof D as [Nd _]. apply parse_args_spec. exists l. split; [|split].
      * apply (settings_read capture approved n r 6 H).
        change (Forall (fun s : Action * option str => match s.2 with Some v => is_value U (pcap_parser U) v | None => True end)
          (take 5 l ++ [(text_option "--dnp3-target" (Some (lit "127.0.0.1:20000")), Some (rq_dnp3_target r))])).
        apply Forall_app. split; [done | by apply Forall_singleton].
      * intros a Ia Ra. apply list_elem_of_In in Ia. unfold l. cbn in Ia. repeat destruct Ia as [<-|Ia]; try done. by left.
      * by apply job_assigned.
    + assert (~ is_value U (pcap_parser U) (rq_dnp3_target r)) as B by (intros V%target_ok_spec; congruence).
      destruct (assigned_prefix 5 capture approved n {| rq_pcap_path := []; rq_max_packets := None; rq_modbus_target := rq_modbus_target r; rq_dnp3_target := [] |} H Nm ltac:(done)) as [ns A].
      exact (bad_value U _ _ _ (lit "--dnp3-target") (text_option "--dnp3-target" (Some (lit "127.0.0.1:20000"))) _ (rq_dnp3_target r) [] ns
        (settings_read capture approved n r 5 H F5) A (option_named U _ pcap_parser_ok (text_option "--dnp3-target" (Some (lit "127.0.0.1:20000"))) ltac:(declared)) eq_refl B).
  - assert (~ is_value U (pcap_parser U) (rq_modbus_target r)) as B by (intros V%target_ok_spec; congruence).
    destruct (assigned_prefix 4 capture approved n {| rq_pcap_path := []; rq_max_packets := None; rq_modbus_target := []; rq_dnp3_target := [] |} H ltac:(done) ltac:(done)) as [ns A].
    exact (bad_value U _ _ _ (lit "--modbus-target") (text_option "--modbus-target" (Some (lit "127.0.0.1:5020"))) _ (rq_modbus_target r)
      [lit "--dnp3-target"; rq_dnp3_target r] ns (settings_read capture approved n r 4 H Own) A (option_named U _ pcap_parser_ok (text_option "--modbus-target" (Some (lit "127.0.0.1:5020"))) ltac:(declared)) eq_refl B).
Qed.

(** The job of an accepted request, for every text the request may hold. *)
Lemma job_outcome env scapy d approved candidate capture py n r run : resolve d = Ok approved ->
  validate_pcap_path resolve is_file candidate approved = inl capture -> 1 <= n < INT_LIMIT ->
  pcap_main U cwd absolute resolve is_file env (Ok tt) scapy (job_arguments (replay_argv py capture approved n r)) run =
    if target_ok (rq_modbus_target r) && target_ok (rq_dnp3_target r)
    then if allowed_suffix capture then job_run scapy capture n r run else (run, Ok 2)
    else (run, Err (SystemExit 2)).
Proof using Resolved Absolute.
  intros D V H. destruct (revalidated d approved candidate capture D V) as [Ab Va]. unfold pcap_main.
  rewrite lift_bind, (job_parsed py capture approved n r H). destruct (target_ok (rq_modbus_target r) && target_ok (rq_dnp3_target r)); [|done].
  rewrite lift_bind. set (ns := job_namespace capture approved n r).
  assert (text_opt ns "approved_dir" = Some (slashed approved)) as -> by reflexivity.
  assert (text_of ns "pcap" = slashed capture) as -> by reflexivity.
  assert (text_of ns "modbus_target" = rq_modbus_target r) as -> by reflexivity.
  assert (text_of ns "dnp3_target" = rq_dnp3_target r) as -> by reflexivity.
  assert (int_of_arg ns "max_packets" = n) as -> by reflexivity. assert (flag_of ns "replay" = true) as -> by reflexivity.
  assert (match slashed approved with [] => pcap_dir cwd absolute resolve env | _ :: _ => absolute (slashed approved) end = Ok approved) as E
    by (destruct approved; exact Ab).
  rewrite lift_bind. rewrite E, Va. destruct (allowed_suffix capture); [|done]. unfold job_run, job_targets. rewrite !lift_bind.
  destruct (parse_host_port U (rq_modbus_target r) 5020) as [m|e]; [|done]. cbn [mbind res_bind]. rewrite lift_bind.
  by destruct (parse_host_port U (rq_dnp3_target r) 20000) as [m'|e].
Qed.

(** C29. What the replay endpoint accepts is what its job does.  The job reads its command line back as
    exactly the validated capture, the clamped budget and the two targets of the request: it
    transmits at most the configured maximum of payloads, each from a client packet of that
    capture, to those targets and nowhere else.  No text in the request can become an option of
    the job: a target that looks like one ends the job with a usage error, nothing transmitted. *)
Theorem replay_job_confined d approved py log_path config r o sp s s' status body
  (D : resolve d = Ok approved) (M : 1 <= max_replay_packets config <= 1000000) (Q : forall n, rq_max_packets r = Some n -> 1 <= n)
  (E : replay resolve is_file py approved log_path config r o sp s = (s', Ok (Reply status body))) :
  exists capture, validate_pcap_path resolve is_file (rq_pcap_path r) approved = inl capture /\
  forall env scapy events, let n := budget config r in
    let start := {| summary := no_packets; events := events; transmissions := [] |} in
    let job := pcap_main U cwd absolute resolve is_file env (Ok tt) scapy (job_arguments (replay_argv py capture approved n r)) start in
    job = (if target_ok (rq_modbus_target r) && target_ok (rq_dnp3_target r)
           then if allowed_suffix capture then job_run scapy capture n r start else (start, Ok 2)
           else (start, Err (SystemExit 2))) /\
    (transmissions job.1 = [] \/
     exists targets read, job_targets r = Ok targets /\ scapy = Some read /\ run_ok true targets n (read capture) job.1 /\
       zlen (transmissions job.1) <= max_replay_packets config).
Proof using Resolved Absolute.
  pose proof (replay_request resolve is_file py approved log_path config r o sp s (proj1 M) Q) as R. cbv zeta in R. rewrite E in R.
  destruct R as (_ & capture & V & _ & _ & B & _). exists capture. split; [done|]. intros env scapy events n start. cbv zeta.
  assert (1 <= n < INT_LIMIT) as H by (pose proof limit_large; unfold n; lia).
  rewrite (job_outcome env scapy d approved _ capture py n r start D V H). split; [done|].
  destruct (target_ok _ && target_ok _); [|by left]. destruct (allowed_suffix capture); [|by left].
  unfold job_run. rewrite lift_bind. destruct (job_targets r) as [targets|e]; [|by left]. destruct scapy as [read|]; [|by left].
  destruct (analysis_accounts true targets n (slashed capture) (read capture) events) as (run & x & A & K & _).
  right. exists targets, read. split; [done|]. split; [done|]. fold start in A.
  assert ((analyse_capture true targets n (slashed capture) (read capture) ;; mret 0) start = (run, match x with Ok _ => Ok 0 | Err e => Err e end)) as ->
    by (unfold mbind, se_bind; rewrite A; by destruct x).
  cbn [fst]. split; [done|]. destruct K as [K1 K2 _ _ K5 _ _ _]. unfold n in *. lia.
Qed.
End Job.

(** ** The shipped components *)
Section Fleet.
Context (U : UnicodeDigits).

Definition program (module : str) : option Parser := assoc [
  (lit "ics_deception.honeypots.modbus_server", modbus_parser U); (lit "ics_deception.honeypots.dnp3_sensor", dnp3_parser U);
  (lit "ics_deception.iot_nodes.fake_plc", plc_parser U); (lit "ics_deception.datasets.pcap_loader", pcap_parser U)] module.

(** What the program of a Python component makes of its configured arguments. *)
Definition component_arguments (c : ComponentConfig) : res Namespace :=
  match args c with
  | m :: module :: rest =>
    require (str_eqb m (lit "-m")) (SystemExit 2) ;;
    match program module with Some p => parse_args U p rest | None => Err (SystemExit 1) end
  | _ => Err (SystemExit 2)
  end.

Definition shipped (name : string) : res Namespace :=
  match assoc (components default_config) (lit name) with Some c => component_arguments c | None => Err KeyError end.

(** A component's arguments, read as an address. *)
Definition read_as (r : res Namespace) (host_ port_ : string) (a : str * Z) : bool :=
  match r with Ok ns => bool_decide ((text_of ns host_, int_of_arg ns port_) = a) | Err _ => false end.

Lemma read_as_spec r h p a : read_as r h p a = true -> exists ns, r = Ok ns /\ text_of ns h = a.1 /\ int_of_arg ns p = a.2.
Proof. unfold read_as. destruct r as [ns|]; [|done]. intros <-%bool_decide_eq_true. eauto. Qed.

Definition yields (r : res (str * Z)) (a : str * Z) : bool := match r with Ok x => bool_decide (x = a) | Err _ => false end.
Lemma yields_spec r a : yields r a = true -> r = Ok a.
Proof. unfold yields. destruct r as [x|]; [|done]. by intros ->%bool_decide_eq_true. Qed.

Lemma modbus_shipped : read_as (shipped "modbus_python") "host" "port" (LOCALHOST, 5020) = true.
Proof. vm_compute. reflexivity. Qed.
Lemma dnp3_shipped : read_as (shipped "dnp3") "host" "port" (LOCALHOST, 20000) = true.
Proof. vm_compute. reflexivity. Qed.
Lemma plc_shipped : read_as (shipped "fake_plc") "target_host" "target_port" (LOCALHOST, 5020) = true.
Proof. vm_compute. reflexivity. Qed.
Lemma all_accepted : forallb (fun nc => match kind nc.2 with Python => is_ok (component_arguments nc.2) | Binary => true end) (components default_config) = true.
Proof. vm_compute. reflexivity. Qed.
Lemma default_targets :
  match parse_args U (pcap_parser U) [lit "--pcap"; lit "a.pcap"] with
  | Ok job => yields (parse_host_port U (text_of job "modbus_target") 5020) (LOCALHOST, 5020) &&
              yields (parse_host_port U (text_of job "dnp3_target") 20000) (LOCALHOST, 20000)
  | Err _ => false
  end = true.
Proof. vm_compute. reflexivity. Qed.

(** The shipped configuration fits together: each of its Python components starts a program of
    the package with a command line that program accepts; the servers bind the loopback
    interface; the PLC polls the address the Modbus decoy serves; and a replay request that
    names no targets aims at the Modbus decoy and the DNP3 sensor. *)
Theorem shipped_fleet : exists modbus dnp3 plc,
  shipped "modbus_python" = Ok modbus /\ shipped "dnp3" = Ok dnp3 /\ shipped "fake_plc" = Ok plc /\
  Forall (fun nc => kind nc.2 = Python -> is_ok (component_arguments nc.2) = true) (components default_config) /\
  text_of modbus "host" ∈ LOOPBACK /\ text_of dnp3 "host" ∈ LOOPBACK /\
  (text_of plc "target_host", int_of_arg plc "target_port") = (text_of modbus "host", int_of_arg modbus "port") /\
  exists job, parse_args U (pcap_parser U) [lit "--pcap"; lit "a.pcap"] = Ok job /\
    parse_host_port U (text_of job "modbus_target") 5020 = Ok (text_of modbus "host", int_of_arg modbus "port") /\
    parse_host_port U (text_of job "dnp3_target") 20000 = Ok (text_of dnp3 "host", int_of_arg dnp3 "port").
Proof.
  destruct (read_as_spec _ _ _ _ modbus_shipped) as (modbus & M & Mh & Mp). destruct (read_as_spec _ _ _ _ dnp3_shipped) as (dnp3 & D & Dh & Dp).
  destruct (read_as_spec _ _ _ _ plc_shipped) as (plc & P & Ph & Pp).
  exists modbus, dnp3, plc. rewrite Mh, Mp, Dh, Dp, Ph, Pp. split; [exact M|]. split; [exact D|]. split; [exact P|]. split.
  { apply Forall_forall. intros nc I K. pose proof all_accepted as F. rewrite forallb_forall in F. specialize (F nc (proj1 (list_elem_of_In _ _) I)). by rewrite K in F. }
  split; [by left|]. split; [by left|]. split; [done|].
  destruct (parse_args U (pcap_parser U) [lit "--pcap"; lit "a.pcap"]) as [job|e] eqn:J; [|by apply (f_equal is_ok) in J; vm_compute in J].
  exists job. split; [done|]. pose proof default_targets as T. rewrite J in T. by apply andb_true_iff in T as [->%yields_spec ->%yields_spec].
Qed.

(** ** The controller's command line *)

(** Whatever its command line, the controller serves a validated configuration on a valid port,
    with nothing written and a warning unless it stays on the loopback interface; or it exits
    with 0, having written the default configuration whole, or with 2, having written nothing. *)
Theorem controller_program other_alnum lim coerce cwd root start opened w argv fs fs' r :
  controller_main U other_alnum lim coerce cwd root start opened w argv fs = (fs', Ok r) ->
  match r with
  | Serves c warned => fs' = fs /\ 1 <= port c <= 65535 /\ (warned = false -> host c ∈ LOOPBACK) /\
      Forall (fun nc => valid_name other_alnum nc.1 = true /\ startable nc.2) (components c)
  | Exits status => status = 0 /\ (exists p text, default_config_text = Ok text /\ fs' = <[p := Content text]> fs) \/ status = 2 /\ fs' = fs
  end.
Proof.
  unfold controller_main. rewrite lift_bind. destruct (parse_args U (controller_parser U) argv) as [args|e] eqn:A; [|done]. intros E. destruct r as [status|c warned].
  - unfold main in E.
    destruct (op_write_default_config (controller_options args)) as [[|x q]|].
    2: { left. apply se_bind_ok in E as (fs1 & [] & W & E). injection E as <- <-. split; [done|]. unfold write_default_config in W.
         rewrite lift_bind in W. destruct default_config_text as [text|e]; [|done]. rewrite lift_bind in W. destruct (io_result opened "open"); [|done].
         apply se_bind_ok in W as (fs2 & [] & W1 & W2). injection W1 as <-. unfold lift in W2. destruct w; try done. injection W2 as <-. eauto. }
    all: right; rewrite (se_bind_eq (gets id) _ fs fs fs) in E by done; destruct (load_config _ _ _ _) as [c|[|e]]; [|by injection E as <- <-|done];
      rewrite lift_bind in E; destruct (start _); done.
  - destruct (controller_serves other_alnum lim coerce cwd root start _ opened w fs fs' c warned E) as (F & P & W & _ & C); [|done].
    intros p. cbn [controller_options op_port]. intros Hp.
    refine (int_opt_attribute U (controller_parser U) argv args eq_refl A (fun n => 1 <= n <= 65535) (stored "--port" (as_int (port_number U)) ANone) (port_number U) "port" p _ eq_refl eq_refl eq_refl _ Hp).
    + apply list_elem_of_In; simpl; repeat (first [left; reflexivity | right]).
    + intros s n. apply bounded.
Qed.
End Fleet.

(** ** Examples *)

(** A file system of regular files. *)
Definition plain_resolve (p : path) : res path := if forallb component_ok p then Ok p else Err (OSError "resolve").
Definition plain_absolute (s : str) : res path := plain_resolve (parts s).

Lemma plain_resolved p q : plain_resolve p = Ok q -> plain_resolve q = Ok q /\ normal_path q.
Proof.
  unfold plain_resolve. destruct (forallb component_ok p) eqn:F; [|done]. intros [= <-]. rewrite F. split; [done|]. by apply forallb_Forall.
Qed.

Lemma plain_absolutes p : normal_path p -> plain_absolute (slashed p) = plain_resolve p.
Proof. intros N. unfold plain_absolute. by rewrite parts_slashed. Qed.

Definition no_env : PathEnv := {| pe_runtime_dir := None; pe_event_log := None; pe_pcap_dir := None |}.
Definition sample_frame : bytes := [0; 1; 0; 0; 0; 6; 1; 3; 0; 0; 0; 1].
Definition sample_capture : path -> list (res Packet * option string) := fun _ => [
  (Ok {| pk_ports := Some (40000, 502); pk_load := Some sample_frame; pk_endpoints := Some (lit "10.0.0.1", lit "10.0.0.2") |}, None)].
Definition sample_job (r : ReplayRequest) : Run * res Z :=
  pcap_main no_digits [] plain_absolute plain_resolve (fun _ => true) no_env (Ok tt) (Some sample_capture)
    (job_arguments (replay_argv (lit "python") [lit "data"; lit "a.pcap"] [lit "data"] 7 r))
    {| summary := no_packets; events := []; transmissions := [] |}.

Lemma replay_job_confined_witness : exists s' status body,
  replay plain_resolve (fun _ => true) (lit "python") [lit "data"] (lit "replay.log") default_config sample_request None None (no_job, empty_machine) =
    (s', Ok (Reply status body)) /\
  transmissions (sample_job sample_request).1 = [{| tx_host := lit "127.0.0.1"; tx_port := 5020; tx_payload := sample_frame |}] /\
  exists capture, validate_pcap_path plain_resolve (fun _ => true) (rq_pcap_path sample_request) [lit "data"] = inl capture.
Proof.
  destruct (replay plain_resolve (fun _ => true) (lit "python") [lit "data"] (lit "replay.log") default_config sample_request None None (no_job, empty_machine))
    as [s' [[status body|status|e]|e]] eqn:E; [|by apply (f_equal snd) in E; vm_compute in E..].
  exists s', status, body. split; [done|]. split; [by vm_compute|].
  destruct (replay_job_confined no_digits [] plain_absolute plain_resolve (fun _ => true) plain_resolved plain_absolutes [lit "data"] [lit "data"]
    (lit "python") (lit "replay.log") default_config sample_request None None (no_job, empty_machine) s' status body eq_refl ltac:(done) ltac:(by intros n [= <-]) E) as (capture & V & _).
  by exists capture.
Defined.

Definition request_to (modbus : string) : ReplayRequest := {|
  rq_pcap_path := lit "a.pcap"; rq_max_packets := Some 7; rq_modbus_target := lit modbus; rq_dnp3_target := lit "127.0.0.1:20000" |}.

(** Requests the controller reports as started although their job ends at once: a target that
    looks like an option, a target that is none. *)
Example option_like_target : (sample_job (request_to "--log=/tmp/x")).2 = Err (SystemExit 2).
Proof. vm_compute. reflexivity. Qed.
Example impossible_target : (sample_job (request_to "127.0.0.1:0")).2 = Err (ValueError "port out of range in target").
Proof. vm_compute. reflexivity. Qed.

(** The suffix is checked before links are followed by the controller, and again by the job on
    the name they lead to. *)
Definition link_resolve (p : path) : res path :=
  if bool_decide (p = [lit "data"; lit "a.pcap"]) then Ok [lit "data"; lit "capture.bin"] else plain_resolve p.

Example linked_capture :
  validate_pcap_path link_resolve (fun _ => true) (lit "a.pcap") [lit "data"] = inl [lit "data"; lit "capture.bin"] /\
  (pcap_main no_digits [] plain_absolute link_resolve (fun _ => true) no_env (Ok tt) (Some sample_capture)
    (job_arguments (replay_argv (lit "python") [lit "data"; lit "capture.bin"] [lit "data"] 7 sample_request))
    {| summary := no_packets; events := []; transmissions := [] |}).2 = Ok 2.
Proof. split; vm_compute; reflexivity. Qed.
