(* ===== verification/ControllerApp.v ===== *)
(** The assembled controller: [create_app] of [src/ics_deception/controller/app.py] with its
    start-up, its shutdown, [GET /health] and [GET /status].

    Components and the replay job are processes of one machine; [App] is the state the
    endpoints of [Controller] share. *)
From S2P Require Import Prelude PyText PyStr Json Models CryptoBackend Canonicalizer KeyRegistry EvidenceStore StateStore Signer Sockets Integration Capture ArgTypes ArgParse ControllerConfig ControllerCli Supervisor Controller Programs.

(** ** The application *)
Record App := {
  ap_registry : Registry;
  ap_jobs : Replays;
  ap_machine : Machine;
}.

Definition supervising {A} (m : SE Supervisor A) : SE App A := fun a =>
  let '((l, machine), r) := m (ap_registry a, ap_machine a) in
  ({| ap_registry := l; ap_jobs := ap_jobs a; ap_machine := machine |}, r).
Definition replaying {A} (m : SE Jobs A) : SE App A := fun a =>
  let '((j, machine), r) := m (ap_jobs a, ap_machine a) in
  ({| ap_registry := ap_registry a; ap_jobs := j; ap_machine := machine |}, r).
Definition publish (event_type : string) (details : fields) : SE App unit :=
  replaying (say_job event_type (as_dict (map (fun kv => (lit kv.1, kv.2)) details))).

(** ** [create_app] *)
Section Create.
Context (cwd : path) (absolute : str -> res path) (resolve : path -> res path) (expanduser : str -> res str).

(** [Path(__file__).resolve().parents[3]] *)
Definition project_root (file : path) : res path :=
  p ← resolve file;
  if (4 <=? length p)%nat then Ok (take (length p - 4) p) else Err IndexError.

(** The configured directory, below the root unless it is absolute, or the environment's. *)
Definition approved_directory (env : PathEnv) (root : path) (config : ControllerConfig) : res path :=
  match cfg_pcap_dir config with
  | Some ((_ :: _) as d) =>
    d ← expanduser d;
    resolve (if is_absolute d then parts d else root ++ parts d)
  | _ => pcap_dir cwd absolute resolve env
  end.

Record Application := {
  an_config : ControllerConfig;
  an_root : path;
  an_approved_dir : path;
  an_app : App;
}.

(** [publisher]: making one, where none is given. *)
Definition create_app (env : PathEnv) (file : path) (config : option ControllerConfig) (publisher : res unit) (root : option path)
    : res Application :=
  let config := default default_config config in
  publisher ;;
  root ← match root with Some p => Ok p | None => project_root file end;
  root ← resolve root;
  approved_dir ← approved_directory env root config;
  Ok {| an_config := config; an_root := root; an_approved_dir := approved_dir;
        an_app := {| ap_registry := new_supervisor (components config); ap_jobs := no_job; ap_machine := empty_machine |} |}.
End Create.

(** ** [lifespan] *)
Definition controller_startup (py : str) (config : ControllerConfig) (faults : str -> StartFaults) : SE App unit :=
  known ← gets (fun a => names (ap_registry a));
  publish "controller_startup" [("host", VStr (host config)); ("port", VInt (port config)); ("components", VList (map VStr known));
    ("autostart", VList (map (fun nc => VStr nc.1) (List.filter (fun nc => enabled nc.2 && autostart nc.2) (components config))))]%string ;;
  started ← supervising (start_autostart py faults);
  match started with
  | [] => mret tt
  | _ => publish "controller_autostart" [("results", VDict (as_dict (map (fun r => (r.1, VBool r.2)) started)))]%string
  end.

Definition controller_shutdown (job : StopFaults) (faults : str -> StopFaults) : SE App unit :=
  publish "controller_shutdown" [] ;;
  replaying (modify (stop_job job)) ;;
  supervising (stop_all faults).

(** [try: yield finally: ...]: what is served ends, or is broken off by an exception. *)
Definition lifespan (py : str) (config : ControllerConfig) (starts : str -> StartFaults) (serve : SE App unit)
    (job : StopFaults) (stops : str -> StopFaults) : SE App unit :=
  controller_startup py config starts ;;
  finally serve (controller_shutdown job stops).

(** ** [evidence_status()] as the endpoint shows it *)
Section EvidenceBody.
Context (text : exn -> str) (evidence_log : str).   (* [str(exc)], [str(self._evidence_path)] *)

Definition metrics_value (m : EvidenceMetrics) : value := VDict (as_dict [
  (lit "received", VInt (em_received m)); (lit "signed", VInt (em_signed m)); (lit "persisted", VInt (em_persisted m));
  (lit "rejected_before_signing", VInt (em_rejected_before_signing m)); (lit "signing_failures", VInt (em_signing_failures m));
  (lit "persistence_failures", VInt (em_persistence_failures m)); (lit "backend_unavailable", VInt (em_backend_unavailable m));
  (lit "state_recoveries", VInt (em_state_recoveries m)); (lit "verification_successes", VInt 0);
  (lit "verification_failures", VInt 0); (lit "archive_failures", VInt 0)]).

Definition chain_value (real_pqc : bool) (s : StoreStatus) : value := VDict (as_dict [
  (lit "last_sequence", VInt (ns_last_sequence (sst_state s))); (lit "last_event_hash", opt_str (ns_last_event_hash (sst_state s)));
  (lit "journal_present", VBool (sst_journal_present s)); (lit "evidence_bytes", VInt (sst_evidence_bytes s));
  (lit "real_pqc", VBool real_pqc)]).

Definition sink_value (s : SinkStatus) : value := VDict (as_dict ([
  (lit "mode", VStr (ks_mode s)); (lit "enabled", VBool (ks_enabled s)); (lit "node_id", VStr (ks_node_id s));
  (lit "key_id", VStr (ks_key_id s)); (lit "backend", VStr (ks_backend s)); (lit "evidence_log", VStr evidence_log);
  (lit "last_error", match ks_last_error s with Some e => VStr (text e) | None => VNone end); (lit "metrics", metrics_value (ks_metrics s))] ++
  match ks_chain s with
  | Some (Ok c) => [(lit "chain", chain_value (ks_real_pqc s) c)]
  | Some (Err e) => [(lit "chain_error", VStr (text e))]
  | None => []
  end)).

Definition evidence_value (v : EvidenceStatus) : value :=
  match vs_sink v with
  | Some s => sink_value s
  | None => VDict (as_dict ([(lit "mode", VStr (vs_mode v)); (lit "enabled", VBool (vs_enabled v))] ++
      match vs_error v with Some e => [(lit "error", VStr (text e))] | None => [] end))
  end.
End EvidenceBody.

(** ** [GET /health] and [GET /status] *)
Definition VERSION : str := lit "0.3.0b1".
Definition opt_dict (o : option dict) : value := match o with Some d => VDict d | None => VNone end.

(** [sorted(...)] *)
Definition sorted_names (l : list str) : list str := map fst (sort_kv (map (fun n => (n, tt)) l)).

Definition health (config : ControllerConfig) (approved_dir : path) (event_log : res path) : SE App response := fun a =>
  match event_log with
  | Err e => (a, Ok (Escaped e))
  | Ok log =>
    (job ← replaying active;
     mret (reply_fields [("status", VStr (lit "ok")); ("version", VStr VERSION); ("host", VStr (host config)); ("port", VInt (port config));
       ("components", VList (map VStr (names (ap_registry a))));
       ("enabled_components", VList (map VStr (sorted_names (map fst (enabled_components config)))));
       ("approved_pcap_dir", VStr (slashed approved_dir)); ("event_log", VStr (slashed log));
       ("replay_active", VBool (bool_decide (is_Some job)))]%string)) a
  end.

(** [ProcessSupervisor.status] *)
Definition components_status (log_file : str -> str) (s : Supervisor) : value :=
  VDict (as_dict (map (fun nc => (nc.1, VDict (info nc.1 (log_file nc.1) (nc.2, s.2)))) s.1)).

Section Status.
Context (env : Environ) (backends : list (str * CryptoBackend)) (key_files : str -> key_file).
Context (lim : nat) (py_str : value -> str) (py_int : value -> res Z) (now : str).
Context (text : exn -> str) (log_file : str -> str) (evidence_log : str).

Definition status_reply (freed : list bool) (e : PqcEnv) : SE (App * World) response := fun s =>
  let known := components_status log_file (ap_registry s.1, ap_machine s.1) in
  (job ← on_fst (replaying active);
   evidence ← on_snd (evidence_status env backends key_files lim py_str py_int now freed e);
   mret (reply_fields [("components", known); ("replay", opt_dict job);
     ("evidence", evidence_value text evidence_log evidence)]%string)) s.
End Status.

(** ** Who owns the processes *)

(** Every running process is the current child of exactly one enabled component, or the replay
    job; the job's description names its process. *)
Definition job_process (a : App) : nat -> Prop := fun pid => rm_proc (ap_jobs a) = Some pid.
Record accounted (c : list (str * ComponentConfig)) (a : App) : Prop := {
  ac_supervised : supervised (job_process a) (ap_registry a, ap_machine a);
  ac_configs : configs (ap_registry a) = c;
  ac_job : match rm_proc (ap_jobs a) with
           | Some pid => exists d, rm_active (ap_jobs a) = Some d /\ dict_get d (lit "pid") = Some (VInt (Z.of_nat pid))
           | None => rm_active (ap_jobs a) = None
           end;
}.

Section Sharing.
Context (l : Registry).

(** The table alone matters. *)
Lemma supervised_table O m m' : table m' = table m -> supervised O (l, m) -> supervised O (l, m').
Proof.
  intros T [P D A W R]. split; cbn [fst snd] in *; [| done | done | |].
  - intros n k pid. rewrite T. apply P.
  - intros pid. rewrite T. apply W.
  - intros pid. unfold running. rewrite T. apply R.
Qed.

(** Others that have ended may be forgotten. *)
Lemma supervised_release (O O' : nat -> Prop) m : (forall p, O' p -> O p) -> (forall p, running m p = true -> O p -> O' p) ->
  supervised O (l, m) -> supervised O' (l, m).
Proof.
  intros S K [P D A W R]. split; cbn [fst snd] in *; [done | done | | |].
  - intros n k pid F Hp H%S. by apply (A _ _ _ F Hp).
  - intros pid H%S. by apply W.
  - intros pid Hp. destruct (R pid Hp) as [H|H]; [left; by apply K | by right].
Qed.

(** Others may spawn one. *)
Lemma supervised_spawn (O : nat -> Prop) m : supervised O (l, m) ->
  supervised (fun p => O p \/ length (table m) = p) (l, add_process m).
Proof.
  intros [P D A W R]. assert (length (table (add_process m)) = S (length (table m))) as L by (cbn [add_process table]; rewrite length_app; simpl; lia).
  split; cbn [fst snd] in *; [| done | | |].
  - intros n k pid F Hp. specialize (P n k pid F Hp). lia.
  - intros n k pid F Hp [H | <-]; [by apply (A _ _ _ F Hp)|]. specialize (P n k _ F Hp). lia.
  - intros pid [H%W | <-]; lia.
  - intros pid [Hp | ->]%spawned_running; [|by left; right]. destruct (R pid Hp); [left; by left | by right].
Qed.
End Sharing.

Section Accounted.
Context (c : list (str * ComponentConfig)).

Lemma accounted_supervising {A} (m : SE Supervisor A) a : accounted c a ->
  (forall s, supervised (job_process a) s -> configs s.1 = c -> kept (job_process a) c (m s).1) -> accounted c (supervising m a).1.
Proof.
  intros [S C J] H. specialize (H (ap_registry a, ap_machine a) S C). unfold supervising.
  destruct (m (ap_registry a, ap_machine a)) as [[l mc] r]. destruct H as [H1 H2]. by split.
Qed.

Lemma accounted_say a e : accounted c a -> accounted c {| ap_registry := ap_registry a; ap_jobs := ap_jobs a; ap_machine := say e (ap_machine a) |}.
Proof. intros [S C J]. split; [|done|done]. by apply (supervised_table _ _ (ap_machine a)). Qed.

(** Operations of the replay manager, on the state they see. *)
Definition tidy (l : Registry) (s : Jobs) : Prop := accounted c {| ap_registry := l; ap_jobs := s.1; ap_machine := s.2 |}.

Lemma accounted_replaying {A} (m : SE Jobs A) a : accounted c a ->
  (forall s, tidy (ap_registry a) s -> tidy (ap_registry a) (m s).1) -> accounted c (replaying m a).1.
Proof.
  intros H K. specialize (K (ap_jobs a, ap_machine a)). unfold replaying. destruct (m (ap_jobs a, ap_machine a)) as [[j mc] r].
  apply K. by destruct a.
Qed.

Lemma tidy_bind {A B} l (m : SE Jobs A) (k : A -> SE Jobs B) s :
  tidy l (m s).1 -> (forall s1 x, tidy l s1 -> tidy l (k x s1).1) -> tidy l ((m ≫= k) s).1.
Proof. intros H K. unfold mbind, se_bind. destruct (m s) as [s1 [x|e]]; [by apply K | done]. Qed.

Lemma tidy_say l ty d s : tidy l s -> tidy l (say_job ty d s).1.
Proof. intros H. exact (accounted_say {| ap_registry := l; ap_jobs := s.1; ap_machine := s.2 |} (lit ty, d) H). Qed.

Lemma tidy_forget l s pid : tidy l s -> (forall p, rm_proc s.1 = Some p -> p = pid) -> running s.2 pid = false -> tidy l (no_job, s.2).
Proof.
  intros [S C _] E R. split; [|done|done]. apply (supervised_release _ (job_process {| ap_registry := l; ap_jobs := s.1; ap_machine := s.2 |})); [done | | done].
  intros p Hp Hj%E. change (running s.2 p = true) in Hp. congruence.
Qed.

Lemma tidy_active l s : tidy l s -> tidy l (active s).1.
Proof.
  intros H. unfold active. destruct (rm_proc s.1) as [pid|] eqn:P; [|done]. destruct (running s.2 pid) eqn:R; [done|].
  apply (tidy_forget l s pid H); [|done]. intros p. rewrite P. by intros [= <-].
Qed.

Lemma tidy_reap l pid code s : tidy l s -> running s.2 pid = false -> tidy l (reap pid code s).
Proof.
  intros H R. unfold reap. apply (tidy_say l "replay_finished" _ (if bool_decide (rm_proc s.1 = Some pid) then no_job else s.1, s.2)).
  case_bool_decide as P; [|by destruct s]. apply (tidy_forget l s pid H); [|done]. intros p. rewrite P. by intros [= <-].
Qed.

Lemma tidy_ended l pid code s : tidy l s -> tidy l (s.1, set_status pid (Some code) s.2).
Proof. intros [S C J]. split; [|done|done]. exact (ended_supervised _ pid code _ S). Qed.

Lemma tidy_stop l f s : tidy l s -> tidy l (stop_job f s).
Proof.
  intros H. unfold stop_job. destruct (rm_proc s.1) as [pid|]; [|done]. destruct (running s.2 pid); [|done].
  destruct (match st_term f with Some k => Some k | None => st_kill f end); [by apply tidy_ended | done].
Qed.

Lemma tidy_start l argv log_path description o sp s : dict_get (as_dict description) (lit "pid") = None ->
  tidy l s -> tidy l (start_job argv log_path description o sp s).1.
Proof.
  intros N H. unfold start_job. destruct (job_running s) eqn:R; [done|]. destruct o; [done|]. destruct (popen argv sp) as [[]|e]; [|done].
  destruct H as [S C J]. split; [|done|].
  - apply (supervised_release _ (fun p => job_process {| ap_registry := l; ap_jobs := s.1; ap_machine := s.2 |} p \/ length (table s.2) = p)).
    + intros p [= <-]. by right.
    + intros p Hp [Hj | <-]; [|done]. unfold job_process in Hj. cbn [ap_jobs] in Hj. unfold job_running in R. rewrite Hj in R.
      apply spawned_running in Hp as [Hp | ->]; [by rewrite Hp in R | done].
    + by apply supervised_spawn.
  - eexists. split; [reflexivity|]. unfold as_dict in *. rewrite map_app. clear - N. induction description as [|[k v] d IH]; [done|].
    cbn [map fst snd app dict_get] in *. by destruct (str_eqb (lit "pid") k); [|apply IH].
Qed.

Lemma tidy_replay resolve is_file py approved log_path config r o sp l s : tidy l s ->
  tidy l (replay resolve is_file py approved log_path config r o sp s).1.
Proof.
  intros H. unfold replay. apply tidy_bind; [by apply tidy_say|]. intros s1 _ H1.
  destruct (validate_pcap_path _ _ _ _) as [capture|[]]; try exact H1. unfold launch.
  pose proof (tidy_start l (replay_argv py capture approved (budget config r) r) log_path
    (replay_description capture (budget config r) r) o sp s1 eq_refl H1) as K.
  destruct (start_job _ _ _ _ _ s1) as [s2 [[]|e]]; [| exact K | by destruct e].
  apply tidy_bind; [by apply tidy_say|]. intros s3 _ H3. apply tidy_bind; [by apply tidy_active | by intros].
Qed.
End Accounted.

(** ** Everything that can happen while the controller serves *)
Section Serving.
Context (py : str) (config : ControllerConfig) (resolve : path -> res path) (is_file : path -> bool) (approved_dir : path) (log_path : str).

Inductive served_step : App -> App -> Prop :=
| ServeStart name log f a : served_step a (supervising (post_start py name log f) a).1
| ServeStop name log f a : served_step a (supervising (post_stop name log f) a).1
| ServeReplay r o sp a : served_step a (replaying (replay resolve is_file py approved_dir log_path config r o sp) a).1
| ServeLook a : served_step a (replaying active a).1          (* GET /health and GET /status *)
| JobReaped pid code a : running (ap_machine a) pid = false ->
    served_step a {| ap_registry := ap_registry a; ap_jobs := (reap pid code (ap_jobs a, ap_machine a)).1;
                     ap_machine := (reap pid code (ap_jobs a, ap_machine a)).2 |}
| ProcessExit pid code a : served_step a {| ap_registry := ap_registry a; ap_jobs := ap_jobs a; ap_machine := child_exits pid code (ap_machine a) |}.

Lemma start_kept O c name log f s : supervised O s -> configs s.1 = c -> kept O c (post_start py name log f s).1.
Proof.
  intros S C. unfold post_start. destruct (find name s.1) as [k|]; [|done]. destruct (negb _); [done|].
  pose proof (start_component_supervised O py name f s S) as [S' C']. rewrite C in C'.
  by destruct (start_component py name f s) as [s' [[]|e]].
Qed.

Lemma stop_kept O c name log f s : supervised O s -> configs s.1 = c -> kept O c (post_stop name log f s).1.
Proof.
  intros S C. unfold post_stop. destruct (find name s.1) as [k|]; [|done].
  pose proof (stop_component_supervised O name f s S) as [S' C']. rewrite C in C'.
  by destruct (stop_component name f s) as [s' [[]|e]].
Qed.

Lemma step_accounted c a a' : served_step a a' -> accounted c a -> accounted c a'.
Proof.
  destruct 1 as [name log f a|name log f a|r o sp a|a|pid code a R|pid code a]; intros H.
  - apply accounted_supervising; [done|]. intros s. by apply start_kept.
  - apply accounted_supervising; [done|]. intros s. by apply stop_kept.
  - apply accounted_replaying; [done|]. intros s. by apply tidy_replay.
  - apply accounted_replaying; [done|]. intros s. by apply tidy_active.
  - apply (tidy_reap c (ap_registry a) pid code (ap_jobs a, ap_machine a)); [by destruct a | done].
  - unfold child_exits. destruct (running (ap_machine a) pid); [|by destruct a].
    apply (tidy_ended c (ap_registry a) pid code (ap_jobs a, ap_machine a)). by destruct a.
Qed.

Definition assembled : App := {| ap_registry := new_supervisor (components config); ap_jobs := no_job; ap_machine := empty_machine |}.

Lemma assembled_accounted : accounted (components config) assembled.
Proof. split; [|apply configs_new | done]. apply (initial_supervised (components config)). by intros pid [=]. Qed.

Lemma startup_accounted faults a : accounted (components config) a -> accounted (components config) (controller_startup py config faults a).1.
Proof.
  intros H. unfold controller_startup, publish. unfold mbind, se_bind. cbn [gets].
  pose proof (accounted_replaying (components config) (say_job "controller_startup" (as_dict (map (fun kv => (lit kv.1, kv.2))
    [("host", VStr (host config)); ("port", VInt (port config)); ("components", VList (map VStr (names (ap_registry a))));
     ("autostart", VList (map (fun nc => VStr nc.1) (List.filter (fun nc => enabled nc.2 && autostart nc.2) (components config))))]%string)))
    a H ltac:(intros; by apply tidy_say)) as H1.
  destruct (replaying _ a) as [a1 [[]|e]]; [|done]. cbn [fst] in H1.
  pose proof (accounted_supervising (components config) (start_autostart py faults) a1 H1) as H2.
  specialize (H2 ltac:(intros s S C; by apply start_each_supervised)).
  destruct (supervising _ a1) as [a2 [[|x started]|e]]; [done | | done]. apply accounted_replaying; [done|]. intros. by apply tidy_say.
Qed.

(** What has been reached from the start-up. *)
Definition reached (faults : str -> StartFaults) (a : App) : Prop :=
  exists a0, controller_startup py config faults assembled = (a0, Ok tt) /\ rtc served_step a0 a.

Lemma steps_accounted c a a' : rtc served_step a a' -> accounted c a -> accounted c a'.
Proof. induction 1 as [a|a a1 a2 S _ IH]; [done|]. intros H. by apply IH, (step_accounted _ a). Qed.

Lemma reached_accounted faults a : reached faults a -> accounted (components config) a.
Proof.
  intros (a0 & E & R). apply (steps_accounted _ a0); [done|].
  pose proof (startup_accounted faults assembled assembled_accounted) as H. by rewrite E in H.
Qed.

Lemma stopped_job c l f s : tidy c l s -> st_term f <> None \/ st_kill f <> None -> tidy c l (stop_job f s) /\
  forall pid, rm_proc (stop_job f s).1 = Some pid -> running (stop_job f s).2 pid = false.
Proof.
  intros H K. split; [by apply tidy_stop|]. unfold stop_job. destruct (rm_proc s.1) as [pid|] eqn:P; [|intros p; by rewrite P].
  destruct (running s.2 pid) eqn:R.
  - destruct (match st_term f with Some k => Some k | None => st_kill f end) as [k|] eqn:E.
    + cbn [fst snd]. intros p. rewrite P. intros [= <-]. destruct (running (set_status pid (Some k) s.2) pid) eqn:Q; [|done].
      by apply set_status_running in Q as [_ []].
    + destruct (st_term f); [done|]. destruct K; congruence.
  - intros p. rewrite P. by intros [= <-].
Qed.

(** The shutdown stops the job and every component, whatever state it finds. *)
Lemma shutdown_stops c a job stops : accounted c a -> st_term job <> None \/ st_kill job <> None -> killable stops ->
  exists a', controller_shutdown job stops a = (a', Ok tt) /\ forall pid, running (ap_machine a') pid = false.
Proof.
  intros H Kj Kc. unfold controller_shutdown.
  set (a1 := {| ap_registry := ap_registry a; ap_jobs := ap_jobs a; ap_machine := say (lit "controller_shutdown", as_dict []) (ap_machine a) |}).
  rewrite (se_bind_eq (publish _ _) _ a a1 tt) by done. pose proof (accounted_say c a (lit "controller_shutdown", as_dict []) H) as H1. fold a1 in H1.
  set (s := stop_job job (ap_jobs a1, ap_machine a1)).
  set (a2 := {| ap_registry := ap_registry a; ap_jobs := s.1; ap_machine := s.2 |}).
  assert (replaying (modify (stop_job job)) a1 = (a2, Ok tt)) as E by (unfold replaying, modify; fold s; by destruct s as [j m]).
  rewrite (se_bind_eq _ _ _ _ _ E). destruct (stopped_job c (ap_registry a) job (ap_jobs a1, ap_machine a1) H1 Kj) as [T N]. fold s in T, N.
  assert (supervised nobody (ap_registry a, s.2)) as S.
  { apply (supervised_release _ (job_process {| ap_registry := ap_registry a; ap_jobs := s.1; ap_machine := s.2 |})); [done | | exact (ac_supervised _ _ T)].
    intros p Hp Hj. apply N in Hj. congruence. }
  destruct (stop_all_shared nobody stops (ap_registry a, s.2) S Kc) as ([l m] & E2 & _ & _ & R).
  exists {| ap_registry := l; ap_jobs := s.1; ap_machine := m |}. unfold supervising. cbn [ap_registry ap_machine a2]. rewrite E2.
  split; [done|]. intros pid. cbn [ap_machine]. destruct (running m pid) eqn:Q; [|done]. by apply R in Q.
Qed.


(** ** What [GET /status] says *)
Definition body_field (v : value) (name : str) : option value := match v with VDict d => dict_get d name | _ => None end.
Definition reported_pid (v : option value) : option value := v ≫= fun v => body_field v (lit "pid").

Lemma components_status_get log_file s n : body_field (components_status log_file s) n =
  (fun m => VDict (info n (log_file n) (m, s.2))) <$> find n s.1.
Proof.
  unfold components_status, body_field, as_dict. rewrite map_map. destruct s as [l m]. cbn [fst snd].
  induction l as [|[k v] l IH]; [done|]. cbn [map fst snd dict_get find]. destruct (str_eqb n k) eqn:E.
  - apply str_eqb_eq in E as ->. by rewrite str_eqb_refl.
  - assert (str_eqb k n = false) as -> by (apply str_eqb_neq; intros ->; by rewrite str_eqb_refl in E). exact IH.
Qed.

Lemma info_pid name log s : reported_pid (Some (VDict (info name log s))) =
  Some (match proc s.1 with Some pid => if running s.2 pid then VInt (Z.of_nat pid) else VNone | None => VNone end).
Proof. reflexivity. Qed.
(** What [active] answers: the job's description, if the job is running. *)
Lemma active_reports c a : accounted c a -> exists j d, replaying active a = ({| ap_registry := ap_registry a; ap_jobs := j; ap_machine := ap_machine a |}, Ok d) /\
  forall pid, reported_pid (Some (opt_dict d)) = Some (VInt (Z.of_nat pid)) <-> rm_proc (ap_jobs a) = Some pid /\ running (ap_machine a) pid = true.
Proof.
  intros [_ _ J]. unfold replaying, active. cbn [fst snd]. destruct (rm_proc (ap_jobs a)) as [p|] eqn:P.
  - destruct J as (d & D & G). destruct (running (ap_machine a) p) eqn:R; eexists _, _; (split; [reflexivity|]); intros pid.
    + rewrite D. change (reported_pid (Some (opt_dict (Some d)))) with (dict_get d (lit "pid")). rewrite G. split.
      * intros [= E%Nat2Z.inj]. by subst.
      * by intros [[= ->] _].
    + split; [done|]. intros [[= <-] Q]. congruence.
  - eexists _, _. split; [reflexivity|]. intros pid. rewrite J. split; [done | by intros [? _]].
Qed.

End Serving.

(** ** Concrete runs *)
Definition fleet : ControllerConfig := {|
  host := lit "127.0.0.1"; port := 8000; cfg_pcap_dir := None; max_replay_packets := 5000; components := [(lit "a", sample_component)] |}.
Definition up : App := (controller_startup (lit "python") fleet (fun _ => easy_start) (assembled fleet)).1.
(** A component and a replay job run. *)
Definition busy : App := (replaying (replay same_path (fun _ => true) (lit "python") [lit "data"] (lit "replay.log") fleet sample_request None None) up).1.
Definition gone : StopFaults := {| st_term := None; st_kill := Some (-9) |}.

Lemma busy_reached : reached (lit "python") fleet same_path (fun _ => true) [lit "data"] (lit "replay.log") (fun _ => easy_start) busy.
Proof. exists up. split; [reflexivity|]. apply rtc_once. exact (ServeReplay (lit "python") fleet same_path (fun _ => true) [lit "data"] (lit "replay.log") sample_request None None up). Qed.


Definition quiet_world : World := {| w_log := []; w_out := []; w_disk := empty_disk; w_sinks := []; w_shared := None; w_ready := false |}.
Definition quiet_env : PqcEnv := {| pe_mode := None; pe_node_id := []; pe_key_id := []; pe_private_key := []; pe_backend := [] |}.


(** An autostarted component that makes [start] raise: the start-up fails before the [try] of
    [lifespan], and the components started before it run on. *)
Definition doomed : ControllerConfig := {|
  host := lit "127.0.0.1"; port := 8000; cfg_pcap_dir := None; max_replay_packets := 5000;
  components := [(lit "a", sample_component); (lit "x", nul_component)] |}.
Example orphaned_by_startup :
  let '(a, r) := lifespan (lit "python") doomed (fun _ => easy_start) (mret tt) gone (fun _ => gone) (assembled doomed) in
  r = Err (ValueError "embedded null byte") /\ running (ap_machine a) 0 = true.
Proof. vm_compute. by split. Qed.

Definition bare_paths : PathEnv := {| pe_runtime_dir := None; pe_event_log := None; pe_pcap_dir := None |}.
(** Relative capture directories lie below the root. *)
Example approved_directories :
  map (fun d => approved_directory [lit "w"] (fun s => Ok (parts s)) Ok (fun s => Ok s) bare_paths [lit "r"]
    {| host := []; port := 1; cfg_pcap_dir := d; max_replay_packets := 1; components := [] |})
    [Some (lit "caps"); Some (lit "/srv/caps"); Some []; None] =
  [Ok [lit "r"; lit "caps"]; Ok [lit "srv"; lit "caps"]; Ok [lit "w"; lit "data"; lit "pcaps"]; Ok [lit "w"; lit "data"; lit "pcaps"]].
Proof. reflexivity. Qed.

(** What [create_app] makes is the application served above. *)
Lemma create_app_assembled cwd absolute resolve expanduser env file config publisher root an :
  create_app cwd absolute resolve expanduser env file config publisher root = Ok an ->
  an_app an = assembled (an_config an) /\ an_config an = default default_config config /\
  approved_directory cwd absolute resolve expanduser env (an_root an) (an_config an) = Ok (an_approved_dir an).
Proof.
  unfold create_app. intros (? & _ & H)%bind_ok. apply bind_ok in H as (r & _ & H). apply bind_ok in H as (r' & _ & H).
  apply bind_ok in H as (d & E & [= <-]). done.
Qed.
